(** * Antigravity2Api: the protocol transcoder, embedded and verified

    A shallow embedding of the JavaScript sources of the transcoder:
    - [Js]                JSON values and the JavaScript operations on them
    - [SchemaSanitizer]   cleanJsonSchema / uppercaseSchemaTypes
                          (ClaudeRequestUtils.js, the revision with [options],
                          and in [RequestUtils] the one-argument revision)
    - [ResponseOut]       StreamingState, PartProcessor, NonStreamingProcessor
                          (ClaudeTransformer.js)
    - [JsText]            the string methods the sources call
    - [ApiMcp]            hasMcpSwitchSignal, foldSegments and the folding
                          step of prepareMcpContext (claudeApiMcp.js)
    - [ClaudeApi]         handleMessages (claudeApi.js) and
                          bufferForMcpSwitchAndMaybeRetry (claudeApiMcp.js)
    - [McpXmlBridge]      createMcpXmlStreamParser, tryParseMcpToolCallXml,
                          buildMcpToolCallXml (mcpXmlBridge.js)
    - [McpRouting]        prepareMcpContext, updateSessionAfterResponse and
                          the functions they call (claudeApiMcp.js)
    - [RequestIn]         the loop over the messages of
                          transformClaudeRequestIn (ClaudeRequestIn.js) and
                          the body of the retry with the substitute model
    - [ToolResultContent] extractInlineDataPartsFromClaudeToolResultContent
                          (ClaudeRequestUtils.js)
    - [StreamingOut]      handleStreamingResponse, processSSELine
                          (ClaudeTransformer.js)

    Conventions.  A JavaScript object is an association list in the order of
    [Object.entries]; an assignment [o[k] = v] is [obj_set].  The prototype
    chain is left out of the model except where the source consults it
    ([key in validationFields]).  A [TypeError] raised by the source is the
    result [None].  Library calls whose result the sources only pass along
    ([JSON.parse], [JSON.stringify], [String.prototype.toUpperCase] and
    [toLowerCase], the text codecs, the random id generators) are parameters
    of the sections that use them. *)

From Stdlib Require Import ZArith List String Ascii Bool Lia DecimalString.
From stdpp Require Import base option list strings gmap.

Set Warnings "-register-all".
Local Open Scope string_scope.
Local Open Scope list_scope.

(** Comparisons of string constants are decided by computation and left
    alone by [simpl] otherwise. *)
Arguments String.eqb : simpl never.

Ltac eqb_consts :=
  repeat match goal with
  | |- context [String.eqb ?a ?b] =>
      let r := eval vm_compute in (String.eqb a b) in
      match r with
      | true => change (String.eqb a b) with true
      | false => change (String.eqb a b) with false
      end
  end.

Ltac eqb_consts_in H :=
  repeat match type of H with
  | context [String.eqb ?a ?b] =>
      let r := eval vm_compute in (String.eqb a b) in
      match r with
      | true => change (String.eqb a b) with true in H
      | false => change (String.eqb a b) with false in H
      end
  end.

(** ** JSON values and the JavaScript operations the sources apply to them *)

Module Js.

Inductive Json : Type :=
| JNull
| JBool (b : bool)
| JNum (n : Z)
| JStr (s : string)
| JArr (items : list Json)
| JObj (fields : list (string * Json)).

(** Induction over the nesting of arrays and objects. *)
Fixpoint Json_nested_ind (P : Json -> Prop)
    (Hnull : P JNull) (Hbool : forall b, P (JBool b))
    (Hnum : forall n, P (JNum n)) (Hstr : forall s, P (JStr s))
    (Harr : forall items, Forall P items -> P (JArr items))
    (Hobj : forall fields, Forall (fun kv => P (snd kv)) fields -> P (JObj fields))
    (j : Json) {struct j} : P j :=
  match j with
  | JNull => Hnull
  | JBool b => Hbool b
  | JNum n => Hnum n
  | JStr s => Hstr s
  | JArr items =>
      Harr items
        ((fix go (l : list Json) : Forall P l :=
            match l with
            | [] => @List.Forall_nil _ P
            | x :: r =>
                @List.Forall_cons _ P x r
                  (Json_nested_ind P Hnull Hbool Hnum Hstr Harr Hobj x) (go r)
            end) items)
  | JObj fields =>
      Hobj fields
        ((fix go (l : list (string * Json)) : Forall (fun kv => P (snd kv)) l :=
            match l with
            | [] => @List.Forall_nil _ _
            | kv :: r =>
                @List.Forall_cons _ (fun kv => P (snd kv)) kv r
                  (Json_nested_ind P Hnull Hbool Hnum Hstr Harr Hobj (snd kv)) (go r)
            end) fields)
  end.

(** [!!v]: JavaScript truthiness. *)
Definition truthy (j : Json) : bool :=
  match j with
  | JNull => false
  | JBool b => b
  | JNum n => negb (n =? 0)%Z
  | JStr s => negb (String.eqb s "")
  | JArr _ | JObj _ => true
  end.

(** [typeof v === "object" && v !== null]. *)
Definition isObjectLike (j : Json) : bool :=
  match j with JArr _ | JObj _ => true | _ => false end.

(** [Array.isArray(v)]. *)
Definition isArray (j : Json) : bool :=
  match j with JArr _ => true | _ => false end.

(** [o[k]] for an own property. *)
Fixpoint obj_get (k : string) (kvs : list (string * Json)) : option Json :=
  match kvs with
  | [] => None
  | (k', v) :: r => if String.eqb k k' then Some v else obj_get k r
  end.

(** [o[k] = v]: an existing key keeps its place, a new key goes last. *)
Fixpoint obj_set (k : string) (v : Json) (kvs : list (string * Json))
  : list (string * Json) :=
  match kvs with
  | [] => [(k, v)]
  | (k', v') :: r =>
      if String.eqb k k' then (k, v) :: r else (k', v') :: obj_set k v r
  end.

(** [v.k] on any value: arrays and primitives have no such own property. *)
Definition prop (k : string) (j : Json) : option Json :=
  match j with JObj kvs => obj_get k kvs | _ => None end.

(** SameValueZero, as [Set] compares its members: primitives by value; two
    objects or arrays met by the sanitizer are never the same reference. *)
Definition sameValueZero (a b : Json) : bool :=
  match a, b with
  | JNull, JNull => true
  | JBool x, JBool y => Bool.eqb x y
  | JNum x, JNum y => (x =? y)%Z
  | JStr x, JStr y => String.eqb x y
  | _, _ => false
  end.

(** [Array.from(new Set(l))]: first occurrences, in order. *)
Fixpoint setFrom (seen l : list Json) : list Json :=
  match l with
  | [] => []
  | x :: r =>
      if existsb (sameValueZero x) seen then setFrom seen r
      else x :: setFrom (x :: seen) r
  end.

Definition arrayFromSet (l : list Json) : list Json := setFrom [] l.

(** [l.join(sep)] on strings. *)
Fixpoint join (sep : string) (l : list string) : string :=
  match l with
  | [] => ""
  | [x] => x
  | x :: r => x +:+ sep +:+ join sep r
  end.

(** The characters of a string, as [new Set(s)] iterates them. *)
Fixpoint chars (s : string) : list Json :=
  match s with
  | EmptyString => []
  | String c r => JStr (String c EmptyString) :: chars r
  end.

(** Equality of two trees up to the order of the keys of their objects. *)
Inductive sameUpToKeyOrder : Json -> Json -> Prop :=
| same_null : sameUpToKeyOrder JNull JNull
| same_bool b : sameUpToKeyOrder (JBool b) (JBool b)
| same_num n : sameUpToKeyOrder (JNum n) (JNum n)
| same_str s : sameUpToKeyOrder (JStr s) (JStr s)
| same_arr l1 l2 :
    Forall2 sameUpToKeyOrder l1 l2 -> sameUpToKeyOrder (JArr l1) (JArr l2)
| same_obj f1 f2 :
    (forall k, option_Forall2 sameUpToKeyOrder (obj_get k f1) (obj_get k f2)) ->
    sameUpToKeyOrder (JObj f1) (JObj f2).

End Js.

Export Js.

(** ** The schema sanitizer: [cleanJsonSchema] with its [options] argument
    and [uppercaseSchemaTypes] (src/unnamed/part_002, the revision of
    ClaudeRequestUtils.js the request transcoder calls), and the one-argument
    [cleanJsonSchema] of src/transform/claude/ClaudeRequestUtils.js *)

Module SchemaSanitizer.

(** [options.uppercaseTypes]: absent, [true] or [false]. *)
Record Options : Type := { uppercaseTypes : option bool }.

Definition validationFields : list string :=
  [ "minLength"; "maxLength"; "minimum"; "maximum";
    "exclusiveMinimum"; "exclusiveMaximum"; "minItems"; "maxItems" ].

Definition removeKeys : list string :=
  [ "$schema"; "additionalProperties"; "default"; "uniqueItems";
    "propertyNames"; "patternProperties"; "unevaluatedProperties" ].

Definition combinators : list string := [ "anyOf"; "oneOf"; "allOf" ].

(** The names every plain object inherits: [key in validationFields] is true
    of them as well, because [in] follows the prototype chain. *)
Definition objectPrototypeKeys : list string :=
  [ "constructor"; "hasOwnProperty"; "isPrototypeOf"; "propertyIsEnumerable";
    "toLocaleString"; "toString"; "valueOf"; "__proto__";
    "__defineGetter__"; "__defineSetter__"; "__lookupGetter__"; "__lookupSetter__" ].

Definition inList (k : string) (l : list string) : bool := existsb (String.eqb k) l.

(** [key in validationFields]. *)
Definition inValidationFields (key : string) : bool :=
  inList key validationFields || inList key objectPrototypeKeys.

(** [o[key] = v] on a plain object: the key [__proto__] reaches the prototype
    setter and creates no own property. *)
Definition assign (key : string) (v : Json) (o : list (string * Json))
  : list (string * Json) :=
  if String.eqb key "__proto__" then o else obj_set key v o.

(** [inferType]. *)
Definition inferType (val : Json) : string :=
  match val with
  | JNull => "null"
  | JArr _ => "array"
  | JBool _ => "boolean"
  | JNum _ => "number"
  | JStr _ => "string"
  | JObj _ => "object"
  end.

(** [isSimpleEnum]. *)
Definition isSimpleEnum (s : Json) : bool :=
  match s with
  | JObj kvs =>
      match obj_get "enum" kvs with
      | Some (JArr _) =>
          forallb (fun kv => String.eqb (fst kv) "enum" || String.eqb (fst kv) "type") kvs
      | _ => false
      end
  | _ => false
  end.

(** The accumulators of one call: the object [cleaned] and [constValue]. *)
Record Acc : Type := { cleaned : list (string * Json); constValue : option Json }.

Definition setCleaned (key : string) (v : Json) (a : Acc) : Acc :=
  {| cleaned := assign key v (cleaned a); constValue := constValue a |}.

(** [filtered[0] || value[0] || "string"] for [type: value]. *)
Definition unionType (value : list Json) : Json :=
  let filtered :=
    List.filter (fun v => negb (sameValueZero v (JStr "null"))) value in
  match head filtered with
  | Some x =>
      if truthy x then x
      else match head value with
           | Some y => if truthy y then y else JStr "string"
           | None => JStr "string"
           end
  | None =>
      match head value with
      | Some y => if truthy y then y else JStr "string"
      | None => JStr "string"
      end
  end.

Section Sanitizer.

(** [String.prototype.toUpperCase]. *)
Variable toUpperCase : string -> string.
(** [String(v)], as a template literal converts its holes. *)
Variable js_String : Json -> string.
(** [v > 1] with JavaScript's conversions; asked only of the own [length]
    of an [enum] that is an object. *)
Variable js_gt_one : Json -> bool.

Definition upperItem (item : Json) : Json :=
  match item with JStr s => JStr (toUpperCase s) | _ => item end.

(** The body of [for (const [key, value] of Object.entries(schema))] in
    [uppercaseSchemaTypes]. *)
Definition upperEntries (rec : Json -> Json)
  : list (string * Json) -> list (string * Json) -> list (string * Json) :=
  fix loop (kvs normalized : list (string * Json)) {struct kvs} :=
    match kvs with
    | [] => normalized
    | (key, value) :: rest =>
        loop rest
          (assign key
             (if String.eqb key "type" then
                match value with
                | JStr s => JStr (toUpperCase s)
                | JArr items => JArr (map upperItem items)
                | _ => value
                end
              else if isObjectLike value then rec value
              else value)
             normalized)
    end.

Fixpoint uppercaseSchemaTypes (schema : Json) : Json :=
  match schema with
  | JArr items => JArr (map uppercaseSchemaTypes items)
  | JObj fields => JObj (upperEntries uppercaseSchemaTypes fields [])
  | _ => schema
  end.

(** The [validations] list of a node. *)
Definition validationsOf (schema : list (string * Json)) : list string :=
  omap (fun field =>
          match obj_get field schema with
          | Some v => Some (field +:+ ": " +:+ js_String v)
          | None => None
          end) validationFields.

(** The body of [for (const [propName, propSchema] of Object.entries(value))]. *)
Definition cleanProperties (rec : Json -> option Json)
  : list (string * Json) -> list (string * Json) -> option (list (string * Json)) :=
  fix loop (props cleanedProperties : list (string * Json)) {struct props} :=
    match props with
    | [] => Some cleanedProperties
    | (propName, propSchema) :: rest =>
        v ← (if isObjectLike propSchema then rec propSchema else Some propSchema);
        loop rest (assign propName v cleanedProperties)
    end.

(** The flattening of [anyOf]/[oneOf] whose branches are all plain enums. *)
Definition branchTypes (cleanedList : list Json) : list Json :=
  arrayFromSet (List.filter truthy (omap (prop "type") cleanedList)).

Definition mergedEnum (cleanedList : list Json) : list Json :=
  flat_map (fun s => match prop "enum" s with Some (JArr e) => e | _ => [] end)
    cleanedList.

(** One turn of [for (const [key, value] of Object.entries(schema))]. *)
Definition cleanEntry (rec : Json -> option Json) (validations : list string)
    (key : string) (value : Json) (a : Acc) : option Acc :=
  if inList key combinators then
    match value with
    | JArr items =>
        cleanedList ← mapM rec items;
        if (String.eqb key "anyOf" || String.eqb key "oneOf")
           && negb (Nat.eqb (length cleanedList) 0)
           && forallb isSimpleEnum cleanedList
           && (length (branchTypes cleanedList) <=? 1)%nat
        then
          let a1 := setCleaned "enum" (JArr (arrayFromSet (mergedEnum cleanedList))) a in
          match branchTypes cleanedList with
          | [t] => Some (setCleaned "type" t a1)
          | _ => Some a1
          end
        else Some (setCleaned key (JArr cleanedList) a)
    | _ => Some (setCleaned key value a)
    end
  else if String.eqb key "const" then
    Some {| cleaned := cleaned a; constValue := Some value |}
  else if inList key removeKeys || inValidationFields key then Some a
  else
    let plain :=
      if String.eqb key "description" && negb (Nat.eqb (length validations) 0)
      then Some (setCleaned key
                   (JStr (js_String value +:+ " (" +:+ join ", " validations +:+ ")")) a)
      else if isObjectLike value then
        v ← rec value; Some (setCleaned key v a)
      else Some (setCleaned key value a) in
    match value with
    | JObj props =>
        if String.eqb key "properties" then
          cleanedProperties ← cleanProperties rec props [];
          Some (setCleaned "properties" (JObj cleanedProperties) a)
        else plain
    | JArr items =>
        if String.eqb key "type" then
          let a1 := setCleaned "type" (unionType items) a in
          if existsb (sameValueZero (JStr "null")) items
          then Some (setCleaned "nullable" (JBool true) a1)
          else Some a1
        else plain
    | _ => plain
    end.

(** [if (constValue !== undefined) { ... }]. *)
Definition applyConst (a : Acc) : option (list (string * Json)) :=
  match constValue a with
  | None => Some (cleaned a)
  | Some c =>
      let withEnum :=
        match obj_get "enum" (cleaned a) with
        | Some e => if truthy e then cleaned a else assign "enum" (JArr []) (cleaned a)
        | None => assign "enum" (JArr []) (cleaned a)
        end in
      match obj_get "enum" withEnum with
      | Some (JArr l) =>
          let pushed := assign "enum" (JArr (l ++ [c])) withEnum in
          match obj_get "type" pushed with
          | Some t =>
              if truthy t then Some pushed
              else Some (assign "type" (JStr (inferType c)) pushed)
          | None => Some (assign "type" (JStr (inferType c)) pushed)
          end
      | _ => None
      end
  end.

(** [if (cleaned.enum && cleaned.enum.length > 1) cleaned.enum = Array.from(new Set(cleaned.enum))]. *)
Definition dedupeEnum (c : list (string * Json)) : option (list (string * Json)) :=
  match obj_get "enum" c with
  | Some (JArr l) =>
      if (1 <? length l)%nat then Some (assign "enum" (JArr (arrayFromSet l)) c)
      else Some c
  | Some (JStr s) =>
      if (1 <? String.length s)%nat
      then Some (assign "enum" (JArr (arrayFromSet (chars s))) c)
      else Some c
  | Some (JObj kvs) =>
      match obj_get "length" kvs with
      | Some n => if js_gt_one n then None else Some c
      | None => Some c
      end
  | _ => Some c
  end.

(** [if (validations.length > 0 && !cleaned.description) ...]. *)
Definition addValidationNote (validations : list string) (c : list (string * Json))
  : list (string * Json) :=
  if Nat.eqb (length validations) 0 then c
  else
    match obj_get "description" c with
    | Some d =>
        if truthy d then c
        else assign "description" (JStr ("Validation: " +:+ join ", " validations)) c
    | None => assign "description" (JStr ("Validation: " +:+ join ", " validations)) c
    end.

Definition wantsUppercase (options : Options) : bool :=
  match uppercaseTypes options with Some false => false | _ => true end.

(** [for (const [key, value] of Object.entries(schema))]. *)
Definition cleanEntries (rec : Json -> option Json) (validations : list string)
  : list (string * Json) -> Acc -> option Acc :=
  fix loop (kvs : list (string * Json)) (a : Acc) {struct kvs} : option Acc :=
    match kvs with
    | [] => Some a
    | (key, value) :: rest =>
        a' ← cleanEntry rec validations key value a;
        loop rest a'
    end.

Fixpoint cleanJsonSchema (options : Options) (schema : Json) {struct schema}
  : option Json :=
  match schema with
  | JArr items => JArr <$> mapM (cleanJsonSchema options) items
  | JObj fields =>
      let validations := validationsOf fields in
      a ← cleanEntries (cleanJsonSchema options) validations fields
             {| cleaned := []; constValue := None |};
      c1 ← applyConst a;
      c2 ← dedupeEnum c1;
      let c3 := addValidationNote validations c2 in
      Some (if wantsUppercase options then uppercaseSchemaTypes (JObj c3) else JObj c3)
  | _ => Some schema
  end.

(** *** Trees the sanitizer has nothing left to do on *)

(** The keys of an object as [JSON.parse] builds it, [__proto__] apart. *)
Definition keysOk (fields : list (string * Json)) : bool :=
  bool_decide (NoDup (map fst fields)) && negb (inList "__proto__" (map fst fields)).

Definition casedToken (item : Json) : bool :=
  match item with JStr s => String.eqb (toUpperCase s) s | _ => true end.

Definition casedValue (rec : Json -> bool) (key : string) (value : Json) : bool :=
  if String.eqb key "type" then
    match value with
    | JArr items => forallb casedToken items
    | _ => casedToken value
    end
  else if isObjectLike value then rec value
  else true.

(** Every type token the casing pass would reach is in upper case already. *)
Fixpoint cased (schema : Json) : bool :=
  match schema with
  | JArr items => forallb cased items
  | JObj fields =>
      keysOk fields && forallb (fun kv => casedValue cased (fst kv) (snd kv)) fields
  | _ => true
  end.

(** No [const], no removed keyword, no validation keyword, anywhere. *)
Fixpoint keywordFree (schema : Json) : bool :=
  match schema with
  | JArr items => forallb keywordFree items
  | JObj fields =>
      forallb (fun kv =>
                 negb (String.eqb (fst kv) "const")
                 && negb (inList (fst kv) removeKeys)
                 && negb (inList (fst kv) validationFields)
                 && keywordFree (snd kv)) fields
  | _ => true
  end.

(** [anyOf]/[oneOf] branches the sanitizer would merge into one [enum]. *)
Definition flattenable (key : string) (branches : list Json) : bool :=
  (String.eqb key "anyOf" || String.eqb key "oneOf")
  && negb (Nat.eqb (length branches) 0)
  && forallb isSimpleEnum branches
  && (length (branchTypes branches) <=? 1)%nat.

Definition noRepeats (l : list Json) : bool :=
  Nat.eqb (length (arrayFromSet l)) (length l).

Definition stableEntry (rec : Json -> bool) (key : string) (value : Json) : bool :=
  if inList key combinators then
    match value with
    | JArr items => forallb rec items && negb (flattenable key items)
    | _ => true
    end
  else if String.eqb key "const" then false
  else if inList key removeKeys || inValidationFields key then false
  else
    match value with
    | JObj props =>
        if String.eqb key "properties" then
          keysOk props
          && forallb (fun kv => if isObjectLike (snd kv) then rec (snd kv) else true) props
        else rec value
    | JArr items => if String.eqb key "type" then false else rec value
    | _ => true
    end.

Definition stableEnum (fields : list (string * Json)) : bool :=
  match obj_get "enum" fields with
  | Some (JArr l) => noRepeats l
  | Some (JStr s) => (String.length s <=? 1)%nat
  | Some (JObj kvs) =>
      match obj_get "length" kvs with Some n => negb (js_gt_one n) | None => true end
  | _ => true
  end.

(** A tree on which every step of [cleanJsonSchema] is the identity:
    unique keys, no keyword the sanitizer removes or rewrites, single-token
    types in the output casing, duplicate-free enums, and no union of plain
    enums left to merge. *)
Fixpoint stable (upper : bool) (schema : Json) : bool :=
  match schema with
  | JArr items => forallb (stable upper) items
  | JObj fields =>
      keysOk fields
      && (if upper then cased (JObj fields) else true)
      && forallb (fun kv => stableEntry (stable upper) (fst kv) (snd kv)) fields
      && stableEnum fields
  | _ => true
  end.

(** *** Own-property lookups after assignments *)

Lemma obj_get_obj_set_eq k v o : obj_get k (obj_set k v o) = Some v.
Proof.
  induction o as [|[k' v'] r IH]; simpl.
  - by rewrite String.eqb_refl.
  - destruct (String.eqb k k') eqn:E; simpl; rewrite ?String.eqb_refl, ?E; auto.
Qed.

Lemma obj_get_obj_set_ne k k' v o : k <> k' -> obj_get k (obj_set k' v o) = obj_get k o.
Proof.
  intros Hne. induction o as [|[k2 v2] r IH]; simpl.
  - destruct (String.eqb k k') eqn:E; [apply String.eqb_eq in E; congruence | done].
  - destruct (String.eqb k' k2) eqn:E; simpl.
    + apply String.eqb_eq in E; subst k2.
      destruct (String.eqb k k') eqn:E2; [apply String.eqb_eq in E2; congruence | done].
    + destruct (String.eqb k k2); auto.
Qed.

Lemma obj_get_assign_ne k k' v o : k <> k' -> obj_get k (assign k' v o) = obj_get k o.
Proof.
  intros Hne. unfold assign. destruct (String.eqb k' "__proto__"); [done|].
  by apply obj_get_obj_set_ne.
Qed.

Lemma obj_get_assign_eq k v o : k <> "__proto__" -> obj_get k (assign k v o) = Some v.
Proof.
  intros Hne. unfold assign.
  destruct (String.eqb k "__proto__") eqn:E; [apply String.eqb_eq in E; congruence|].
  apply obj_get_obj_set_eq.
Qed.

Lemma obj_get_None_notin k (o : list (string * Json)) :
  obj_get k o = None <-> ~ In k (map fst o).
Proof.
  induction o as [|[k' v'] r IH]; simpl; [tauto|].
  destruct (String.eqb k k') eqn:E.
  - apply String.eqb_eq in E. subst. split; [discriminate | tauto].
  - apply String.eqb_neq in E. rewrite IH. split; [intros H [?|?]; congruence || tauto | tauto].
Qed.

Lemma obj_get_In k v (o : list (string * Json)) : obj_get k o = Some v -> In (k, v) o.
Proof.
  induction o as [|[k' v'] r IH]; simpl; [discriminate|].
  destruct (String.eqb k k') eqn:E.
  - apply String.eqb_eq in E. intros [= ->]. subst. by left.
  - intros H. right. auto.
Qed.


(** *** Which keys of [cleaned] one turn of the loop can write *)

Lemma cleanEntry_frame rec validations key value a a' k :
  cleanEntry rec validations key value a = Some a' ->
  k <> key -> key <> "type" -> key <> "anyOf" -> key <> "oneOf" ->
  obj_get k (cleaned a') = obj_get k (cleaned a).
Proof.
  intros H Hk Ht Ha Ho. unfold cleanEntry in H.
  apply String.eqb_neq in Ht, Ha, Ho.
  assert (Hset : forall v, obj_get k (cleaned (setCleaned key v a)) = obj_get k (cleaned a))
    by (intros v; simpl; by apply obj_get_assign_ne).
  destruct (inList key combinators).
  { destruct value as [| | | |items|fields]; simplify_eq; try apply Hset.
    destruct (mapM rec items) as [cleanedList|]; simpl in H; [|done].
    rewrite Ha, Ho in H. simpl in H. simplify_eq. apply Hset. }
  destruct (String.eqb key "const"); [by simplify_eq|].
  destruct (inList key removeKeys || inValidationFields key); [by simplify_eq|].
  assert (Hplain :
    (if String.eqb key "description" && negb (Nat.eqb (length validations) 0)
     then Some (setCleaned key
                  (JStr (js_String value +:+ " (" +:+ join ", " validations +:+ ")")) a)
     else if isObjectLike value then v ← rec value; Some (setCleaned key v a)
     else Some (setCleaned key value a)) = Some a' ->
    obj_get k (cleaned a') = obj_get k (cleaned a)).
  { intros Hp.
    destruct (String.eqb key "description" && negb (Nat.eqb (length validations) 0));
      [simplify_eq; apply Hset|].
    destruct (isObjectLike value); [|simplify_eq; apply Hset].
    destruct (rec value); simpl in Hp; simplify_eq. apply Hset. }
  destruct value as [| | | |items|fields]; try (by apply Hplain).
  - rewrite Ht in H. by apply Hplain.
  - destruct (String.eqb key "properties") eqn:Ep; [|by apply Hplain].
    apply String.eqb_eq in Ep. subst key.
    destruct (cleanProperties rec fields []); simpl in H; simplify_eq. apply Hset.
Qed.

Lemma cleanEntries_frame rec validations kvs a a' k :
  cleanEntries rec validations kvs a = Some a' ->
  ~ In k (map fst kvs) -> ~ In "type" (map fst kvs) ->
  ~ In "anyOf" (map fst kvs) -> ~ In "oneOf" (map fst kvs) ->
  obj_get k (cleaned a') = obj_get k (cleaned a).
Proof.
  revert a. induction kvs as [|[key value] rest IH]; intros a H Hk Ht Ha Ho; simpl in *.
  - by simplify_eq.
  - destruct (cleanEntry rec validations key value a) as [a1|] eqn:E; simpl in H; [|done].
    rewrite (IH a1 H); [|tauto..].
    eapply cleanEntry_frame; eauto; intros ->; tauto.
Qed.

(** The turn for [type: [T, "null"]]. *)
Lemma cleanEntry_type_union rec validations T a :
  T <> "" ->
  exists a',
    cleanEntry rec validations "type" (JArr [JStr T; JStr "null"]) a = Some a'
    /\ obj_get "type" (cleaned a') = Some (JStr T)
    /\ obj_get "nullable" (cleaned a') = Some (JBool true).
Proof.
  intros HT. unfold cleanEntry, inList, inValidationFields, inList. simpl.
  eqb_consts. simpl. rewrite orb_true_r.
  eexists. split; [reflexivity|]. simpl.
  rewrite obj_get_assign_eq by done.
  rewrite obj_get_assign_ne by done. rewrite obj_get_assign_eq by done.
  split; [|done]. f_equal. unfold unionType. simpl.
  destruct (String.eqb T "null") eqn:E; simpl.
  - apply String.eqb_eq in E. by subst.
  - destruct (String.eqb T "") eqn:E2; [apply String.eqb_eq in E2; congruence|done].
Qed.

Lemma applyConst_frame a c k :
  applyConst a = Some c -> k <> "enum" ->
  (k = "type" -> exists t, obj_get "type" (cleaned a) = Some t /\ truthy t = true) ->
  obj_get k c = obj_get k (cleaned a).
Proof.
  intros H Hk Ht. unfold applyConst in H.
  destruct (constValue a) as [cv|]; [|by simplify_eq].
  set (withEnum := match obj_get "enum" (cleaned a) with
                   | Some e => if truthy e then cleaned a
                               else assign "enum" (JArr []) (cleaned a)
                   | None => assign "enum" (JArr []) (cleaned a)
                   end) in *.
  assert (Hw : obj_get k withEnum = obj_get k (cleaned a)).
  { subst withEnum. destruct (obj_get "enum" (cleaned a)) as [e|];
      [destruct (truthy e)|]; auto using obj_get_assign_ne. }
  destruct (obj_get "enum" withEnum) as [[| | | |l|]|]; try done.
  destruct (decide (k = "type")) as [->|Hne].
  - destruct (Ht eq_refl) as (t & Hg & Htr).
    rewrite obj_get_assign_ne, Hw, Hg in H by done. rewrite Htr in H.
    simplify_eq. by rewrite obj_get_assign_ne, Hw.
  - destruct (obj_get "type" (assign "enum" (JArr (l ++ [cv])) withEnum)) as [t|];
      [destruct (truthy t)|]; simplify_eq;
      rewrite ?(obj_get_assign_ne k "type") by done;
      by rewrite obj_get_assign_ne, Hw.
Qed.

Lemma dedupeEnum_frame c c' k :
  dedupeEnum c = Some c' -> k <> "enum" -> obj_get k c' = obj_get k c.
Proof.
  intros H Hk. unfold dedupeEnum in H.
  destruct (obj_get "enum" c) as [[| | |s|l|kvs]|]; simplify_eq; auto.
  - destruct (1 <? String.length s)%nat; simplify_eq; auto using obj_get_assign_ne.
  - destruct (1 <? length l)%nat; simplify_eq; auto using obj_get_assign_ne.
  - destruct (obj_get "length" kvs) as [n|]; [destruct (js_gt_one n)|]; by simplify_eq.
Qed.

Lemma addValidationNote_frame validations c k :
  k <> "description" -> obj_get k (addValidationNote validations c) = obj_get k c.
Proof.
  intros Hk. unfold addValidationNote.
  destruct (Nat.eqb (length validations) 0); [done|].
  destruct (obj_get "description" c) as [d|]; [destruct (truthy d)|];
    auto using obj_get_assign_ne.
Qed.


(** *** Keys stay unique *)

Lemma keys_obj_set k v (o : list (string * Json)) :
  map fst (obj_set k v o) =
  if decide (k ∈ map fst o) then map fst o else (map fst o ++ [k]).
Proof.
  induction o as [|[k' v'] r IH]; cbn [obj_set map fst].
  - destruct (decide (k ∈ [])) as [H|H]; [by apply elem_of_nil in H|done].
  - destruct (String.eqb k k') eqn:E; cbn [map fst].
    + apply String.eqb_eq in E. subst.
      destruct (decide (k' ∈ k' :: map fst r)) as [H|H]; [done|].
      exfalso. apply H. by left.
    + apply String.eqb_neq in E. rewrite IH.
      destruct (decide (k ∈ map fst r)) as [H1|H1];
        destruct (decide (k ∈ k' :: map fst r)) as [H2|H2]; try done.
      * exfalso. apply H2. by right.
      * apply elem_of_cons in H2 as [?|?]; congruence || tauto.
Qed.

Lemma NoDup_assign k v (o : list (string * Json)) :
  NoDup (map fst o) -> NoDup (map fst (assign k v o)).
Proof.
  intros H. unfold assign. destruct (String.eqb k "__proto__"); [done|].
  rewrite keys_obj_set. case_decide; [done|].
  apply NoDup_app. repeat split; [done| |apply NoDup_singleton].
  by intros x Hx ->%list_elem_of_singleton.
Qed.

Lemma cleanEntry_keys rec validations key value a a' :
  cleanEntry rec validations key value a = Some a' ->
  NoDup (map fst (cleaned a)) -> NoDup (map fst (cleaned a')).
Proof.
  intros H Hn. unfold cleanEntry in H.
  repeat match type of H with
  | Some _ = Some _ => injection H as <-; simpl; auto using NoDup_assign
  | None = Some _ => discriminate
  | (_ ≫= _) = Some _ =>
      let E := fresh "E" in
      apply bind_Some in H as (? & E & H)
  | (let _ := _ in _) = Some _ => cbv zeta in H
  | (match ?x with _ => _ end) = Some _ => destruct x
  end.
Qed.

Lemma cleanEntries_keys rec validations kvs a a' :
  cleanEntries rec validations kvs a = Some a' ->
  NoDup (map fst (cleaned a)) -> NoDup (map fst (cleaned a')).
Proof.
  revert a. induction kvs as [|[key value] rest IH]; intros a H Hn; simpl in H.
  - by simplify_eq.
  - apply bind_Some in H as (a1 & E & H). eauto using cleanEntry_keys.
Qed.

Lemma applyConst_keys a c :
  applyConst a = Some c -> NoDup (map fst (cleaned a)) -> NoDup (map fst c).
Proof.
  intros H Hn. unfold applyConst in H.
  destruct (constValue a) as [cv|]; [|by simplify_eq].
  set (withEnum := match obj_get "enum" (cleaned a) with
                   | Some e => if truthy e then cleaned a
                               else assign "enum" (JArr []) (cleaned a)
                   | None => assign "enum" (JArr []) (cleaned a)
                   end) in *.
  assert (Hw : NoDup (map fst withEnum)).
  { subst withEnum. destruct (obj_get "enum" (cleaned a)) as [e|];
      [destruct (truthy e)|]; auto using NoDup_assign. }
  destruct (obj_get "enum" withEnum) as [[| | | |l|]|]; try done.
  destruct (obj_get "type" (assign "enum" (JArr (l ++ [cv])) withEnum)) as [t|];
    [destruct (truthy t)|]; simplify_eq; auto using NoDup_assign.
Qed.

Lemma dedupeEnum_keys c c' :
  dedupeEnum c = Some c' -> NoDup (map fst c) -> NoDup (map fst c').
Proof.
  intros H Hn. unfold dedupeEnum in H.
  repeat match type of H with
  | Some _ = Some _ => injection H as <-; simpl; auto using NoDup_assign
  | None = Some _ => discriminate
  | (match ?x with _ => _ end) = Some _ => destruct x
  end.
Qed.

Lemma addValidationNote_keys validations c :
  NoDup (map fst c) -> NoDup (map fst (addValidationNote validations c)).
Proof.
  intros Hn. unfold addValidationNote.
  repeat match goal with
  | |- context [match ?x with _ => _ end] => destruct x
  end; auto using NoDup_assign.
Qed.

(** *** The casing pass, key by key *)

Definition upperValue (rec : Json -> Json) (key : string) (value : Json) : Json :=
  if String.eqb key "type" then
    match value with
    | JStr s => JStr (toUpperCase s)
    | JArr items => JArr (map upperItem items)
    | _ => value
    end
  else if isObjectLike value then rec value
  else value.

Lemma upperEntries_get rec kvs normalized k :
  NoDup (map fst kvs) -> k <> "__proto__" ->
  obj_get k (upperEntries rec kvs normalized) =
  match obj_get k kvs with
  | Some v => Some (upperValue rec k v)
  | None => obj_get k normalized
  end.
Proof.
  intros Hn Hk. revert normalized.
  induction kvs as [|[key value] rest IH]; intros normalized; simpl; [done|].
  apply NoDup_cons in Hn as [Hnotin Hn]. rewrite IH by done.
  destruct (String.eqb k key) eqn:E.
  - apply String.eqb_eq in E. subst key.
    assert (obj_get k rest = None) as ->.
    { apply obj_get_None_notin. by rewrite <- list_elem_of_In. }
    by rewrite obj_get_assign_eq.
  - apply String.eqb_neq in E.
    destruct (obj_get k rest); [done|]. by apply obj_get_assign_ne.
Qed.

Lemma cleanEntries_app rec validations l1 l2 a :
  cleanEntries rec validations (l1 ++ l2) a =
  cleanEntries rec validations l1 a ≫= cleanEntries rec validations l2.
Proof.
  revert a. induction l1 as [|[key value] rest IH]; intros a; simpl; [done|].
  destruct (cleanEntry rec validations key value a); simpl; auto.
Qed.

Lemma obj_get_split k v (o : list (string * Json)) :
  obj_get k o = Some v ->
  exists pre post, o = pre ++ (k, v) :: post /\ ~ In k (map fst pre).
Proof.
  induction o as [|[k' v'] r IH]; simpl; [discriminate|].
  destruct (String.eqb k k') eqn:E.
  - apply String.eqb_eq in E. intros [= ->]. subst. exists [], r. simpl. tauto.
  - apply String.eqb_neq in E. intros H.
    destruct (IH H) as (pre & post & -> & Hpre).
    exists ((k', v') :: pre), post. split; [done|]. simpl. intuition congruence.
Qed.


(** *** Nullable unions *)

(** C7 (amended).  By [cleanJsonSchema(schema, options)], a schema node
    whose [type] keyword is the union [[T, "null"]] (with [T] a type name, and
    the node carrying no [nullable], [anyOf] or [oneOf] keyword of its own
    that could overwrite the result) is cleaned to a node with [type: T] -- in
    upper case unless the caller passed [uppercaseTypes: false] -- and
    [nullable: true]: nullability is kept, not dropped. *)
Theorem nullable_union_keeps_flag options fields T out :
  NoDup (map fst fields) ->
  obj_get "type" fields = Some (JArr [JStr T; JStr "null"]) ->
  T <> "" ->
  obj_get "nullable" fields = None ->
  obj_get "anyOf" fields = None ->
  obj_get "oneOf" fields = None ->
  cleanJsonSchema options (JObj fields) = Some out ->
  prop "type" out = Some (JStr (if wantsUppercase options then toUpperCase T else T))
  /\ prop "nullable" out = Some (JBool true).
Proof.
  intros Hnd Htype HT Hnull Hany Hone Hrun.
  apply obj_get_None_notin in Hnull, Hany, Hone.
  destruct (obj_get_split _ _ _ Htype) as (pre & post & -> & Hpre).
  rewrite map_app in Hnd, Hnull, Hany, Hone. simpl in Hnd, Hnull, Hany, Hone.
  apply NoDup_app in Hnd as (_ & _ & Hnd). apply NoDup_cons in Hnd as [Htp _].
  rewrite list_elem_of_In in Htp.
  rewrite in_app_iff in Hnull, Hany, Hone. simpl in Hnull, Hany, Hone.
  cbn [cleanJsonSchema] in Hrun. cbv zeta in Hrun.
  set (rec := cleanJsonSchema options) in *.
  set (validations := validationsOf (pre ++ ("type", JArr [JStr T; JStr "null"]) :: post)) in *.
  apply bind_Some in Hrun as (a3 & Hloop & Hrun).
  apply bind_Some in Hrun as (c1 & Hconst & Hrun).
  apply bind_Some in Hrun as (c2 & Hdedupe & Hrun).
  rewrite cleanEntries_app in Hloop.
  apply bind_Some in Hloop as (a1 & Hpre1 & Hloop).
  cbn [cleanEntries] in Hloop.
  destruct (cleanEntry_type_union rec validations T a1 HT) as (a2 & E2 & Gt & Gn).
  rewrite E2 in Hloop. simpl in Hloop.
  assert (Gt3 : obj_get "type" (cleaned a3) = Some (JStr T)).
  { rewrite <- Gt. eapply cleanEntries_frame; eauto; tauto. }
  assert (Gn3 : obj_get "nullable" (cleaned a3) = Some (JBool true)).
  { rewrite <- Gn. eapply cleanEntries_frame; eauto; tauto. }
  assert (Gt1 : obj_get "type" c1 = Some (JStr T)).
  { rewrite <- Gt3. apply (applyConst_frame a3 c1 "type" Hconst); [done|].
    intros _. exists (JStr T). split; [done|]. simpl.
    destruct (String.eqb T "") eqn:E; [apply String.eqb_eq in E; congruence|done]. }
  assert (Gn1 : obj_get "nullable" c1 = Some (JBool true)).
  { rewrite <- Gn3. apply (applyConst_frame a3 c1 "nullable" Hconst); done. }
  assert (Gt2 : obj_get "type" (addValidationNote validations c2) = Some (JStr T)).
  { rewrite addValidationNote_frame by done. rewrite <- Gt1.
    eapply dedupeEnum_frame; eauto; done. }
  assert (Gn2 : obj_get "nullable" (addValidationNote validations c2) = Some (JBool true)).
  { rewrite addValidationNote_frame by done. rewrite <- Gn1.
    eapply dedupeEnum_frame; eauto; done. }
  assert (Hk : NoDup (map fst (addValidationNote validations c2))).
  { apply addValidationNote_keys. eapply dedupeEnum_keys; eauto.
    eapply applyConst_keys; eauto. eapply cleanEntries_keys; eauto.
    eapply cleanEntry_keys; eauto. eapply cleanEntries_keys; eauto.
    simpl. constructor. }
  destruct (wantsUppercase options); simplify_eq; [|by split].
  cbn [uppercaseSchemaTypes prop].
  rewrite !upperEntries_get by done. rewrite Gt2, Gn2. done.
Qed.


(** *** Idempotence on stable trees *)

Lemma obj_set_fresh k v (o : list (string * Json)) :
  k ∉ map fst o -> obj_set k v o = o ++ [(k, v)].
Proof.
  induction o as [|[k' v'] r IH]; simpl; [done|].
  intros H. apply not_elem_of_cons in H as [Hne Hr].
  apply String.eqb_neq in Hne. rewrite Hne. by rewrite IH.
Qed.

Lemma obj_set_same k v (o : list (string * Json)) :
  obj_get k o = Some v -> obj_set k v o = o.
Proof.
  induction o as [|[k' v'] r IH]; simpl; [done|].
  destruct (String.eqb k k') eqn:E.
  - apply String.eqb_eq in E. by intros [= ->]; subst.
  - intros H. by rewrite IH.
Qed.

Lemma keysOk_spec fields :
  keysOk fields = true <-> NoDup (map fst fields) /\ "__proto__" ∉ map fst fields.
Proof.
  unfold keysOk, inList. rewrite andb_true_iff, bool_decide_eq_true, negb_true_iff.
  split; intros [H1 H2]; split; try done.
  - intros Hin. apply list_elem_of_In in Hin.
    assert (existsb (String.eqb "__proto__") (map fst fields) = true); [|congruence].
    apply existsb_exists. exists "__proto__". split; [done|apply String.eqb_refl].
  - apply not_true_iff_false. intros (x & Hin & E)%existsb_exists.
    apply String.eqb_eq in E. subst x. by apply H2, list_elem_of_In.
Qed.

Lemma upperEntries_id rec kvs normalized :
  NoDup (map fst normalized ++ map fst kvs) ->
  "__proto__" ∉ map fst kvs ->
  Forall (fun kv => upperValue rec (fst kv) (snd kv) = snd kv) kvs ->
  upperEntries rec kvs normalized = normalized ++ kvs.
Proof.
  revert normalized. induction kvs as [|[key value] rest IH];
    intros normalized Hn Hp Hv; simpl.
  - by rewrite app_nil_r.
  - apply Forall_cons in Hv as [Hv1 Hv]. simpl in Hv1.
    simpl in Hp. apply not_elem_of_cons in Hp as [Hp1 Hp]. simpl in Hn.
    fold (upperValue rec key value). rewrite Hv1.
    assert (Hfresh : key ∉ map fst normalized).
    { apply NoDup_app in Hn as (_ & Hd & _). intros Hin. apply (Hd _ Hin). by left. }
    unfold assign.
    destruct (String.eqb key "__proto__") eqn:E; [apply String.eqb_eq in E; congruence|].
    rewrite obj_set_fresh by done. rewrite IH; [by rewrite <- app_assoc|..|done|done].
    rewrite map_app. simpl. by rewrite <- app_assoc.
Qed.

Lemma forallb_Forall_map {A} (f : A -> bool) (g : A -> A) (l : list A) :
  forallb f l = true -> (forall x, In x l -> f x = true -> g x = x) -> map g l = l.
Proof.
  induction l as [|x r IH]; simpl; [done|].
  intros [Hx Hr]%andb_true_iff Hg. rewrite Hg by auto. rewrite IH; auto.
Qed.

Lemma cased_fixed schema : cased schema = true -> uppercaseSchemaTypes schema = schema.
Proof.
  induction schema as [| | | |items IH|fields IH] using Json_nested_ind; try done.
  - simpl. intros H. f_equal. apply (forallb_Forall_map cased); [done|].
    intros x Hx Hc. rewrite Forall_forall in IH. apply IH; [|done].
    by apply list_elem_of_In.
  - cbn [cased uppercaseSchemaTypes].
    intros [[Hn Hp]%keysOk_spec Hc]%andb_true_iff. f_equal.
    apply (upperEntries_id _ _ []); [done|done|].
    rewrite Forall_forall in IH. apply Forall_forall. intros [key value] Hin.
    rewrite forallb_forall in Hc. specialize (Hc (key, value)).
    rewrite <- list_elem_of_In in Hc. specialize (Hc Hin). simpl in *.
    unfold casedValue in Hc. unfold upperValue.
    destruct (String.eqb key "type").
    + destruct value as [| | |s|items|kvs]; try done.
      * simpl in Hc. apply String.eqb_eq in Hc. by rewrite Hc.
      * f_equal. apply (forallb_Forall_map casedToken); [done|].
        intros [| | |s| |] _ Ht; try done. simpl in *.
        apply String.eqb_eq in Ht. by rewrite Ht.
    + destruct (isObjectLike value); [|done]. by apply (IH (key, value)).
Qed.

Lemma setFrom_length_le seen l : length (setFrom seen l) <= length l.
Proof.
  revert seen. induction l as [|x r IH]; intros seen; simpl; [done|].
  destruct (existsb (sameValueZero x) seen); simpl.
  - etrans; [apply IH|lia].
  - specialize (IH (x :: seen)). lia.
Qed.

Lemma setFrom_id seen l : length (setFrom seen l) = length l -> setFrom seen l = l.
Proof.
  revert seen. induction l as [|x r IH]; intros seen; simpl; [done|].
  destruct (existsb (sameValueZero x) seen); simpl.
  - pose proof (setFrom_length_le seen r). lia.
  - intros [= H]. by rewrite IH.
Qed.

Lemma assign_same k v (o : list (string * Json)) :
  obj_get k o = Some v -> assign k v o = o.
Proof. intros H. unfold assign. destruct (String.eqb k "__proto__"); auto using obj_set_same. Qed.

Lemma dedupeEnum_stable c : stableEnum c = true -> dedupeEnum c = Some c.
Proof.
  unfold stableEnum, dedupeEnum.
  destruct (obj_get "enum" c) as [[| | |s|l|kvs]|] eqn:E; try done.
  - intros H%Nat.leb_le. destruct (1 <? String.length s)%nat eqn:E1; [|done].
    apply Nat.ltb_lt in E1. lia.
  - intros H%Nat.eqb_eq. unfold arrayFromSet in *. rewrite (setFrom_id _ _ H).
    rewrite (assign_same _ _ _ E). by destruct (1 <? length l)%nat.
  - destruct (obj_get "length" kvs) as [n|]; [|done]. by intros ->%negb_true_iff.
Qed.

Lemma mapM_id {A} (f : A -> option A) (l : list A) :
  Forall (fun x => f x = Some x) l -> mapM f l = Some l.
Proof.
  induction 1 as [|x r Hx Hr IH]; [done|].
  cbn [mapM]. rewrite Hx. simpl. rewrite IH. done.
Qed.


Definition children (j : Json) : list Json :=
  match j with JArr items => items | JObj fields => map snd fields | _ => [] end.

Lemma cleanProperties_id rec props cleanedProperties :
  NoDup (map fst cleanedProperties ++ map fst props) ->
  "__proto__" ∉ map fst props ->
  Forall (fun kv => isObjectLike (snd kv) = true -> rec (snd kv) = Some (snd kv)) props ->
  cleanProperties rec props cleanedProperties = Some (cleanedProperties ++ props).
Proof.
  revert cleanedProperties. induction props as [|[propName propSchema] rest IH];
    intros acc Hn Hp Hv; simpl.
  - by rewrite app_nil_r.
  - apply Forall_cons in Hv as [Hv1 Hv]. simpl in Hv1, Hp, Hn.
    apply not_elem_of_cons in Hp as [Hp1 Hp].
    assert (Hfresh : propName ∉ map fst acc).
    { apply NoDup_app in Hn as (_ & Hd & _). intros Hin. apply (Hd _ Hin). by left. }
    assert ((if isObjectLike propSchema then rec propSchema else Some propSchema)
            = Some propSchema) as ->.
    { destruct (isObjectLike propSchema); auto. }
    simpl. unfold assign.
    destruct (String.eqb propName "__proto__") eqn:E;
      [apply String.eqb_eq in E; congruence|].
    rewrite obj_set_fresh by done. rewrite IH; [by rewrite <- app_assoc|..|done|done].
    rewrite map_app. simpl. by rewrite <- app_assoc.
Qed.

Lemma stableEntry_not_proto sb key value :
  stableEntry sb key value = true -> key <> "__proto__".
Proof.
  intros H ->. unfold stableEntry in H. by vm_compute in H.
Qed.

Lemma cleanEntry_stable rec sb key value a :
  stableEntry sb key value = true ->
  (forall j, (j = value \/ j ∈ children value) -> sb j = true -> rec j = Some j) ->
  key ∉ map fst (cleaned a) ->
  cleanEntry rec [] key value a =
  Some {| cleaned := cleaned a ++ [(key, value)]; constValue := constValue a |}.
Proof.
  intros Hs Hrec Hfresh.
  assert (Hset : setCleaned key value a =
                 {| cleaned := cleaned a ++ [(key, value)]; constValue := constValue a |}).
  { unfold setCleaned, assign.
    pose proof (stableEntry_not_proto _ _ _ Hs) as Hp.
    destruct (String.eqb key "__proto__") eqn:E; [apply String.eqb_eq in E; congruence|].
    by rewrite obj_set_fresh. }
  unfold stableEntry in Hs. unfold cleanEntry.
  destruct (inList key combinators).
  { destruct value as [| | | |items|fields]; try by rewrite Hset.
    apply andb_true_iff in Hs as [Hall Hflat].
    rewrite (mapM_id rec items).
    - simpl. apply negb_true_iff in Hflat. unfold flattenable in Hflat.
      rewrite Hflat. by rewrite Hset.
    - apply Forall_forall. intros x Hx. apply Hrec; [by right|].
      rewrite forallb_forall in Hall. by apply Hall, list_elem_of_In. }
  destruct (String.eqb key "const"); [done|].
  destruct (inList key removeKeys || inValidationFields key); [done|].
  simpl. rewrite !andb_false_r.
  destruct value as [| | | |items|fields]; simpl; try by rewrite Hset.
  - destruct (String.eqb key "type"); [done|].
    rewrite (Hrec (JArr items)); [|by left|done].
    simpl. by rewrite Hset.
  - destruct (String.eqb key "properties") eqn:Ep.
    + apply String.eqb_eq in Ep. subst key.
      apply andb_true_iff in Hs as [[Hn Hp]%keysOk_spec Hall].
      rewrite (cleanProperties_id rec fields []); [simpl; by rewrite Hset|done|done|].
      apply Forall_forall. intros [pn pv] Hin Hobj. simpl in *.
      rewrite forallb_forall in Hall. specialize (Hall (pn, pv)).
      rewrite <- list_elem_of_In in Hall. specialize (Hall Hin). simpl in Hall.
      rewrite Hobj in Hall. apply Hrec; [|done]. right.
      apply list_elem_of_fmap. by exists (pn, pv).
    + rewrite (Hrec (JObj fields)); [|by left|done].
      simpl. by rewrite Hset.
Qed.

Lemma cleanEntries_stable rec sb kvs a :
  Forall (fun kv => stableEntry sb (fst kv) (snd kv) = true) kvs ->
  Forall (fun kv => forall j, (j = snd kv \/ j ∈ children (snd kv)) ->
                              sb j = true -> rec j = Some j) kvs ->
  NoDup (map fst (cleaned a) ++ map fst kvs) ->
  cleanEntries rec [] kvs a =
  Some {| cleaned := cleaned a ++ kvs; constValue := constValue a |}.
Proof.
  revert a. induction kvs as [|[key value] rest IH]; intros a Hs Hrec Hn; simpl.
  - rewrite app_nil_r. by destruct a.
  - apply Forall_cons in Hs as [Hs1 Hs]. apply Forall_cons in Hrec as [Hrec1 Hrec].
    simpl in *.
    assert (Hfresh : key ∉ map fst (cleaned a)).
    { apply NoDup_app in Hn as (_ & Hd & _). intros Hin. apply (Hd _ Hin). by left. }
    rewrite (cleanEntry_stable rec sb key value a Hs1 Hrec1 Hfresh). simpl.
    rewrite IH; [simpl; by rewrite <- app_assoc|done|done|].
    simpl. rewrite map_app. simpl. by rewrite <- app_assoc.
Qed.

Lemma validationsOf_stable sb fields :
  Forall (fun kv => stableEntry sb (fst kv) (snd kv) = true) fields ->
  validationsOf fields = [].
Proof.
  intros Hs.
  assert (Hnone : forall f, In f validationFields -> obj_get f fields = None).
  { intros f Hf. destruct (obj_get f fields) as [v|] eqn:E; [|done].
    apply obj_get_In in E. rewrite Forall_forall in Hs.
    specialize (Hs (f, v)). rewrite <- list_elem_of_In in E. specialize (Hs E).
    simpl in Hs. exfalso. unfold stableEntry in Hs.
    simpl in Hf. repeat destruct Hf as [<-|Hf]; try done; by vm_compute in Hs. }
  unfold validationsOf, validationFields. simpl.
  rewrite !Hnone; [done|simpl; tauto..].
Qed.


Lemma stable_fixed_children options schema :
  (stable (wantsUppercase options) schema = true ->
   cleanJsonSchema options schema = Some schema)
  /\ Forall (fun c => stable (wantsUppercase options) c = true ->
                      cleanJsonSchema options c = Some c) (children schema).
Proof.
  induction schema as [| | | |items IH|fields IH] using Json_nested_ind;
    try (split; [done|constructor]).
  - assert (Hch : Forall (fun c => stable (wantsUppercase options) c = true ->
                                   cleanJsonSchema options c = Some c) items).
    { eapply Forall_impl; [exact IH|]. by intros c [Hc _]. }
    split; [|done]. cbn [stable cleanJsonSchema]. intros Hs.
    rewrite (mapM_id (cleanJsonSchema options) items); [done|].
    rewrite Forall_forall in Hch. apply Forall_forall. intros x Hx. apply Hch; [done|].
    rewrite forallb_forall in Hs. by apply Hs, list_elem_of_In.
  - split.
    2:{ simpl. apply Forall_fmap. eapply Forall_impl; [exact IH|]. by intros c [Hc _]. }
    cbn [stable cleanJsonSchema]. cbv zeta.
    intros [[[[Hn Hp]%keysOk_spec Hcased]%andb_true_iff Hent]%andb_true_iff Henum]%andb_true_iff.
    assert (Hent' : Forall (fun kv => stableEntry (stable (wantsUppercase options))
                                        (fst kv) (snd kv) = true) fields).
    { apply Forall_forall. intros kv Hin. rewrite forallb_forall in Hent.
      by apply Hent, list_elem_of_In. }
    rewrite (validationsOf_stable _ _ Hent').
    rewrite (cleanEntries_stable _ (stable (wantsUppercase options))); [|done| |done].
    2:{ eapply Forall_impl; [exact IH|]. intros kv [H1 H2] j [->|Hj] Hsj; [auto|].
        rewrite Forall_forall in H2. by apply H2. }
    simpl. rewrite (dedupeEnum_stable _ Henum). simpl.
    unfold addValidationNote. simpl.
    destruct (wantsUppercase options); [|done].
    change (JObj (upperEntries uppercaseSchemaTypes fields []))
      with (uppercaseSchemaTypes (JObj fields)).
    by rewrite (cased_fixed _ Hcased).
Qed.

(** C8, as amended.  On a stable tree -- unique keys; no [const], removed or
    validation keyword (nor a key every object inherits); every [type] a
    single token, in upper case when the casing pass runs; [enum] lists
    without a repeated primitive; no [anyOf]/[oneOf] made only of plain
    enums of at most one type -- [cleanJsonSchema] returns its input, key
    order included. *)
Theorem cleanJsonSchema_fixes_stable options schema :
  stable (wantsUppercase options) schema = true ->
  cleanJsonSchema options schema = Some schema.
Proof. apply stable_fixed_children. Qed.

(** *** No unsupported keyword is left *)

(** A key the loop of [cleanJsonSchema] may copy: not [const], not a removed
    keyword, not a validation keyword (nor a key every object inherits). *)
Definition keptKey (key : string) : bool :=
  negb (String.eqb key "const") && negb (inList key removeKeys)
  && negb (inValidationFields key).

(** Where the sanitizer has been: not in the value of [enum] or [type],
    which may hold a [const] value or a member of a [type] list as it came;
    not in a combinator that is no list, which is copied as it is; in the
    schemas of a [properties] map, but not in its names. *)
Definition sweptValue (rec : Json -> bool) (key : string) (value : Json) : bool :=
  if String.eqb key "enum" || String.eqb key "type" then true
  else if inList key combinators then
    match value with
    | JArr items => forallb rec items
    | _ => true
    end
  else
    match value with
    | JObj props =>
        if String.eqb key "properties" then forallb (fun kv => rec (snd kv)) props
        else rec value
    | _ => rec value
    end.

(** No schema node the sanitizer has been to has a key it does not copy. *)
Fixpoint swept (schema : Json) : bool :=
  match schema with
  | JArr items => forallb swept items
  | JObj fields =>
      forallb (fun kv => keptKey (fst kv) && sweptValue swept (fst kv) (snd kv)) fields
  | _ => true
  end.

Definition sweptEntry (kv : string * Json) : bool :=
  keptKey (fst kv) && sweptValue swept (fst kv) (snd kv).

Definition sweptSchema (kv : string * Json) : bool := swept (snd kv).

Lemma forallb_true_Forall {A} (f : A -> bool) (l : list A) :
  forallb f l = true <-> Forall (fun x => f x = true) l.
Proof.
  rewrite forallb_forall, Forall_forall. split; intros H x Hx; apply H.
  - by apply list_elem_of_In.
  - by apply list_elem_of_In.
Qed.

Lemma Forall_obj_set (Q : string * Json -> Prop) k v o :
  Q (k, v) -> Forall Q o -> Forall Q (obj_set k v o).
Proof.
  intros Hq. induction 1 as [|[k' v'] r Hx Hr IH]; cbn [obj_set].
  - by repeat constructor.
  - destruct (String.eqb k k'); constructor; done.
Qed.

Lemma Forall_assign (Q : string * Json -> Prop) k v o :
  Q (k, v) -> Forall Q o -> Forall Q (assign k v o).
Proof.
  intros Hq Ho. unfold assign. destruct (String.eqb k "__proto__"); [done|].
  by apply Forall_obj_set.
Qed.

Lemma upperEntries_Forall (Q : string * Json -> Prop) rec kvs : forall normalized,
  Forall (fun kv => Q kv -> Q (fst kv, upperValue rec (fst kv) (snd kv))) kvs ->
  Forall Q kvs -> Forall Q normalized ->
  Forall Q (upperEntries rec kvs normalized).
Proof.
  induction kvs as [|[key value] rest IH]; intros normalized Hstep Hkvs Hn; [done|].
  apply Forall_cons in Hstep as [Hstep1 Hstep]. apply Forall_cons in Hkvs as [Hk Hkvs].
  cbn [upperEntries]. apply IH; [done|done|].
  apply Forall_assign; [|done]. by apply Hstep1.
Qed.

Lemma swept_upperItem item : swept item = true -> swept (upperItem item) = true.
Proof. by destruct item. Qed.

(** The casing pass leaves a swept tree swept. *)
Lemma swept_uppercase schema :
  (swept schema = true -> swept (uppercaseSchemaTypes schema) = true)
  /\ match schema with
     | JObj props =>
         Forall (fun kv => sweptSchema kv = true) props ->
         Forall (fun kv => sweptSchema kv = true)
           (upperEntries uppercaseSchemaTypes props [])
     | _ => True
     end.
Proof.
  induction schema as [| | | |items IH|fields IH] using Json_nested_ind; try done.
  - split; [|done]. cbn [swept uppercaseSchemaTypes]. rewrite !forallb_true_Forall.
    intros H. apply Forall_fmap. rewrite Forall_forall in H, IH.
    apply Forall_forall. intros item Hin. apply (IH item Hin). by apply H.
  - split.
    + cbn [swept uppercaseSchemaTypes]. rewrite !forallb_true_Forall.
      intros H. apply (upperEntries_Forall (fun kv => sweptEntry kv = true));
        [|exact H|constructor].
      eapply Forall_impl; [exact IH|]. intros [key value] [Hfirst Hsecond].
      cbn [fst snd] in *. unfold sweptEntry. cbn [fst snd].
      intros [Hkey Hvalue]%andb_true_iff. rewrite Hkey. cbn [andb].
      unfold sweptValue, upperValue in *.
      destruct (String.eqb key "enum") eqn:Eenum; [done|].
      destruct (String.eqb key "type") eqn:Etype; [done|]. cbn [orb] in *.
      destruct (inList key combinators).
      * destruct value as [| | | |items|props]; try done.
        cbn [isObjectLike]. by apply Hfirst.
      * destruct value as [| | | |items|props]; try done.
        -- cbn [isObjectLike]. by apply Hfirst.
        -- cbn [isObjectLike uppercaseSchemaTypes].
           destruct (String.eqb key "properties").
           ++ rewrite forallb_true_Forall in Hvalue. apply forallb_true_Forall.
              by apply Hsecond.
           ++ by apply Hfirst.
    + intros H. apply (upperEntries_Forall (fun kv => sweptSchema kv = true));
        [|exact H|constructor].
      eapply Forall_impl; [exact IH|]. intros [key value] [Hfirst _].
      unfold sweptSchema. cbn [fst snd]. intros Hvalue. unfold upperValue.
      destruct (String.eqb key "type").
      * destruct value as [| | | |items|props]; try done.
        cbn [swept] in *. rewrite forallb_true_Forall in *.
        apply Forall_fmap. eapply Forall_impl; [exact Hvalue|].
        intros item. apply swept_upperItem.
      * destruct (isObjectLike value); [by apply Hfirst|done].
Qed.

Lemma setCleaned_swept key v a :
  sweptEntry (key, v) = true ->
  Forall (fun kv => sweptEntry kv = true) (cleaned a) ->
  Forall (fun kv => sweptEntry kv = true) (cleaned (setCleaned key v a)).
Proof. intros Hv Ha. cbn [setCleaned cleaned]. by apply Forall_assign. Qed.

Lemma cleanProperties_swept rec props : forall acc cp,
  Forall (fun kv => forall out, rec (snd kv) = Some out -> swept out = true) props ->
  Forall (fun kv => isObjectLike (snd kv) = false -> swept (snd kv) = true) props ->
  Forall (fun kv => sweptSchema kv = true) acc ->
  cleanProperties rec props acc = Some cp ->
  Forall (fun kv => sweptSchema kv = true) cp.
Proof.
  induction props as [|[propName propSchema] rest IH]; intros acc cp Hrec Hprim Hacc H.
  - cbn in H. by injection H as <-.
  - apply Forall_cons in Hrec as [Hrec1 Hrec]. apply Forall_cons in Hprim as [Hprim1 Hprim].
    cbn [cleanProperties] in H. cbn [fst snd] in *.
    destruct (isObjectLike propSchema) eqn:Eobj.
    + destruct (rec propSchema) as [v|] eqn:Ev; [|done]. cbn in H.
      eapply IH; [done|done| |exact H]. apply Forall_assign; [|done].
      unfold sweptSchema. cbn [snd]. by apply Hrec1.
    + cbn in H. eapply IH; [done|done| |exact H]. apply Forall_assign; [|done].
      unfold sweptSchema. cbn [snd]. by apply Hprim1.
Qed.

Lemma swept_primitive value : isObjectLike value = false -> swept value = true.
Proof. by destruct value. Qed.

(** One turn of the loop keeps [cleaned] swept. *)
Lemma cleanEntry_swept rec validations key value a a' :
  (forall out, rec value = Some out -> swept out = true) ->
  (forall items out, value = JArr items -> rec value = Some out -> isArray out = true) ->
  (forall items l, value = JArr items -> mapM rec items = Some l ->
                   forallb swept l = true) ->
  (forall props cp, value = JObj props -> cleanProperties rec props [] = Some cp ->
                    Forall (fun kv => sweptSchema kv = true) cp) ->
  Forall (fun kv => sweptEntry kv = true) (cleaned a) ->
  cleanEntry rec validations key value a = Some a' ->
  Forall (fun kv => sweptEntry kv = true) (cleaned a').
Proof.
  intros Hrec Harr Hitems Hprops Ha H. unfold cleanEntry in H.
  destruct (inList key combinators) eqn:Ecomb.
  { assert (Hkey : keptKey key = true /\ String.eqb key "enum" || String.eqb key "type" = false).
    { unfold inList, combinators in Ecomb. cbn [existsb] in Ecomb.
      rewrite orb_false_r in Ecomb.
      apply orb_true_iff in Ecomb as [E|Ecomb];
        [|apply orb_true_iff in Ecomb as [E|E]];
        apply String.eqb_eq in E; subst key; by vm_compute. }
    destruct Hkey as [Hkept Hne].
    destruct value as [| | | |items|props];
      try (injection H as <-; apply setCleaned_swept; [|done];
           unfold sweptEntry, sweptValue; cbn [fst snd];
           by rewrite Hkept, Hne, Ecomb).
    destruct (mapM rec items) as [cleanedList|] eqn:El; [|done]. cbn in H.
    destruct (_ && _ && _ && _).
    - destruct (branchTypes cleanedList) as [|t [|t2 ts]]; injection H as <-;
        repeat (apply setCleaned_swept; [by vm_compute|]); done.
    - injection H as <-. apply setCleaned_swept; [|done].
      unfold sweptEntry, sweptValue. cbn [fst snd]. rewrite Hkept, Hne, Ecomb.
      cbn [andb]. by eapply Hitems. }
  destruct (String.eqb key "const") eqn:Econst; [by injection H as <-|].
  destruct (inList key removeKeys || inValidationFields key) eqn:Eremoved;
    [by injection H as <-|].
  assert (Hkept : keptKey key = true).
  { unfold keptKey. rewrite Econst. apply orb_false_iff in Eremoved as [-> ->]. done. }
  assert (Hgeneric :
    (match value with JObj _ => String.eqb key "properties" = false | _ => True end) ->
    (if String.eqb key "description" && negb (Nat.eqb (length validations) 0)
     then Some (setCleaned key
                  (JStr (js_String value +:+ " (" +:+ join ", " validations +:+ ")")) a)
     else if isObjectLike value then v ← rec value; Some (setCleaned key v a)
     else Some (setCleaned key value a)) = Some a' ->
    Forall (fun kv => sweptEntry kv = true) (cleaned a')).
  { intros Hnot Hp.
    destruct (String.eqb key "description" && negb (Nat.eqb (length validations) 0)) eqn:Ed.
    - injection Hp as <-. apply setCleaned_swept; [|done].
      apply andb_true_iff in Ed as [Ed _]. apply String.eqb_eq in Ed. subst key.
      by vm_compute.
    - destruct (isObjectLike value) eqn:Eobj.
      + destruct (rec value) as [v|] eqn:Ev; [|done]. cbn in Hp. injection Hp as <-.
        apply setCleaned_swept; [|done].
        unfold sweptEntry, sweptValue. cbn [fst snd]. rewrite Hkept, Ecomb. cbn [andb].
        destruct (String.eqb key "enum" || String.eqb key "type"); [done|].
        specialize (Hrec v eq_refl).
        destruct v as [| | | |l|f]; try done.
        destruct (String.eqb key "properties") eqn:Ep; [|done].
        destruct value as [| | | |items|props]; try done.
        by specialize (Harr items (JObj f) eq_refl eq_refl).
      + injection Hp as <-. apply setCleaned_swept; [|done].
        unfold sweptEntry, sweptValue. cbn [fst snd]. rewrite Hkept, Ecomb. cbn [andb].
        destruct (String.eqb key "enum" || String.eqb key "type"); [done|].
        by destruct value. }
  destruct value as [| | | |items|props]; try (by apply Hgeneric).
  - destruct (String.eqb key "type") eqn:Et; [|by apply Hgeneric].
    apply String.eqb_eq in Et. subst key.
    destruct (existsb _ items); injection H as <-;
      repeat (apply setCleaned_swept; [by vm_compute|]); done.
  - destruct (String.eqb key "properties") eqn:Ep; [|by apply Hgeneric].
    destruct (cleanProperties rec props []) as [cp|] eqn:Ecp; [|done]. cbn in H.
    injection H as <-. apply setCleaned_swept; [|done].
    unfold sweptEntry, sweptValue. cbn [fst snd].
    assert (keptKey "properties" = true) as -> by (by vm_compute).
    eqb_consts. cbn [orb andb].
    assert (inList "properties" combinators = false) as -> by (by vm_compute).
    apply forallb_true_Forall. by eapply Hprops.
Qed.

Lemma cleanEntries_swept rec validations kvs : forall a a',
  Forall (fun kv =>
            (forall out, rec (snd kv) = Some out -> swept out = true)
            /\ (forall items out, snd kv = JArr items -> rec (snd kv) = Some out ->
                                  isArray out = true)
            /\ (forall items l, snd kv = JArr items -> mapM rec items = Some l ->
                                forallb swept l = true)
            /\ (forall props cp, snd kv = JObj props ->
                                 cleanProperties rec props [] = Some cp ->
                                 Forall (fun kv => sweptSchema kv = true) cp)) kvs ->
  Forall (fun kv => sweptEntry kv = true) (cleaned a) ->
  cleanEntries rec validations kvs a = Some a' ->
  Forall (fun kv => sweptEntry kv = true) (cleaned a').
Proof.
  induction kvs as [|[key value] rest IH]; intros a a' Hrec Ha H.
  - cbn in H. by injection H as <-.
  - apply Forall_cons in Hrec as [(H1 & H2 & H3 & H4) Hrec]. cbn [cleanEntries] in H.
    destruct (cleanEntry rec validations key value a) as [a1|] eqn:E; [|done].
    cbn in H. eapply IH; [done| |exact H].
    by eapply cleanEntry_swept.
Qed.

Lemma applyConst_swept a c :
  Forall (fun kv => sweptEntry kv = true) (cleaned a) ->
  applyConst a = Some c -> Forall (fun kv => sweptEntry kv = true) c.
Proof.
  intros Ha H. unfold applyConst in H.
  destruct (constValue a) as [cv|]; [|by injection H as <-].
  set (withEnum := match obj_get "enum" (cleaned a) with
                   | Some e => if truthy e then cleaned a
                               else assign "enum" (JArr []) (cleaned a)
                   | None => assign "enum" (JArr []) (cleaned a)
                   end) in *.
  assert (Hw : Forall (fun kv => sweptEntry kv = true) withEnum).
  { subst withEnum. destruct (obj_get "enum" (cleaned a)) as [e|];
      [destruct (truthy e)|]; try done; by apply Forall_assign. }
  destruct (obj_get "enum" withEnum) as [[| | | |l|]|]; try done.
  destruct (obj_get "type" _) as [t|]; [destruct (truthy t)|];
    injection H as <-; repeat (apply Forall_assign; [by vm_compute|]); done.
Qed.

Lemma dedupeEnum_swept c c' :
  Forall (fun kv => sweptEntry kv = true) c ->
  dedupeEnum c = Some c' -> Forall (fun kv => sweptEntry kv = true) c'.
Proof.
  intros Hc H. unfold dedupeEnum in H.
  destruct (obj_get "enum" c) as [[| | |s|l|kvs]|]; try (by injection H as <-).
  - destruct (1 <? String.length s)%nat; injection H as <-; [|done].
    by apply Forall_assign.
  - destruct (1 <? length l)%nat; injection H as <-; [|done]. by apply Forall_assign.
  - destruct (obj_get "length" kvs) as [n|]; [destruct (js_gt_one n)|];
      by simplify_eq.
Qed.

Lemma addValidationNote_swept validations c :
  Forall (fun kv => sweptEntry kv = true) c ->
  Forall (fun kv => sweptEntry kv = true) (addValidationNote validations c).
Proof.
  intros Hc. unfold addValidationNote.
  destruct (Nat.eqb (length validations) 0); [done|].
  destruct (obj_get "description" c) as [d|]; [destruct (truthy d)|]; try done;
    by apply Forall_assign.
Qed.

Lemma mapM_swept (rec : Json -> option Json) items : forall l,
  Forall (fun item => forall out, rec item = Some out -> swept out = true) items ->
  mapM rec items = Some l -> forallb swept l = true.
Proof.
  induction items as [|item rest IH]; intros l Hrec H.
  - cbn in H. by injection H as <-.
  - apply Forall_cons in Hrec as [Hrec1 Hrec]. cbn [mapM] in H.
    destruct (rec item) as [out|] eqn:E; [|done]. cbn in H.
    destruct (mapM rec rest) as [outs|] eqn:Er; [|done]. cbn in H. injection H as <-.
    cbn [forallb]. rewrite (Hrec1 out eq_refl). by apply IH.
Qed.

Lemma cleanJsonSchema_swept options schema :
  (forall out, cleanJsonSchema options schema = Some out -> swept out = true)
  /\ (forall items out, schema = JArr items ->
        cleanJsonSchema options schema = Some out -> isArray out = true)
  /\ (forall items l, schema = JArr items ->
        mapM (cleanJsonSchema options) items = Some l -> forallb swept l = true)
  /\ (forall props cp, schema = JObj props ->
        cleanProperties (cleanJsonSchema options) props [] = Some cp ->
        Forall (fun kv => sweptSchema kv = true) cp).
Proof.
  induction schema as [|b|n|s|items IH|fields IH] using Json_nested_ind;
    try (split_and!; [by intros out [= <-]|done|done|done]).
  - assert (Hitems : forall l, mapM (cleanJsonSchema options) items = Some l ->
                               forallb swept l = true).
    { intros l. apply mapM_swept. eapply Forall_impl; [exact IH|]. by intros item [H _]. }
    split_and!.
    + intros out H. cbn [cleanJsonSchema] in H.
      destruct (mapM (cleanJsonSchema options) items) as [l|] eqn:El; [|done].
      cbn in H. injection H as <-. cbn [swept]. by apply Hitems.
    + intros items' out _ H. cbn [cleanJsonSchema] in H.
      destruct (mapM (cleanJsonSchema options) items) as [l|]; [|done].
      cbn in H. by injection H as <-.
    + intros items' l [= <-]. apply Hitems.
    + done.
  - split_and!.
    + intros out H. cbn [cleanJsonSchema] in H. cbv zeta in H.
      set (validations := validationsOf fields) in *. clearbody validations.
      destruct (cleanEntries _ _ fields _) as [a|] eqn:Ea; [|done].
      cbn [mbind option_bind] in H.
      destruct (applyConst a) as [c1|] eqn:E1; [|done]. cbn [mbind option_bind] in H.
      destruct (dedupeEnum c1) as [c2|] eqn:E2; [|done]. cbn [mbind option_bind] in H.
      assert (Forall (fun kv => sweptEntry kv = true)
                (addValidationNote validations c2)) as Hc3.
      { apply addValidationNote_swept. eapply dedupeEnum_swept; [|exact E2].
        eapply applyConst_swept; [|exact E1].
        eapply cleanEntries_swept in Ea; [exact Ea|exact IH|constructor]. }
      assert (swept (JObj (addValidationNote validations c2)) = true) as Hs.
      { cbn [swept]. by apply forallb_true_Forall. }
      destruct (wantsUppercase options); injection H as <-; [|done].
      by apply (proj1 (swept_uppercase (JObj (addValidationNote validations c2)))).
    + done.
    + done.
    + intros props cp [= <-] H.
      eapply cleanProperties_swept; [| |constructor|exact H].
      * eapply Forall_impl; [exact IH|]. by intros kv [H1 _].
      * apply Forall_forall. intros kv _. apply swept_primitive.
Qed.

(** X19.  The sanitizer leaves no unsupported keyword behind.  In the tree
    it returns, no schema node has a [const] key, a removed keyword
    ([$schema], [additionalProperties], [default], [uniqueItems],
    [propertyNames], [patternProperties], [unevaluatedProperties]) or a
    validation keyword, at any depth it goes to: through lists, through the
    schemas of a [properties] map (whose names are free), through the lists
    of combinators and through every other object value.  It does not go into
    the values of [enum] and [type], nor into a combinator that is no
    list. *)
Theorem unsupported_keywords_are_swept options schema out :
  cleanJsonSchema options schema = Some out -> swept out = true.
Proof. apply cleanJsonSchema_swept. Qed.

End Sanitizer.

(** *** The one-argument revision (src/transform/claude/ClaudeRequestUtils.js) *)

(** [cleanJsonSchema(schema)] as ClaudeRequestUtils.js has it: no pass over
    the combinators, a [const] becomes the whole [enum], and a union type
    keeps its first type and nothing else. *)
Module RequestUtils.

Section Revision.

Variable toUpperCase : string -> string.
Variable js_String : Json -> string.

(** The body of [for (const [propName, propSchema] of Object.entries(value))]. *)
Definition cleanProperties (rec : Json -> Json)
  : list (string * Json) -> list (string * Json) -> list (string * Json) :=
  fix loop (props cleanedProperties : list (string * Json)) {struct props} :=
    match props with
    | [] => cleanedProperties
    | (propName, propSchema) :: rest =>
        loop rest
          (assign propName
             (if isObjectLike propSchema then rec propSchema else propSchema)
             cleanedProperties)
    end.

(** One turn of [for (const [key, value] of Object.entries(schema))]. *)
Definition cleanEntry (rec : Json -> Json) (validations : list string)
    (key : string) (value : Json) (a : Acc) : Acc :=
  if String.eqb key "const" then {| cleaned := cleaned a; constValue := Some value |}
  else if inList key removeKeys || inValidationFields key then a
  else
    let plain :=
      if String.eqb key "description" && negb (Nat.eqb (length validations) 0)
      then setCleaned key
             (JStr (js_String value +:+ " (" +:+ join ", " validations +:+ ")")) a
      else if isObjectLike value then setCleaned key (rec value) a
      else setCleaned key value a in
    match value with
    | JObj props =>
        if String.eqb key "properties"
        then setCleaned "properties" (JObj (cleanProperties rec props [])) a
        else plain
    | JArr items =>
        if String.eqb key "type" then setCleaned "type" (unionType items) a else plain
    | _ => plain
    end.

(** [for (const [key, value] of Object.entries(schema))]. *)
Definition cleanEntries (rec : Json -> Json) (validations : list string)
  : list (string * Json) -> Acc -> Acc :=
  fix loop (kvs : list (string * Json)) (a : Acc) {struct kvs} : Acc :=
    match kvs with
    | [] => a
    | (key, value) :: rest => loop rest (cleanEntry rec validations key value a)
    end.

Fixpoint cleanJsonSchema (schema : Json) {struct schema} : Json :=
  match schema with
  | JArr items => JArr (map cleanJsonSchema items)
  | JObj fields =>
      let validations := validationsOf js_String fields in
      let a := cleanEntries cleanJsonSchema validations fields
                 {| cleaned := []; constValue := None |} in
      let c1 :=
        match constValue a with
        | Some c => assign "enum" (JArr [c]) (cleaned a)
        | None => cleaned a
        end in
      uppercaseSchemaTypes toUpperCase (JObj (addValidationNote validations c1))
  | _ => schema
  end.

End Revision.

End RequestUtils.

(** *** The parameters on the ASCII fragment, to run the model *)

Definition upperAscii (c : ascii) : ascii :=
  let n := nat_of_ascii c in
  if (97 <=? n)%nat && (n <=? 122)%nat then ascii_of_nat (n - 32) else c.

Fixpoint toUpperCaseAscii (s : string) : string :=
  match s with
  | EmptyString => EmptyString
  | String c r => String (upperAscii c) (toUpperCaseAscii r)
  end.

(** [String(v)] for the primitives; an object prints as JavaScript prints it. *)
Definition stringOfPrimitive (v : Json) : string :=
  match v with
  | JNull => "null"
  | JBool true => "true"
  | JBool false => "false"
  | JNum n => NilZero.string_of_int (Z.to_int n)
  | JStr s => s
  | JArr _ => ""
  | JObj _ => "[object Object]"
  end.

Definition numberGtOne (v : Json) : bool :=
  match v with JNum n => (1 <? n)%Z | _ => false end.

Definition clean (options : Options) (schema : Json) : option Json :=
  cleanJsonSchema toUpperCaseAscii stringOfPrimitive numberGtOne options schema.

Example clean_validation_note :
  clean {| uppercaseTypes := None |}
    (JObj [("type", JStr "string"); ("minLength", JNum 3); ("default", JStr "x")])
  = Some (JObj [("type", JStr "STRING"); ("description", JStr "Validation: minLength: 3")]).
Proof. vm_compute. reflexivity. Qed.

Example clean_const_to_enum :
  clean {| uppercaseTypes := Some false |} (JObj [("const", JStr "a")])
  = Some (JObj [("enum", JArr [JStr "a"]); ("type", JStr "string")]).
Proof. vm_compute. reflexivity. Qed.

Definition exampleNullableNode : list (string * Json) :=
  [("type", JArr [JStr "string"; JStr "null"]); ("description", JStr "a name")].

Definition exampleNullableOut : Json :=
  JObj [("type", JStr "STRING"); ("nullable", JBool true); ("description", JStr "a name")].

Lemma nullable_union_witness :
  clean {| uppercaseTypes := None |} (JObj exampleNullableNode) = Some exampleNullableOut
  /\ prop "type" exampleNullableOut = Some (JStr "STRING")
  /\ prop "nullable" exampleNullableOut = Some (JBool true).
Proof.
  split; [vm_compute; reflexivity|].
  apply (nullable_union_keeps_flag toUpperCaseAscii stringOfPrimitive numberGtOne
           {| uppercaseTypes := None |} exampleNullableNode "string" exampleNullableOut).
  - apply (bool_decide_unpack _). vm_compute. exact I.
  - reflexivity.
  - discriminate.
  - reflexivity.
  - reflexivity.
  - reflexivity.
  - vm_compute. reflexivity.
Defined.

(** C7, as stated, fails.  The one-argument [cleanJsonSchema] of
    ClaudeRequestUtils.js keeps the type of a nullable union and writes no
    [nullable] flag.  The revision with [options] writes [nullable: true] at
    the [type] keyword, and a [nullable] keyword of the node that comes after
    it overwrites the flag. *)
Lemma nullable_flag_is_lost :
  (RequestUtils.cleanJsonSchema toUpperCaseAscii stringOfPrimitive
     (JObj [("type", JArr [JStr "string"; JStr "null"])])
   = JObj [("type", JStr "STRING")]
   /\ prop "nullable"
        (RequestUtils.cleanJsonSchema toUpperCaseAscii stringOfPrimitive
           (JObj [("type", JArr [JStr "string"; JStr "null"])])) = None)
  /\ (clean {| uppercaseTypes := None |}
        (JObj [("type", JArr [JStr "string"; JStr "null"]); ("nullable", JBool false)])
      = Some (JObj [("type", JStr "STRING"); ("nullable", JBool false)])
      /\ ~ (exists out,
              clean {| uppercaseTypes := None |}
                (JObj [("type", JArr [JStr "string"; JStr "null"]);
                       ("nullable", JBool false)]) = Some out
              /\ prop "nullable" out = Some (JBool true))).
Proof.
  split; [split; vm_compute; reflexivity|].
  assert (H : clean {| uppercaseTypes := None |}
                (JObj [("type", JArr [JStr "string"; JStr "null"]);
                       ("nullable", JBool false)])
              = Some (JObj [("type", JStr "STRING"); ("nullable", JBool false)]))
    by (vm_compute; reflexivity).
  split; [exact H|]. rewrite H. intros (out & [= <-] & Hflag). vm_compute in Hflag.
  discriminate Hflag.
Qed.

Definition exampleStableSchema : Json :=
  JObj [("type", JStr "OBJECT");
        ("properties", JObj [("default", JObj [("type", JStr "STRING");
                                               ("enum", JArr [JStr "a"; JStr "b"])])]);
        ("required", JArr [JStr "default"])].

Lemma cleanJsonSchema_fixes_stable_witness :
  stable toUpperCaseAscii numberGtOne true exampleStableSchema = true
  /\ clean {| uppercaseTypes := None |} exampleStableSchema = Some exampleStableSchema.
Proof.
  split; [vm_compute; reflexivity|].
  apply (cleanJsonSchema_fixes_stable toUpperCaseAscii stringOfPrimitive numberGtOne).
  vm_compute. reflexivity.
Defined.

(** The conditions the specification lists -- no [const], no removed or
    validation keyword, type tokens in the output casing -- hold of a union of
    two plain enums, which the sanitizer nevertheless rewrites into a single
    [enum]: the result has no [anyOf] key. *)
Definition exampleEnumUnion : Json :=
  JObj [("anyOf", JArr [JObj [("enum", JArr [JStr "a"])];
                        JObj [("enum", JArr [JStr "b"])]])].

Lemma keyword_free_union_is_flattened :
  keywordFree exampleEnumUnion = true
  /\ cased toUpperCaseAscii exampleEnumUnion = true
  /\ clean {| uppercaseTypes := None |} exampleEnumUnion
     = Some (JObj [("enum", JArr [JStr "a"; JStr "b"])])
  /\ clean {| uppercaseTypes := Some false |} exampleEnumUnion
     = Some (JObj [("enum", JArr [JStr "a"; JStr "b"])])
  /\ ~ sameUpToKeyOrder (JObj [("enum", JArr [JStr "a"; JStr "b"])]) exampleEnumUnion.
Proof.
  repeat split; try (vm_compute; reflexivity).
  intros H; inversion H as [| | | | |f1 f2 Hk]; subst.
  specialize (Hk "anyOf"). vm_compute in Hk. inversion Hk.
Qed.

(** A tool schema with unsupported keywords at three depths, one of them
    under a property that is itself named [default]. *)
Definition exampleNestedSchema : Json :=
  JObj [("$schema", JStr "http://json-schema.org/draft-07/schema#");
        ("type", JStr "object");
        ("additionalProperties", JBool false);
        ("properties",
         JObj [("default",
                JObj [("type", JStr "string"); ("default", JStr "x");
                      ("minLength", JNum 1)]);
               ("tags",
                JObj [("type", JStr "array"); ("uniqueItems", JBool true);
                      ("items", JObj [("const", JStr "a"); ("maxLength", JNum 4)])])])].

Lemma unsupported_keywords_are_swept_witness :
  exists out,
    clean {| uppercaseTypes := None |} exampleNestedSchema = Some out
    /\ swept out = true.
Proof.
  eexists. split; [vm_compute; reflexivity|].
  eapply (unsupported_keywords_are_swept toUpperCaseAscii stringOfPrimitive numberGtOne
            {| uppercaseTypes := None |} exampleNestedSchema).
  vm_compute. reflexivity.
Defined.

(** The value of [const] reaches [enum] as it came, keywords included. *)
Example const_value_is_not_cleaned :
  clean {| uppercaseTypes := Some false |}
    (JObj [("const", JObj [("default", JNum 1)])])
  = Some (JObj [("enum", JArr [JObj [("default", JNum 1)]]); ("type", JStr "object")]).
Proof. vm_compute. reflexivity. Qed.

End SchemaSanitizer.

(** ** The response transcoder (ClaudeTransformer.js): [StreamingState],
    [PartProcessor] and [NonStreamingProcessor] *)

Module ResponseOut.

(** A backend part.  [text] is absent or a string, [thought] is read for its
    truthiness, [thoughtSignature] is absent or a string. *)
Record FunctionCall : Type := {
  fc_id : option string;
  fc_name : string;
  fc_args : option Json
}.

Record Part : Type := {
  text : option string;
  thought : bool;
  functionCall : option FunctionCall;
  thoughtSignature : option string
}.

(** [if (signature)]: the signature when it is a non-empty string. *)
Definition truthySignature (signature : option string) : option string :=
  match signature with
  | Some s => if String.eqb s "" then None else Some s
  | None => None
  end.

(** [usageMetadata] and [toClaudeUsage]. *)
Record UsageMetadata : Type := {
  promptTokenCount : option Z;
  candidatesTokenCount : option Z;
  thoughtsTokenCount : option Z;
  totalTokenCount : option Z
}.

Record Usage : Type := { input_tokens : Z; output_tokens : Z }.

Definition orZero (n : option Z) : Z := default 0%Z n.

Definition toClaudeUsage (u : UsageMetadata) : Usage :=
  let prompt := orZero (promptTokenCount u) in
  let candidates := orZero (candidatesTokenCount u) in
  let thoughts := orZero (thoughtsTokenCount u) in
  match totalTokenCount u with
  | Some total =>
      if negb (total =? 0)%Z && (prompt <=? total)%Z
      then {| input_tokens := prompt; output_tokens := total - prompt |}
      else {| input_tokens := prompt; output_tokens := candidates + thoughts |}
  | None => {| input_tokens := prompt; output_tokens := candidates + thoughts |}
  end.

Definition emptyUsageMetadata : UsageMetadata :=
  {| promptTokenCount := None; candidatesTokenCount := None;
     thoughtsTokenCount := None; totalTokenCount := None |}.

(** A field of the parsed response that is read for more than its
    truthiness: absent ([undefined]), [null], or an object. *)
Inductive Field (A : Type) : Type :=
| Absent
| Null
| Present (a : A).

Arguments Absent {A}.
Arguments Null {A}.
Arguments Present {A} a.

(** [field || {}], [if (field)]: the object, when there is one. *)
Definition present {A} (field : Field A) : option A :=
  match field with
  | Present a => Some a
  | Absent | Null => None
  end.

(** [stop_reason]. *)
Definition stopReason (usedTool : bool) (finishReason : option string) : string :=
  if usedTool then "tool_use"
  else match finishReason with
       | Some r => if String.eqb r "MAX_TOKENS" then "max_tokens" else "end_turn"
       | None => "end_turn"
       end.

(** The [tool_use.id -> thoughtSignature] table and [rememberToolThoughtSignature]. *)
Definition rememberToolThoughtSignature (toolUseId thoughtSignature : string)
    (table : gmap string string) : gmap string string :=
  if String.eqb toolUseId "" || String.eqb thoughtSignature "" then table
  else <[toolUseId := thoughtSignature]> table.

(** *** Streaming *)

Inductive BlockType : Type := BLOCK_NONE | BLOCK_TEXT | BLOCK_THINKING | BLOCK_FUNCTION.

Global Instance BlockType_eq_dec : EqDecision BlockType.
Proof. solve_decision. Defined.

(** The [content_block] of a [content_block_start] event. *)
Inductive ContentBlock : Type :=
| CBThinking (thinking : string) (signature : option string)
| CBText (text : string)
| CBToolUse (id name : string) (signature : option string).

Inductive Delta : Type :=
| TextDelta (text : string)
| ThinkingDelta (thinking : string)
| SignatureDelta (signature : string)
| InputJsonDelta (partial_json : string).

(** The events [emit] enqueues, before their serialization. *)
Inductive Event : Type :=
| ContentBlockStart (index : nat) (content_block : ContentBlock)
| ContentBlockDelta (index : nat) (delta : Delta)
| ContentBlockStop (index : nat)
| MessageDelta (stop_reason : string) (usage : Usage) (extraUsage : option Json)
| MessageStop.

(** [StreamingState], with the events enqueued so far; the web-search fields,
    which neither [PartProcessor] nor [emitFinish] reads, are left out.
    [idsMade] counts the calls of [makeToolUseId]. *)
Record StreamingState : Type := {
  blockType : BlockType;
  blockIndex : nat;
  messageStopSent : bool;
  usedTool : bool;
  hasThinking : bool;
  pending : option string;
  trailingSignature : option string;
  events : list Event;
  toolThoughtSignatures : gmap string string;
  idsMade : nat
}.

Definition newStreamingState (table : gmap string string) : StreamingState :=
  {| blockType := BLOCK_NONE; blockIndex := 0; messageStopSent := false;
     usedTool := false; hasThinking := false; pending := None;
     trailingSignature := None; events := []; toolThoughtSignatures := table;
     idsMade := 0 |}.

Definition emit (e : Event) (st : StreamingState) : StreamingState :=
  {| blockType := blockType st; blockIndex := blockIndex st;
     messageStopSent := messageStopSent st; usedTool := usedTool st;
     hasThinking := hasThinking st; pending := pending st;
     trailingSignature := trailingSignature st; events := events st ++ [e];
     toolThoughtSignatures := toolThoughtSignatures st; idsMade := idsMade st |}.

Definition emitDelta (d : Delta) (st : StreamingState) : StreamingState :=
  emit (ContentBlockDelta (blockIndex st) d) st.

Definition setBlock (t : BlockType) (i : nat) (st : StreamingState) : StreamingState :=
  {| blockType := t; blockIndex := i;
     messageStopSent := messageStopSent st; usedTool := usedTool st;
     hasThinking := hasThinking st; pending := pending st;
     trailingSignature := trailingSignature st; events := events st;
     toolThoughtSignatures := toolThoughtSignatures st; idsMade := idsMade st |}.

Definition setPending (p : option string) (st : StreamingState) : StreamingState :=
  {| blockType := blockType st; blockIndex := blockIndex st;
     messageStopSent := messageStopSent st; usedTool := usedTool st;
     hasThinking := hasThinking st; pending := p;
     trailingSignature := trailingSignature st; events := events st;
     toolThoughtSignatures := toolThoughtSignatures st; idsMade := idsMade st |}.

Definition setTrailing (t : option string) (st : StreamingState) : StreamingState :=
  {| blockType := blockType st; blockIndex := blockIndex st;
     messageStopSent := messageStopSent st; usedTool := usedTool st;
     hasThinking := hasThinking st; pending := pending st;
     trailingSignature := t; events := events st;
     toolThoughtSignatures := toolThoughtSignatures st; idsMade := idsMade st |}.

Definition setHasThinking (st : StreamingState) : StreamingState :=
  {| blockType := blockType st; blockIndex := blockIndex st;
     messageStopSent := messageStopSent st; usedTool := usedTool st;
     hasThinking := true; pending := pending st;
     trailingSignature := trailingSignature st; events := events st;
     toolThoughtSignatures := toolThoughtSignatures st; idsMade := idsMade st |}.

(** *** The fields each setter leaves alone *)

Lemma blockType_emit e st : blockType (emit e st) = blockType st.
Proof. reflexivity. Qed.

Lemma blockIndex_emit e st : blockIndex (emit e st) = blockIndex st.
Proof. reflexivity. Qed.

Lemma messageStopSent_emit e st : messageStopSent (emit e st) = messageStopSent st.
Proof. reflexivity. Qed.

Lemma usedTool_emit e st : usedTool (emit e st) = usedTool st.
Proof. reflexivity. Qed.

Lemma hasThinking_emit e st : hasThinking (emit e st) = hasThinking st.
Proof. reflexivity. Qed.

Lemma pending_emit e st : pending (emit e st) = pending st.
Proof. reflexivity. Qed.

Lemma trailingSignature_emit e st : trailingSignature (emit e st) = trailingSignature st.
Proof. reflexivity. Qed.

Lemma events_emit e st : events (emit e st) = events st ++ [e].
Proof. reflexivity. Qed.

Lemma toolThoughtSignatures_emit e st : toolThoughtSignatures (emit e st) = toolThoughtSignatures st.
Proof. reflexivity. Qed.

Lemma idsMade_emit e st : idsMade (emit e st) = idsMade st.
Proof. reflexivity. Qed.

Lemma blockType_setBlock t i st : blockType (setBlock t i st) = t.
Proof. reflexivity. Qed.

Lemma blockIndex_setBlock t i st : blockIndex (setBlock t i st) = i.
Proof. reflexivity. Qed.

Lemma messageStopSent_setBlock t i st : messageStopSent (setBlock t i st) = messageStopSent st.
Proof. reflexivity. Qed.

Lemma usedTool_setBlock t i st : usedTool (setBlock t i st) = usedTool st.
Proof. reflexivity. Qed.

Lemma hasThinking_setBlock t i st : hasThinking (setBlock t i st) = hasThinking st.
Proof. reflexivity. Qed.

Lemma pending_setBlock t i st : pending (setBlock t i st) = pending st.
Proof. reflexivity. Qed.

Lemma trailingSignature_setBlock t i st : trailingSignature (setBlock t i st) = trailingSignature st.
Proof. reflexivity. Qed.

Lemma events_setBlock t i st : events (setBlock t i st) = events st.
Proof. reflexivity. Qed.

Lemma toolThoughtSignatures_setBlock t i st : toolThoughtSignatures (setBlock t i st) = toolThoughtSignatures st.
Proof. reflexivity. Qed.

Lemma idsMade_setBlock t i st : idsMade (setBlock t i st) = idsMade st.
Proof. reflexivity. Qed.

Lemma blockType_setPending p st : blockType (setPending p st) = blockType st.
Proof. reflexivity. Qed.

Lemma blockIndex_setPending p st : blockIndex (setPending p st) = blockIndex st.
Proof. reflexivity. Qed.

Lemma messageStopSent_setPending p st : messageStopSent (setPending p st) = messageStopSent st.
Proof. reflexivity. Qed.

Lemma usedTool_setPending p st : usedTool (setPending p st) = usedTool st.
Proof. reflexivity. Qed.

Lemma hasThinking_setPending p st : hasThinking (setPending p st) = hasThinking st.
Proof. reflexivity. Qed.

Lemma pending_setPending p st : pending (setPending p st) = p.
Proof. reflexivity. Qed.

Lemma trailingSignature_setPending p st : trailingSignature (setPending p st) = trailingSignature st.
Proof. reflexivity. Qed.

Lemma events_setPending p st : events (setPending p st) = events st.
Proof. reflexivity. Qed.

Lemma toolThoughtSignatures_setPending p st : toolThoughtSignatures (setPending p st) = toolThoughtSignatures st.
Proof. reflexivity. Qed.

Lemma idsMade_setPending p st : idsMade (setPending p st) = idsMade st.
Proof. reflexivity. Qed.

Lemma blockType_setTrailing t st : blockType (setTrailing t st) = blockType st.
Proof. reflexivity. Qed.

Lemma blockIndex_setTrailing t st : blockIndex (setTrailing t st) = blockIndex st.
Proof. reflexivity. Qed.

Lemma messageStopSent_setTrailing t st : messageStopSent (setTrailing t st) = messageStopSent st.
Proof. reflexivity. Qed.

Lemma usedTool_setTrailing t st : usedTool (setTrailing t st) = usedTool st.
Proof. reflexivity. Qed.

Lemma hasThinking_setTrailing t st : hasThinking (setTrailing t st) = hasThinking st.
Proof. reflexivity. Qed.

Lemma pending_setTrailing t st : pending (setTrailing t st) = pending st.
Proof. reflexivity. Qed.

Lemma trailingSignature_setTrailing t st : trailingSignature (setTrailing t st) = t.
Proof. reflexivity. Qed.

Lemma events_setTrailing t st : events (setTrailing t st) = events st.
Proof. reflexivity. Qed.

Lemma toolThoughtSignatures_setTrailing t st : toolThoughtSignatures (setTrailing t st) = toolThoughtSignatures st.
Proof. reflexivity. Qed.

Lemma idsMade_setTrailing t st : idsMade (setTrailing t st) = idsMade st.
Proof. reflexivity. Qed.

Lemma blockType_setHasThinking st : blockType (setHasThinking st) = blockType st.
Proof. reflexivity. Qed.

Lemma blockIndex_setHasThinking st : blockIndex (setHasThinking st) = blockIndex st.
Proof. reflexivity. Qed.

Lemma messageStopSent_setHasThinking st : messageStopSent (setHasThinking st) = messageStopSent st.
Proof. reflexivity. Qed.

Lemma usedTool_setHasThinking st : usedTool (setHasThinking st) = usedTool st.
Proof. reflexivity. Qed.

Lemma hasThinking_setHasThinking st : hasThinking (setHasThinking st) = true.
Proof. reflexivity. Qed.

Lemma pending_setHasThinking st : pending (setHasThinking st) = pending st.
Proof. reflexivity. Qed.

Lemma trailingSignature_setHasThinking st : trailingSignature (setHasThinking st) = trailingSignature st.
Proof. reflexivity. Qed.

Lemma events_setHasThinking st : events (setHasThinking st) = events st.
Proof. reflexivity. Qed.

Lemma toolThoughtSignatures_setHasThinking st : toolThoughtSignatures (setHasThinking st) = toolThoughtSignatures st.
Proof. reflexivity. Qed.

Lemma idsMade_setHasThinking st : idsMade (setHasThinking st) = idsMade st.
Proof. reflexivity. Qed.

Lemma events_emitDelta d st :
  events (emitDelta d st) = events st ++ [ContentBlockDelta (blockIndex st) d].
Proof. reflexivity. Qed.

Lemma blockType_emitDelta d st : blockType (emitDelta d st) = blockType st.
Proof. reflexivity. Qed.

Lemma blockIndex_emitDelta d st : blockIndex (emitDelta d st) = blockIndex st.
Proof. reflexivity. Qed.

Lemma messageStopSent_emitDelta d st : messageStopSent (emitDelta d st) = messageStopSent st.
Proof. reflexivity. Qed.

Lemma usedTool_emitDelta d st : usedTool (emitDelta d st) = usedTool st.
Proof. reflexivity. Qed.

Lemma hasThinking_emitDelta d st : hasThinking (emitDelta d st) = hasThinking st.
Proof. reflexivity. Qed.

Lemma pending_emitDelta d st : pending (emitDelta d st) = pending st.
Proof. reflexivity. Qed.

Lemma trailingSignature_emitDelta d st : trailingSignature (emitDelta d st) = trailingSignature st.
Proof. reflexivity. Qed.

Lemma toolThoughtSignatures_emitDelta d st : toolThoughtSignatures (emitDelta d st) = toolThoughtSignatures st.
Proof. reflexivity. Qed.

Lemma idsMade_emitDelta d st : idsMade (emitDelta d st) = idsMade st.
Proof. reflexivity. Qed.

Create Rewrite HintDb stream.

#[global] Hint Rewrite
  blockType_emit
  blockIndex_emit
  messageStopSent_emit
  usedTool_emit
  hasThinking_emit
  pending_emit
  trailingSignature_emit
  events_emit
  toolThoughtSignatures_emit
  idsMade_emit
  blockType_setBlock
  blockIndex_setBlock
  messageStopSent_setBlock
  usedTool_setBlock
  hasThinking_setBlock
  pending_setBlock
  trailingSignature_setBlock
  events_setBlock
  toolThoughtSignatures_setBlock
  idsMade_setBlock
  blockType_setPending
  blockIndex_setPending
  messageStopSent_setPending
  usedTool_setPending
  hasThinking_setPending
  pending_setPending
  trailingSignature_setPending
  events_setPending
  toolThoughtSignatures_setPending
  idsMade_setPending
  blockType_setTrailing
  blockIndex_setTrailing
  messageStopSent_setTrailing
  usedTool_setTrailing
  hasThinking_setTrailing
  pending_setTrailing
  trailingSignature_setTrailing
  events_setTrailing
  toolThoughtSignatures_setTrailing
  idsMade_setTrailing
  blockType_setHasThinking
  blockIndex_setHasThinking
  messageStopSent_setHasThinking
  usedTool_setHasThinking
  hasThinking_setHasThinking
  pending_setHasThinking
  trailingSignature_setHasThinking
  events_setHasThinking
  toolThoughtSignatures_setHasThinking
  idsMade_setHasThinking
  blockType_emitDelta
  blockIndex_emitDelta
  messageStopSent_emitDelta
  usedTool_emitDelta
  hasThinking_emitDelta
  pending_emitDelta
  trailingSignature_emitDelta
  toolThoughtSignatures_emitDelta
  idsMade_emitDelta
  events_emitDelta : stream.

Arguments emit : simpl never.
Arguments emitDelta : simpl never.
Arguments setBlock : simpl never.
Arguments setPending : simpl never.
Arguments setTrailing : simpl never.
Arguments setHasThinking : simpl never.

(** [endBlock]. *)
Definition endBlock (st : StreamingState) : StreamingState :=
  match blockType st with
  | BLOCK_NONE => st
  | t =>
      let st1 :=
        match t, pending st with
        | BLOCK_THINKING, Some sig => setPending None (emitDelta (SignatureDelta sig) st)
        | _, _ => st
        end in
      let st2 := emit (ContentBlockStop (blockIndex st1)) st1 in
      setBlock BLOCK_NONE (S (blockIndex st2)) st2
  end.

(** [startBlock]: a thinking block always starts with a [signature] field. *)
Definition startBlock (t : BlockType) (contentBlock : ContentBlock)
    (st : StreamingState) : StreamingState :=
  let st1 := match blockType st with BLOCK_NONE => st | _ => endBlock st end in
  let contentBlock' :=
    match contentBlock with
    | CBThinking th None => CBThinking th (Some "")
    | cb => cb
    end in
  let st2 := emit (ContentBlockStart (blockIndex st1) contentBlock') st1 in
  setBlock t (blockIndex st2) st2.

(** The empty thinking block [process] opens for a held signature. *)
Definition emitCarrierBlock (sig : string) (st : StreamingState) : StreamingState :=
  endBlock
    (emitDelta (SignatureDelta sig)
       (emitDelta (ThinkingDelta "")
          (startBlock BLOCK_THINKING (CBThinking "" None) st))).

(** [emitFinish]. *)
Definition emitFinish (finishReason : option string) (usageMetadata : option UsageMetadata)
    (extraUsage : option Json) (st : StreamingState) : StreamingState :=
  let st1 := endBlock st in
  let st2 :=
    match trailingSignature st1 with
    | Some sig =>
        if hasThinking st1 then
          let a := emit (ContentBlockStart (blockIndex st1) (CBThinking "" (Some ""))) st1 in
          let b := emitDelta (ThinkingDelta "") a in
          let c := emitDelta (SignatureDelta sig) b in
          let d := emit (ContentBlockStop (blockIndex c)) c in
          setTrailing None (setBlock (blockType d) (S (blockIndex d)) d)
        else setTrailing None st1
    | None => st1
    end in
  let usage := toClaudeUsage (default emptyUsageMetadata usageMetadata) in
  let st3 := emit (MessageDelta (stopReason (usedTool st2) finishReason) usage extraUsage) st2 in
  if messageStopSent st3 then st3
  else
    let st4 := emit MessageStop st3 in
    {| blockType := blockType st4; blockIndex := blockIndex st4;
       messageStopSent := true; usedTool := usedTool st4;
       hasThinking := hasThinking st4; pending := pending st4;
       trailingSignature := trailingSignature st4; events := events st4;
       toolThoughtSignatures := toolThoughtSignatures st4; idsMade := idsMade st4 |}.

Section Processors.

(** [makeToolUseId], which draws from [crypto.randomBytes]: the n-th
    identifier it returns in the run of one processor.  Each definition below
    takes the draws of its own run. *)
Variable makeToolUseId : nat -> string.
(** [JSON.stringify]. *)
Variable stringify : Json -> string.

(** [processThinking]. *)
Definition processThinking (t : string) (st : StreamingState) : StreamingState :=
  match blockType st with
  | BLOCK_THINKING => emitDelta (ThinkingDelta t) st
  | _ => emitDelta (ThinkingDelta t) (startBlock BLOCK_THINKING (CBThinking "" None) st)
  end.

(** [processText]. *)
Definition processText (t : string) (st : StreamingState) : StreamingState :=
  if String.eqb t "" then st
  else match blockType st with
       | BLOCK_TEXT => emitDelta (TextDelta t) st
       | _ => emitDelta (TextDelta t) (startBlock BLOCK_TEXT (CBText "") st)
       end.

(** The id of a tool call: the backend's when it is a non-empty string, the
    next draw of the run otherwise, [made] counting the draws so far. *)
Definition toolIdOf (fc : FunctionCall) (made : nat) : string * nat :=
  match fc_id fc with
  | Some id => if String.eqb id "" then (makeToolUseId made, S made) else (id, made)
  | None => (makeToolUseId made, S made)
  end.

(** [processFunctionCall]. *)
Definition processFunctionCall (fc : FunctionCall) (sigToUse : option string)
    (st : StreamingState) : StreamingState :=
  let '(toolId, made) := toolIdOf fc (idsMade st) in
  let sig := truthySignature sigToUse in
  let table :=
    match sig with
    | Some s => rememberToolThoughtSignature toolId s (toolThoughtSignatures st)
    | None => toolThoughtSignatures st
    end in
  let st1 := startBlock BLOCK_FUNCTION (CBToolUse toolId (fc_name fc) sig) st in
  let st2 :=
    match fc_args fc with
    | Some args =>
        if truthy args then emitDelta (InputJsonDelta (stringify args)) st1 else st1
    | None => st1
    end in
  {| blockType := blockType st2; blockIndex := blockIndex st2;
     messageStopSent := messageStopSent st2; usedTool := true;
     hasThinking := hasThinking st2; pending := pending st2;
     trailingSignature := trailingSignature st2; events := events st2;
     toolThoughtSignatures := table; idsMade := made |}.

(** A non-empty text part with a signature, once thinking has been seen: the
    text in a block of its own, then an empty thinking block for the signature. *)
Definition emitSignedText (t sig : string) (st : StreamingState) : StreamingState :=
  let a := endBlock st in
  let b := startBlock BLOCK_TEXT (CBText "") a in
  let c := emitDelta (TextDelta t) b in
  let d := endBlock c in
  let e := emit (ContentBlockStart (blockIndex d) (CBThinking "" (Some ""))) d in
  let f := emitDelta (ThinkingDelta "") e in
  let g := emitDelta (SignatureDelta sig) f in
  let h := emit (ContentBlockStop (blockIndex g)) g in
  setBlock (blockType h) (S (blockIndex h)) h.

(** [if (this.state.trailingSignature) { if (this.state.hasThinking) {...}
    this.state.trailingSignature = null }]: the held signature leaves in an
    empty thinking block, or is dropped when no thinking has been seen. *)
Definition releaseHeld (st : StreamingState) : StreamingState :=
  match trailingSignature st with
  | Some sig => setTrailing None (if hasThinking st then emitCarrierBlock sig st else st)
  | None => st
  end.

(** An empty text part: its signature, if any, is held. *)
Definition holdSignature (signature : option string) (st : StreamingState)
  : StreamingState :=
  match signature with
  | Some sig => setTrailing (Some sig) st
  | None => st
  end.

(** A part with [thought] set. *)
Definition processReasoning (t : string) (signature : option string)
    (st : StreamingState) : StreamingState :=
  let st1 := setHasThinking st in
  let st2 :=
    match trailingSignature st1 with
    | Some sig => setTrailing None (emitCarrierBlock sig st1)
    | None => st1
    end in
  let st3 := processThinking t st2 in
  match signature with
  | Some sig => setPending (Some sig) st3
  | None => st3
  end.

(** A non-empty text part without [thought]. *)
Definition processAnswer (t : string) (signature : option string)
    (st : StreamingState) : StreamingState :=
  let st1 := releaseHeld st in
  match signature with
  | Some sig =>
      if negb (hasThinking st1) then processText t st1
      else emitSignedText t sig st1
  | None => processText t st1
  end.

(** [PartProcessor.process]. *)
Definition process (part : Part) (st : StreamingState) : StreamingState :=
  let signature := truthySignature (thoughtSignature part) in
  match functionCall part with
  | Some fc => processFunctionCall fc (thoughtSignature part) (releaseHeld st)
  | None =>
      match text part with
      | None => st
      | Some t =>
          if negb (thought part) && String.eqb t "" then holdSignature signature st
          else if thought part then processReasoning t signature st
          else processAnswer t signature st
      end
  end.

(** The parts of one response, then the finish sequence. *)
Definition streamParts (parts : list Part) (finishReason : option string)
    (usageMetadata : option UsageMetadata) (table : gmap string string)
  : StreamingState :=
  emitFinish finishReason usageMetadata None
    (foldl (fun st part => process part st) (newStreamingState table) parts).


(** *** Non-streaming *)

(** A block of the response's [content]. *)
Inductive Block : Type :=
| BkThinking (thinking : string) (signature : option string)
| BkText (text : string)
| BkToolUse (id name : string) (input : Json) (signature : option string).

(** The unwrapped backend response, as far as [NonStreamingProcessor] reads it. *)
Record RawResponse : Type := {
  responseId : option string;
  modelVersion : option string;
  parts : list Part;
  finishReason : option string;
  usageMetadata : Field UsageMetadata
}.

Record NonStreamingProcessor : Type := {
  contentBlocks : list Block;
  textBuilder : string;
  thinkingBuilder : string;
  hasToolCall : bool;
  nsHasThinking : bool;
  thinkingSignature : option string;
  nsTrailingSignature : option string;
  nsToolThoughtSignatures : gmap string string;
  nsIdsMade : nat
}.

Record Message : Type := {
  msg_id : string;
  msg_model : string;
  content : list Block;
  stop_reason : string;
  usage : option Usage
}.

Definition pushBlock (b : Block) (p : NonStreamingProcessor) : NonStreamingProcessor :=
  {| contentBlocks := contentBlocks p ++ [b]; textBuilder := textBuilder p;
     thinkingBuilder := thinkingBuilder p; hasToolCall := hasToolCall p;
     nsHasThinking := nsHasThinking p; thinkingSignature := thinkingSignature p;
     nsTrailingSignature := nsTrailingSignature p;
     nsToolThoughtSignatures := nsToolThoughtSignatures p; nsIdsMade := nsIdsMade p |}.

Definition setNsTrailing (t : option string) (p : NonStreamingProcessor)
  : NonStreamingProcessor :=
  {| contentBlocks := contentBlocks p; textBuilder := textBuilder p;
     thinkingBuilder := thinkingBuilder p; hasToolCall := hasToolCall p;
     nsHasThinking := nsHasThinking p; thinkingSignature := thinkingSignature p;
     nsTrailingSignature := t;
     nsToolThoughtSignatures := nsToolThoughtSignatures p; nsIdsMade := nsIdsMade p |}.

(** [flushText]. *)
Definition flushText (p : NonStreamingProcessor) : NonStreamingProcessor :=
  if String.eqb (textBuilder p) "" then p
  else
    let q := pushBlock (BkText (textBuilder p)) p in
    {| contentBlocks := contentBlocks q; textBuilder := "";
       thinkingBuilder := thinkingBuilder q; hasToolCall := hasToolCall q;
       nsHasThinking := nsHasThinking q; thinkingSignature := thinkingSignature q;
       nsTrailingSignature := nsTrailingSignature q;
       nsToolThoughtSignatures := nsToolThoughtSignatures q; nsIdsMade := nsIdsMade q |}.

(** [flushThinking]. *)
Definition flushThinking (p : NonStreamingProcessor) : NonStreamingProcessor :=
  match String.eqb (thinkingBuilder p) "", thinkingSignature p with
  | true, None => p
  | _, sig =>
      let q := pushBlock (BkThinking (thinkingBuilder p) sig) p in
      {| contentBlocks := contentBlocks q; textBuilder := textBuilder q;
         thinkingBuilder := ""; hasToolCall := hasToolCall q;
         nsHasThinking := nsHasThinking q; thinkingSignature := None;
         nsTrailingSignature := nsTrailingSignature q;
         nsToolThoughtSignatures := nsToolThoughtSignatures q; nsIdsMade := nsIdsMade q |}
  end.

(** The held signature of an empty text part, given its own empty thinking
    block when the response has thinking, dropped otherwise. *)
Definition releaseTrailing (p : NonStreamingProcessor) : NonStreamingProcessor :=
  match nsTrailingSignature p with
  | Some sig =>
      setNsTrailing None
        (if nsHasThinking p then pushBlock (BkThinking "" (Some sig)) p else p)
  | None => p
  end.

(** [processPart]. *)
Definition processPart (part : Part) (p : NonStreamingProcessor) : NonStreamingProcessor :=
  let signature := truthySignature (thoughtSignature part) in
  match functionCall part with
  | Some fc =>
      let p1 := releaseTrailing (flushText (flushThinking p)) in
      let '(toolId, made) := toolIdOf fc (nsIdsMade p1) in
      let input := match fc_args fc with
                   | Some args => if truthy args then args else JObj []
                   | None => JObj []
                   end in
      let table :=
        match signature with
        | Some s => rememberToolThoughtSignature toolId s (nsToolThoughtSignatures p1)
        | None => nsToolThoughtSignatures p1
        end in
      let p2 := pushBlock (BkToolUse toolId (fc_name fc) input signature) p1 in
      {| contentBlocks := contentBlocks p2; textBuilder := textBuilder p2;
         thinkingBuilder := thinkingBuilder p2; hasToolCall := true;
         nsHasThinking := nsHasThinking p2; thinkingSignature := thinkingSignature p2;
         nsTrailingSignature := nsTrailingSignature p2;
         nsToolThoughtSignatures := table; nsIdsMade := made |}
  | None =>
      match text part with
      | None => p
      | Some t =>
          if thought part then
            let p1 := flushText p in
            let p2 :=
              match nsTrailingSignature p1 with
              | Some _ => releaseTrailing (flushThinking p1)
              | None => p1
              end in
            {| contentBlocks := contentBlocks p2; textBuilder := textBuilder p2;
               thinkingBuilder := thinkingBuilder p2 +:+ t; hasToolCall := hasToolCall p2;
               nsHasThinking := nsHasThinking p2;
               thinkingSignature :=
                 match signature with Some s => Some s | None => thinkingSignature p2 end;
               nsTrailingSignature := nsTrailingSignature p2;
               nsToolThoughtSignatures := nsToolThoughtSignatures p2;
               nsIdsMade := nsIdsMade p2 |}
          else if String.eqb t "" then
            match signature with
            | Some s => setNsTrailing (Some s) p
            | None => p
            end
          else
            let p1 := flushThinking p in
            let p2 :=
              match nsTrailingSignature p1 with
              | Some _ => releaseTrailing (flushText p1)
              | None => p1
              end in
            let p3 :=
              {| contentBlocks := contentBlocks p2; textBuilder := textBuilder p2 +:+ t;
                 thinkingBuilder := thinkingBuilder p2; hasToolCall := hasToolCall p2;
                 nsHasThinking := nsHasThinking p2;
                 thinkingSignature := thinkingSignature p2;
                 nsTrailingSignature := nsTrailingSignature p2;
                 nsToolThoughtSignatures := nsToolThoughtSignatures p2;
                 nsIdsMade := nsIdsMade p2 |} in
            match signature with
            | Some s =>
                if nsHasThinking p3
                then pushBlock (BkThinking "" (Some s)) (flushText p3)
                else p3
            | None => p3
            end
      end
  end.

Definition newProcessor (raw : RawResponse) (table : gmap string string)
  : NonStreamingProcessor :=
  {| contentBlocks := []; textBuilder := ""; thinkingBuilder := "";
     hasToolCall := false; nsHasThinking := existsb thought (parts raw);
     thinkingSignature := None; nsTrailingSignature := None;
     nsToolThoughtSignatures := table; nsIdsMade := 0 |}.

(** [process] up to [buildResponse]: the parts in order, then the flushes. *)
Definition processAll (raw : RawResponse) (table : gmap string string)
  : NonStreamingProcessor :=
  releaseTrailing
    (flushText
       (flushThinking
          (foldl (fun p part => processPart part p) (newProcessor raw table) (parts raw)))).

(** [buildResponse].  In [toClaudeUsage(this.raw.usageMetadata)] the default
    parameter [usageMetadata = {}] stands in for [undefined] only: on [null]
    the read of [usageMetadata.promptTokenCount] raises a TypeError, [None]
    here.  The [usage] of zero tokens is deleted when there was no
    [usageMetadata]. *)
Definition buildResponse (raw : RawResponse) (p : NonStreamingProcessor)
  : option Message :=
  match usageMetadata raw with
  | Null => None
  | field =>
      let u := toClaudeUsage (default emptyUsageMetadata (present field)) in
      Some {| msg_id := default "" (responseId raw);
              msg_model := default "" (modelVersion raw);
              content := contentBlocks p;
              stop_reason := stopReason (hasToolCall p) (finishReason raw);
              usage :=
                if (input_tokens u =? 0)%Z && (output_tokens u =? 0)%Z
                   && negb (bool_decide (is_Some (present field)))
                then None else Some u |}
  end.

(** [NonStreamingProcessor.process]. *)
Definition processResponse (raw : RawResponse) (table : gmap string string)
  : option Message :=
  buildResponse raw (processAll raw table).


(** *** What a part is, as both processors tell it apart *)

Inductive PartKind : Type :=
| KCall (fc : FunctionCall)
| KReasoning (t : string)
| KEmptyText
| KText (t : string)
| KNothing.

Definition kindOf (part : Part) : PartKind :=
  match functionCall part with
  | Some fc => KCall fc
  | None =>
      match text part with
      | None => KNothing
      | Some t =>
          if thought part then KReasoning t
          else if String.eqb t "" then KEmptyText
          else KText t
      end
  end.

Definition tokenOf (part : Part) : option string :=
  truthySignature (thoughtSignature part).

(** Whether the token held for an open reasoning block is still the one the
    block is closed with: a reasoning part that continues the block with a
    token of its own replaces it.  [held] tells that an empty text part's
    token is waiting, which makes the next reasoning part close the block. *)
Fixpoint reasoningTokenKept (held : bool) (post : list Part) : bool :=
  match post with
  | [] => true
  | q :: rest =>
      match kindOf q with
      | KCall _ | KText _ => true
      | KReasoning _ =>
          if held then true
          else match tokenOf q with
               | Some _ => false
               | None => reasoningTokenKept held rest
               end
      | KEmptyText => reasoningTokenKept (held || bool_decide (is_Some (tokenOf q))) rest
      | KNothing => reasoningTokenKept held rest
      end
  end.

(** Where the token of an empty text part is released. *)
Inductive Release : Type :=
| AtReasoning | AtCallOrText | AtFinish | Replaced.

Fixpoint releaseOf (post : list Part) : Release :=
  match post with
  | [] => AtFinish
  | q :: rest =>
      match kindOf q with
      | KCall _ | KText _ => AtCallOrText
      | KReasoning _ => AtReasoning
      | KEmptyText =>
          match tokenOf q with Some _ => Replaced | None => releaseOf rest end
      | KNothing => releaseOf rest
      end
  end.

Definition seenReasoning (pre : list Part) : bool :=
  existsb (fun q => match kindOf q with KReasoning _ => true | _ => false end) pre.

Definition isThinkingBlock (b : Block) : bool :=
  match b with BkThinking _ _ => true | _ => false end.

Definition isThinkingStart (e : Event) : bool :=
  match e with ContentBlockStart _ (CBThinking _ _) => true | _ => false end.

(** The four events of an empty thinking block that carries one token. *)
Definition carrierEvents (k : nat) (sig : string) : list Event :=
  [ ContentBlockStart k (CBThinking "" (Some ""));
    ContentBlockDelta k (ThinkingDelta "");
    ContentBlockDelta k (SignatureDelta sig);
    ContentBlockStop k ].

(** *** Non-streaming: blocks are only ever appended *)

Definition runParts (p : NonStreamingProcessor) (l : list Part) : NonStreamingProcessor :=
  foldl (fun p part => processPart part p) p l.

Definition finishParts (p : NonStreamingProcessor) : NonStreamingProcessor :=
  releaseTrailing (flushText (flushThinking p)).

Lemma flushText_keeps p b : b ∈ contentBlocks p -> b ∈ contentBlocks (flushText p).
Proof.
  intros Hb. unfold flushText. destruct (String.eqb (textBuilder p) ""); [done|].
  simpl. apply elem_of_app. by left.
Qed.

Lemma flushThinking_keeps p b :
  b ∈ contentBlocks p -> b ∈ contentBlocks (flushThinking p).
Proof.
  intros Hb. unfold flushThinking.
  destruct (String.eqb (thinkingBuilder p) ""), (thinkingSignature p);
    simpl; rewrite ?elem_of_app; auto.
Qed.

Lemma releaseTrailing_keeps p b :
  b ∈ contentBlocks p -> b ∈ contentBlocks (releaseTrailing p).
Proof.
  intros Hb. unfold releaseTrailing.
  destruct (nsTrailingSignature p); [|done].
  destruct (nsHasThinking p); simpl; rewrite ?elem_of_app; auto.
Qed.

Lemma processPart_keeps part p b :
  b ∈ contentBlocks p -> b ∈ contentBlocks (processPart part p).
Proof.
  intros Hb. unfold processPart.
  destruct (functionCall part) as [fc|].
  { destruct (toolIdOf fc _) as [toolId made]. simpl. apply elem_of_app. left.
    by apply releaseTrailing_keeps, flushText_keeps, flushThinking_keeps. }
  destruct (text part) as [t|]; [|done].
  destruct (thought part).
  { simpl. destruct (nsTrailingSignature (flushText p)).
    - by apply releaseTrailing_keeps, flushThinking_keeps, flushText_keeps.
    - by apply flushText_keeps. }
  destruct (String.eqb t "").
  { by destruct (truthySignature (thoughtSignature part)). }
  assert (Hp2 : b ∈ contentBlocks
            (match nsTrailingSignature (flushThinking p) with
             | Some _ => releaseTrailing (flushText (flushThinking p))
             | None => flushThinking p
             end)).
  { destruct (nsTrailingSignature (flushThinking p)).
    - by apply releaseTrailing_keeps, flushText_keeps, flushThinking_keeps.
    - by apply flushThinking_keeps. }
  destruct (truthySignature (thoughtSignature part)); [|done].
  simpl. match goal with |- context [if ?c then _ else _] => destruct c end; [|done].
  simpl. apply elem_of_app. left. by apply flushText_keeps.
Qed.

Lemma runParts_keeps l p b :
  b ∈ contentBlocks p -> b ∈ contentBlocks (runParts p l).
Proof.
  revert p. induction l as [|q rest IH]; intros p Hb; simpl; [done|].
  apply IH. by apply processPart_keeps.
Qed.

Lemma finishParts_keeps p b :
  b ∈ contentBlocks p -> b ∈ contentBlocks (finishParts p).
Proof.
  intros Hb. by apply releaseTrailing_keeps, flushText_keeps, flushThinking_keeps.
Qed.

Lemma flushText_hasThinking p : nsHasThinking (flushText p) = nsHasThinking p.
Proof. unfold flushText. by destruct (String.eqb (textBuilder p) ""). Qed.

Lemma flushThinking_hasThinking p : nsHasThinking (flushThinking p) = nsHasThinking p.
Proof.
  unfold flushThinking.
  by destruct (String.eqb (thinkingBuilder p) ""), (thinkingSignature p).
Qed.

Lemma releaseTrailing_hasThinking p : nsHasThinking (releaseTrailing p) = nsHasThinking p.
Proof.
  unfold releaseTrailing. destruct (nsTrailingSignature p); [|done].
  by destruct (nsHasThinking p) eqn:E.
Qed.

Lemma processPart_hasThinking part p :
  nsHasThinking (processPart part p) = nsHasThinking p.
Proof.
  unfold processPart.
  destruct (functionCall part) as [fc|].
  { destruct (toolIdOf fc _) as [toolId made]. simpl.
    by rewrite releaseTrailing_hasThinking, flushText_hasThinking, flushThinking_hasThinking. }
  destruct (text part) as [t|]; [|done].
  destruct (thought part).
  { simpl. destruct (nsTrailingSignature (flushText p));
      by rewrite ?releaseTrailing_hasThinking, ?flushThinking_hasThinking,
           ?flushText_hasThinking. }
  destruct (String.eqb t "").
  { by destruct (truthySignature (thoughtSignature part)). }
  set (p2 := match nsTrailingSignature (flushThinking p) with
             | Some _ => releaseTrailing (flushText (flushThinking p))
             | None => flushThinking p
             end).
  assert (Hp2 : nsHasThinking p2 = nsHasThinking p).
  { subst p2. destruct (nsTrailingSignature (flushThinking p));
      by rewrite ?releaseTrailing_hasThinking, ?flushText_hasThinking,
           ?flushThinking_hasThinking. }
  clearbody p2.
  destruct (truthySignature (thoughtSignature part)); [|done].
  cbn [nsHasThinking]. rewrite Hp2. destruct (nsHasThinking p) eqn:E; [|done].
  unfold pushBlock. cbn [nsHasThinking]. by rewrite flushText_hasThinking.
Qed.

Lemma runParts_hasThinking l p : nsHasThinking (runParts p l) = nsHasThinking p.
Proof.
  revert p. induction l as [|q rest IH]; intros p; simpl; [done|].
  by rewrite IH, processPart_hasThinking.
Qed.


(** *** Non-streaming: where each token ends up *)

Lemma flushText_fields p :
  thinkingSignature (flushText p) = thinkingSignature p
  /\ thinkingBuilder (flushText p) = thinkingBuilder p
  /\ nsTrailingSignature (flushText p) = nsTrailingSignature p.
Proof. unfold flushText. by destruct (String.eqb (textBuilder p) ""). Qed.

Lemma flushThinking_trailing p :
  nsTrailingSignature (flushThinking p) = nsTrailingSignature p.
Proof.
  unfold flushThinking.
  by destruct (String.eqb (thinkingBuilder p) ""), (thinkingSignature p).
Qed.

Lemma flushThinking_emits p s :
  thinkingSignature p = Some s ->
  BkThinking (thinkingBuilder p) (Some s) ∈ contentBlocks (flushThinking p).
Proof.
  intros H. unfold flushThinking. rewrite H.
  destruct (String.eqb (thinkingBuilder p) ""); simpl; apply elem_of_app; right;
    apply list_elem_of_singleton; done.
Qed.

Lemma releaseTrailing_emits p s :
  nsTrailingSignature p = Some s -> nsHasThinking p = true ->
  BkThinking "" (Some s) ∈ contentBlocks (releaseTrailing p).
Proof.
  intros H1 H2. unfold releaseTrailing. rewrite H1, H2. simpl.
  apply elem_of_app. right. by apply list_elem_of_singleton.
Qed.

Lemma runParts_app p l1 l2 : runParts p (l1 ++ l2) = runParts (runParts p l1) l2.
Proof. apply foldl_app. Qed.

Lemma kindOf_call part fc :
  kindOf part = KCall fc -> functionCall part = Some fc.
Proof. unfold kindOf. destruct (functionCall part); [congruence|]. by repeat case_match. Qed.

Lemma kindOf_reasoning part t :
  kindOf part = KReasoning t ->
  functionCall part = None /\ text part = Some t /\ thought part = true.
Proof. unfold kindOf. repeat case_match; naive_solver. Qed.

Lemma kindOf_emptyText part :
  kindOf part = KEmptyText ->
  functionCall part = None /\ text part = Some "" /\ thought part = false.
Proof.
  unfold kindOf. repeat case_match; try naive_solver.
  intros _. repeat split; try done. f_equal. by apply String.eqb_eq.
Qed.

Lemma kindOf_text part t :
  kindOf part = KText t ->
  functionCall part = None /\ text part = Some t /\ thought part = false
  /\ String.eqb t "" = false.
Proof. unfold kindOf. repeat case_match; naive_solver. Qed.

Lemma kindOf_nothing part :
  kindOf part = KNothing -> functionCall part = None /\ text part = None.
Proof. unfold kindOf. repeat case_match; naive_solver. Qed.

Lemma processPart_call_emits part fc s p :
  kindOf part = KCall fc -> tokenOf part = Some s ->
  exists id input,
    BkToolUse id (fc_name fc) input (Some s) ∈ contentBlocks (processPart part p).
Proof.
  intros Hk%kindOf_call Ht. unfold tokenOf in Ht. unfold processPart. rewrite Hk, Ht.
  destruct (toolIdOf fc _) as [toolId made]. simpl.
  eexists _, _. apply elem_of_app. right. by apply list_elem_of_singleton.
Qed.

Lemma ns_reasoning_token post : forall p s,
  thinkingSignature p = Some s ->
  reasoningTokenKept (bool_decide (is_Some (nsTrailingSignature p))) post = true ->
  exists th, BkThinking th (Some s) ∈ contentBlocks (finishParts (runParts p post)).
Proof.
  induction post as [|q rest IH]; intros p s Hsig Hkept.
  - exists (thinkingBuilder p). simpl. unfold finishParts.
    by apply releaseTrailing_keeps, flushText_keeps, flushThinking_emits.
  - simpl in Hkept. cbn [runParts foldl]. fold (runParts (processPart q p) rest).
    destruct (flushText_fields p) as (Hf1 & Hf2 & Hf3).
    destruct (kindOf q) as [fc|t| |t|] eqn:Hk.
    + exists (thinkingBuilder p). apply finishParts_keeps, runParts_keeps.
      apply kindOf_call in Hk. unfold processPart. rewrite Hk.
      destruct (toolIdOf fc _) as [toolId made]. simpl. apply elem_of_app. left.
      by apply releaseTrailing_keeps, flushText_keeps, flushThinking_emits.
    + apply kindOf_reasoning in Hk as (Hfc & Htx & Hth).
      destruct (nsTrailingSignature p) as [held|] eqn:Hheld.
      * exists (thinkingBuilder p). apply finishParts_keeps, runParts_keeps.
        unfold processPart. rewrite Hfc, Htx, Hth. simpl. rewrite Hf3.
        apply releaseTrailing_keeps. rewrite <- Hf2. apply flushThinking_emits. congruence.
      * rewrite bool_decide_eq_false_2 in Hkept by (by intros [? ?]).
        destruct (tokenOf q) eqn:Htok; [done|].
        apply IH.
        -- unfold processPart. rewrite Hfc, Htx, Hth. unfold tokenOf in Htok.
           rewrite Htok. simpl. rewrite Hf3. simpl. congruence.
        -- unfold processPart. rewrite Hfc, Htx, Hth. simpl. rewrite Hf3. simpl.
           rewrite Hf3. by rewrite bool_decide_eq_false_2 by (by intros [? ?]).
    + apply kindOf_emptyText in Hk as (Hfc & Htx & Hth).
      apply IH.
      * unfold processPart. rewrite Hfc, Htx, Hth. simpl.
        destruct (truthySignature (thoughtSignature q)); simpl; done.
      * unfold processPart. rewrite Hfc, Htx, Hth. simpl. unfold tokenOf in Hkept.
        destruct (truthySignature (thoughtSignature q)) as [sig|] eqn:E; simpl.
        -- rewrite (bool_decide_eq_true_2 (is_Some (Some sig))) in Hkept by (by eexists).
           rewrite orb_true_r in Hkept. exact Hkept.
        -- rewrite (bool_decide_eq_false_2 (is_Some None)) in Hkept by (by intros [? ?]).
           by rewrite orb_false_r in Hkept.
    + exists (thinkingBuilder p). apply finishParts_keeps, runParts_keeps.
      apply kindOf_text in Hk as (Hfc & Htx & Hth & Hne).
      assert (Hin : BkThinking (thinkingBuilder p) (Some s) ∈
                contentBlocks (match nsTrailingSignature (flushThinking p) with
                               | Some _ => releaseTrailing (flushText (flushThinking p))
                               | None => flushThinking p
                               end)).
      { destruct (nsTrailingSignature (flushThinking p)).
        - by apply releaseTrailing_keeps, flushText_keeps, flushThinking_emits.
        - by apply flushThinking_emits. }
      unfold processPart. rewrite Hfc, Htx, Hth, Hne.
      destruct (truthySignature (thoughtSignature q)); [|done].
      cbn [nsHasThinking]. match goal with |- context [if ?c then _ else _] => destruct c end;
        [|done].
      unfold pushBlock. cbn [contentBlocks]. apply elem_of_app. left.
      by apply flushText_keeps.
    + apply kindOf_nothing in Hk as (Hfc & Htx).
      assert (processPart q p = p) as -> by (unfold processPart; by rewrite Hfc, Htx).
      by apply IH.
Qed.

Lemma ns_held_token post : forall p s,
  nsTrailingSignature p = Some s -> nsHasThinking p = true ->
  releaseOf post <> Replaced ->
  BkThinking "" (Some s) ∈ contentBlocks (finishParts (runParts p post)).
Proof.
  induction post as [|q rest IH]; intros p s Hheld Hthink Hrel.
  - simpl. unfold finishParts. apply releaseTrailing_emits.
    + destruct (flushText_fields (flushThinking p)) as (_ & _ & ->).
      by rewrite flushThinking_trailing.
    + by rewrite flushText_hasThinking, flushThinking_hasThinking.
  - simpl in Hrel. cbn [runParts foldl]. fold (runParts (processPart q p) rest).
    destruct (flushText_fields p) as (Hf1 & Hf2 & Hf3).
    destruct (flushText_fields (flushThinking p)) as (_ & _ & Hf4).
    destruct (kindOf q) as [fc|t| |t|] eqn:Hk.
    + apply finishParts_keeps, runParts_keeps.
      apply kindOf_call in Hk. unfold processPart. rewrite Hk.
      destruct (toolIdOf fc _) as [toolId made]. simpl. apply elem_of_app. left.
      apply releaseTrailing_emits.
      * by rewrite Hf4, flushThinking_trailing.
      * by rewrite flushText_hasThinking, flushThinking_hasThinking.
    + apply finishParts_keeps, runParts_keeps.
      apply kindOf_reasoning in Hk as (Hfc & Htx & Hth).
      unfold processPart. rewrite Hfc, Htx, Hth. simpl. rewrite Hf3, Hheld.
      apply releaseTrailing_emits.
      * by rewrite flushThinking_trailing, Hf3.
      * by rewrite flushThinking_hasThinking, flushText_hasThinking.
    + apply kindOf_emptyText in Hk as (Hfc & Htx & Hth).
      destruct (tokenOf q) eqn:Htok; [done|].
      assert (processPart q p = p) as ->.
      { unfold processPart. rewrite Hfc, Htx, Hth. unfold tokenOf in Htok.
        by rewrite Htok. }
      by apply IH.
    + apply finishParts_keeps, runParts_keeps.
      apply kindOf_text in Hk as (Hfc & Htx & Hth & Hne).
      assert (Hin : BkThinking "" (Some s) ∈
                contentBlocks (match nsTrailingSignature (flushThinking p) with
                               | Some _ => releaseTrailing (flushText (flushThinking p))
                               | None => flushThinking p
                               end)).
      { rewrite flushThinking_trailing, Hheld. apply releaseTrailing_emits.
        - by rewrite Hf4, flushThinking_trailing.
        - by rewrite flushText_hasThinking, flushThinking_hasThinking. }
      unfold processPart. rewrite Hfc, Htx, Hth, Hne.
      destruct (truthySignature (thoughtSignature q)); [|done].
      cbn [nsHasThinking]. match goal with |- context [if ?c then _ else _] => destruct c end;
        [|done].
      unfold pushBlock. cbn [contentBlocks]. apply elem_of_app. left.
      by apply flushText_keeps.
    + apply kindOf_nothing in Hk as (Hfc & Htx).
      assert (processPart q p = p) as -> by (unfold processPart; by rewrite Hfc, Htx).
      by apply IH.
Qed.


(** A processor that has met no reasoning and holds no thinking block. *)
Definition plainProcessor (p : NonStreamingProcessor) : Prop :=
  nsHasThinking p = false /\ thinkingBuilder p = "" /\ thinkingSignature p = None
  /\ Forall (fun b => isThinkingBlock b = false) (contentBlocks p).

Lemma flushThinking_plain p : plainProcessor p -> flushThinking p = p.
Proof. intros (_ & Hb & Hs & _). unfold flushThinking. by rewrite Hb, Hs. Qed.

Lemma flushText_plain p : plainProcessor p -> plainProcessor (flushText p).
Proof.
  intros (H1 & H2 & H3 & H4). unfold flushText, plainProcessor.
  destruct (String.eqb (textBuilder p) ""); simpl; [done|].
  repeat split; try done. apply Forall_app. split; [done|]. by repeat constructor.
Qed.

Lemma releaseTrailing_plain p : plainProcessor p -> plainProcessor (releaseTrailing p).
Proof.
  intros (H1 & H2 & H3 & H4). unfold releaseTrailing, plainProcessor.
  destruct (nsTrailingSignature p); [|done]. rewrite H1. simpl. done.
Qed.

Lemma processPart_plain part p :
  thought part = false -> plainProcessor p -> plainProcessor (processPart part p).
Proof.
  intros Hth Hp. unfold processPart. rewrite Hth.
  rewrite (flushThinking_plain p Hp).
  destruct (functionCall part) as [fc|].
  { destruct (toolIdOf fc _) as [toolId made] eqn:E.
    destruct (releaseTrailing_plain _ (flushText_plain _ Hp)) as (H1 & H2 & H3 & H4).
    unfold plainProcessor. simpl. repeat split; try done.
    apply Forall_app. split; [done|]. by repeat constructor. }
  destruct (text part) as [t|]; [|done].
  destruct (String.eqb t "").
  { destruct (truthySignature (thoughtSignature part)); [|done].
    destruct Hp as (H1 & H2 & H3 & H4). by unfold plainProcessor. }
  set (p2 := match nsTrailingSignature p with
             | Some _ => releaseTrailing (flushText p)
             | None => p
             end).
  assert (Hp2 : plainProcessor p2).
  { subst p2. destruct (nsTrailingSignature p); [|done].
    by apply releaseTrailing_plain, flushText_plain. }
  clearbody p2. destruct Hp2 as (H1 & H2 & H3 & H4).
  destruct (truthySignature (thoughtSignature part)); cbn [nsHasThinking];
    rewrite ?H1; by unfold plainProcessor.
Qed.

Lemma runParts_plain l p :
  existsb thought l = false -> plainProcessor p -> plainProcessor (runParts p l).
Proof.
  revert p. induction l as [|q rest IH]; intros p Hl Hp; simpl in *; [done|].
  apply orb_false_iff in Hl as [Hq Hrest]. apply IH; [done|]. by apply processPart_plain.
Qed.

Lemma finishParts_plain p : plainProcessor p -> plainProcessor (finishParts p).
Proof.
  intros Hp. unfold finishParts. rewrite (flushThinking_plain p Hp).
  by apply releaseTrailing_plain, flushText_plain.
Qed.



(** *** Streaming: the block machine *)

Definition runStream (st : StreamingState) (l : list Part) : StreamingState :=
  foldl (fun st part => process part st) st l.

(** A pending reasoning signature belongs to an open thinking block. *)
Definition pendingInThinking (st : StreamingState) : Prop :=
  pending st <> None -> blockType st = BLOCK_THINKING.

(** An open thinking block has been started in the stream. *)
Definition thinkingStarted (st : StreamingState) : Prop :=
  blockType st = BLOCK_THINKING ->
  exists th sg, ContentBlockStart (blockIndex st) (CBThinking th sg) ∈ events st.

Lemma grows_elem (a b : list Event) e : a `prefix_of` b -> e ∈ a -> e ∈ b.
Proof. intros [k ->] H. apply elem_of_app. by left. Qed.

Lemma grows_snoc (a : list Event) e : a `prefix_of` a ++ [e].
Proof. by eexists. Qed.

(** [endBlock], once and for all. *)
Lemma endBlock_spec st :
  events st `prefix_of` events (endBlock st)
  /\ trailingSignature (endBlock st) = trailingSignature st
  /\ hasThinking (endBlock st) = hasThinking st
  /\ usedTool (endBlock st) = usedTool st
  /\ messageStopSent (endBlock st) = messageStopSent st
  /\ (blockType st = BLOCK_NONE -> endBlock st = st)
  /\ blockType (endBlock st) = BLOCK_NONE
  /\ (pendingInThinking st -> pending (endBlock st) = None)
  /\ (forall s, blockType st = BLOCK_THINKING -> pending st = Some s ->
        ContentBlockDelta (blockIndex st) (SignatureDelta s) ∈ events (endBlock st))
  /\ (blockType st <> BLOCK_NONE -> pending st = None ->
        events (endBlock st) = events st ++ [ContentBlockStop (blockIndex st)]
        /\ blockIndex (endBlock st) = S (blockIndex st))
  /\ (forall P : Event -> Prop,
        (forall k, P (ContentBlockStop k)) ->
        (blockType st = BLOCK_THINKING -> forall k s, P (ContentBlockDelta k (SignatureDelta s))) ->
        Forall P (events st) -> Forall P (events (endBlock st))).
Proof.
  unfold endBlock, pendingInThinking.
  destruct (blockType st) eqn:Hb, (pending st) as [sig|] eqn:Hp;
    autorewrite with stream; repeat split; try done;
    try (intros; congruence);
    try (intros H; exfalso; by (discriminate (H ltac:(done))));
    try (rewrite <- ?app_assoc; by eexists);
    try (intros P HP1 HP2 HF; rewrite ?Forall_app; repeat split; auto;
         repeat constructor; auto).
  intros s _ [= ->]. rewrite elem_of_app. left. rewrite elem_of_app. right.
  by apply list_elem_of_singleton.
Qed.

Lemma startBlock_spec t cb st :
  events st `prefix_of` events (startBlock t cb st)
  /\ trailingSignature (startBlock t cb st) = trailingSignature st
  /\ hasThinking (startBlock t cb st) = hasThinking st
  /\ usedTool (startBlock t cb st) = usedTool st
  /\ messageStopSent (startBlock t cb st) = messageStopSent st
  /\ blockType (startBlock t cb st) = t
  /\ (pendingInThinking st -> pending (startBlock t cb st) = None)
  /\ (forall s, blockType st = BLOCK_THINKING -> pending st = Some s ->
        ContentBlockDelta (blockIndex st) (SignatureDelta s) ∈ events (startBlock t cb st))
  /\ (exists e0 cb',
        events st `prefix_of` e0
        /\ events (startBlock t cb st)
           = e0 ++ [ContentBlockStart (blockIndex (startBlock t cb st)) cb']
        /\ cb' = match cb with CBThinking th None => CBThinking th (Some "") | _ => cb end
        /\ forall P : Event -> Prop,
             (forall k, P (ContentBlockStop k)) ->
             (blockType st = BLOCK_THINKING ->
              forall k s, P (ContentBlockDelta k (SignatureDelta s))) ->
             Forall P (events st) -> Forall P e0).
Proof.
  destruct (endBlock_spec st) as (E1 & E2 & E3 & E4 & E5 & E6 & E7 & E8 & E9 & E10 & E11).
  unfold startBlock. cbv zeta.
  set (st1 := match blockType st with BLOCK_NONE => st | _ => endBlock st end).
  assert (Hst1 : st1 = endBlock st).
  { subst st1. destruct (blockType st) eqn:Hb; [by rewrite E6|done..]. }
  rewrite Hst1. clear st1 Hst1. autorewrite with stream.
  repeat split; try done.
  - etrans; [exact E1|apply grows_snoc].
  - intros s Hb Hp. apply elem_of_app. left. by apply E9.
  - eexists (events (endBlock st)), _. repeat split; try done.
Qed.


(** A token carried by a thinking block of the stream. *)
Definition tokenOnThinkingBlock (s : string) (evs : list Event) : Prop :=
  exists k th sg,
    ContentBlockStart k (CBThinking th sg) ∈ evs
    /\ ContentBlockDelta k (SignatureDelta s) ∈ evs.

(** An empty thinking block of the stream that carries the token and nothing else. *)
Definition carrierIn (s : string) (evs : list Event) : Prop :=
  exists k e1 e2, evs = e1 ++ carrierEvents k s ++ e2.

Lemma tokenOnThinkingBlock_grows s a b :
  a `prefix_of` b -> tokenOnThinkingBlock s a -> tokenOnThinkingBlock s b.
Proof. intros Hab (k & th & sg & H1 & H2). exists k, th, sg. eauto using grows_elem. Qed.

Lemma carrierIn_grows s a b : a `prefix_of` b -> carrierIn s a -> carrierIn s b.
Proof.
  intros [ext ->] (k & e1 & e2 & ->). exists k, e1, (e2 ++ ext).
  by rewrite <- !app_assoc.
Qed.

(** The thinking block that is open, holding [s] for its close. *)
Definition openReasoning (s : string) (st : StreamingState) : Prop :=
  blockType st = BLOCK_THINKING /\ pending st = Some s
  /\ exists th sg, ContentBlockStart (blockIndex st) (CBThinking th sg) ∈ events st.

Lemma openReasoning_closed s st st' :
  openReasoning s st ->
  events st `prefix_of` events st' ->
  ContentBlockDelta (blockIndex st) (SignatureDelta s) ∈ events st' ->
  tokenOnThinkingBlock s (events st').
Proof.
  intros (_ & _ & th & sg & Hstart) Hg Hd. exists (blockIndex st), th, sg.
  eauto using grows_elem.
Qed.

Lemma emitCarrierBlock_spec sig st :
  events st `prefix_of` events (emitCarrierBlock sig st)
  /\ trailingSignature (emitCarrierBlock sig st) = trailingSignature st
  /\ hasThinking (emitCarrierBlock sig st) = hasThinking st
  /\ blockType (emitCarrierBlock sig st) = BLOCK_NONE
  /\ (pendingInThinking st -> pending (emitCarrierBlock sig st) = None)
  /\ (forall s, blockType st = BLOCK_THINKING -> pending st = Some s ->
        ContentBlockDelta (blockIndex st) (SignatureDelta s)
          ∈ events (emitCarrierBlock sig st))
  /\ (pendingInThinking st -> carrierIn sig (events (emitCarrierBlock sig st))).
Proof.
  unfold emitCarrierBlock.
  destruct (startBlock_spec BLOCK_THINKING (CBThinking "" None) st)
    as (S1 & S2 & S3 & _ & _ & S4 & S5 & S6 & (e0 & cb' & S7 & S8 & S9 & _)).
  set (sb := startBlock BLOCK_THINKING (CBThinking "" None) st) in *. clearbody sb.
  set (x := emitDelta (SignatureDelta sig) (emitDelta (ThinkingDelta "") sb)).
  assert (Hx : events sb `prefix_of` events x).
  { subst x. autorewrite with stream. rewrite <- app_assoc. by eexists. }
  assert (Hxt : blockType x = BLOCK_THINKING) by (subst x; by autorewrite with stream).
  assert (Hxp : pending x = pending sb) by (subst x; by autorewrite with stream).
  assert (Hxi : blockIndex x = blockIndex sb) by (subst x; by autorewrite with stream).
  assert (Hxe : events x = events sb ++ [ContentBlockDelta (blockIndex sb) (ThinkingDelta "");
                                          ContentBlockDelta (blockIndex sb) (SignatureDelta sig)]).
  { subst x. autorewrite with stream. by rewrite <- app_assoc. }
  assert (Hxs : trailingSignature x = trailingSignature sb /\ hasThinking x = hasThinking sb)
    by (subst x; by autorewrite with stream).
  destruct Hxs as [Hxs1 Hxs2].
  destruct (endBlock_spec x) as (E1 & E2 & E3 & _ & _ & _ & E7 & E8 & _ & E10 & _).
  clearbody x.
  repeat split.
  - etrans; [exact S1|]. etrans; [exact Hx|exact E1].
  - congruence.
  - congruence.
  - done.
  - intros HI. apply E8. intros _. done.
  - intros s Hb Hp. eapply grows_elem; [etrans; [exact Hx|exact E1]|]. by apply S6.
  - intros HI. destruct E10 as [E10 _]; [congruence|rewrite Hxp; by apply S5|].
    rewrite E10, Hxe, S8, S9, Hxi. exists (blockIndex sb), e0, [].
    rewrite app_nil_r. unfold carrierEvents. by rewrite <- !app_assoc.
Qed.

Lemma processThinking_spec t st :
  events st `prefix_of` events (processThinking t st)
  /\ trailingSignature (processThinking t st) = trailingSignature st
  /\ hasThinking (processThinking t st) = hasThinking st
  /\ blockType (processThinking t st) = BLOCK_THINKING
  /\ (thinkingStarted st -> thinkingStarted (processThinking t st))
  /\ (forall s, openReasoning s st ->
        openReasoning s (processThinking t st)
        /\ blockIndex (processThinking t st) = blockIndex st).
Proof.
  unfold processThinking.
  destruct (startBlock_spec BLOCK_THINKING (CBThinking "" None) st)
    as (S1 & S2 & S3 & _ & _ & S4 & S5 & S6 & (e0 & cb' & S7 & S8 & S9 & _)).
  set (sb := startBlock BLOCK_THINKING (CBThinking "" None) st) in *. clearbody sb.
  assert (Hnew : thinkingStarted (emitDelta (ThinkingDelta t) sb)).
  { intros _. autorewrite with stream. eexists _, _. apply elem_of_app. left.
    rewrite S8, S9. apply elem_of_app. right. by apply list_elem_of_singleton. }
  destruct (blockType st) eqn:Hb; split_and!; autorewrite with stream; try done;
    try (etrans; [exact S1|apply grows_snoc]); try apply grows_snoc;
    try (by intros _); try (intros ? [? _]; congruence).
  - intros HI _. autorewrite with stream. destruct (HI Hb) as (th & sg & Hin).
    exists th, sg. apply elem_of_app. by left.
  - intros s (_ & Hp & th & sg & Hin). unfold openReasoning.
    autorewrite with stream. split_and!; try done.
    exists th, sg. apply elem_of_app. by left.
Qed.


(** The events that put a token on a thinking block. *)
Definition tokenEvent (e : Event) : bool :=
  match e with
  | ContentBlockStart _ (CBThinking _ _) => true
  | ContentBlockDelta _ (SignatureDelta _) => true
  | _ => false
  end.

Definition noTokenEvents (evs : list Event) : Prop :=
  Forall (fun e => tokenEvent e = false) evs.

Lemma pendingInThinking_None st :
  pendingInThinking st -> blockType st <> BLOCK_THINKING -> pending st = None.
Proof.
  unfold pendingInThinking. intros HI Hb.
  destruct (pending st); [|done]. exfalso. apply Hb, HI. done.
Qed.

Lemma endBlock_quiet st :
  blockType st <> BLOCK_THINKING -> noTokenEvents (events st) ->
  noTokenEvents (events (endBlock st)).
Proof.
  intros Hb Hq.
  destruct (endBlock_spec st) as (_ & _ & _ & _ & _ & _ & _ & _ & _ & _ & E11).
  apply (E11 (fun e => tokenEvent e = false)); first [done|intros ?; congruence].
Qed.

Lemma processText_spec t st :
  String.eqb t "" = false ->
  events st `prefix_of` events (processText t st)
  /\ trailingSignature (processText t st) = trailingSignature st
  /\ hasThinking (processText t st) = hasThinking st
  /\ blockType (processText t st) = BLOCK_TEXT
  /\ (pendingInThinking st -> pending (processText t st) = None)
  /\ (forall s, blockType st = BLOCK_THINKING -> pending st = Some s ->
        ContentBlockDelta (blockIndex st) (SignatureDelta s) ∈ events (processText t st))
  /\ (blockType st <> BLOCK_THINKING -> noTokenEvents (events st) ->
        noTokenEvents (events (processText t st))).
Proof.
  intros Hne. unfold processText. rewrite Hne.
  destruct (startBlock_spec BLOCK_TEXT (CBText "") st)
    as (S1 & S2 & S3 & _ & _ & S4 & S5 & S6 & (e0 & cb' & S7 & S8 & S9 & S10)).
  set (sb := startBlock BLOCK_TEXT (CBText "") st) in *. clearbody sb.
  assert (Hq : blockType st <> BLOCK_THINKING -> noTokenEvents (events st) ->
               noTokenEvents (events (emitDelta (TextDelta t) sb))).
  { intros Hb Hq. autorewrite with stream. rewrite S8, S9. unfold noTokenEvents.
    rewrite !Forall_app. split_and!; [|by repeat constructor..].
    apply (S10 (fun e => tokenEvent e = false)); first [done|intros ?; congruence]. }
  destruct (blockType st) eqn:Hb; split_and!; autorewrite with stream; try done;
    try (etrans; [exact S1|apply grows_snoc]); try apply grows_snoc;
    try (intros; congruence);
    try (intros s _ Hp; apply elem_of_app; left; by apply S6).
  - intros HI. by apply pendingInThinking_None; [|congruence].
  - intros _ Hq'. unfold noTokenEvents. rewrite Forall_app. split; [done|].
    by repeat constructor.
Qed.

Lemma processFunctionCall_spec fc sig st :
  events st `prefix_of` events (processFunctionCall fc sig st)
  /\ trailingSignature (processFunctionCall fc sig st) = trailingSignature st
  /\ hasThinking (processFunctionCall fc sig st) = hasThinking st
  /\ blockType (processFunctionCall fc sig st) = BLOCK_FUNCTION
  /\ (pendingInThinking st -> pending (processFunctionCall fc sig st) = None)
  /\ (forall s, blockType st = BLOCK_THINKING -> pending st = Some s ->
        ContentBlockDelta (blockIndex st) (SignatureDelta s)
          ∈ events (processFunctionCall fc sig st))
  /\ (blockType st <> BLOCK_THINKING -> noTokenEvents (events st) ->
        noTokenEvents (events (processFunctionCall fc sig st)))
  /\ (exists k id,
        ContentBlockStart k (CBToolUse id (fc_name fc) (truthySignature sig))
          ∈ events (processFunctionCall fc sig st)).
Proof.
  unfold processFunctionCall. destruct (toolIdOf fc (idsMade st)) as [toolId made].
  cbv zeta.
  destruct (startBlock_spec BLOCK_FUNCTION
              (CBToolUse toolId (fc_name fc) (truthySignature sig)) st)
    as (S1 & S2 & S3 & _ & _ & S4 & S5 & S6 & (e0 & cb' & S7 & S8 & S9 & S10)).
  set (sb := startBlock BLOCK_FUNCTION _ st) in *. clearbody sb.
  set (st2 := match fc_args fc with
              | Some args =>
                  if truthy args then emitDelta (InputJsonDelta (stringify args)) sb else sb
              | None => sb
              end).
  assert (H2 : (events st2 = events sb
                \/ exists d, events st2 = events sb ++ [ContentBlockDelta (blockIndex sb) (InputJsonDelta d)])
               /\ trailingSignature st2 = trailingSignature sb
               /\ hasThinking st2 = hasThinking sb
               /\ blockType st2 = blockType sb
               /\ pending st2 = pending sb).
  { subst st2. destruct (fc_args fc) as [args|]; [destruct (truthy args)|];
      autorewrite with stream; split_and!; eauto. }
  clearbody st2. destruct H2 as (He & Ht & Hh & Hb & Hp). cbn.
  assert (Hg : events sb `prefix_of` events st2).
  { destruct He as [->|[d ->]]; [done|apply grows_snoc]. }
  split_and!; try congruence.
  - etrans; [exact S1|exact Hg].
  - intros HI. rewrite Hp. auto.
  - intros s Hb' Hp'. eapply grows_elem; [exact Hg|by apply S6].
  - intros Hb' Hq.
    assert (Hsb : noTokenEvents (events sb)).
    { rewrite S8, S9. unfold noTokenEvents. rewrite Forall_app. split; [|by repeat constructor].
      apply (S10 (fun e => tokenEvent e = false)); first [done|intros ?; congruence]. }
    destruct He as [->|[d ->]]; [done|]. unfold noTokenEvents. rewrite Forall_app.
    split; [done|by repeat constructor].
  - exists (blockIndex sb), toolId. eapply grows_elem; [exact Hg|].
    rewrite S8, S9. apply elem_of_app. right. by apply list_elem_of_singleton.
Qed.

Lemma emitSignedText_spec t sig st :
  events st `prefix_of` events (emitSignedText t sig st)
  /\ trailingSignature (emitSignedText t sig st) = trailingSignature st
  /\ hasThinking (emitSignedText t sig st) = hasThinking st
  /\ blockType (emitSignedText t sig st) = BLOCK_NONE
  /\ (pendingInThinking st -> pending (emitSignedText t sig st) = None)
  /\ (forall s, blockType st = BLOCK_THINKING -> pending st = Some s ->
        ContentBlockDelta (blockIndex st) (SignatureDelta s)
          ∈ events (emitSignedText t sig st))
  /\ carrierIn sig (events (emitSignedText t sig st)).
Proof.
  unfold emitSignedText. cbv zeta.
  destruct (endBlock_spec st) as (A1 & A2 & A3 & _ & _ & _ & A7 & A8 & A9 & _ & _).
  set (a := endBlock st) in *. clearbody a.
  destruct (startBlock_spec BLOCK_TEXT (CBText "") a)
    as (B1 & B2 & B3 & _ & _ & B4 & B5 & _ & _).
  set (b := startBlock BLOCK_TEXT (CBText "") a) in *. clearbody b.
  set (c := emitDelta (TextDelta t) b).
  assert (Hc : events b `prefix_of` events c /\ trailingSignature c = trailingSignature b
               /\ hasThinking c = hasThinking b /\ blockType c = blockType b
               /\ pending c = pending b).
  { subst c. autorewrite with stream. split_and!; try done. apply grows_snoc. }
  clearbody c. destruct Hc as (C1 & C2 & C3 & C4 & C5).
  destruct (endBlock_spec c) as (D1 & D2 & D3 & _ & _ & _ & D7 & D8 & _ & _ & _).
  set (d := endBlock c) in *. clearbody d.
  autorewrite with stream.
  assert (Hg : events st `prefix_of` events d).
  { etrans; [exact A1|]. etrans; [exact B1|]. etrans; [exact C1|exact D1]. }
  split_and!; try congruence.
  - etrans; [exact Hg|]. rewrite <- !app_assoc. by eexists.
  - intros HI. apply D8. intros Hp. exfalso. apply Hp. rewrite C5. apply B5.
    intros Hp'. exfalso. apply Hp'. by apply A8.
  - intros s Hb Hp. rewrite !elem_of_app. do 4 left.
    eapply grows_elem; [|by apply A9]. etrans; [exact B1|]. etrans; [exact C1|exact D1].
  - exists (blockIndex d), (events d), []. unfold carrierEvents.
    by rewrite <- !app_assoc.
Qed.


Lemma releaseHeld_spec st :
  events st `prefix_of` events (releaseHeld st)
  /\ trailingSignature (releaseHeld st) = None
  /\ hasThinking (releaseHeld st) = hasThinking st
  /\ (pendingInThinking st -> pendingInThinking (releaseHeld st))
  /\ (thinkingStarted st -> thinkingStarted (releaseHeld st))
  /\ (forall s, openReasoning s st ->
        ContentBlockDelta (blockIndex st) (SignatureDelta s) ∈ events (releaseHeld st)
        \/ (openReasoning s (releaseHeld st)
            /\ blockIndex (releaseHeld st) = blockIndex st))
  /\ (hasThinking st = false ->
        events (releaseHeld st) = events st /\ blockType (releaseHeld st) = blockType st)
  /\ (forall s, trailingSignature st = Some s -> hasThinking st = true ->
        pendingInThinking st -> carrierIn s (events (releaseHeld st))).
Proof.
  unfold releaseHeld.
  destruct (trailingSignature st) as [sig|] eqn:Ht.
  2:{ split_and!; try done. intros s Ho. by right. }
  destruct (emitCarrierBlock_spec sig st) as (C1 & C2 & C3 & C4 & C5 & C6 & C7).
  destruct (hasThinking st) eqn:Hh; autorewrite with stream; split_and!; try done.
  - intros HI Hp. autorewrite with stream in Hp. by rewrite C5 in Hp.
  - intros s (Hb & Hp & _). left. by apply C6.
  - intros s [= ->] _ HI. by apply C7.
  - intros s Ho. right. split; [|done].
    unfold openReasoning in *. by autorewrite with stream.
Qed.

Lemma emitFinish_spec fr um ex st :
  events st `prefix_of` events (emitFinish fr um ex st)
  /\ (forall s, blockType st = BLOCK_THINKING -> pending st = Some s ->
        ContentBlockDelta (blockIndex st) (SignatureDelta s)
          ∈ events (emitFinish fr um ex st))
  /\ (forall s, trailingSignature st = Some s -> hasThinking st = true ->
        carrierIn s (events (emitFinish fr um ex st)))
  /\ (hasThinking st = false -> blockType st <> BLOCK_THINKING ->
        noTokenEvents (events st) -> noTokenEvents (events (emitFinish fr um ex st))).
Proof.
  unfold emitFinish. cbv zeta.
  destruct (endBlock_spec st) as (E1 & E2 & E3 & _ & _ & _ & E7 & _ & E9 & _ & _).
  pose proof (endBlock_quiet st) as Eq.
  set (st1 := endBlock st) in *. clearbody st1.
  set (st2 := match trailingSignature st1 with
              | Some sig =>
                  if hasThinking st1 then _ else setTrailing None st1
              | None => st1
              end).
  assert (H2 : events st1 `prefix_of` events st2
               /\ (forall s, trailingSignature st1 = Some s -> hasThinking st1 = true ->
                     carrierIn s (events st2))
               /\ (hasThinking st1 = false -> events st2 = events st1)).
  { subst st2. destruct (trailingSignature st1) as [sig|].
    - destruct (hasThinking st1); autorewrite with stream; split_and!; try done.
      + rewrite <- !app_assoc. by eexists.
      + intros s [= ->] _. exists (blockIndex st1), (events st1), [].
        unfold carrierEvents. by rewrite <- !app_assoc.
    - split_and!; done. }
  clearbody st2. destruct H2 as (G1 & G2 & G3).
  set (u := toClaudeUsage _). clearbody u.
  set (st3 := emit (MessageDelta (stopReason (usedTool st2) fr) u ex) st2).
  assert (H3 : events st3 = events st2 ++ [MessageDelta (stopReason (usedTool st2) fr) u ex])
    by (subst st3; by autorewrite with stream).
  assert (Hm : messageStopSent st3 = messageStopSent st2)
    by (subst st3; by autorewrite with stream).
  clearbody st3.
  assert (Hf : exists tail,
            events (if messageStopSent st3 then st3
                    else {| blockType := blockType (emit MessageStop st3);
                            blockIndex := blockIndex (emit MessageStop st3);
                            messageStopSent := true;
                            usedTool := usedTool (emit MessageStop st3);
                            hasThinking := hasThinking (emit MessageStop st3);
                            pending := pending (emit MessageStop st3);
                            trailingSignature := trailingSignature (emit MessageStop st3);
                            events := events (emit MessageStop st3);
                            toolThoughtSignatures := toolThoughtSignatures (emit MessageStop st3);
                            idsMade := idsMade (emit MessageStop st3) |})
            = events st2 ++ tail /\ noTokenEvents tail).
  { destruct (messageStopSent st3); cbn [events]; autorewrite with stream; rewrite H3.
    - eexists. split; [done|]. by repeat constructor.
    - rewrite <- app_assoc. eexists. split; [done|]. by repeat constructor. }
  destruct Hf as (tail & -> & Htail).
  assert (Hg : events st `prefix_of` events st2 ++ tail).
  { etrans; [exact E1|]. etrans; [exact G1|]. by eexists. }
  split_and!.
  - exact Hg.
  - intros s Hb Hp. eapply grows_elem; [|by apply E9]. etrans; [exact G1|by eexists].
  - intros s Ht Hh. eapply carrierIn_grows; [by eexists|]. apply G2; congruence.
  - intros Hh Hb Hq. unfold noTokenEvents. rewrite Forall_app. split; [|done].
    rewrite G3 by congruence. by apply Eq.
Qed.


(** The two invariants of the block machine. *)
Definition wellFormed (st : StreamingState) : Prop :=
  pendingInThinking st /\ thinkingStarted st.

Lemma wellFormed_fields st st' :
  blockType st' = blockType st -> blockIndex st' = blockIndex st ->
  pending st' = pending st -> events st' = events st ->
  wellFormed st -> wellFormed st'.
Proof.
  unfold wellFormed, pendingInThinking, thinkingStarted.
  intros -> -> -> ->. done.
Qed.

Lemma openReasoning_fields s st st' :
  blockType st' = blockType st -> blockIndex st' = blockIndex st ->
  pending st' = pending st -> events st' = events st ->
  openReasoning s st -> openReasoning s st'.
Proof. unfold openReasoning. intros -> -> -> ->. done. Qed.

Lemma wellFormed_closed st :
  blockType st <> BLOCK_THINKING -> pending st = None -> wellFormed st.
Proof.
  intros Hb Hp. split.
  - intros Hn. by rewrite Hp in Hn.
  - intros Ht. by rewrite Ht in Hb.
Qed.

Lemma processReasoning_spec t sig st :
  wellFormed st ->
  events st `prefix_of` events (processReasoning t sig st)
  /\ wellFormed (processReasoning t sig st)
  /\ hasThinking (processReasoning t sig st) = true
  /\ trailingSignature (processReasoning t sig st) = None
  /\ (forall s, trailingSignature st = Some s ->
        carrierIn s (events (processReasoning t sig st)))
  /\ (forall s, openReasoning s st -> trailingSignature st <> None ->
        ContentBlockDelta (blockIndex st) (SignatureDelta s)
          ∈ events (processReasoning t sig st))
  /\ (forall s, openReasoning s st -> trailingSignature st = None -> sig = None ->
        openReasoning s (processReasoning t sig st)
        /\ blockIndex (processReasoning t sig st) = blockIndex st)
  /\ (forall s, sig = Some s -> openReasoning s (processReasoning t sig st)).
Proof.
  intros Hwf. unfold processReasoning. cbv zeta.
  assert (Hwf1 : wellFormed (setHasThinking st))
    by (eapply wellFormed_fields; [..|exact Hwf]; by autorewrite with stream).
  set (st2 := match trailingSignature (setHasThinking st) with
              | Some sig0 => setTrailing None (emitCarrierBlock sig0 (setHasThinking st))
              | None => setHasThinking st
              end).
  assert (H2 : events st `prefix_of` events st2
               /\ wellFormed st2
               /\ hasThinking st2 = true
               /\ trailingSignature st2 = None
               /\ (forall s, trailingSignature st = Some s -> carrierIn s (events st2))
               /\ (forall s, openReasoning s st -> trailingSignature st <> None ->
                     ContentBlockDelta (blockIndex st) (SignatureDelta s) ∈ events st2)
               /\ (forall s, openReasoning s st -> trailingSignature st = None ->
                     openReasoning s st2 /\ blockIndex st2 = blockIndex st)).
  { subst st2. autorewrite with stream.
    destruct (trailingSignature st) as [sg|] eqn:Ht.
    - destruct (emitCarrierBlock_spec sg (setHasThinking st))
        as (C1 & C2 & C3 & C4 & C5 & C6 & C7).
      autorewrite with stream in *.
      split_and!.
      + done.
      + apply wellFormed_closed; autorewrite with stream; [congruence|].
        apply C5, Hwf1.
      + done.
      + done.
      + intros s [= ->]. apply C7, Hwf1.
      + intros s (Hb & Hp & _) _. by apply C6.
      + done.
    - split_and!.
      + by autorewrite with stream.
      + done.
      + by autorewrite with stream.
      + done.
      + done.
      + done.
      + intros s Ho _. split; [|by autorewrite with stream].
        eapply openReasoning_fields; [..|exact Ho]; by autorewrite with stream. }
  clearbody st2. destruct H2 as (G1 & G2 & G3 & G4 & G5 & G6 & G7).
  destruct (processThinking_spec t st2) as (T1 & T2 & T3 & T4 & T5 & T6).
  set (st3 := processThinking t st2) in *. clearbody st3.
  assert (Hwf3 : wellFormed st3).
  { split; [by intros _|]. apply T5, G2. }
  assert (Hg : events st `prefix_of` events st3) by (by etrans).
  destruct sig as [sg|]; autorewrite with stream.
  - split_and!.
    + done.
    + split; [intros _; by autorewrite with stream|].
      unfold thinkingStarted. autorewrite with stream. apply Hwf3.
    + congruence.
    + congruence.
    + intros s Ht. eapply carrierIn_grows; [exact T1|by apply G5].
    + intros s Ho Ht. eapply grows_elem; [exact T1|by apply G6].
    + done.
    + intros s [= ->]. unfold openReasoning. autorewrite with stream.
      split_and!; [done..|]. by apply Hwf3.
  - split_and!.
    + done.
    + done.
    + congruence.
    + congruence.
    + intros s Ht. eapply carrierIn_grows; [exact T1|by apply G5].
    + intros s Ho Ht. eapply grows_elem; [exact T1|by apply G6].
    + intros s Ho Ht _. destruct (G7 s Ho Ht) as (Ho2 & Hi2).
      destruct (T6 s Ho2) as (Ho3 & Hi3). split; [done|congruence].
    + done.
Qed.


Lemma processAnswer_spec t sig st :
  String.eqb t "" = false ->
  wellFormed st ->
  events st `prefix_of` events (processAnswer t sig st)
  /\ wellFormed (processAnswer t sig st)
  /\ hasThinking (processAnswer t sig st) = hasThinking st
  /\ trailingSignature (processAnswer t sig st) = None
  /\ (forall s, openReasoning s st ->
        ContentBlockDelta (blockIndex st) (SignatureDelta s)
          ∈ events (processAnswer t sig st))
  /\ (forall s, trailingSignature st = Some s -> hasThinking st = true ->
        carrierIn s (events (processAnswer t sig st)))
  /\ (hasThinking st = false -> blockType st <> BLOCK_THINKING ->
        noTokenEvents (events st) ->
        noTokenEvents (events (processAnswer t sig st))
        /\ blockType (processAnswer t sig st) <> BLOCK_THINKING).
Proof.
  intros Ht (Hp & Hs). unfold processAnswer. cbv zeta.
  destruct (releaseHeld_spec st) as (R1 & R2 & R3 & R4 & R5 & R6 & R7 & R8).
  set (st1 := releaseHeld st) in *. clearbody st1.
  destruct (processText_spec t st1 Ht) as (X1 & X2 & X3 & X4 & X5 & X6 & X7).
  assert (Hflush : forall st',
    events st1 `prefix_of` events st' ->
    (forall s, blockType st1 = BLOCK_THINKING -> pending st1 = Some s ->
       ContentBlockDelta (blockIndex st1) (SignatureDelta s) ∈ events st') ->
    forall s, openReasoning s st ->
      ContentBlockDelta (blockIndex st) (SignatureDelta s) ∈ events st').
  { intros st' Hg Hf s Ho. destruct (R6 s Ho) as [Hin|((Hb & Hq & _) & Hi)].
    - by eapply grows_elem.
    - rewrite <- Hi. by apply Hf. }
  assert (Htext :
    events st `prefix_of` events (processText t st1)
    /\ wellFormed (processText t st1)
    /\ hasThinking (processText t st1) = hasThinking st
    /\ trailingSignature (processText t st1) = None
    /\ (forall s, openReasoning s st ->
          ContentBlockDelta (blockIndex st) (SignatureDelta s)
            ∈ events (processText t st1))
    /\ (forall s, trailingSignature st = Some s -> hasThinking st = true ->
          carrierIn s (events (processText t st1)))
    /\ (hasThinking st = false -> blockType st <> BLOCK_THINKING ->
          noTokenEvents (events st) ->
          noTokenEvents (events (processText t st1))
          /\ blockType (processText t st1) <> BLOCK_THINKING)).
  { split_and!.
    - by etrans.
    - apply wellFormed_closed; [congruence|]. by apply X5, R4.
    - congruence.
    - congruence.
    - by apply Hflush.
    - intros s Hh Hth. eapply carrierIn_grows; [exact X1|]. by apply R8.
    - intros Hh Hb Hq. destruct (R7 Hh) as (E1 & E2). split; [|congruence].
      apply X7; congruence. }
  destruct sig as [sg|]; [|exact Htext].
  destruct (hasThinking st1) eqn:Hh1; cbn [negb]; [|exact Htext].
  destruct (emitSignedText_spec t sg st1) as (Y1 & Y2 & Y3 & Y4 & Y5 & Y6 & Y7).
  split_and!.
  - by etrans.
  - apply wellFormed_closed; [congruence|]. by apply Y5, R4.
  - congruence.
  - congruence.
  - by apply Hflush.
  - intros s Hh Hth. eapply carrierIn_grows; [exact Y1|]. by apply R8.
  - intros Hh. congruence.
Qed.

Lemma holdSignature_spec sig st :
  events (holdSignature sig st) = events st
  /\ blockType (holdSignature sig st) = blockType st
  /\ blockIndex (holdSignature sig st) = blockIndex st
  /\ pending (holdSignature sig st) = pending st
  /\ hasThinking (holdSignature sig st) = hasThinking st
  /\ trailingSignature (holdSignature sig st)
     = match sig with Some s => Some s | None => trailingSignature st end.
Proof. destruct sig; cbn [holdSignature]; by autorewrite with stream. Qed.


(** [process], by the kind of the part. *)
Lemma process_kind part st :
  process part st
  = match kindOf part with
    | KCall fc => processFunctionCall fc (thoughtSignature part) (releaseHeld st)
    | KReasoning t => processReasoning t (tokenOf part) st
    | KEmptyText => holdSignature (tokenOf part) st
    | KText t => processAnswer t (tokenOf part) st
    | KNothing => st
    end.
Proof.
  unfold process, kindOf, tokenOf.
  destruct (functionCall part); [done|].
  destruct (text part) as [t|]; [|done].
  destruct (thought part), (String.eqb t ""); done.
Qed.

Lemma process_spec part st :
  wellFormed st ->
  events st `prefix_of` events (process part st)
  /\ wellFormed (process part st)
  /\ (hasThinking st = true -> hasThinking (process part st) = true).
Proof.
  intros Hwf. rewrite process_kind.
  destruct (kindOf part) as [fc|t| |t|] eqn:Hk.
  - destruct (releaseHeld_spec st) as (R1 & R2 & R3 & R4 & R5 & _).
    destruct (processFunctionCall_spec fc (thoughtSignature part) (releaseHeld st))
      as (F1 & F2 & F3 & F4 & F5 & _).
    split_and!.
    + by etrans.
    + apply wellFormed_closed; [congruence|]. apply F5, R4, Hwf.
    + congruence.
  - destruct (processReasoning_spec t (tokenOf part) st Hwf) as (P1 & P2 & P3 & _).
    done.
  - destruct (holdSignature_spec (tokenOf part) st) as (H1 & H2 & H3 & H4 & H5 & H6).
    split_and!.
    + by rewrite H1.
    + by eapply wellFormed_fields.
    + congruence.
  - apply kindOf_text in Hk as (_ & _ & _ & Ht).
    destruct (processAnswer_spec t (tokenOf part) st Ht Hwf) as (P1 & P2 & P3 & _).
    split_and!; [done..|congruence].
  - done.
Qed.

Lemma runStream_spec l : forall st,
  wellFormed st ->
  events st `prefix_of` events (runStream st l)
  /\ wellFormed (runStream st l)
  /\ (hasThinking st = true -> hasThinking (runStream st l) = true).
Proof.
  induction l as [|q rest IH]; intros st Hwf; [done|].
  cbn [runStream foldl]. fold (runStream (process q st) rest).
  destruct (process_spec q st Hwf) as (P1 & P2 & P3).
  destruct (IH _ P2) as (I1 & I2 & I3).
  split_and!; [by etrans|done|auto].
Qed.

Lemma runStream_app st l1 l2 :
  runStream st (l1 ++ l2) = runStream (runStream st l1) l2.
Proof. unfold runStream. by rewrite foldl_app. Qed.

Lemma wellFormed_new table : wellFormed (newStreamingState table).
Proof. by apply wellFormed_closed. Qed.

Lemma runStream_seenReasoning l : forall st,
  wellFormed st -> seenReasoning l = true -> hasThinking (runStream st l) = true.
Proof.
  induction l as [|q rest IH]; intros st Hwf Hs; [done|].
  cbn [runStream foldl]. fold (runStream (process q st) rest).
  destruct (process_spec q st Hwf) as (P1 & P2 & P3).
  unfold seenReasoning in Hs. cbn [existsb] in Hs.
  destruct (kindOf q) as [fc|t| |t|] eqn:Hk; cbn [orb] in Hs;
    try (apply IH; [done|exact Hs]).
  apply runStream_spec; [done|].
  rewrite process_kind, Hk.
  by destruct (processReasoning_spec t (tokenOf q) st Hwf) as (_ & _ & ? & _).
Qed.


(** *** Streaming: where the tokens go *)

Section Finish.

Variable finishReason : option string.
Variable usageMetadata : option UsageMetadata.

Definition finishStream (st : StreamingState) (l : list Part) : StreamingState :=
  emitFinish finishReason usageMetadata None (runStream st l).

Lemma finishStream_grows st l :
  wellFormed st -> events st `prefix_of` events (finishStream st l).
Proof.
  intros Hwf. unfold finishStream.
  destruct (runStream_spec l st Hwf) as (R1 & _).
  destruct (emitFinish_spec finishReason usageMetadata None (runStream st l)) as (E1 & _).
  by etrans.
Qed.

Lemma finishStream_cons st q l :
  finishStream st (q :: l) = finishStream (process q st) l.
Proof. done. Qed.

(** Once the open reasoning block has been closed with its token, the token
    is on a thinking block of the finished stream. *)
Lemma closed_later s st st' l :
  wellFormed st' -> openReasoning s st ->
  events st `prefix_of` events st' ->
  ContentBlockDelta (blockIndex st) (SignatureDelta s) ∈ events st' ->
  tokenOnThinkingBlock s (events (finishStream st' l)).
Proof.
  intros Hwf Ho Hg Hin.
  pose proof (finishStream_grows st' l Hwf) as Hg'.
  eapply openReasoning_closed; [exact Ho|by etrans|by eapply grows_elem].
Qed.

Lemma stream_reasoning_token post : forall st s,
  wellFormed st -> openReasoning s st ->
  reasoningTokenKept (bool_decide (is_Some (trailingSignature st))) post = true ->
  tokenOnThinkingBlock s (events (finishStream st post)).
Proof.
  induction post as [|q rest IH]; intros st s Hwf Ho Hkept.
  - unfold finishStream. cbn [runStream foldl].
    destruct (emitFinish_spec finishReason usageMetadata None st) as (E1 & E2 & _).
    eapply openReasoning_closed; [exact Ho|done|].
    destruct Ho as (Hb & Hp & _). by apply E2.
  - rewrite finishStream_cons. cbn [reasoningTokenKept] in Hkept.
    destruct (process_spec q st Hwf) as (P1 & P2 & _).
    rewrite process_kind in *.
    destruct (kindOf q) as [fc|t| |t|] eqn:Hk.
    + eapply closed_later; [done..|].
      destruct (releaseHeld_spec st) as (R1 & _ & _ & _ & _ & R6 & _).
      destruct (processFunctionCall_spec fc (thoughtSignature q) (releaseHeld st))
        as (F1 & _ & _ & _ & _ & F6 & _).
      destruct (R6 s Ho) as [Hin|((Hb & Hp & _) & Hi)].
      * by eapply grows_elem.
      * rewrite <- Hi. by apply F6.
    + destruct (processReasoning_spec t (tokenOf q) st Hwf)
        as (_ & _ & _ & Q4 & _ & Q6 & Q7 & _).
      destruct (trailingSignature st) as [held|] eqn:Hheld.
      * eapply closed_later; [done..|]. apply Q6; [done|congruence].
      * rewrite bool_decide_eq_false_2 in Hkept by (by intros [? ?]).
        destruct (tokenOf q) eqn:Htok; [done|].
        destruct (Q7 s Ho eq_refl eq_refl) as (Ho2 & Hi2).
        apply IH; [done..|].
        rewrite Q4. by rewrite bool_decide_eq_false_2 by (by intros [? ?]).
    + destruct (holdSignature_spec (tokenOf q) st) as (H1 & H2 & H3 & H4 & H5 & H6).
      apply IH; [done|by eapply openReasoning_fields|].
      rewrite H6. destruct (tokenOf q) as [sig|].
      * rewrite (bool_decide_eq_true_2 (is_Some (Some sig))) in Hkept by (by eexists).
        rewrite orb_true_r in Hkept.
        by rewrite (bool_decide_eq_true_2 (is_Some (Some sig))) by (by eexists).
      * rewrite (bool_decide_eq_false_2 (is_Some None)) in Hkept by (by intros [? ?]).
        by rewrite orb_false_r in Hkept.
    + apply kindOf_text in Hk as (_ & _ & _ & Ht).
      destruct (processAnswer_spec t (tokenOf q) st Ht Hwf) as (_ & _ & _ & _ & A5 & _).
      eapply closed_later; [done..|]. by apply A5.
    + by apply IH.
Qed.

Lemma stream_held_token post : forall st s,
  wellFormed st -> trailingSignature st = Some s ->
  releaseOf post = AtReasoning
  \/ (releaseOf post <> Replaced /\ hasThinking st = true) ->
  carrierIn s (events (finishStream st post)).
Proof.
  induction post as [|q rest IH]; intros st s Hwf Hheld Hrel.
  - unfold finishStream. cbn [runStream foldl].
    destruct (emitFinish_spec finishReason usageMetadata None st) as (_ & _ & E3 & _).
    destruct Hrel as [Hrel|[_ Hth]]; [done|]. by apply E3.
  - rewrite finishStream_cons. cbn [releaseOf] in Hrel.
    destruct (process_spec q st Hwf) as (P1 & P2 & _).
    rewrite process_kind in *.
    destruct (kindOf q) as [fc|t| |t|] eqn:Hk.
    + destruct Hrel as [Hrel|[_ Hth]]; [done|].
      eapply carrierIn_grows; [by apply finishStream_grows|].
      destruct (releaseHeld_spec st) as (_ & _ & _ & _ & _ & _ & _ & R8).
      destruct (processFunctionCall_spec fc (thoughtSignature q) (releaseHeld st))
        as (F1 & _).
      eapply carrierIn_grows; [exact F1|]. apply R8; [done..|apply Hwf].
    + eapply carrierIn_grows; [by apply finishStream_grows|].
      destruct (processReasoning_spec t (tokenOf q) st Hwf) as (_ & _ & _ & _ & Q5 & _).
      by apply Q5.
    + destruct (holdSignature_spec (tokenOf q) st) as (H1 & H2 & H3 & H4 & H5 & H6).
      destruct (tokenOf q) as [sig|].
      * destruct Hrel as [Hrel|[Hrel _]]; done.
      * apply IH; [done|congruence|]. rewrite H5. exact Hrel.
    + destruct Hrel as [Hrel|[_ Hth]]; [done|].
      eapply carrierIn_grows; [by apply finishStream_grows|].
      apply kindOf_text in Hk as (_ & _ & _ & Ht).
      destruct (processAnswer_spec t (tokenOf q) st Ht Hwf) as (_ & _ & _ & _ & _ & A6 & _).
      by apply A6.
    + by apply IH.
Qed.


(** A stream that has met no reasoning part: no thinking block is open and
    no event puts a token on one. *)
Definition quiet (st : StreamingState) : Prop :=
  hasThinking st = false /\ blockType st <> BLOCK_THINKING
  /\ noTokenEvents (events st).

Lemma process_quiet part st :
  (forall t, kindOf part <> KReasoning t) ->
  wellFormed st -> quiet st -> quiet (process part st).
Proof.
  intros Hnr Hwf (Hh & Hb & Hq). rewrite process_kind.
  destruct (kindOf part) as [fc|t| |t|] eqn:Hk.
  - destruct (releaseHeld_spec st) as (_ & _ & R3 & _ & _ & _ & R7 & _).
    destruct (R7 Hh) as (E1 & E2).
    destruct (processFunctionCall_spec fc (thoughtSignature part) (releaseHeld st))
      as (_ & _ & F3 & F4 & _ & _ & F7 & _).
    split_and!.
    + congruence.
    + congruence.
    + apply F7; congruence.
  - by destruct (Hnr t).
  - destruct (holdSignature_spec (tokenOf part) st) as (H1 & H2 & H3 & H4 & H5 & H6).
    split_and!; congruence.
  - apply kindOf_text in Hk as (_ & _ & _ & Ht).
    destruct (processAnswer_spec t (tokenOf part) st Ht Hwf)
      as (_ & _ & A3 & _ & _ & _ & A7).
    destruct (A7 Hh Hb Hq) as (Q1 & Q2).
    split_and!; [congruence|done..].
  - done.
Qed.

Lemma stream_quiet l : forall st,
  wellFormed st -> quiet st -> seenReasoning l = false ->
  noTokenEvents (events (finishStream st l)).
Proof.
  induction l as [|q rest IH]; intros st Hwf Hq Hs.
  - unfold finishStream. cbn [runStream foldl].
    destruct (emitFinish_spec finishReason usageMetadata None st) as (_ & _ & _ & E4).
    destruct Hq as (Hh & Hb & Hn). by apply E4.
  - rewrite finishStream_cons.
    unfold seenReasoning in Hs. cbn [existsb] in Hs.
    apply orb_false_iff in Hs as [Hq1 Hrest].
    apply IH; [by apply process_spec| |exact Hrest].
    apply process_quiet; [|done..].
    intros t Ht. by rewrite Ht in Hq1.
Qed.

End Finish.

Lemma quiet_new table : quiet (newStreamingState table).
Proof. split_and!; [done..|]. constructor. Qed.

Lemma process_call_emits part fc s st :
  kindOf part = KCall fc -> tokenOf part = Some s ->
  exists k id,
    ContentBlockStart k (CBToolUse id (fc_name fc) (Some s)) ∈ events (process part st).
Proof.
  intros Hk Ht. rewrite process_kind, Hk.
  destruct (processFunctionCall_spec fc (thoughtSignature part) (releaseHeld st))
    as (_ & _ & _ & _ & _ & _ & _ & F8).
  unfold tokenOf in Ht. by rewrite Ht in F8.
Qed.

Lemma ns_after_reasoning part t s p :
  kindOf part = KReasoning t -> tokenOf part = Some s ->
  thinkingSignature (processPart part p) = Some s
  /\ nsTrailingSignature (processPart part p) = None.
Proof.
  intros (Hfc & Htx & Hth)%kindOf_reasoning Ht. unfold tokenOf in Ht.
  unfold processPart. rewrite Hfc, Htx, Hth, Ht. cbn [thinkingSignature nsTrailingSignature].
  split; [done|].
  destruct (flushText_fields p) as (_ & _ & Hf3).
  destruct (nsTrailingSignature (flushText p)) as [held|] eqn:E; [|done].
  unfold releaseTrailing. rewrite flushThinking_trailing, E.
  by destruct (nsHasThinking (flushThinking (flushText p))).
Qed.

Lemma ns_after_emptyText part s p :
  kindOf part = KEmptyText -> tokenOf part = Some s ->
  nsTrailingSignature (processPart part p) = Some s.
Proof.
  intros (Hfc & Htx & Hth)%kindOf_emptyText Ht. unfold tokenOf in Ht.
  unfold processPart. by rewrite Hfc, Htx, Hth, Ht.
Qed.


(** *** Both processors on one response *)

(** [this.contentBlocks] when [NonStreamingProcessor.process] calls
    [buildResponse], which makes them the [content] of the message. *)
Definition blocksOf (raw : RawResponse) (table : gmap string string) : list Block :=
  contentBlocks (processAll raw table).

(** The events [PartProcessor] and [emitFinish] emit for the same parts. *)
Definition eventsOf (raw : RawResponse) (table : gmap string string) : list Event :=
  events (streamParts (parts raw) (finishReason raw) (present (usageMetadata raw)) table).

(** [buildResponse] returns unless [usageMetadata] is [null], and the message
    holds the blocks pushed and the [stop_reason] of the calls seen. *)
Lemma processResponse_content raw table :
  match processResponse raw table with
  | Some msg =>
      usageMetadata raw <> Null
      /\ content msg = blocksOf raw table
      /\ stop_reason msg = stopReason (hasToolCall (processAll raw table)) (finishReason raw)
  | None => usageMetadata raw = Null
  end.
Proof.
  unfold processResponse, buildResponse, blocksOf.
  by destruct (usageMetadata raw).
Qed.

Lemma blocksOf_split raw table pre p post :
  parts raw = pre ++ p :: post ->
  blocksOf raw table
  = contentBlocks
      (finishParts (runParts (processPart p (runParts (newProcessor raw table) pre)) post)).
Proof.
  intros Hp. unfold blocksOf, processAll.
  fold (runParts (newProcessor raw table) (parts raw)).
  fold (finishParts (runParts (newProcessor raw table) (parts raw))).
  by rewrite Hp, runParts_app.
Qed.

Lemma eventsOf_split raw table pre p post :
  parts raw = pre ++ p :: post ->
  eventsOf raw table
  = events (finishStream (finishReason raw) (present (usageMetadata raw))
              (process p (runStream (newStreamingState table) pre)) post).
Proof.
  intros Hp. unfold eventsOf, streamParts, finishStream.
  fold (runStream (newStreamingState table) (parts raw)).
  by rewrite Hp, runStream_app.
Qed.


(** *** The stream keeps to the protocol *)

(** Where a reader of the events stands: between two blocks, [next] being the
    index the next block must have; inside the block [index] of kind [kind];
    after [message_delta]; after [message_stop]. *)
Inductive Phase : Type :=
| Closed (next : nat)
| Open (index : nat) (kind : BlockType)
| Delivered
| Stopped.

Definition kindOfBlock (cb : ContentBlock) : BlockType :=
  match cb with
  | CBThinking _ _ => BLOCK_THINKING
  | CBText _ => BLOCK_TEXT
  | CBToolUse _ _ _ => BLOCK_FUNCTION
  end.

(** The deltas a block of each kind takes. *)
Definition deltaFits (d : Delta) (kind : BlockType) : bool :=
  match d, kind with
  | TextDelta _, BLOCK_TEXT => true
  | ThinkingDelta _, BLOCK_THINKING => true
  | SignatureDelta _, BLOCK_THINKING => true
  | InputJsonDelta _, BLOCK_FUNCTION => true
  | _, _ => false
  end.

(** One event, read in a phase; [None] is an event out of place. *)
Definition step (ph : Phase) (e : Event) : option Phase :=
  match ph, e with
  | Closed next, ContentBlockStart i cb =>
      if Nat.eqb i next then Some (Open i (kindOfBlock cb)) else None
  | Open i kind, ContentBlockDelta j d =>
      if Nat.eqb j i && deltaFits d kind then Some (Open i kind) else None
  | Open i kind, ContentBlockStop j => if Nat.eqb j i then Some (Closed (S i)) else None
  | Closed _, MessageDelta _ _ _ => Some Delivered
  | Delivered, MessageStop => Some Stopped
  | _, _ => None
  end.

Fixpoint runProtocol (ph : Phase) (es : list Event) : option Phase :=
  match es with
  | [] => Some ph
  | e :: rest =>
      match step ph e with
      | Some ph' => runProtocol ph' rest
      | None => None
      end
  end.

(** The phase the fields of the state stand for. *)
Definition phaseOf (st : StreamingState) : Phase :=
  match blockType st with
  | BLOCK_NONE => Closed (blockIndex st)
  | kind => Open (blockIndex st) kind
  end.

(** [st'] comes after [st] by events that keep to the protocol. *)
Definition follows (st st' : StreamingState) : Prop :=
  messageStopSent st' = messageStopSent st
  /\ exists added,
       events st' = events st ++ added
       /\ runProtocol (phaseOf st) added = Some (phaseOf st').

Lemma runProtocol_app ph a b :
  runProtocol ph (a ++ b) = runProtocol ph a ≫= (fun ph' => runProtocol ph' b).
Proof.
  revert ph. induction a as [|e a IH]; intros ph; [done|].
  cbn [app runProtocol]. destruct (step ph e); [apply IH|done].
Qed.

Lemma follows_refl st : follows st st.
Proof. split; [done|]. exists []. by rewrite app_nil_r. Qed.

Lemma follows_trans a b c : follows a b -> follows b c -> follows a c.
Proof.
  intros (Hm1 & l1 & He1 & Hr1) (Hm2 & l2 & He2 & Hr2). split; [congruence|].
  exists (l1 ++ l2). split; [by rewrite He2, He1, app_assoc|].
  by rewrite runProtocol_app, Hr1.
Qed.

(** A change of the other fields is no event. *)
Lemma follows_fields st st' :
  messageStopSent st' = messageStopSent st -> events st' = events st ->
  blockType st' = blockType st -> blockIndex st' = blockIndex st ->
  follows st st'.
Proof.
  intros Hm He Ht Hi. split; [done|]. exists []. rewrite app_nil_r. split; [done|].
  unfold phaseOf. by rewrite Ht, Hi.
Qed.

Lemma endBlock_follows st :
  follows st (endBlock st) /\ blockType (endBlock st) = BLOCK_NONE.
Proof.
  unfold endBlock, follows, phaseOf.
  destruct (blockType st) eqn:Hb, (pending st) as [sig|] eqn:Hp;
    autorewrite with stream; rewrite ?Hb; (split; [split; [done|]|done]).
  all: first [ by (exists []; rewrite app_nil_r)
             | eexists; split; [first [reflexivity|symmetry; apply app_assoc]|];
               cbn [app runProtocol step deltaFits]; rewrite ?Nat.eqb_refl;
               cbn [andb runProtocol step]; by rewrite ?Nat.eqb_refl ].
Qed.

Lemma startBlock_follows t cb st :
  kindOfBlock cb = t ->
  follows st (startBlock t cb st) /\ blockType (startBlock t cb st) = t.
Proof.
  intros Hkind. destruct (endBlock_follows st) as [Hend Hnone].
  unfold startBlock. cbv zeta.
  set (st1 := match blockType st with BLOCK_NONE => st | _ => endBlock st end).
  assert (follows st st1 /\ blockType st1 = BLOCK_NONE) as [H1 Hb1].
  { subst st1. destruct (blockType st) eqn:Hb; try done. split; [apply follows_refl|done]. }
  clearbody st1. autorewrite with stream. split; [|done].
  eapply follows_trans; [exact H1|]. split; [by autorewrite with stream|].
  eexists. split; [by autorewrite with stream|].
  unfold phaseOf. autorewrite with stream. rewrite Hb1.
  cbn [runProtocol step]. rewrite Nat.eqb_refl.
  assert (kindOfBlock match cb with
                      | CBThinking th None => CBThinking th (Some "")
                      | _ => cb
                      end = t) as -> by (by destruct cb as [? []| |]).
  subst t. by destruct cb.
Qed.

Lemma emitDelta_follows d st :
  deltaFits d (blockType st) = true ->
  follows st (emitDelta d st) /\ blockType (emitDelta d st) = blockType st.
Proof.
  intros Hfits. split; [|by autorewrite with stream].
  split; [by autorewrite with stream|]. eexists. split; [by autorewrite with stream|].
  unfold phaseOf. autorewrite with stream.
  destruct (blockType st) eqn:Hb; [by destruct d|..];
    cbn [runProtocol step]; by rewrite Nat.eqb_refl, Hfits.
Qed.

(** An empty thinking block written event by event between two blocks. *)
Lemma carrier_follows sig st st' :
  blockType st = BLOCK_NONE ->
  messageStopSent st' = messageStopSent st ->
  events st'
  = events st ++ [ContentBlockStart (blockIndex st) (CBThinking "" (Some ""));
                  ContentBlockDelta (blockIndex st) (ThinkingDelta "");
                  ContentBlockDelta (blockIndex st) (SignatureDelta sig);
                  ContentBlockStop (blockIndex st)] ->
  blockType st' = BLOCK_NONE -> blockIndex st' = S (blockIndex st) ->
  follows st st'.
Proof.
  intros Hb Hm He Hb' Hi'. split; [done|]. eexists. split; [exact He|].
  unfold phaseOf. rewrite Hb, Hb', Hi'.
  cbn [runProtocol step kindOfBlock deltaFits].
  by repeat (rewrite Nat.eqb_refl; cbn [andb runProtocol step kindOfBlock deltaFits]).
Qed.

Lemma emitCarrierBlock_follows sig st :
  follows st (emitCarrierBlock sig st) /\ blockType (emitCarrierBlock sig st) = BLOCK_NONE.
Proof.
  unfold emitCarrierBlock.
  destruct (startBlock_follows BLOCK_THINKING (CBThinking "" None) st eq_refl) as [H1 Hb1].
  set (a := startBlock BLOCK_THINKING (CBThinking "" None) st) in *. clearbody a.
  destruct (emitDelta_follows (ThinkingDelta "") a) as [H2 Hb2]; [by rewrite Hb1|].
  set (b := emitDelta (ThinkingDelta "") a) in *. clearbody b.
  destruct (emitDelta_follows (SignatureDelta sig) b) as [H3 Hb3];
    [by rewrite Hb2, Hb1|].
  set (c := emitDelta (SignatureDelta sig) b) in *. clearbody c.
  destruct (endBlock_follows c) as [H4 Hb4].
  split; [|done]. eauto using follows_trans.
Qed.

Lemma emitSignedText_follows t sig st : follows st (emitSignedText t sig st).
Proof.
  unfold emitSignedText. cbv zeta.
  destruct (endBlock_follows st) as [H1 Hb1].
  set (a := endBlock st) in *. clearbody a.
  destruct (startBlock_follows BLOCK_TEXT (CBText "") a eq_refl) as [H2 Hb2].
  set (b := startBlock BLOCK_TEXT (CBText "") a) in *. clearbody b.
  destruct (emitDelta_follows (TextDelta t) b) as [H3 Hb3]; [by rewrite Hb2|].
  set (c := emitDelta (TextDelta t) b) in *. clearbody c.
  destruct (endBlock_follows c) as [H4 Hb4].
  set (d := endBlock c) in *. clearbody d.
  eapply follows_trans; [exact H1|]. eapply follows_trans; [exact H2|].
  eapply follows_trans; [exact H3|]. eapply follows_trans; [exact H4|].
  apply (carrier_follows sig); autorewrite with stream; try done.
  by rewrite <- !app_assoc.
Qed.

Lemma releaseHeld_follows st : follows st (releaseHeld st).
Proof.
  unfold releaseHeld. destruct (trailingSignature st) as [sig|]; [|apply follows_refl].
  destruct (hasThinking st).
  - destruct (emitCarrierBlock_follows sig st) as [H _].
    eapply follows_trans; [exact H|]. by apply follows_fields; autorewrite with stream.
  - by apply follows_fields; autorewrite with stream.
Qed.

Lemma holdSignature_follows signature st : follows st (holdSignature signature st).
Proof.
  unfold holdSignature. destruct signature; [|apply follows_refl].
  by apply follows_fields; autorewrite with stream.
Qed.

Lemma processThinking_follows t st : follows st (processThinking t st).
Proof.
  unfold processThinking. destruct (blockType st) eqn:Hb.
  all: try (destruct (startBlock_follows BLOCK_THINKING (CBThinking "" None) st eq_refl)
              as [H1 Hb1];
            eapply follows_trans; [exact H1|];
            by apply emitDelta_follows; rewrite Hb1).
  by apply emitDelta_follows; rewrite Hb.
Qed.

Lemma processText_follows t st : follows st (processText t st).
Proof.
  unfold processText. destruct (String.eqb t ""); [apply follows_refl|].
  destruct (blockType st) eqn:Hb.
  all: try (destruct (startBlock_follows BLOCK_TEXT (CBText "") st eq_refl) as [H1 Hb1];
            eapply follows_trans; [exact H1|];
            by apply emitDelta_follows; rewrite Hb1).
  by apply emitDelta_follows; rewrite Hb.
Qed.

Lemma processFunctionCall_follows fc sigToUse st :
  follows st (processFunctionCall fc sigToUse st).
Proof.
  unfold processFunctionCall. destruct (toolIdOf fc (idsMade st)) as [toolId made].
  cbv zeta.
  destruct (startBlock_follows BLOCK_FUNCTION
              (CBToolUse toolId (fc_name fc) (truthySignature sigToUse)) st eq_refl)
    as [H1 Hb1].
  set (st1 := startBlock _ _ st) in *. clearbody st1.
  eapply follows_trans; [exact H1|].
  set (st2 := match fc_args fc with
              | Some args =>
                  if truthy args then emitDelta (InputJsonDelta (stringify args)) st1
                  else st1
              | None => st1
              end).
  assert (follows st1 st2) as H2.
  { subst st2. destruct (fc_args fc) as [args|]; [|apply follows_refl].
    destruct (truthy args); [|apply follows_refl].
    by apply emitDelta_follows; rewrite Hb1. }
  clearbody st2. eapply follows_trans; [exact H2|]. by apply follows_fields.
Qed.

Lemma processReasoning_follows t signature st :
  follows st (processReasoning t signature st).
Proof.
  unfold processReasoning. cbv zeta.
  assert (follows st (setHasThinking st)) as H1
    by (by apply follows_fields; autorewrite with stream).
  set (st1 := setHasThinking st) in *. clearbody st1.
  set (st2 := match trailingSignature st1 with
              | Some sig => setTrailing None (emitCarrierBlock sig st1)
              | None => st1
              end).
  assert (follows st1 st2) as H2.
  { subst st2. destruct (trailingSignature st1) as [sig|]; [|apply follows_refl].
    destruct (emitCarrierBlock_follows sig st1) as [H _].
    eapply follows_trans; [exact H|]. by apply follows_fields; autorewrite with stream. }
  clearbody st2. pose proof (processThinking_follows t st2) as H3.
  set (st3 := processThinking t st2) in *. clearbody st3.
  eapply follows_trans; [exact H1|]. eapply follows_trans; [exact H2|].
  eapply follows_trans; [exact H3|].
  destruct signature; [|apply follows_refl].
  by apply follows_fields; autorewrite with stream.
Qed.

Lemma processAnswer_follows t signature st : follows st (processAnswer t signature st).
Proof.
  unfold processAnswer. cbv zeta. pose proof (releaseHeld_follows st) as H1.
  set (st1 := releaseHeld st) in *. clearbody st1.
  eapply follows_trans; [exact H1|].
  destruct signature as [sig|]; [|apply processText_follows].
  destruct (negb (hasThinking st1)); [apply processText_follows|apply emitSignedText_follows].
Qed.

Lemma process_follows part st : follows st (process part st).
Proof.
  unfold process. cbv zeta. destruct (functionCall part) as [fc|].
  - eapply follows_trans; [apply releaseHeld_follows|apply processFunctionCall_follows].
  - destruct (text part) as [t|]; [|apply follows_refl].
    destruct (negb (thought part) && String.eqb t ""); [apply holdSignature_follows|].
    destruct (thought part); [apply processReasoning_follows|apply processAnswer_follows].
Qed.

Lemma runStream_follows l : forall st, follows st (runStream st l).
Proof.
  induction l as [|part rest IH]; intros st; [apply follows_refl|].
  cbn [runStream foldl]. fold (runStream (process part st) rest).
  eapply follows_trans; [apply process_follows|apply IH].
Qed.

(** The finish sequence closes the stream. *)
Lemma emitFinish_closes finishReason usageMetadata extraUsage st :
  messageStopSent st = false ->
  exists added,
    events (emitFinish finishReason usageMetadata extraUsage st) = events st ++ added
    /\ runProtocol (phaseOf st) added = Some Stopped.
Proof.
  intros Hstop. unfold emitFinish. cbv zeta.
  destruct (endBlock_follows st) as [H1 Hb1].
  set (st1 := endBlock st) in *. clearbody st1.
  set (st2 := match trailingSignature st1 with
              | Some sig =>
                  if hasThinking st1 then
                    setTrailing None
                      (setBlock
                         (blockType
                            (emit (ContentBlockStop
                                     (blockIndex
                                        (emitDelta (SignatureDelta sig)
                                           (emitDelta (ThinkingDelta "")
                                              (emit (ContentBlockStart (blockIndex st1)
                                                       (CBThinking "" (Some ""))) st1)))))
                               (emitDelta (SignatureDelta sig)
                                  (emitDelta (ThinkingDelta "")
                                     (emit (ContentBlockStart (blockIndex st1)
                                              (CBThinking "" (Some ""))) st1)))))
                         (S (blockIndex
                               (emit (ContentBlockStop
                                        (blockIndex
                                           (emitDelta (SignatureDelta sig)
                                              (emitDelta (ThinkingDelta "")
                                                 (emit (ContentBlockStart (blockIndex st1)
                                                          (CBThinking "" (Some ""))) st1)))))
                                  (emitDelta (SignatureDelta sig)
                                     (emitDelta (ThinkingDelta "")
                                        (emit (ContentBlockStart (blockIndex st1)
                                                 (CBThinking "" (Some ""))) st1))))))
                         (emit (ContentBlockStop
                                  (blockIndex
                                     (emitDelta (SignatureDelta sig)
                                        (emitDelta (ThinkingDelta "")
                                           (emit (ContentBlockStart (blockIndex st1)
                                                    (CBThinking "" (Some ""))) st1)))))
                            (emitDelta (SignatureDelta sig)
                               (emitDelta (ThinkingDelta "")
                                  (emit (ContentBlockStart (blockIndex st1)
                                           (CBThinking "" (Some ""))) st1)))))
                  else setTrailing None st1
              | None => st1
              end).
  assert (follows st1 st2 /\ blockType st2 = BLOCK_NONE) as [H2 Hb2].
  { subst st2. destruct (trailingSignature st1) as [sig|]; [|split; [apply follows_refl|done]].
    destruct (hasThinking st1).
    - split; [|by autorewrite with stream].
      apply (carrier_follows sig); autorewrite with stream; try done.
      by rewrite <- !app_assoc.
    - split; [|by autorewrite with stream]. by apply follows_fields; autorewrite with stream. }
  clearbody st2.
  destruct (follows_trans _ _ _ H1 H2) as (Hm & added & He & Hr).
  rewrite Hstop in Hm. autorewrite with stream. rewrite Hm.
  cbn [events]. autorewrite with stream. rewrite He.
  exists (added ++ [MessageDelta (stopReason (usedTool st2) finishReason)
                      (toClaudeUsage (default emptyUsageMetadata usageMetadata))
                      extraUsage; MessageStop]).
  split; [by rewrite <- !app_assoc|].
  rewrite runProtocol_app, Hr. unfold phaseOf. by rewrite Hb2.
Qed.

(** X9.  Whatever the parts, the events [PartProcessor] and [emitFinish]
    write keep to the protocol of the stream: the blocks have the indices 0, 1,
    2, ... in order; each one is started, takes only deltas of its own index
    and kind (text deltas in a text block, thinking and signature deltas in
    a thinking block, input deltas in a tool_use block) and is stopped before
    the next one starts; then come one [message_delta] and one
    [message_stop], and nothing after them. *)
Theorem stream_keeps_to_the_protocol (l : list Part) (finishReason : option string)
    (usageMetadata : option UsageMetadata) (table : gmap string string) :
  runProtocol (Closed 0) (events (streamParts l finishReason usageMetadata table))
  = Some Stopped.
Proof.
  unfold streamParts. fold (runStream (newStreamingState table) l).
  destruct (runStream_follows l (newStreamingState table)) as (Hm & added & He & Hr).
  destruct (emitFinish_closes finishReason usageMetadata None
              (runStream (newStreamingState table) l) Hm) as (final & Hf & Hrf).
  rewrite Hf, He. cbn [events newStreamingState app].
  change (phaseOf (newStreamingState table)) with (Closed 0) in Hr.
  by rewrite runProtocol_app, Hr.
Qed.

(** *** What a reader puts together from the stream and from the message *)

(** The strings [f] gives for the members of [l], put end to end. *)
Definition joinWith {A} (f : A -> string) (l : list A) : string :=
  foldr (fun x acc => f x +:+ acc) "" l.

Lemma text_append_assoc (a b c : string) : (a +:+ b) +:+ c = a +:+ (b +:+ c).
Proof.
  induction a as [|x a IH]; [done|].
  change (String x ((a +:+ b) +:+ c) = String x (a +:+ (b +:+ c))). by rewrite IH.
Qed.

Lemma text_append_empty (a : string) : a +:+ "" = a.
Proof.
  induction a as [|x a IH]; [done|].
  change (String x (a +:+ "") = String x a). by rewrite IH.
Qed.

Lemma joinWith_app {A} (f : A -> string) (a b : list A) :
  joinWith f (a ++ b) = joinWith f a +:+ joinWith f b.
Proof.
  induction a as [|x a IH]; [done|].
  cbn [app joinWith foldr]. fold (joinWith f (a ++ b)). fold (joinWith f a).
  by rewrite IH, text_append_assoc.
Qed.

(** The text an event adds to the answer: the initial text of a text block
    and the text deltas. *)
Definition textOfEvent (e : Event) : string :=
  match e with
  | ContentBlockStart _ (CBText t) => t
  | ContentBlockDelta _ (TextDelta t) => t
  | _ => ""
  end.

(** The text an event adds to the reasoning. *)
Definition thinkingOfEvent (e : Event) : string :=
  match e with
  | ContentBlockStart _ (CBThinking t _) => t
  | ContentBlockDelta _ (ThinkingDelta t) => t
  | _ => ""
  end.

(** A tool call: its id, its name and its signature. *)
Definition Call : Type := string * string * option string.

Definition callOfEvent (e : Event) : option Call :=
  match e with
  | ContentBlockStart _ (CBToolUse id name sig) => Some (id, name, sig)
  | _ => None
  end.

(** [st'] comes after [st] by events that add [tx] to the answer, [th] to
    the reasoning and the calls [cs]; the counter of the ids made and
    [usedTool] are as before. *)
Definition adds (st st' : StreamingState) (tx th : string) (cs : list Call) : Prop :=
  idsMade st' = idsMade st /\ usedTool st' = usedTool st
  /\ exists added,
       events st' = events st ++ added
       /\ joinWith textOfEvent added = tx
       /\ joinWith thinkingOfEvent added = th
       /\ omap callOfEvent added = cs.

Definition silent (st st' : StreamingState) : Prop := adds st st' "" "" [].

Lemma adds_trans a b c tx1 th1 cs1 tx2 th2 cs2 :
  adds a b tx1 th1 cs1 -> adds b c tx2 th2 cs2 ->
  adds a c (tx1 +:+ tx2) (th1 +:+ th2) (cs1 ++ cs2).
Proof.
  intros (Hi1 & Hu1 & l1 & He1 & <- & <- & <-) (Hi2 & Hu2 & l2 & He2 & <- & <- & <-).
  split_and!; [congruence|congruence|].
  exists (l1 ++ l2). rewrite !joinWith_app, omap_app.
  split_and!; try done. by rewrite He2, He1, app_assoc.
Qed.

Lemma silent_refl st : silent st st.
Proof. split_and!; try done. exists []. by rewrite app_nil_r. Qed.

Lemma silent_then a b c tx th cs : silent a b -> adds b c tx th cs -> adds a c tx th cs.
Proof. intros H1 H2. apply (adds_trans _ _ _ _ _ _ _ _ _ H1 H2). Qed.

Lemma then_silent a b c tx th cs : adds a b tx th cs -> silent b c -> adds a c tx th cs.
Proof.
  intros H1 H2. pose proof (adds_trans _ _ _ _ _ _ _ _ _ H1 H2) as H.
  by rewrite !text_append_empty, app_nil_r in H.
Qed.

Lemma silent_fields st st' :
  idsMade st' = idsMade st -> usedTool st' = usedTool st -> events st' = events st ->
  silent st st'.
Proof.
  intros Hi Hu He. split_and!; try done. exists []. by rewrite app_nil_r.
Qed.

Lemma emit_adds e st :
  adds st (emit e st) (textOfEvent e) (thinkingOfEvent e)
    (match callOfEvent e with Some c => [c] | None => [] end).
Proof.
  split_and!; [by autorewrite with stream..|]. exists [e].
  split_and!; [by autorewrite with stream|cbn..].
  - apply text_append_empty.
  - apply text_append_empty.
  - by destruct (callOfEvent e).
Qed.

Lemma emitDelta_adds d st :
  adds st (emitDelta d st)
    (match d with TextDelta t => t | _ => "" end)
    (match d with ThinkingDelta t => t | _ => "" end) [].
Proof.
  pose proof (emit_adds (ContentBlockDelta (blockIndex st) d) st) as H.
  unfold emitDelta. by destruct d.
Qed.

Lemma endBlock_silent st : silent st (endBlock st).
Proof.
  unfold endBlock.
  destruct (blockType st) eqn:Hb; [apply silent_refl|..];
    destruct (pending st) as [sig|] eqn:Hp.
  all: try (eapply silent_then;
            [apply (emit_adds (ContentBlockStop (blockIndex st)))|];
            by apply silent_fields; autorewrite with stream).
  eapply silent_then; [apply (emitDelta_adds (SignatureDelta sig))|].
  set (a := emitDelta (SignatureDelta sig) st).
  apply (silent_then a (setPending None a));
    [by apply silent_fields; autorewrite with stream|].
  eapply silent_then;
    [apply (emit_adds (ContentBlockStop (blockIndex (setPending None a))))|].
  by apply silent_fields; autorewrite with stream.
Qed.

Lemma startBlock_adds t cb st :
  adds st (startBlock t cb st)
    (match cb with CBText tx => tx | _ => "" end)
    (match cb with CBThinking th _ => th | _ => "" end)
    (match cb with CBToolUse id name sig => [(id, name, sig)] | _ => [] end).
Proof.
  unfold startBlock. cbv zeta.
  set (st1 := match blockType st with BLOCK_NONE => st | _ => endBlock st end).
  assert (silent st st1) as H1.
  { subst st1. destruct (blockType st); [apply silent_refl|apply endBlock_silent..]. }
  clearbody st1. eapply silent_then; [exact H1|].
  set (cb' := match cb with
              | CBThinking th None => CBThinking th (Some "")
              | _ => cb
              end).
  set (st2 := emit (ContentBlockStart (blockIndex st1) cb') st1).
  apply (then_silent st1 st2); [|by apply silent_fields; autorewrite with stream].
  pose proof (emit_adds (ContentBlockStart (blockIndex st1) cb') st1) as H.
  subst st2 cb'. by destruct cb as [th [sg|]|tx|id name sig].
Qed.

Lemma carrier_silent sig st st' :
  idsMade st' = idsMade st -> usedTool st' = usedTool st ->
  events st'
  = events st ++ [ContentBlockStart (blockIndex st) (CBThinking "" (Some ""));
                  ContentBlockDelta (blockIndex st) (ThinkingDelta "");
                  ContentBlockDelta (blockIndex st) (SignatureDelta sig);
                  ContentBlockStop (blockIndex st)] ->
  silent st st'.
Proof. intros Hi Hu He. split_and!; try done. by eexists. Qed.

Lemma emitCarrierBlock_silent sig st : silent st (emitCarrierBlock sig st).
Proof.
  unfold emitCarrierBlock.
  eapply silent_then; [apply (startBlock_adds BLOCK_THINKING (CBThinking "" None))|].
  eapply silent_then; [apply (emitDelta_adds (ThinkingDelta ""))|].
  eapply silent_then; [apply (emitDelta_adds (SignatureDelta sig))|].
  apply endBlock_silent.
Qed.

Lemma emitSignedText_adds t sig st : adds st (emitSignedText t sig st) t "" [].
Proof.
  unfold emitSignedText. cbv zeta.
  eapply silent_then; [apply endBlock_silent|].
  eapply silent_then; [apply (startBlock_adds BLOCK_TEXT (CBText ""))|].
  set (b := startBlock BLOCK_TEXT (CBText "") (endBlock st)).
  apply (then_silent b (endBlock (emitDelta (TextDelta t) b))).
  - apply (then_silent b (emitDelta (TextDelta t) b));
      [apply (emitDelta_adds (TextDelta t))|apply endBlock_silent].
  - apply (carrier_silent sig); autorewrite with stream; try done.
    by rewrite <- !app_assoc.
Qed.

Lemma releaseHeld_silent st : silent st (releaseHeld st).
Proof.
  unfold releaseHeld. destruct (trailingSignature st) as [sig|]; [|apply silent_refl].
  destruct (hasThinking st).
  - apply (silent_then st (emitCarrierBlock sig st)); [apply emitCarrierBlock_silent|].
    by apply silent_fields; autorewrite with stream.
  - by apply silent_fields; autorewrite with stream.
Qed.

Lemma holdSignature_silent signature st : silent st (holdSignature signature st).
Proof.
  unfold holdSignature. destruct signature; [|apply silent_refl].
  by apply silent_fields; autorewrite with stream.
Qed.

Lemma processThinking_adds t st : adds st (processThinking t st) "" t [].
Proof.
  unfold processThinking.
  destruct (blockType st);
    first [ apply (emitDelta_adds (ThinkingDelta t))
          | apply (silent_then st (startBlock BLOCK_THINKING (CBThinking "" None) st));
            [apply (startBlock_adds BLOCK_THINKING (CBThinking "" None))
            |apply (emitDelta_adds (ThinkingDelta t))] ].
Qed.

Lemma processText_adds t st : adds st (processText t st) t "" [].
Proof.
  unfold processText. destruct (String.eqb t "") eqn:E.
  - apply String.eqb_eq in E as ->. apply silent_refl.
  - destruct (blockType st);
      first [ apply (emitDelta_adds (TextDelta t))
            | apply (silent_then st (startBlock BLOCK_TEXT (CBText "") st));
              [apply (startBlock_adds BLOCK_TEXT (CBText ""))
              |apply (emitDelta_adds (TextDelta t))] ].
Qed.

Lemma processReasoning_adds t signature st :
  adds st (processReasoning t signature st) "" t [].
Proof.
  unfold processReasoning. cbv zeta.
  apply (silent_then st (setHasThinking st));
    [by apply silent_fields; autorewrite with stream|].
  set (st1 := setHasThinking st).
  set (st2 := match trailingSignature st1 with
              | Some sig => setTrailing None (emitCarrierBlock sig st1)
              | None => st1
              end).
  assert (silent st1 st2) as H2.
  { subst st2. destruct (trailingSignature st1) as [sig|]; [|apply silent_refl].
    apply (silent_then st1 (emitCarrierBlock sig st1)); [apply emitCarrierBlock_silent|].
    by apply silent_fields; autorewrite with stream. }
  clearbody st2. apply (silent_then st1 st2); [exact H2|].
  destruct signature as [sig|]; [|apply processThinking_adds].
  apply (then_silent st2 (processThinking t st2)); [apply processThinking_adds|].
  by apply silent_fields; autorewrite with stream.
Qed.

Lemma processAnswer_adds t signature st : adds st (processAnswer t signature st) t "" [].
Proof.
  unfold processAnswer. cbv zeta.
  apply (silent_then st (releaseHeld st)); [apply releaseHeld_silent|].
  destruct signature as [sig|]; [|apply processText_adds].
  destruct (negb (hasThinking (releaseHeld st)));
    [apply processText_adds|apply emitSignedText_adds].
Qed.

(** What [processFunctionCall] adds: the call, with the id it has or is
    given. *)
Lemma processFunctionCall_reads fc sigToUse st :
  idsMade (processFunctionCall fc sigToUse st) = snd (toolIdOf fc (idsMade st))
  /\ usedTool (processFunctionCall fc sigToUse st) = true
  /\ exists added,
       events (processFunctionCall fc sigToUse st) = events st ++ added
       /\ joinWith textOfEvent added = ""
       /\ joinWith thinkingOfEvent added = ""
       /\ omap callOfEvent added
          = [(fst (toolIdOf fc (idsMade st)), fc_name fc, truthySignature sigToUse)].
Proof.
  unfold processFunctionCall. destruct (toolIdOf fc (idsMade st)) as [toolId made].
  cbv zeta. cbn [fst snd idsMade usedTool events]. split; [done|]. split; [done|].
  pose proof (startBlock_adds BLOCK_FUNCTION
                (CBToolUse toolId (fc_name fc) (truthySignature sigToUse)) st) as H1.
  set (st1 := startBlock _ _ st) in *. clearbody st1.
  set (st2 := match fc_args fc with
              | Some args =>
                  if truthy args then emitDelta (InputJsonDelta (stringify args)) st1
                  else st1
              | None => st1
              end).
  assert (silent st1 st2) as H2.
  { subst st2. destruct (fc_args fc) as [args|]; [|apply silent_refl].
    destruct (truthy args); [|apply silent_refl].
    apply (emitDelta_adds (InputJsonDelta (stringify args))). }
  clearbody st2.
  by destruct (then_silent _ _ _ _ _ _ H1 H2) as (_ & _ & H).
Qed.

(** What a part adds to the answer and to the reasoning, and whether it is
    a call. *)
Definition answerOfPart (part : Part) : string :=
  match kindOf part with KText t => t | _ => "" end.

Definition reasoningOfPart (part : Part) : string :=
  match kindOf part with KReasoning t => t | _ => "" end.

Definition isCall (part : Part) : bool :=
  match kindOf part with KCall _ => true | _ => false end.

(** The calls of the parts, [made] being the number of ids made before. *)
Fixpoint callsOfParts (made : nat) (l : list Part) : list Call :=
  match l with
  | [] => []
  | part :: rest =>
      match kindOf part with
      | KCall fc =>
          (fst (toolIdOf fc made), fc_name fc, tokenOf part)
          :: callsOfParts (snd (toolIdOf fc made)) rest
      | _ => callsOfParts made rest
      end
  end.

Fixpoint madeAfter (made : nat) (l : list Part) : nat :=
  match l with
  | [] => made
  | part :: rest =>
      match kindOf part with
      | KCall fc => madeAfter (snd (toolIdOf fc made)) rest
      | _ => madeAfter made rest
      end
  end.

(** [st'] comes after [st] by the events of the parts [l]. *)
Definition reads (st st' : StreamingState) (l : list Part) : Prop :=
  idsMade st' = madeAfter (idsMade st) l
  /\ usedTool st' = usedTool st || existsb isCall l
  /\ exists added,
       events st' = events st ++ added
       /\ joinWith textOfEvent added = joinWith answerOfPart l
       /\ joinWith thinkingOfEvent added = joinWith reasoningOfPart l
       /\ omap callOfEvent added = callsOfParts (idsMade st) l.

Lemma adds_reads st st' part :
  isCall part = false ->
  adds st st' (answerOfPart part) (reasoningOfPart part) [] ->
  reads st st' [part].
Proof.
  intros Hno (Hi & Hu & added & He & Htx & Hth & Hcs). unfold reads.
  cbn [madeAfter callsOfParts existsb joinWith foldr]. unfold isCall in Hno.
  rewrite !text_append_empty. unfold isCall.
  destruct (kindOf part); try done; (split_and!; [done|by rewrite orb_false_r|by exists added]).
Qed.

Lemma process_reads part st : reads st (process part st) [part].
Proof.
  rewrite process_kind. destruct (kindOf part) as [fc|t| |t|] eqn:Hk.
  - destruct (releaseHeld_silent st) as (Hi & Hu & held & He & Htx & Hth & Hcs).
    destruct (processFunctionCall_reads fc (thoughtSignature part) (releaseHeld st))
      as (Fi & Fu & added & Fe & Ftx & Fth & Fcs).
    unfold reads, answerOfPart, reasoningOfPart, isCall.
    cbn [madeAfter callsOfParts existsb joinWith foldr]. rewrite Hk.
    rewrite Hi in Fi, Fcs. split_and!; [done|by rewrite Fu, orb_true_r|].
    exists (held ++ added). rewrite !joinWith_app, omap_app, Htx, Hth, Hcs, Ftx, Fth, Fcs.
    split_and!; try done. by rewrite Fe, He, app_assoc.
  - apply adds_reads; [unfold isCall; by rewrite Hk|].
    unfold answerOfPart, reasoningOfPart. rewrite Hk. apply processReasoning_adds.
  - apply adds_reads; [unfold isCall; by rewrite Hk|].
    unfold answerOfPart, reasoningOfPart. rewrite Hk. apply holdSignature_silent.
  - apply adds_reads; [unfold isCall; by rewrite Hk|].
    unfold answerOfPart, reasoningOfPart. rewrite Hk. apply processAnswer_adds.
  - apply adds_reads; [unfold isCall; by rewrite Hk|].
    unfold answerOfPart, reasoningOfPart. rewrite Hk. apply silent_refl.
Qed.

Lemma callsOfParts_cons made part rest :
  callsOfParts made (part :: rest)
  = callsOfParts made [part] ++ callsOfParts (madeAfter made [part]) rest.
Proof. cbn [callsOfParts madeAfter]. by destruct (kindOf part). Qed.

Lemma madeAfter_cons made part rest :
  madeAfter made (part :: rest) = madeAfter (madeAfter made [part]) rest.
Proof. cbn [madeAfter]. by destruct (kindOf part). Qed.

Lemma runStream_reads l : forall st, reads st (runStream st l) l.
Proof.
  induction l as [|part rest IH]; intros st.
  - unfold reads. cbn. split_and!; [done|by rewrite orb_false_r|].
    exists []. by rewrite app_nil_r.
  - cbn [runStream foldl]. fold (runStream (process part st) rest).
    destruct (process_reads part st) as (Hi & Hu & l1 & He1 & Htx1 & Hth1 & Hcs1).
    destruct (IH (process part st)) as (Ii & Iu & l2 & He2 & Htx2 & Hth2 & Hcs2).
    unfold reads. rewrite callsOfParts_cons, madeAfter_cons.
    rewrite Hi in Ii, Hcs2. cbn [existsb] in Hu |- *. rewrite orb_false_r in Hu.
    split_and!; [done|by rewrite Iu, Hu, orb_assoc|].
    exists (l1 ++ l2). rewrite !joinWith_app, omap_app, Htx1, Hth1, Hcs1, Htx2, Hth2, Hcs2.
    split_and!; [by rewrite He2, He1, app_assoc|..];
      cbn [joinWith foldr]; by rewrite ?text_append_empty.
Qed.

(** The finish sequence adds neither text nor calls, and tells the stop
    reason. *)
Lemma emitFinish_reads finishReason usageMetadata extraUsage st :
  exists added,
    events (emitFinish finishReason usageMetadata extraUsage st) = events st ++ added
    /\ joinWith textOfEvent added = ""
    /\ joinWith thinkingOfEvent added = ""
    /\ omap callOfEvent added = []
    /\ MessageDelta (stopReason (usedTool st) finishReason)
         (toClaudeUsage (default emptyUsageMetadata usageMetadata)) extraUsage ∈ added.
Proof.
  unfold emitFinish. cbv zeta.
  pose proof (endBlock_silent st) as H1.
  set (st1 := endBlock st) in *. clearbody st1.
  match goal with |- context [match trailingSignature st1 with
                              | Some sig => @?f sig | None => st1 end] =>
    set (st2 := match trailingSignature st1 with Some sig => f sig | None => st1 end)
  end.
  assert (silent st1 st2) as H2.
  { subst st2. destruct (trailingSignature st1) as [sig|]; [|apply silent_refl].
    cbv beta. destruct (hasThinking st1).
    - apply (carrier_silent sig); autorewrite with stream; try done.
      by rewrite <- !app_assoc.
    - by apply silent_fields; autorewrite with stream. }
  clearbody st2.
  destruct (then_silent _ _ _ _ _ _ H1 H2) as (Hi & Hu & added & He & Htx & Hth & Hcs).
  set (delta := MessageDelta (stopReason (usedTool st2) finishReason)
                  (toClaudeUsage (default emptyUsageMetadata usageMetadata)) extraUsage).
  destruct (messageStopSent (emit delta st2)) eqn:Hstop.
  - exists (added ++ [delta]). autorewrite with stream. rewrite He, <- app_assoc.
    rewrite !joinWith_app, omap_app, Htx, Hth, Hcs, <- Hu.
    split_and!; try done. apply elem_of_app. right. by left.
  - exists (added ++ [delta; MessageStop]). cbn [events]. autorewrite with stream.
    rewrite He, <- !app_assoc.
    rewrite !joinWith_app, omap_app, Htx, Hth, Hcs, <- Hu.
    split_and!; try done. apply elem_of_app. right. by left.
Qed.

(** The same readings of the blocks of a message. *)
Definition textOfBlock (b : Block) : string :=
  match b with BkText t => t | _ => "" end.

Definition thinkingOfBlock (b : Block) : string :=
  match b with BkThinking t _ => t | _ => "" end.

Definition callOfBlock (b : Block) : option Call :=
  match b with BkToolUse id name _ sig => Some (id, name, sig) | _ => None end.

(** What the processor has read so far: the blocks pushed and the text
    still in the builders. *)
Definition nsText (p : NonStreamingProcessor) : string :=
  joinWith textOfBlock (contentBlocks p) +:+ textBuilder p.

Definition nsThinking (p : NonStreamingProcessor) : string :=
  joinWith thinkingOfBlock (contentBlocks p) +:+ thinkingBuilder p.

Definition nsCalls (p : NonStreamingProcessor) : list Call :=
  omap callOfBlock (contentBlocks p).

(** [q] has read what [p] has, and [tx], [th] and [cs] more. *)
Definition nsAdds (p q : NonStreamingProcessor) (tx th : string) (cs : list Call) : Prop :=
  nsText q = nsText p +:+ tx /\ nsThinking q = nsThinking p +:+ th
  /\ nsCalls q = nsCalls p ++ cs
  /\ nsIdsMade q = nsIdsMade p /\ hasToolCall q = hasToolCall p
  /\ nsHasThinking q = nsHasThinking p.

Definition nsSame (p q : NonStreamingProcessor) : Prop := nsAdds p q "" "" [].

Lemma nsSame_refl p : nsSame p p.
Proof. unfold nsSame, nsAdds. by rewrite !text_append_empty, app_nil_r. Qed.

Lemma nsAdds_trans p q r tx1 th1 cs1 tx2 th2 cs2 :
  nsAdds p q tx1 th1 cs1 -> nsAdds q r tx2 th2 cs2 ->
  nsAdds p r (tx1 +:+ tx2) (th1 +:+ th2) (cs1 ++ cs2).
Proof.
  intros (A1 & A2 & A3 & A4 & A5 & A6) (B1 & B2 & B3 & B4 & B5 & B6).
  unfold nsAdds. rewrite B1, B2, B3, A1, A2, A3, !text_append_assoc, app_assoc.
  split_and!; congruence.
Qed.

Lemma nsSame_then p q r tx th cs : nsSame p q -> nsAdds q r tx th cs -> nsAdds p r tx th cs.
Proof. intros H1 H2. apply (nsAdds_trans _ _ _ _ _ _ _ _ _ H1 H2). Qed.

Lemma then_nsSame p q r tx th cs : nsAdds p q tx th cs -> nsSame q r -> nsAdds p r tx th cs.
Proof.
  intros H1 H2. pose proof (nsAdds_trans _ _ _ _ _ _ _ _ _ H1 H2) as H.
  by rewrite !text_append_empty, app_nil_r in H.
Qed.

Ltac ns_unfold :=
  unfold nsSame, nsAdds, nsText, nsThinking, nsCalls;
  cbn [contentBlocks textBuilder thinkingBuilder pushBlock setNsTrailing nsIdsMade
       hasToolCall nsHasThinking].

Lemma flushText_same p : nsSame p (flushText p) /\ textBuilder (flushText p) = "".
Proof.
  unfold flushText. destruct (String.eqb (textBuilder p) "") eqn:E.
  - split; [apply nsSame_refl|by apply String.eqb_eq].
  - split; [|done]. ns_unfold.
    rewrite !joinWith_app, omap_app. cbn.
    rewrite !text_append_empty, app_nil_r. split_and!; try done;
      by rewrite ?text_append_assoc, ?text_append_empty.
Qed.

Lemma flushThinking_same p :
  nsSame p (flushThinking p) /\ thinkingBuilder (flushThinking p) = "".
Proof.
  unfold flushThinking.
  destruct (String.eqb (thinkingBuilder p) "") eqn:E, (thinkingSignature p) as [sig|].
  2: { split; [apply nsSame_refl|by apply String.eqb_eq]. }
  all: split; [|done]; ns_unfold;
    rewrite !joinWith_app, omap_app; cbn;
    rewrite !text_append_empty, app_nil_r; split_and!; try done;
    by rewrite ?text_append_assoc, ?text_append_empty.
Qed.

Lemma pushEmptyThinking_same sig p : nsSame p (pushBlock (BkThinking "" sig) p).
Proof.
  ns_unfold.
  rewrite !joinWith_app, omap_app. cbn. by rewrite !text_append_empty, app_nil_r.
Qed.

Lemma releaseTrailing_same p :
  nsSame p (releaseTrailing p)
  /\ textBuilder (releaseTrailing p) = textBuilder p
  /\ thinkingBuilder (releaseTrailing p) = thinkingBuilder p.
Proof.
  unfold releaseTrailing. destruct (nsTrailingSignature p) as [sig|];
    [|split; [apply nsSame_refl|done]].
  destruct (nsHasThinking p); (split; [|done]).
  - apply (then_nsSame p (pushBlock (BkThinking "" (Some sig)) p));
      [apply pushEmptyThinking_same|]. unfold nsSame, nsAdds.
    by rewrite !text_append_empty, app_nil_r.
  - unfold nsSame, nsAdds. by rewrite !text_append_empty, app_nil_r.
Qed.

Lemma flushText_thinkingBuilder p : thinkingBuilder (flushText p) = thinkingBuilder p.
Proof. unfold flushText. by destruct (String.eqb (textBuilder p) ""). Qed.

(** [q] has read what [p] has and the parts [l]. *)
Definition nsReads (p q : NonStreamingProcessor) (l : list Part) : Prop :=
  nsText q = nsText p +:+ joinWith answerOfPart l
  /\ nsThinking q = nsThinking p +:+ joinWith reasoningOfPart l
  /\ nsCalls q = nsCalls p ++ callsOfParts (nsIdsMade p) l
  /\ nsIdsMade q = madeAfter (nsIdsMade p) l
  /\ hasToolCall q = hasToolCall p || existsb isCall l
  /\ nsHasThinking q = nsHasThinking p.

Lemma nsAdds_reads p q part :
  isCall part = false ->
  nsAdds p q (answerOfPart part) (reasoningOfPart part) [] ->
  nsReads p q [part].
Proof.
  intros Hno (H1 & H2 & H3 & H4 & H5 & H6). unfold nsReads.
  cbn [madeAfter callsOfParts existsb joinWith foldr]. rewrite !text_append_empty.
  unfold isCall in *.
  destruct (kindOf part); try done; by rewrite orb_false_r.
Qed.

Lemma processPart_reads part p : nsReads p (processPart part p) [part].
Proof.
  unfold processPart. cbv zeta.
  destruct (functionCall part) as [fc|] eqn:Hfc.
  - assert (kindOf part = KCall fc) as Hk by (unfold kindOf; by rewrite Hfc).
    destruct (flushThinking_same p) as [S1 _].
    destruct (flushText_same (flushThinking p)) as [S2 _].
    destruct (releaseTrailing_same (flushText (flushThinking p))) as [S3 _].
    pose proof (nsSame_then _ _ _ _ _ _ S1 (nsSame_then _ _ _ _ _ _ S2 S3)) as S.
    set (p1 := releaseTrailing (flushText (flushThinking p))) in *. clearbody p1.
    destruct S as (A1 & A2 & A3 & A4 & A5 & A6).
    rewrite !text_append_empty, app_nil_r in *.
    destruct (toolIdOf fc (nsIdsMade p1)) as [toolId made] eqn:Hid.
    unfold nsReads, isCall. cbn [madeAfter callsOfParts existsb joinWith foldr].
    unfold answerOfPart, reasoningOfPart. rewrite Hk, <- A4, Hid. cbn [fst snd].
    ns_unfold. rewrite !joinWith_app, omap_app. cbn.
    unfold nsText, nsThinking, nsCalls in *.
    rewrite !text_append_empty, <- A1, <- A2, <- A3.
    split_and!; try done. by rewrite orb_true_r.
  - destruct (text part) as [t|] eqn:Ht.
    2: { apply nsAdds_reads; [unfold isCall, kindOf; by rewrite Hfc, Ht|].
         unfold answerOfPart, reasoningOfPart, kindOf. rewrite Hfc, Ht.
         apply nsSame_refl. }
    destruct (thought part) eqn:Hth.
    + apply nsAdds_reads; [unfold isCall, kindOf; by rewrite Hfc, Ht, Hth|].
      unfold answerOfPart, reasoningOfPart, kindOf. rewrite Hfc, Ht, Hth.
      destruct (flushText_same p) as [S1 _].
      set (p1 := flushText p) in *. clearbody p1.
      set (p2 := match nsTrailingSignature p1 with
                 | Some _ => releaseTrailing (flushThinking p1)
                 | None => p1
                 end).
      assert (nsSame p1 p2) as S2.
      { subst p2. destruct (nsTrailingSignature p1); [|apply nsSame_refl].
        destruct (flushThinking_same p1) as [F _].
        destruct (releaseTrailing_same (flushThinking p1)) as [R _].
        apply (nsSame_then _ _ _ _ _ _ F R). }
      clearbody p2. apply (nsSame_then p p1); [done|]. apply (nsSame_then p1 p2); [done|].
      ns_unfold. rewrite text_append_empty, app_nil_r.
      split_and!; try done. by rewrite text_append_assoc.
    + destruct (String.eqb t "") eqn:Hempty.
      * apply nsAdds_reads; [unfold isCall, kindOf; by rewrite Hfc, Ht, Hth, Hempty|].
        unfold answerOfPart, reasoningOfPart, kindOf. rewrite Hfc, Ht, Hth, Hempty.
        destruct (truthySignature (thoughtSignature part)); [|apply nsSame_refl].
        ns_unfold. by rewrite !text_append_empty, app_nil_r.
      * apply nsAdds_reads; [unfold isCall, kindOf; by rewrite Hfc, Ht, Hth, Hempty|].
        unfold answerOfPart, reasoningOfPart, kindOf. rewrite Hfc, Ht, Hth, Hempty.
        destruct (flushThinking_same p) as [S1 _].
        set (p1 := flushThinking p) in *. clearbody p1.
        set (p2 := match nsTrailingSignature p1 with
                   | Some _ => releaseTrailing (flushText p1)
                   | None => p1
                   end).
        assert (nsSame p1 p2) as S2.
        { subst p2. destruct (nsTrailingSignature p1); [|apply nsSame_refl].
          destruct (flushText_same p1) as [F _].
          destruct (releaseTrailing_same (flushText p1)) as [R _].
          apply (nsSame_then _ _ _ _ _ _ F R). }
        clearbody p2. apply (nsSame_then p p1); [done|]. apply (nsSame_then p1 p2); [done|].
        set (p3 := {| contentBlocks := contentBlocks p2;
                      textBuilder := textBuilder p2 +:+ t;
                      thinkingBuilder := thinkingBuilder p2;
                      hasToolCall := hasToolCall p2;
                      nsHasThinking := nsHasThinking p2;
                      thinkingSignature := thinkingSignature p2;
                      nsTrailingSignature := nsTrailingSignature p2;
                      nsToolThoughtSignatures := nsToolThoughtSignatures p2;
                      nsIdsMade := nsIdsMade p2 |}).
        assert (nsAdds p2 p3 t "" []) as S3.
        { subst p3. ns_unfold. rewrite text_append_empty, app_nil_r.
          split_and!; try done. by rewrite text_append_assoc. }
        clearbody p3.
        destruct (truthySignature (thoughtSignature part)) as [sig|]; [|done].
        destruct (nsHasThinking p3); [|done].
        apply (then_nsSame p2 p3); [done|].
        destruct (flushText_same p3) as [F _].
        apply (nsSame_then _ _ _ _ _ _ F (pushEmptyThinking_same _ _)).
Qed.

Lemma runParts_reads l : forall p, nsReads p (runParts p l) l.
Proof.
  induction l as [|part rest IH]; intros p.
  - unfold nsReads. cbn. by rewrite !text_append_empty, app_nil_r, orb_false_r.
  - cbn [runParts foldl]. fold (runParts (processPart part p) rest).
    destruct (processPart_reads part p) as (A1 & A2 & A3 & A4 & A5 & A6).
    destruct (IH (processPart part p)) as (B1 & B2 & B3 & B4 & B5 & B6).
    unfold nsReads.
    rewrite (callsOfParts_cons _ part rest), (madeAfter_cons _ part rest).
    cbn [existsb joinWith foldr] in *. rewrite orb_false_r in A5.
    rewrite !text_append_empty in A1, A2.
    rewrite B1, B2, B3, B4, B5, B6, A1, A2, A3, A4, A5, A6.
    rewrite !text_append_assoc, <- app_assoc, orb_assoc. done.
Qed.


End Processors.

(** *** Both processors on one response *)

Section BothProcessors.

(** [makeToolUseId] draws from [crypto.randomBytes] at every call: the
    identifiers the streaming run draws and those the non-streaming run draws
    are two sequences. *)
Variable streamIds : nat -> string.
Variable messageIds : nat -> string.
Variable stringify : Json -> string.

(** The number of function-call parts. *)
Definition countCalls (l : list Part) : nat :=
  length (filter (fun part => isCall part = true) l).

(** The id of the call [fc] that comes after the parts [pre]: its own when
    it is a non-empty string, the next one drawn otherwise. *)
Definition idOfCall (ids : nat -> string) (pre : list Part) (fc : FunctionCall) : string :=
  fst (toolIdOf ids fc (madeAfter ids 0 pre)).

Lemma callsOfParts_app (ids : nat -> string) (pre post : list Part) : forall made,
  callsOfParts ids made (pre ++ post)
  = callsOfParts ids made pre ++ callsOfParts ids (madeAfter ids made pre) post.
Proof.
  induction pre as [|part pre IH]; intros made; [done|].
  cbn [app callsOfParts madeAfter].
  destruct (kindOf part); cbn [app]; by rewrite IH.
Qed.

Lemma callsOfParts_length (ids : nat -> string) (l : list Part) : forall made,
  length (callsOfParts ids made l) = countCalls l.
Proof.
  unfold countCalls.
  induction l as [|part l IH]; intros made; [done|].
  cbn [callsOfParts]. unfold isCall at 1. rewrite filter_cons. unfold isCall at 1.
  destruct (kindOf part); cbn [length]; rewrite ?IH; by case_decide.
Qed.

Lemma callsOfParts_at (ids : nat -> string) (pre post : list Part) p fc :
  kindOf p = KCall fc ->
  callsOfParts ids 0 (pre ++ p :: post) !! countCalls pre
  = Some (idOfCall ids pre fc, fc_name fc, tokenOf p).
Proof.
  intros Hk. rewrite callsOfParts_app.
  rewrite lookup_app_r by (by rewrite callsOfParts_length).
  rewrite callsOfParts_length, Nat.sub_diag. cbn [callsOfParts]. by rewrite Hk.
Qed.

Lemma blocksOf_calls raw table :
  omap callOfBlock (blocksOf messageIds raw table)
  = callsOfParts messageIds 0 (parts raw).
Proof.
  unfold blocksOf, processAll.
  fold (runParts messageIds (newProcessor raw table) (parts raw)).
  destruct (runParts_reads messageIds (parts raw) (newProcessor raw table))
    as (_ & _ & N3 & _).
  set (p := runParts messageIds (newProcessor raw table) (parts raw)) in *. clearbody p.
  destruct (flushThinking_same p) as [T1 _].
  destruct (flushText_same (flushThinking p)) as [X1 _].
  destruct (releaseTrailing_same (flushText (flushThinking p))) as (R1 & _).
  pose proof (nsSame_then _ _ _ _ _ _ T1 (nsSame_then _ _ _ _ _ _ X1 R1))
    as (_ & _ & E3 & _).
  unfold nsCalls in E3, N3. rewrite app_nil_r in E3. rewrite E3, N3. done.
Qed.

Lemma eventsOf_calls raw table :
  omap callOfEvent (eventsOf streamIds stringify raw table)
  = callsOfParts streamIds 0 (parts raw).
Proof.
  unfold eventsOf, streamParts.
  fold (runStream streamIds stringify (newStreamingState table) (parts raw)).
  destruct (runStream_reads streamIds stringify (parts raw) (newStreamingState table))
    as (_ & _ & streamed & Se & _ & _ & Scs).
  destruct (emitFinish_reads (finishReason raw) (present (usageMetadata raw)) None
              (runStream streamIds stringify (newStreamingState table) (parts raw)))
    as (closing & Fe & _ & _ & Fcs & _).
  rewrite Fe, Se. cbn [events newStreamingState app idsMade] in *.
  by rewrite omap_app, Scs, Fcs, app_nil_r.
Qed.


(** The name and the signature of a call, without its id. *)
Definition nameAndToken (c : Call) : string * option string := (snd (fst c), snd c).

Lemma callsOfParts_names (ids ids' : nat -> string) (l : list Part) : forall made made',
  map nameAndToken (callsOfParts ids made l)
  = map nameAndToken (callsOfParts ids' made' l).
Proof.
  induction l as [|part l IH]; intros made made'; [done|].
  cbn [callsOfParts]. destruct (kindOf part); try apply IH.
  cbn [map nameAndToken fst snd]. f_equal. apply IH.
Qed.


End BothProcessors.

(** *** Examples *)

(** A counter in place of the random suffix of [makeToolUseId]. *)
Definition countedToolUseId (n : nat) : string :=
  "toolu_vrtx_" +:+ NilEmpty.string_of_uint (Nat.to_uint n).

(** The examples carry no arguments, so [JSON.stringify] is never reached. *)
Definition stringifyNothing (_ : Json) : string := "{}".

Definition reasoningPart (t sig : string) : Part :=
  {| text := Some t; thought := true; functionCall := None;
     thoughtSignature := Some sig |}.

Definition textPart (t : string) (sig : option string) : Part :=
  {| text := Some t; thought := false; functionCall := None; thoughtSignature := sig |}.

Definition callPart (id name sig : string) : Part :=
  {| text := None; thought := false;
     functionCall := Some {| fc_id := Some id; fc_name := name; fc_args := None |};
     thoughtSignature := Some sig |}.

Definition responseOf (l : list Part) : RawResponse :=
  {| responseId := None; modelVersion := None; parts := l;
     finishReason := Some "STOP"; usageMetadata := Absent |}.

(** A call without an id of its own. *)
Definition ownCallPart (name sig : string) : Part :=
  {| text := None; thought := false;
     functionCall := Some {| fc_id := None; fc_name := name; fc_args := None |};
     thoughtSignature := Some sig |}.

(** The identifiers another run draws. *)
Definition drawnForMessage (n : nat) : string :=
  "toolu_vrtx_m" +:+ NilEmpty.string_of_uint (Nat.to_uint n).

(** Reasoning, an empty text part and two calls, each with a token. *)
Definition exampleResponse : RawResponse :=
  responseOf [reasoningPart "plan" "r1"; textPart "" (Some "h1");
              callPart "call_1" "get" "c1"; ownCallPart "put" "c2"].


(** Two reasoning parts in a row, each with a token. *)
Definition exampleTwoTokens : RawResponse :=
  responseOf [reasoningPart "a" "s1"; reasoningPart "b" "s2"].

(** An empty text part with a token, released by a text part before the
    reasoning part arrives. *)
Definition exampleLateReasoning : RawResponse :=
  responseOf [textPart "" (Some "h"); textPart "x" None;
              {| text := Some "r"; thought := true; functionCall := None;
                 thoughtSignature := None |}].


End ResponseOut.


(** ** The string operations of the sources

    A string is its sequence of code units.  The sources look only at units
    of the ASCII range (tag delimiters, line ends, white space, the literal
    prefixes); every other unit is passed along untouched, so units are
    modelled as the 8-bit characters of [string]. *)

Module JsText.

(** ["\n"]. *)
Definition LF : string := String (ascii_of_nat 10) "".

(** [s.startsWith(p)]. *)
Definition startsWith (s p : string) : bool := String.prefix p s.

(** [s.includes(needle)]. *)
Fixpoint includes (s needle : string) : bool :=
  String.prefix needle s
  || match s with
     | EmptyString => false
     | String _ r => includes r needle
     end.

(** White space and line terminators, as [trim] and [\s] know them, among the
    units below 256. *)
Definition isWhiteSpace (c : ascii) : bool :=
  let n := nat_of_ascii c in
  (Nat.leb 9 n && Nat.leb n 13) || Nat.eqb n 32 || Nat.eqb n 160.

Fixpoint trimStart (s : string) : string :=
  match s with
  | EmptyString => ""
  | String c r => if isWhiteSpace c then trimStart r else s
  end.

Fixpoint trimEnd (s : string) : string :=
  match s with
  | EmptyString => ""
  | String c r =>
      let r' := trimEnd r in
      if isWhiteSpace c && String.eqb r' "" then "" else String c r'
  end.

(** [s.trim()]. *)
Definition trim (s : string) : string := trimEnd (trimStart s).

(** [s.slice(n)] for [n >= 0]. *)
Fixpoint slice (n : nat) (s : string) : string :=
  match n, s with
  | O, _ => s
  | S k, String _ r => slice k r
  | S _, EmptyString => ""
  end.

(** [s.split(sep)] for a non-empty [sep]: [skip] units of a separator just
    met are still to be passed over, [cur] is the piece being read. *)
Fixpoint splitFrom (sep : string) (skip : nat) (cur : string) (s : string)
  : list string :=
  match s with
  | EmptyString => [cur]
  | String c r =>
      match skip with
      | S k => splitFrom sep k cur r
      | O =>
          if String.prefix sep s
          then cur :: splitFrom sep (String.length sep - 1) "" r
          else splitFrom sep 0 (cur +:+ String c "") r
      end
  end.

Definition split (sep s : string) : list string := splitFrom sep 0 "" s.

Lemma append_assoc (a b c : string) : (a +:+ b) +:+ c = a +:+ (b +:+ c).
Proof.
  induction a as [|x a IH]; [done|].
  change (String x ((a +:+ b) +:+ c) = String x (a +:+ (b +:+ c))). by rewrite IH.
Qed.

Lemma append_empty_r (a : string) : a +:+ "" = a.
Proof.
  induction a as [|x a IH]; [done|].
  change (String x (a +:+ "") = String x a). by rewrite IH.
Qed.

(** A string that does not begin with white space. *)
Definition startsClean (s : string) : bool :=
  match s with
  | EmptyString => true
  | String c _ => negb (isWhiteSpace c)
  end.

Lemma trimStart_clean s : startsClean (trimStart s) = true.
Proof.
  induction s as [|c r IH]; [done|]. cbn [trimStart].
  destruct (isWhiteSpace c) eqn:E; [done|]. cbn [startsClean]. by rewrite E.
Qed.

Lemma trimStart_id s : startsClean s = true -> trimStart s = s.
Proof.
  destruct s as [|c r]; [done|]. cbn [startsClean trimStart].
  by destruct (isWhiteSpace c).
Qed.

Lemma trimEnd_clean s : startsClean s = true -> startsClean (trimEnd s) = true.
Proof.
  destruct s as [|c r]; [done|]. cbn [startsClean trimEnd].
  destruct (isWhiteSpace c) eqn:E; [done|]. intros _. cbn [andb startsClean].
  by rewrite E.
Qed.

Lemma trimEnd_idem s : trimEnd (trimEnd s) = trimEnd s.
Proof.
  induction s as [|c r IH]; [done|]. cbn [trimEnd].
  destruct (isWhiteSpace c && String.eqb (trimEnd r) "") eqn:E; [done|].
  cbn [trimEnd]. rewrite IH. by rewrite E.
Qed.

Lemma trim_idem s : trim (trim s) = trim s.
Proof.
  unfold trim.
  rewrite (trimStart_id (trimEnd (trimStart s))).
  - apply trimEnd_idem.
  - apply trimEnd_clean, trimStart_clean.
Qed.

Example split_blank_lines :
  split (LF +:+ LF) ("a" +:+ LF +:+ "b" +:+ LF +:+ LF +:+ LF +:+ "c")
  = ["a" +:+ LF +:+ "b"; LF +:+ "c"].
Proof. reflexivity. Qed.

Example trim_both_ends : trim ("  a b " +:+ LF) = "a b".
Proof. reflexivity. Qed.

End JsText.


(** ** The model-switch orchestrator (claudeApiMcp.js) *)

Module ApiMcp.

Import JsText.

Definition MCP_SWITCH_SIGNAL : string := "AG2API_SWITCH_TO_MCP_MODEL".

Section SwitchSignal.

(** [JSON.parse], [None] when it throws. *)
Variable parseJson : string -> option Json.

(** The payload of one SSE chunk: the first line that starts with ["data: "],
    without the prefix and trimmed; chunks without one, with an empty one or
    with ["[DONE]"] are passed over. *)
Definition payloadOf (chunk : string) : option string :=
  match List.find (fun l => startsWith l "data: ") (split LF chunk) with
  | None => None
  | Some dataLine =>
      let payload := trim (slice 6 dataLine) in
      if String.eqb payload "" || String.eqb payload "[DONE]" then None
      else Some payload
  end.

(** [obj?.type === "content_block_start" && obj?.content_block?.type === "tool_use"
    && typeof obj?.content_block?.name === "string"
    && obj.content_block.name.startsWith("mcp__")]. *)
Definition isMcpToolStart (obj : Json) : bool :=
  match prop "type" obj, prop "content_block" obj with
  | Some (JStr ty), Some block =>
      String.eqb ty "content_block_start"
      && match prop "type" block, prop "name" block with
         | Some (JStr bty), Some (JStr name) =>
             String.eqb bty "tool_use" && startsWith name "mcp__"
         | _, _ => false
         end
  | _, _ => false
  end.

(** What a [content_block_delta] event with a [text_delta] adds to [textOut]. *)
Definition textDeltaOf (obj : Json) : string :=
  match prop "type" obj, prop "delta" obj with
  | Some (JStr ty), Some delta =>
      if String.eqb ty "content_block_delta" then
        match prop "type" delta, prop "text" delta with
        | Some (JStr dty), Some (JStr t) =>
            if String.eqb dty "text_delta" then t else ""
        | _, _ => ""
        end
      else ""
  | _, _ => ""
  end.

(** The loop of [hasMcpSwitchSignal] over the chunks, [textOut] so far. *)
Fixpoint scanChunks (chunks : list string) (textOut : string) : bool :=
  match chunks with
  | [] => includes textOut MCP_SWITCH_SIGNAL
  | chunk :: rest =>
      match payloadOf chunk with
      | None => scanChunks rest textOut
      | Some payload =>
          match parseJson payload with
          | None => scanChunks rest textOut
          | Some obj =>
              if isMcpToolStart obj then true
              else scanChunks rest (textOut +:+ textDeltaOf obj)
          end
      end
  end.

(** [hasMcpSwitchSignal]. *)
Definition hasMcpSwitchSignal (transformedSseText : string) : bool :=
  scanChunks (split (LF +:+ LF) transformedSseText) "".

(** The events of the buffered stream that the loop gets to parse. *)
Definition parsedEvents (chunks : list string) : list Json :=
  omap (fun chunk => payloadOf chunk ≫= parseJson) chunks.

(** All the text deltas of the stream, end to end. *)
Definition streamText (evs : list Json) : string :=
  foldr (fun obj acc => textDeltaOf obj +:+ acc) "" evs.

Lemma scanChunks_spec chunks : forall textOut,
  scanChunks chunks textOut
  = existsb isMcpToolStart (parsedEvents chunks)
    || includes (textOut +:+ streamText (parsedEvents chunks)) MCP_SWITCH_SIGNAL.
Proof.
  induction chunks as [|chunk rest IH]; intros textOut.
  - cbn [scanChunks parsedEvents omap list_omap existsb streamText foldr orb].
    by rewrite append_empty_r.
  - cbn [scanChunks]. unfold parsedEvents. cbn [omap list_omap].
    fold (parsedEvents rest).
    destruct (payloadOf chunk) as [payload|]; cbn [mbind option_bind]; [|by apply IH].
    destruct (parseJson payload) as [obj|]; [|by apply IH].
    cbn [existsb streamText foldr]. fold (streamText (parsedEvents rest)).
    destruct (isMcpToolStart obj); [done|].
    cbn [orb]. rewrite IH. by rewrite append_assoc.
Qed.

Lemma hasMcpSwitchSignal_spec (transformedSseText : string) :
  hasMcpSwitchSignal transformedSseText
  = existsb isMcpToolStart (parsedEvents (split (LF +:+ LF) transformedSseText))
    || includes (streamText (parsedEvents (split (LF +:+ LF) transformedSseText)))
         MCP_SWITCH_SIGNAL.
Proof. unfold hasMcpSwitchSignal. by rewrite scanChunks_spec. Qed.


End SwitchSignal.

(** *** The stream as the transcoder writes it *)

(** A string without a line feed. *)
Fixpoint oneLine (s : string) : bool :=
  match s with
  | EmptyString => true
  | String c r => negb (Ascii.eqb c (ascii_of_nat 10)) && oneLine r
  end.

(** The events of the transcoded stream, by what the detection makes of
    them: a text delta, the start of a [tool_use] block, the start of another
    block, another delta, and the events of other types. *)
Inductive StreamEvent : Type :=
| EvTextDelta (index : Json) (text : string)
| EvToolUseStart (index : Json) (id name : string) (input : Json)
| EvBlockStart (index block : Json)
| EvBlockDelta (index delta : Json)
| EvOther (obj : Json).

(** The [data] of an event, as [StreamingState] builds it. *)
Definition dataOf (ev : StreamEvent) : Json :=
  match ev with
  | EvTextDelta index t =>
      JObj [("type", JStr "content_block_delta"); ("index", index);
            ("delta", JObj [("type", JStr "text_delta"); ("text", JStr t)])]
  | EvToolUseStart index id name input =>
      JObj [("type", JStr "content_block_start"); ("index", index);
            ("content_block", JObj [("type", JStr "tool_use"); ("id", JStr id);
                                    ("name", JStr name); ("input", input)])]
  | EvBlockStart index block =>
      JObj [("type", JStr "content_block_start"); ("index", index);
            ("content_block", block)]
  | EvBlockDelta index delta =>
      JObj [("type", JStr "content_block_delta"); ("index", index); ("delta", delta)]
  | EvOther obj => obj
  end.

(** The three last kinds are what their names say. *)
Definition properEvent (ev : StreamEvent) : Prop :=
  match ev with
  | EvTextDelta _ _ | EvToolUseStart _ _ _ _ => True
  | EvBlockStart _ block => prop "type" block <> Some (JStr "tool_use")
  | EvBlockDelta _ delta => prop "type" delta <> Some (JStr "text_delta")
  | EvOther obj =>
      prop "type" obj <> Some (JStr "content_block_start")
      /\ prop "type" obj <> Some (JStr "content_block_delta")
  end.

(** The text a text delta brings. *)
Definition deltaTextOf (ev : StreamEvent) : string :=
  match ev with EvTextDelta _ t => t | _ => "" end.

(** The start of a call of a bridged tool. *)
Definition startsBridgedTool (ev : StreamEvent) : bool :=
  match ev with EvToolUseStart _ _ name _ => startsWith name "mcp__" | _ => false end.

(** [`event: ${eventType}\ndata: ${JSON.stringify(data)}\n\n`], what
    [StreamingState.emit] enqueues. *)
Definition sseOf (eventType payload : string) : string :=
  "event: " +:+ eventType +:+ LF +:+ "data: " +:+ payload +:+ LF +:+ LF.

(** *** Cutting the stream into its events again *)

Definition LFU : ascii := ascii_of_nat 10.

Lemma prefix_other (sep : string) c r :
  Ascii.eqb c LFU = false -> String.prefix (String LFU sep) (String c r) = false.
Proof.
  intros Hc. cbn [String.prefix]. destruct (ascii_dec LFU c) as [<-|]; [|done].
  by rewrite Ascii.eqb_refl in Hc.
Qed.

(** A piece without a line feed is read into the chunk, whatever the
    separator that begins with one. *)
Lemma splitFrom_oneLine (sep : string) l : forall cur s,
  oneLine l = true ->
  splitFrom (String LFU sep) 0 cur (l +:+ s) = splitFrom (String LFU sep) 0 (cur +:+ l) s.
Proof.
  induction l as [|c r IH]; intros cur s Hl.
  - change ("" +:+ s) with s. by rewrite append_empty_r.
  - change (String c r +:+ s) with (String c (r +:+ s)).
    cbn [oneLine] in Hl. apply andb_true_iff in Hl as [Hc Hr].
    apply negb_true_iff in Hc.
    cbn [splitFrom]. rewrite prefix_other by done.
    rewrite IH by done. by rewrite append_assoc.
Qed.

(** One line feed before another unit belongs to the chunk. *)
Lemma splitFrom_lineFeed cur c r :
  Ascii.eqb c LFU = false ->
  splitFrom (LF +:+ LF) 0 cur (LF +:+ String c r)
  = splitFrom (LF +:+ LF) 0 (cur +:+ LF) (String c r).
Proof.
  intros Hc. change (LF +:+ String c r) with (String LFU (String c r)).
  cbn [splitFrom].
  assert (String.prefix (LF +:+ LF) (String LFU (String c r)) = false) as ->.
  { change (LF +:+ LF) with (String LFU (String LFU "")). cbn [String.prefix].
    destruct (ascii_dec LFU LFU); [|done]. by apply (prefix_other "" c r). }
  done.
Qed.

(** Two line feeds end the chunk. *)
Lemma splitFrom_blankLine cur s :
  splitFrom (LF +:+ LF) 0 cur (LF +:+ LF +:+ s) = cur :: splitFrom (LF +:+ LF) 0 "" s.
Proof.
  change (LF +:+ LF +:+ s) with (String LFU (String LFU s)).
  cbn [splitFrom].
  assert (String.prefix (LF +:+ LF) (String LFU (String LFU s)) = true) as ->.
  { change (LF +:+ LF) with (String LFU (String LFU "")). cbn [String.prefix].
    destruct (ascii_dec LFU LFU); [|done]. by destruct s. }
  done.
Qed.

(** The chunk of an event: its two lines. *)
Definition chunkOf (eventType payload : string) : string :=
  "event: " +:+ eventType +:+ LF +:+ "data: " +:+ payload.

Lemma oneLine_app a b : oneLine a = true -> oneLine b = true -> oneLine (a +:+ b) = true.
Proof.
  intros Ha Hb. induction a as [|c r IH]; [done|].
  change (String c r +:+ b) with (String c (r +:+ b)). cbn [oneLine] in *.
  apply andb_true_iff in Ha as [Hc Hr]. by rewrite Hc, IH.
Qed.

Lemma splitFrom_oneLine2 l cur s :
  oneLine l = true ->
  splitFrom (LF +:+ LF) 0 cur (l +:+ s) = splitFrom (LF +:+ LF) 0 (cur +:+ l) s.
Proof. exact (splitFrom_oneLine (String LFU "") l cur s). Qed.

Lemma splitFrom_sse eventType payload rest :
  oneLine eventType = true -> oneLine payload = true ->
  splitFrom (LF +:+ LF) 0 "" (sseOf eventType payload +:+ rest)
  = chunkOf eventType payload :: splitFrom (LF +:+ LF) 0 "" rest.
Proof.
  intros He Hp. unfold sseOf, chunkOf. rewrite !append_assoc.
  rewrite <- (append_assoc "event: " eventType).
  rewrite (splitFrom_oneLine2 ("event: " +:+ eventType)) by (by apply oneLine_app).
  change ("data: " +:+ payload +:+ LF +:+ LF +:+ rest)
    with (String "d" ("ata: " +:+ payload +:+ LF +:+ LF +:+ rest)).
  rewrite splitFrom_lineFeed by done.
  change (String "d" ("ata: " +:+ payload +:+ LF +:+ LF +:+ rest))
    with ("data: " +:+ (payload +:+ LF +:+ LF +:+ rest)).
  rewrite <- (append_assoc "data: " payload).
  rewrite (splitFrom_oneLine2 ("data: " +:+ payload)) by (by apply oneLine_app).
  rewrite splitFrom_blankLine. change ("" +:+ ?x) with x.
  by rewrite !append_assoc.
Qed.

Lemma split_chunk eventType payload :
  oneLine eventType = true -> oneLine payload = true ->
  split LF (chunkOf eventType payload) = ["event: " +:+ eventType; "data: " +:+ payload].
Proof.
  intros He Hp. unfold split, chunkOf.
  rewrite <- (append_assoc "event: " eventType).
  change LF with (String LFU "") at 1.
  rewrite (splitFrom_oneLine "" ("event: " +:+ eventType)) by (by apply oneLine_app).
  change (String LFU "") with LF.
  change (LF +:+ "data: " +:+ payload) with (String LFU ("data: " +:+ payload)).
  cbn [splitFrom].
  assert (String.prefix LF (String LFU ("data: " +:+ payload)) = true) as ->.
  { unfold LF. cbn [String.prefix]. by destruct (ascii_dec _ _). }
  change (String.length LF - 1) with 0. change ("" +:+ ?x) with x.
  f_equal.
  rewrite <- (append_empty_r ("data: " +:+ payload)) at 1.
  change LF with (String LFU "").
  rewrite (splitFrom_oneLine "" ("data: " +:+ payload)) by (by apply oneLine_app).
  done.
Qed.

Lemma payloadOf_chunk eventType payload :
  oneLine eventType = true -> oneLine payload = true ->
  trim payload <> "" -> trim payload <> "[DONE]" ->
  payloadOf (chunkOf eventType payload) = Some (trim payload).
Proof.
  intros He Hp Hne Hdone. unfold payloadOf. rewrite split_chunk by done.
  cbn [List.find].
  assert (startsWith ("event: " +:+ eventType) "data: " = false) as -> by done.
  assert (startsWith ("data: " +:+ payload) "data: " = true) as ->.
  { unfold startsWith. cbn. repeat (destruct (ascii_dec _ _); [|done]). by destruct payload. }
  change (slice 6 ("data: " +:+ payload)) with payload.
  apply String.eqb_neq in Hne, Hdone. by rewrite Hne, Hdone.
Qed.

Lemma payloadOf_empty : payloadOf "" = None.
Proof. done. Qed.

Section Rendered.

Variable parseJson : string -> option Json.

(** An event with the name and the text it is w_event with: neither holds a
    line feed, and the text is one [JSON.parse] reads back as the data. *)
Record Written : Type := {
  w_event : StreamEvent;
  w_type : string;
  w_payload : string
}.

Definition wellWritten (w : Written) : Prop :=
  properEvent (w_event w)
  /\ oneLine (w_type w) = true /\ oneLine (w_payload w) = true
  /\ trim (w_payload w) <> "" /\ trim (w_payload w) <> "[DONE]"
  /\ parseJson (trim (w_payload w)) = Some (dataOf (w_event w)).

(** The text of the stream. *)
Definition streamOf (ws : list Written) : string :=
  foldr (fun w acc => sseOf (w_type w) (w_payload w) +:+ acc) "" ws.

Lemma isMcpToolStart_dataOf ev :
  properEvent ev -> isMcpToolStart (dataOf ev) = startsBridgedTool ev.
Proof.
  destruct ev as [index t|index id name input|index block|index delta|obj];
    cbn [properEvent dataOf startsBridgedTool]; intros Hev.
  - unfold isMcpToolStart. cbn [prop obj_get]. by eqb_consts.
  - unfold isMcpToolStart. cbn [prop obj_get]. eqb_consts. cbv iota. by eqb_consts.
  - unfold isMcpToolStart. cbn [prop obj_get]. eqb_consts. cbv iota.
    destruct (prop "type" block) as [[| | |bty| |]|]; try done.
    destruct (prop "name" block) as [[| | |name| |]|]; try done.
    destruct (String.eqb bty "tool_use") eqn:E; [|done].
    apply String.eqb_eq in E. by subst bty.
  - unfold isMcpToolStart. cbn [prop obj_get]. by eqb_consts.
  - destruct Hev as [Hstart _]. unfold isMcpToolStart.
    destruct (prop "type" obj) as [[| | |ty| |]|]; try done.
    destruct (prop "content_block" obj) as [block|]; [|done].
    destruct (String.eqb ty "content_block_start") eqn:E; [|done].
    apply String.eqb_eq in E. by subst ty.
Qed.

Lemma textDeltaOf_dataOf ev :
  properEvent ev -> textDeltaOf (dataOf ev) = deltaTextOf ev.
Proof.
  destruct ev as [index t|index id name input|index block|index delta|obj];
    cbn [properEvent dataOf deltaTextOf]; intros Hev.
  - unfold textDeltaOf. cbn [prop obj_get]. eqb_consts. cbv iota. by eqb_consts.
  - unfold textDeltaOf. cbn [prop obj_get]. by eqb_consts.
  - unfold textDeltaOf. cbn [prop obj_get]. by eqb_consts.
  - unfold textDeltaOf. cbn [prop obj_get]. eqb_consts. cbv iota.
    destruct (prop "type" delta) as [[| | |dty| |]|]; try done.
    destruct (prop "text" delta) as [[| | |t| |]|]; try done.
    destruct (String.eqb dty "text_delta") eqn:E; [|done].
    apply String.eqb_eq in E. by subst dty.
  - destruct Hev as [_ Hdelta]. unfold textDeltaOf.
    destruct (prop "type" obj) as [[| | |ty| |]|]; try done.
    destruct (prop "delta" obj) as [delta|]; [|done].
    destruct (String.eqb ty "content_block_delta") eqn:E; [|done].
    apply String.eqb_eq in E. by subst ty.
Qed.

(** All the text of the text deltas, end to end. *)
Definition textOfStream (ws : list Written) : string :=
  foldr (fun w acc => deltaTextOf (w_event w) +:+ acc) "" ws.

Lemma split_streamOf ws :
  Forall wellWritten ws ->
  split (LF +:+ LF) (streamOf ws)
  = map (fun w => chunkOf (w_type w) (w_payload w)) ws ++ [""].
Proof.
  unfold split. induction 1 as [|w ws Hw _ IH]; [done|].
  destruct Hw as (_ & He & Hp & _).
  cbn [streamOf foldr map app]. fold (streamOf ws).
  by rewrite splitFrom_sse, IH.
Qed.

Lemma parsedEvents_streamOf ws :
  Forall wellWritten ws ->
  parsedEvents parseJson (split (LF +:+ LF) (streamOf ws))
  = map (fun w => dataOf (w_event w)) ws.
Proof.
  intros Hws. rewrite split_streamOf by done. unfold parsedEvents.
  induction Hws as [|w ws Hw _ IH]; [done|].
  destruct Hw as (_ & He & Hp & Hne & Hdone & Hparse).
  cbn [map app omap list_omap]. rewrite payloadOf_chunk by done.
  cbn [mbind option_bind]. rewrite Hparse. by rewrite IH.
Qed.

Lemma hasMcpSwitchSignal_streamOf (ws : list Written) :
  Forall wellWritten ws ->
  hasMcpSwitchSignal parseJson (streamOf ws)
  = existsb (fun w => startsBridgedTool (w_event w)) ws
    || includes (textOfStream ws) MCP_SWITCH_SIGNAL.
Proof.
  intros Hws. rewrite hasMcpSwitchSignal_spec, parsedEvents_streamOf by done.
  assert (existsb isMcpToolStart (map (fun w => dataOf (w_event w)) ws)
          = existsb (fun w => startsBridgedTool (w_event w)) ws) as ->.
  { induction Hws as [|w ws Hw _ IH]; [done|]. destruct Hw as (Hev & _).
    cbn [map existsb]. by rewrite IH, isMcpToolStart_dataOf. }
  assert (streamText (map (fun w => dataOf (w_event w)) ws) = textOfStream ws) as ->.
  { induction Hws as [|w ws Hw _ IH]; [done|]. destruct Hw as (Hev & _).
    cbn [map streamText textOfStream foldr].
    fold (streamText (map (fun w => dataOf (w_event w)) ws)). fold (textOfStream ws).
    by rewrite IH, textDeltaOf_dataOf. }
  done.
Qed.

(** C10: on a stream as the transcoder writes it, the switch is signalled
    exactly when one event is the start of a [tool_use] block whose name
    starts with [mcp__], or the texts of all text deltas of the stream, put
    end to end, hold the marker: the marker counts when it is cut over
    several events, a bridged call when one event shows it.  On any text, the
    events are those of the chunks between blank lines whose [data:] line
    [JSON.parse] reads, and the texts are put together over all of them. *)
Theorem switch_signal_spans_events :
  (forall ws : list Written,
      Forall wellWritten ws ->
      hasMcpSwitchSignal parseJson (streamOf ws)
      = existsb (fun w => startsBridgedTool (w_event w)) ws
        || includes (textOfStream ws) MCP_SWITCH_SIGNAL)
  /\ (forall transformedSseText : string,
        hasMcpSwitchSignal parseJson transformedSseText
        = existsb isMcpToolStart
            (parsedEvents parseJson (split (LF +:+ LF) transformedSseText))
          || includes
               (streamText (parsedEvents parseJson (split (LF +:+ LF) transformedSseText)))
               MCP_SWITCH_SIGNAL).
Proof.
  split.
  - apply hasMcpSwitchSignal_streamOf.
  - apply hasMcpSwitchSignal_spec.
Qed.

End Rendered.

(** A stand-in for [JSON.parse] in the examples: the payloads it knows. *)
Definition parseFrom (table : list (string * Json)) (payload : string) : option Json :=
  obj_get payload table.

Definition textDeltaEvent (t : string) : Json :=
  JObj [("type", JStr "content_block_delta"); ("index", JNum 0);
        ("delta", JObj [("type", JStr "text_delta"); ("text", JStr t)])].

Definition toolStartEvent (name : string) : Json :=
  JObj [("type", JStr "content_block_start"); ("index", JNum 1);
        ("content_block", JObj [("type", JStr "tool_use"); ("id", JStr "toolu_1");
                                ("name", JStr name); ("input", JObj [])])].

Definition sse (event payload : string) : string :=
  "event: " +:+ event +:+ LF +:+ "data: " +:+ payload +:+ LF +:+ LF.

Definition examplePayloads : list (string * Json) :=
  [("d1", textDeltaEvent "ok AG2API_SWITCH_"); ("d2", textDeltaEvent "TO_MCP_MODEL");
   ("d3", textDeltaEvent "plain answer"); ("s1", toolStartEvent "mcp__fs__read");
   ("s2", toolStartEvent "Read")].

Example marker_split_over_two_events :
  hasMcpSwitchSignal (parseFrom examplePayloads)
    (sse "content_block_delta" "d1" +:+ sse "content_block_delta" "d2") = true.
Proof. vm_compute. reflexivity. Qed.

Example bridged_tool_start_detected :
  hasMcpSwitchSignal (parseFrom examplePayloads)
    (sse "content_block_delta" "d3" +:+ sse "content_block_start" "s1") = true.
Proof. vm_compute. reflexivity. Qed.

(** The marker cut over two text deltas, neither of which holds it. *)
Definition markerInTwoDeltas : list Written :=
  [ {| w_event := EvTextDelta (JNum 0) "ok AG2API_SWITCH_";
       w_type := "content_block_delta"; w_payload := "d1" |};
    {| w_event := EvTextDelta (JNum 0) "TO_MCP_MODEL";
       w_type := "content_block_delta"; w_payload := "d2" |} ].

Lemma switch_signal_spans_events_witness :
  hasMcpSwitchSignal (parseFrom examplePayloads) (streamOf markerInTwoDeltas) = true
  /\ includes "ok AG2API_SWITCH_" MCP_SWITCH_SIGNAL = false
  /\ includes "TO_MCP_MODEL" MCP_SWITCH_SIGNAL = false.
Proof.
  split; [|split; reflexivity].
  rewrite (proj1 (switch_signal_spans_events (parseFrom examplePayloads))
             markerInTwoDeltas).
  - reflexivity.
  - repeat constructor; discriminate.
Defined.

Example nothing_to_detect :
  hasMcpSwitchSignal (parseFrom examplePayloads)
    (sse "content_block_start" "s2" +:+ sse "content_block_delta" "d3"
     +:+ "data: [DONE]" +:+ LF +:+ LF) = false.
Proof. vm_compute. reflexivity. Qed.


(** *** Folding a finished MCP segment out of the history *)

(** [b && b.type === "text" && typeof b.text === "string"], then [b.text]. *)
Definition textOfBlock (b : Json) : option string :=
  match prop "type" b, prop "text" b with
  | Some (JStr ty), Some (JStr t) => if String.eqb ty "text" then Some t else None
  | _, _ => None
  end.

(** [extractTextFromClaudeContent]. *)
Definition extractTextFromClaudeContent (content : option Json) : string :=
  match content with
  | Some (JStr text) => text
  | Some (JArr blocks) => join "" (omap textOfBlock blocks)
  | _ => ""
  end.

(** [msg && msg.role === "assistant"]. *)
Definition isAssistant (msg : Json) : bool :=
  match prop "role" msg with
  | Some (JStr role) => String.eqb role "assistant"
  | _ => false
  end.

(** The loop of [extractLastAssistantText], over the messages from index
    [end - 1] down to [start]. *)
Fixpoint lastAssistantText (downwards : list Json) : string :=
  match downwards with
  | [] => ""
  | msg :: rest =>
      if isAssistant msg then
        let text := extractTextFromClaudeContent (prop "content" msg) in
        if negb (String.eqb text "") && negb (String.eqb (trim text) "") then trim text
        else lastAssistantText rest
      else lastAssistantText rest
  end.

(** [extractLastAssistantText(messages, startIndex, endIndexExclusive)]. *)
Definition extractLastAssistantText (messages : list Json)
    (startIndex endIndexExclusive : nat) : string :=
  let last := Nat.min (length messages) endIndexExclusive in
  lastAssistantText (rev (take (last - startIndex) (drop startIndex messages))).

(** A folded segment [{ start, end, summaryText }]; the indices are the
    message counts the orchestrator stored, so they are natural numbers. *)
Record Segment : Type := {
  seg_start : nat;
  seg_end : nat;
  summaryText : string
}.

(** [{ role: "user", content: [{ type: "text", text: `MCP result:\n${summary}` }] }]. *)
Definition summaryMessage (summary : string) : Json :=
  JObj [("role", JStr "user");
        ("content", JArr [JObj [("type", JStr "text");
                                ("text", JStr ("MCP result:" +:+ LF +:+ summary))]])].

(** The filter of [foldSegments]: [s.start >= 0 && s.end > s.start]. *)
Definition validSegment (s : Segment) : bool := Nat.ltb (seg_start s) (seg_end s).

(** [sort((a, b) => a.start - b.start)], which is stable. *)
Fixpoint insertByStart (s : Segment) (l : list Segment) : list Segment :=
  match l with
  | [] => [s]
  | x :: r =>
      if Nat.ltb (seg_start s) (seg_start x) then s :: l else x :: insertByStart s r
  end.

Definition sortByStart (l : list Segment) : list Segment :=
  foldl (fun acc s => insertByStart s acc) [] l.

(** The loop of [foldSegments] over the sorted segments: [i] is the next
    message to copy, [out] what has been pushed.  The two [while] loops copy
    [messages[i .. stop)]. *)
Fixpoint foldLoop (messages : list Json) (sorted : list Segment) (i : nat)
    (out : list Json) : list Json :=
  match sorted with
  | [] => out ++ drop i messages
  | seg :: rest =>
      let stop := Nat.min (length messages) (seg_start seg) in
      let out1 := out ++ take (stop - i) (drop i messages) in
      let i1 := Nat.max i stop in
      let summary := trim (summaryText seg) in
      let out2 :=
        if String.eqb summary "" then out1 else out1 ++ [summaryMessage summary] in
      foldLoop messages rest (Nat.max i1 (seg_end seg)) out2
  end.

(** [foldSegments]. *)
Definition foldSegments (messages : list Json) (segments : list Segment) : list Json :=
  match messages, segments with
  | [], _ => messages
  | _, [] => messages
  | _, _ =>
      match sortByStart (filter (fun s => validSegment s = true) segments) with
      | [] => messages
      | sorted => foldLoop messages sorted 0 []
      end
  end.

(** The session entry [{ lastFamily, mcpStartIndex, foldedSegments }]. *)
Record SessionState : Type := {
  lastFamily : option string;
  mcpStartIndex : option nat;
  foldedSegments : list Segment
}.

(** [prepareMcpContext], from [let upstreamRequestForTransform = upstreamRequest]
    to the end of the [if (sessionState && Array.isArray(requestData.messages))]:
    the messages handed to the transcoder and the session entry afterwards.
    [targetIsClaude] is [targetFamily === "claude"]. *)
Definition foldForTarget (targetIsClaude : bool) (messages : list Json)
    (sessionState : option SessionState) : list Json * option SessionState :=
  match sessionState with
  | None => (messages, None)
  | Some st =>
      let st1 :=
        match mcpStartIndex st with
        | Some idx =>
            if targetIsClaude then
              let last := length messages - 1 in
              let segments :=
                if Nat.ltb idx last
                then foldedSegments st
                       ++ [{| seg_start := idx; seg_end := last;
                              summaryText := extractLastAssistantText messages idx last |}]
                else foldedSegments st in
              {| lastFamily := lastFamily st; mcpStartIndex := None;
                 foldedSegments := segments |}
            else st
        | None => st
        end in
      let upstreamMessages :=
        if targetIsClaude && Nat.ltb 0 (length (foldedSegments st1))
        then foldSegments messages (foldedSegments st1)
        else messages in
      (upstreamMessages, Some st1)
  end.


(** The answer an assistant message contributes to a summary: its text,
    trimmed, when that is not empty. *)
Definition answerOf (msg : Json) : option string :=
  if isAssistant msg then
    let answer := trim (extractTextFromClaudeContent (prop "content" msg)) in
    if String.eqb answer "" then None else Some answer
  else None.

Lemma answerOf_trimmed msg answer :
  answerOf msg = Some answer -> trim answer = answer /\ String.eqb answer "" = false.
Proof.
  unfold answerOf. destruct (isAssistant msg); [|done].
  destruct (String.eqb (trim _) "") eqn:E; [done|].
  intros [= <-]. split; [apply trim_idem|done].
Qed.

Lemma lastAssistantText_head l :
  lastAssistantText l = default "" (head (omap answerOf l)).
Proof.
  induction l as [|msg rest IH]; [done|].
  cbn [lastAssistantText omap list_omap]. unfold answerOf at 1.
  destruct (isAssistant msg); [|exact IH].
  set (text := extractTextFromClaudeContent (prop "content" msg)).
  destruct (String.eqb (trim text) "") eqn:E.
  - rewrite andb_false_r. exact IH.
  - assert (String.eqb text "" = false) as ->.
    { destruct (String.eqb text "") eqn:E2; [|done].
      apply String.eqb_eq in E2. rewrite E2 in E. done. }
    done.
Qed.

Lemma head_omap_rev {A B} (f : A -> option B) (l : list A) :
  head (omap f (rev l)) = last (omap f l).
Proof.
  induction l as [|x r IH]; [done|].
  cbn [rev]. rewrite omap_app. cbn [omap list_omap].
  destruct (f x) as [y|] eqn:E.
  - destruct (omap f r) as [|z zs] eqn:Er.
    + rewrite <- head_reverse in IH. by destruct (omap f (rev r)).
    + rewrite last_cons, <- IH. by destruct (omap f (rev r)).
  - rewrite app_nil_r. exact IH.
Qed.


Lemma extractLastAssistantText_last messages start last_ :
  last_ <= length messages ->
  extractLastAssistantText messages start last_
  = default "" (last (omap answerOf (take (last_ - start) (drop start messages)))).
Proof.
  intros Hle. unfold extractLastAssistantText.
  rewrite Nat.min_r by done.
  by rewrite lastAssistantText_head, head_omap_rev.
Qed.

(** The messages of the segment that starts at [start]: all from there on but
    the last one, the user turn that is kept. *)
Definition segmentOf (messages : list Json) (start : nat) : list Json :=
  take (length messages - 1 - start) (drop start messages).



Definition userText (t : string) : Json :=
  JObj [("role", JStr "user"); ("content", JStr t)].

Definition assistantBlocks (blocks : list Json) : Json :=
  JObj [("role", JStr "assistant"); ("content", JArr blocks)].

Definition toolUseBlock (id name : string) : Json :=
  JObj [("type", JStr "tool_use"); ("id", JStr id); ("name", JStr name);
        ("input", JObj [])].

Definition toolResultMessage (id result : string) : Json :=
  JObj [("role", JStr "user");
        ("content", JArr [JObj [("type", JStr "tool_result"); ("tool_use_id", JStr id);
                                ("content", JStr result)]])].

Definition textBlock (t : string) : Json :=
  JObj [("type", JStr "text"); ("text", JStr t)].

(** A session whose MCP segment began with the message at index 1. *)
Definition exampleSession : SessionState :=
  {| lastFamily := Some "gemini"; mcpStartIndex := Some 1; foldedSegments := [] |}.

(** The segment ends with an answer in words. *)
Definition exampleHistory : list Json :=
  [ userText "list the files";
    assistantBlocks [toolUseBlock "toolu_1" "mcp__fs__list"];
    toolResultMessage "toolu_1" "a.txt";
    assistantBlocks [textBlock " There is one file: a.txt. "];
    userText "thanks, now commit" ].



(** *** What the folding keeps *)

Lemma insertByStart_Forall (P : Segment -> Prop) s l :
  P s -> Forall P l -> Forall P (insertByStart s l).
Proof.
  intros Hs. induction 1 as [|x r Hx Hr IH]; cbn [insertByStart].
  - by repeat constructor.
  - destruct (Nat.ltb (seg_start s) (seg_start x)); by repeat constructor.
Qed.

Lemma sortByStart_Forall (P : Segment -> Prop) l :
  Forall P l -> Forall P (sortByStart l).
Proof.
  unfold sortByStart. assert (Hacc : Forall P []) by constructor.
  revert Hacc. generalize (@nil Segment) as acc.
  induction l as [|s r IH]; intros acc Hacc Hl; [done|].
  apply Forall_cons in Hl as [Hs Hl]. cbn [foldl]. apply IH; [|done].
  by apply insertByStart_Forall.
Qed.

(** The loop ends with the messages from an index before the end on. *)
Lemma foldLoop_last messages sorted : forall i out,
  Forall (fun s => validSegment s = true /\ seg_end s < length messages) sorted ->
  i < length messages ->
  last (foldLoop messages sorted i out) = last messages.
Proof.
  induction sorted as [|seg rest IH]; intros i out Hsorted Hi.
  - cbn [foldLoop]. rewrite last_app.
    destruct (drop i messages) as [|m ms] eqn:E.
    { apply (f_equal length) in E. rewrite length_drop in E. cbn in E. lia. }
    rewrite <- E. clear E.
    rewrite <- (take_drop i messages) at 2. rewrite last_app.
    destruct (last (drop i messages)) eqn:E; [done|].
    apply last_None in E. apply (f_equal length) in E. rewrite length_drop in E.
    cbn in E. lia.
  - apply Forall_cons in Hsorted as [[Hvalid Hend] Hsorted].
    cbn [foldLoop]. apply IH; [done|].
    unfold validSegment in Hvalid. apply Nat.ltb_lt in Hvalid. lia.
Qed.

(** What the loop has pushed stays where it is. *)
Lemma foldLoop_prefix messages sorted : forall i out,
  out `prefix_of` foldLoop messages sorted i out.
Proof.
  induction sorted as [|seg rest IH]; intros i out.
  - cbn [foldLoop]. by apply prefix_app_r.
  - cbn [foldLoop]. etrans; [|apply IH].
    destruct (String.eqb _ ""); [by apply prefix_app_r|].
    rewrite <- app_assoc. by apply prefix_app_r.
Qed.

Lemma foldSegments_sorted messages segments :
  foldSegments messages segments = messages
  \/ exists seg rest,
       sortByStart (filter (fun s => validSegment s = true) segments) = seg :: rest
       /\ foldSegments messages segments = foldLoop messages (seg :: rest) 0 [].
Proof.
  unfold foldSegments. destruct messages as [|m ms]; [by left|].
  destruct segments as [|s ss]; [by left|].
  destruct (sortByStart _) as [|seg rest] eqn:E; [by left|].
  right. by exists seg, rest.
Qed.

Lemma sorted_valid (P : Segment -> Prop) segments :
  Forall P segments ->
  Forall (fun s => validSegment s = true /\ P s)
    (sortByStart (filter (fun s => validSegment s = true) segments)).
Proof.
  intros HP. apply sortByStart_Forall.
  apply Forall_forall. intros s Hs. apply list_elem_of_filter in Hs as [Hv Hs].
  split; [done|]. rewrite Forall_forall in HP. by apply HP.
Qed.

Lemma foldSegments_last messages segments :
  Forall (fun s => seg_end s < length messages) segments ->
  last (foldSegments messages segments) = last messages.
Proof.
  intros Hends.
  destruct (foldSegments_sorted messages segments) as [->|(seg & rest & Hsorted & ->)];
    [done|].
  pose proof (sorted_valid _ _ Hends) as Hall. rewrite Hsorted in Hall.
  apply foldLoop_last; [done|].
  apply Forall_cons in Hall as [[Hv He] _].
  unfold validSegment in Hv. apply Nat.ltb_lt in Hv. lia.
Qed.

(** X22.  Folding never touches the message in progress nor the history
    before the first segment.  When the [end] of every segment, the index of
    the first message after it, is an index of the history, the last message
    of the folded history is the last message;
    the messages before the least start of a segment are the first messages
    of the folded history; and the history [prepareMcpContext] hands on ends
    with the last message of the request whenever the segments of the
    session end before it, the one it adds included. *)
Theorem fold_keeps_both_ends (messages : list Json) (segments : list Segment) (k : nat)
    (targetIsClaude : bool) (st : SessionState) :
  (Forall (fun s => seg_end s < length messages) segments ->
   last (foldSegments messages segments) = last messages)
  /\ (Forall (fun s => k <= seg_start s) segments ->
      take k messages `prefix_of` foldSegments messages segments)
  /\ (Forall (fun s => seg_end s < length messages) (foldedSegments st) ->
      last (fst (foldForTarget targetIsClaude messages (Some st))) = last messages).
Proof.
  split_and!.
  - apply foldSegments_last.
  - intros Hstarts.
    destruct (foldSegments_sorted messages segments) as [->|(seg & rest & Hsorted & ->)];
      [apply prefix_take|].
    pose proof (sorted_valid _ _ Hstarts) as Hall. rewrite Hsorted in Hall.
    apply Forall_cons in Hall as [[_ Hk] _].
    cbn [foldLoop app]. rewrite Nat.sub_0_r. cbn [drop].
    etrans; [|apply foldLoop_prefix].
    assert (take k messages
              `prefix_of` take (Nat.min (length messages) (seg_start seg)) messages)
      as Hpre.
    { destruct (Nat.le_gt_cases (length messages) (seg_start seg)).
      - rewrite Nat.min_l by done. rewrite firstn_all. apply prefix_take.
      - rewrite Nat.min_r by lia. rewrite <- (Nat.min_l k (seg_start seg)) by done.
        rewrite <- take_take. apply prefix_take. }
    destruct (String.eqb _ ""); [done|]. etrans; [exact Hpre|]. by apply prefix_app_r.
  - intros Hends. unfold foldForTarget. cbn [fst].
    destruct targetIsClaude; [|by destruct (mcpStartIndex st)].
    cbn [andb].
    destruct (mcpStartIndex st) as [idx|].
    + cbn [foldedSegments].
      destruct (Nat.ltb idx (length messages - 1)) eqn:Hidx.
      * destruct (Nat.ltb 0 _); [|done]. apply foldSegments_last.
        apply Forall_app. split; [done|]. repeat constructor. cbn [seg_end].
        apply Nat.ltb_lt in Hidx. lia.
      * destruct (Nat.ltb 0 _); [|done]. by apply foldSegments_last.
    + destruct (Nat.ltb 0 _); [|done]. by apply foldSegments_last.
Qed.

(** A folded segment over the messages 1 to 3 of [exampleHistory]. *)
Definition exampleSegments : list Segment :=
  [ {| seg_start := 1; seg_end := 4; summaryText := "There is one file: a.txt." |} ].

Lemma fold_keeps_both_ends_witness :
  last (foldSegments exampleHistory exampleSegments) = last exampleHistory
  /\ take 1 exampleHistory `prefix_of` foldSegments exampleHistory exampleSegments
  /\ last (fst (foldForTarget true exampleHistory (Some exampleSession)))
     = last exampleHistory.
Proof.
  destruct (fold_keeps_both_ends exampleHistory exampleSegments 1 true exampleSession)
    as (Hlast & Hfirst & Hhanded).
  split_and!.
  - apply Hlast. repeat constructor.
  - apply Hfirst. repeat constructor.
  - apply Hhanded. constructor.
Defined.

(** The bound on the ends is needed: [end] is the first message after the
    segment, and a segment whose [end] is the length of the history folds the
    last message away with the rest. *)
Example segment_to_the_end_folds_the_last_message :
  foldSegments exampleHistory
    [ {| seg_start := 1; seg_end := 5; summaryText := "done" |} ]
  = [userText "list the files"; summaryMessage "done"].
Proof. vm_compute. reflexivity. Qed.

(** *** A new segment after the folded ones *)

(** What stands in for a folded segment: its summary, if it has one. *)
Definition summaryOf (seg : Segment) : list Json :=
  if String.eqb (trim (summaryText seg)) "" then []
  else [summaryMessage (trim (summaryText seg))].

Lemma insertByStart_after s l :
  Forall (fun x => seg_start x <= seg_start s) l -> insertByStart s l = l ++ [s].
Proof.
  induction 1 as [|x r Hx Hr IH]; [done|]. cbn [insertByStart app].
  assert (Nat.ltb (seg_start s) (seg_start x) = false) as -> by (apply Nat.ltb_ge; lia).
  by rewrite IH.
Qed.

Lemma sortByStart_snoc l s :
  sortByStart (l ++ [s]) = insertByStart s (sortByStart l).
Proof. unfold sortByStart. by rewrite foldl_app. Qed.

Lemma foldLoop_after messages seg sorted : forall i out,
  Forall (fun s => validSegment s = true /\ seg_end s <= seg_start seg) sorted ->
  seg_start seg <= seg_end seg -> seg_start seg <= length messages -> i <= seg_start seg ->
  foldLoop messages (sorted ++ [seg]) i out
  = foldLoop (take (seg_start seg) messages) sorted i out
    ++ summaryOf seg ++ drop (seg_end seg) messages.
Proof.
  induction sorted as [|s sorted IH]; intros i out Hsorted Hseg Hlen Hi.
  - cbn [app foldLoop]. unfold summaryOf.
    rewrite Nat.min_r by done. rewrite (Nat.max_r i) by done. rewrite Nat.max_r by done.
    rewrite skipn_firstn_comm.
    destruct (String.eqb _ ""); by rewrite <- ?app_assoc.
  - apply Forall_cons in Hsorted as [[Hvalid Hend] Hsorted].
    unfold validSegment in Hvalid. apply Nat.ltb_lt in Hvalid.
    cbn [app foldLoop]. rewrite length_take, (Nat.min_l (seg_start seg)) by done.
    rewrite !(Nat.min_r _ (seg_start s)) by lia.
    rewrite IH by (try done; lia).
    do 3 f_equal.
    assert (take (seg_start s - i) (drop i messages)
            = take (seg_start s - i) (drop i (take (seg_start seg) messages))) as ->.
    { rewrite skipn_firstn_comm, take_take. f_equal. lia. }
    done.
Qed.

Lemma foldSegments_snoc messages old seg :
  Forall (fun s => seg_end s <= seg_start seg) old ->
  seg_start seg < seg_end seg -> seg_start seg < length messages ->
  foldSegments messages (old ++ [seg])
  = foldSegments (take (seg_start seg) messages) old
    ++ summaryOf seg ++ drop (seg_end seg) messages.
Proof.
  intros Hold Hseg Hlen.
  assert (Forall (fun s => validSegment s = true /\ seg_end s <= seg_start seg)
            (sortByStart (filter (fun s => validSegment s = true) old))) as Hsorted.
  { apply sortByStart_Forall. apply Forall_forall. intros s Hs.
    apply list_elem_of_filter in Hs as [Hv Hs]. split; [done|].
    rewrite Forall_forall in Hold. by apply Hold. }
  assert (sortByStart (filter (fun s => validSegment s = true) (old ++ [seg]))
          = sortByStart (filter (fun s => validSegment s = true) old) ++ [seg]) as Hsort.
  { rewrite filter_app. cbn [filter list_filter].
    rewrite decide_True by (unfold validSegment; by apply Nat.ltb_lt).
    rewrite sortByStart_snoc. apply insertByStart_after.
    eapply Forall_impl; [exact Hsorted|]. cbn. intros s [Hv He].
    unfold validSegment in Hv. apply Nat.ltb_lt in Hv. lia. }
  assert (foldSegments messages (old ++ [seg])
          = foldLoop messages
              (sortByStart (filter (fun s => validSegment s = true) old) ++ [seg]) 0 [])
    as ->.
  { unfold foldSegments. destruct messages as [|m ms]; [cbn in Hlen; lia|].
    destruct (old ++ [seg]) as [|x xs] eqn:E; [by destruct old|].
    rewrite Hsort. by destruct (sortByStart _). }
  rewrite foldLoop_after by (try done; lia).
  f_equal. unfold foldSegments.
  set (sorted := sortByStart (filter (fun s => validSegment s = true) old)) in *.
  destruct (take (seg_start seg) messages) as [|m ms] eqn:Etake.
  { destruct sorted as [|s sorted]; [done|].
    apply Forall_cons in Hsorted as [[Hv He] _].
    unfold validSegment in Hv. apply Nat.ltb_lt in Hv.
    apply (f_equal length) in Etake. rewrite length_take in Etake. cbn in Etake. lia. }
  destruct old as [|o old]; [done|].
  by destruct sorted.
Qed.

(** The folding of [prepareMcpContext] for a target of the primary family,
    in a session whose segment began at [start] and whose earlier segments
    end at or before it. *)
Lemma foldForTarget_segment (messages : list Json) (st : SessionState) (start : nat) :
  mcpStartIndex st = Some start ->
  Forall (fun s => seg_end s <= start) (foldedSegments st) ->
  start < length messages - 1 ->
  foldForTarget true messages (Some st)
  = (foldSegments (take start messages) (foldedSegments st)
     ++ match last (omap answerOf (segmentOf messages start)) with
        | Some answer => [summaryMessage answer]
        | None => []
        end
     ++ drop (length messages - 1) messages,
     Some {| lastFamily := lastFamily st; mcpStartIndex := None;
             foldedSegments :=
               foldedSegments st
               ++ [{| seg_start := start; seg_end := length messages - 1;
                      summaryText :=
                        extractLastAssistantText messages start (length messages - 1) |}] |}).
Proof.
  intros Hidx Hold Hlt. unfold foldForTarget. rewrite Hidx.
  assert (Nat.ltb start (length messages - 1) = true) as -> by (by apply Nat.ltb_lt).
  cbn [foldedSegments andb]. rewrite length_app. cbn [length].
  assert (Nat.ltb 0 (length (foldedSegments st) + 1) = true) as ->
    by (apply Nat.ltb_lt; lia).
  f_equal.
  rewrite foldSegments_snoc; cbn [seg_start seg_end summaryText]; [|done|done|lia].
  do 2 f_equal. unfold summaryOf. cbn [summaryText].
  rewrite extractLastAssistantText_last by lia. fold (segmentOf messages start).
  destruct (last (omap answerOf (segmentOf messages start))) as [answer|] eqn:Hlast.
  - pose proof (last_Some_elem_of _ _ Hlast) as Hin.
    apply list_elem_of_omap in Hin as (msg & _ & Hans).
    apply answerOf_trimmed in Hans as (Htrim & Hne).
    change (default "" (Some answer)) with answer.
    by rewrite Htrim, Hne.
  - done.
Qed.

End ApiMcp.


(** ** The request handler (claudeApi.js) and the buffered first attempt *)

Module ClaudeApi.

Import JsText.

(** The body of a Messages request, as far as the handler and the transcoder
    read it; a field that is absent is [JNull], and [messages] is the array
    when there is one. *)
Record ClaudeRequest : Type := {
  req_model : Json;
  req_system : Json;
  req_messages : option (list Json);
  req_tools : Json;
  req_stream : Json;
  req_metadata : Json
}.

(** [{ status, headers, body }]. *)
Record ApiResponse : Type := {
  status : nat;
  headers : list (string * string);
  body : Json
}.

(** What [upstream.callV1Internal] is called with; [buildBody] is the request
    and the options it hands to [transformClaudeRequestIn]. *)
Record BackendCall : Type := {
  bc_method : string;
  bc_model : option string;
  bc_queryString : string;
  bc_request : ClaudeRequest;
  bc_signatureSegmentStartIndex : option nat
}.

(** How far [handleMessages] gets on its own: a response without any backend
    call, or the backend call, on whose answer the rest depends. *)
Inductive Handled : Type :=
| Responded (response : ApiResponse)
| Forwarded (call : BackendCall).

(** What [prepareMcpContext] hands back to the handler. *)
Record McpContext : Type := {
  ctx_baseModel : Json;
  ctx_modelForQuota : option string;
  ctx_upstreamRequestForTransform : ClaudeRequest;
  ctx_shouldBufferForSwitch : bool;
  ctx_transformOptions : option nat
}.

Definition emptyBodyResponse : ApiResponse :=
  {| status := 400; headers := [("Content-Type", "application/json")];
     body := JObj [("error", JObj [("message", JStr "Empty request body")])] |}.

Definition internalErrorResponse (message : string) : ApiResponse :=
  {| status := 500; headers := [("Content-Type", "application/json")];
     body := JObj [("error", JObj [("type", JStr "internal_error");
                                   ("message", JStr message)])] |}.

(** [hasWebSearchTool]. *)
Definition hasWebSearchTool (req : ClaudeRequest) : bool :=
  match req_tools req with
  | JArr tools =>
      existsb (fun tool => match prop "name" tool with
                           | Some (JStr name) => String.eqb name "web_search"
                           | _ => false
                           end) tools
  | _ => false
  end.

Section Handler.

(** [mapClaudeModelToGemini], which consults the environment's model map;
    [None] is [undefined]. *)
Variable mapClaudeModelToGemini : Json -> option string.

(** [getMcpSwitchModel()]: the substitute model, when one is configured. *)
Variable mcpModel : option string.

(** [prepareMcpContext] for the request and the substitute model; an
    exception it raises is its message on the right. *)
Variable prepareMcpContext : ClaudeRequest -> string -> McpContext + string.

(** [inferFinalModelForQuota]. *)
Definition inferFinalModelForQuota (req : ClaudeRequest) : option string :=
  if hasWebSearchTool req then Some "gemini-2.5-flash"
  else mapClaudeModelToGemini (req_model req).

(** [handleMessages], up to its call of the backend. *)
Definition handleMessages (requestData : option ClaudeRequest) : Handled :=
  match requestData with
  | None => Responded emptyBodyResponse
  | Some req =>
      let method :=
        if truthy (req_stream req) then "streamGenerateContent" else "generateContent" in
      let queryString := if truthy (req_stream req) then "?alt=sse" else "" in
      match mcpModel with
      | None =>
          Forwarded {| bc_method := method; bc_model := inferFinalModelForQuota req;
                       bc_queryString := queryString; bc_request := req;
                       bc_signatureSegmentStartIndex := None |}
      | Some substitute =>
          match prepareMcpContext req substitute with
          | inl ctx =>
              Forwarded {| bc_method := method; bc_model := ctx_modelForQuota ctx;
                           bc_queryString := queryString;
                           bc_request := ctx_upstreamRequestForTransform ctx;
                           bc_signatureSegmentStartIndex := ctx_transformOptions ctx |}
          | inr message => Responded (internalErrorResponse message)
          end
      end
  end.

(** C9 (amended): the handler answers with a client error of its own, and
    without a backend call, exactly when the request has no body; every other
    request, whatever fields it lacks, goes to the backend (or, when the MCP
    preparation raises, ends in the internal error 500). *)
Theorem only_an_empty_body_is_rejected (requestData : option ClaudeRequest) :
  (handleMessages requestData = Responded emptyBodyResponse <-> requestData = None)
  /\ (forall req, requestData = Some req ->
        (exists call, handleMessages requestData = Forwarded call)
        \/ (exists message,
              mcpModel <> None
              /\ handleMessages requestData = Responded (internalErrorResponse message))).
Proof.
  assert (Hsome : forall req,
    (exists call, handleMessages (Some req) = Forwarded call)
    \/ (exists message,
          mcpModel <> None
          /\ handleMessages (Some req) = Responded (internalErrorResponse message))).
  { intros req. unfold handleMessages. destruct mcpModel as [substitute|].
    - destruct (prepareMcpContext req substitute) as [ctx|message].
      + left. by eexists.
      + right. by eexists.
    - left. by eexists. }
  split.
  - split; [|by intros ->].
    destruct requestData as [req|]; [|done]. intros H.
    destruct (Hsome req) as [(call & Hc)|(message & _ & Hm)]; [congruence|].
    rewrite Hm in H. unfold internalErrorResponse, emptyBodyResponse in H. congruence.
  - intros req ->. apply Hsome.
Qed.

End Handler.

(** A request body [{}]: every field is missing. *)
Definition emptyObjectRequest : ClaudeRequest :=
  {| req_model := JNull; req_system := JNull; req_messages := None;
     req_tools := JNull; req_stream := JNull; req_metadata := JNull |}.

(** C9, as stated, fails: with no substitute model configured, the request
    [{}], which lacks every required field, is passed to the backend. *)
Lemma request_without_fields_reaches_backend :
  handleMessages (fun _ => None) None (fun _ _ => inr "") (Some emptyObjectRequest)
  = Forwarded {| bc_method := "generateContent"; bc_model := None;
                 bc_queryString := ""; bc_request := emptyObjectRequest;
                 bc_signatureSegmentStartIndex := None |}
  /\ ~ (exists response,
          handleMessages (fun _ => None) None (fun _ _ => inr "") (Some emptyObjectRequest)
          = Responded response).
Proof. split; [reflexivity|]. intros (response & H). discriminate H. Qed.


(** *** The buffered first attempt *)

(** A chunk of a byte stream, a [Uint8Array]. *)
Definition Chunk : Type := list Byte.byte.

(** What [bufferForMcpSwitchAndMaybeRetry] decides: [null], the buffered
    stream replayed, or the retry with the substitute model. *)
Inductive Buffered : Type :=
| NotBuffered
| Replay (finalResponseBody : list Chunk)
| RetryWith (call : BackendCall).

(** [{ ...requestData, model: mcpModel }]. *)
Definition withModel (substitute : string) (req : ClaudeRequest) : ClaudeRequest :=
  {| req_model := JStr substitute; req_system := req_system req;
     req_messages := req_messages req; req_tools := req_tools req;
     req_stream := req_stream req; req_metadata := req_metadata req |}.

(** [Array.isArray(requestData?.messages) ? requestData.messages.length : 0]. *)
Definition retrySegmentStartIndex (req : ClaudeRequest) : nat :=
  match req_messages req with
  | Some messages => length messages
  | None => 0
  end.

Section Buffering.

Variable parseJson : string -> option Json.

(** [TextDecoder]: a decoder, [decode(value, { stream: true })] and the final
    [decode()]; [TextEncoder.encode]. *)
Variable Decoder : Type.
Variable newDecoder : Decoder.
Variable decodeChunk : Decoder -> Chunk -> string * Decoder.
Variable decodeEnd : Decoder -> string.
Variable encode : string -> Chunk.

(** The loop of [readStreamToString]. *)
Fixpoint readChunks (decoder : Decoder) (chunks : list Chunk) (out : string) : string :=
  match chunks with
  | [] => out +:+ decodeEnd decoder
  | value :: rest =>
      let '(text, decoder') := decodeChunk decoder value in
      readChunks decoder' rest (out +:+ text)
  end.

(** [readStreamToString]; [None] is a body that is no stream. *)
Definition readStreamToString (stream : option (list Chunk)) : string :=
  match stream with
  | None => ""
  | Some chunks => readChunks newDecoder chunks ""
  end.

(** [streamFromString]: one chunk, then the stream is closed. *)
Definition streamFromString (text : string) : list Chunk := [encode text].

(** [bufferForMcpSwitchAndMaybeRetry], up to the retry's call of the backend. *)
Definition bufferForMcpSwitchAndMaybeRetry (method queryString : string)
    (requestData : ClaudeRequest) (substitute : string)
    (convertedBody : option (list Chunk)) (shouldBufferForSwitch : bool) : Buffered :=
  if negb shouldBufferForSwitch then NotBuffered
  else match convertedBody with
       | None => NotBuffered
       | Some chunks =>
           let buffered := readStreamToString (Some chunks) in
           if negb (ApiMcp.hasMcpSwitchSignal parseJson buffered)
           then Replay (streamFromString buffered)
           else RetryWith
                  {| bc_method := method; bc_model := Some substitute;
                     bc_queryString := queryString;
                     bc_request := withModel substitute requestData;
                     bc_signatureSegmentStartIndex :=
                       Some (retrySegmentStartIndex requestData) |}
       end.

(** The two laws of the platform's UTF-8 codec the replay rests on: the
    streaming decoder yields the text of the bytes put end to end, and text
    decoded from bytes that are [wellFormed] (UTF-8 without a byte order mark,
    which is what the transcoder's [TextEncoder] writes) is encoded back to
    the same bytes. *)
Variable decodeAll : list Byte.byte -> string.
Variable wellFormed : list Byte.byte -> Prop.
Hypothesis streaming_decode :
  forall chunks, readChunks newDecoder chunks "" = decodeAll (concat chunks).
Hypothesis encode_decode :
  forall bytes, wellFormed bytes -> encode (decodeAll bytes) = bytes.

(** The events of the buffered stream. *)
Definition bufferedEvents (chunks : list Chunk) : list Json :=
  ApiMcp.parsedEvents parseJson (split (LF +:+ LF) (decodeAll (concat chunks))).

(** C4: a buffered first attempt whose text deltas, put end to end, do not
    hold the marker and none of whose events starts a [tool_use] block with a
    bridged name is replayed, and the bytes of the replayed stream are the
    bytes of the original. *)
Theorem quiet_stream_is_replayed (method queryString : string)
    (requestData : ClaudeRequest) (substitute : string) (chunks : list Chunk) :
  wellFormed (concat chunks) ->
  includes (ApiMcp.streamText (bufferedEvents chunks)) ApiMcp.MCP_SWITCH_SIGNAL = false ->
  existsb ApiMcp.isMcpToolStart (bufferedEvents chunks) = false ->
  exists replayed,
    bufferForMcpSwitchAndMaybeRetry method queryString requestData substitute
      (Some chunks) true = Replay replayed
    /\ concat replayed = concat chunks.
Proof.
  intros Hwf Hmarker Htool.
  unfold bufferForMcpSwitchAndMaybeRetry, readStreamToString. cbn [negb].
  rewrite streaming_decode, ApiMcp.hasMcpSwitchSignal_spec.
  fold (bufferedEvents chunks). rewrite Hmarker, Htool. cbn [orb negb].
  eexists. split; [reflexivity|].
  unfold streamFromString. cbn [concat]. rewrite app_nil_r. by apply encode_decode.
Qed.

End Buffering.


(** The codec of the examples: one byte per character, which agrees with
    UTF-8 on ASCII text. *)
Definition byteDecodeChunk (_ : unit) (value : Chunk) : string * unit :=
  (string_of_list_byte value, tt).

Lemma string_of_list_byte_app (a b : list Byte.byte) :
  string_of_list_byte (a ++ b) = string_of_list_byte a +:+ string_of_list_byte b.
Proof.
  induction a as [|x a IH]; [done|].
  change (String (ascii_of_byte x) (string_of_list_byte (a ++ b))
          = String (ascii_of_byte x) (string_of_list_byte a +:+ string_of_list_byte b)).
  by rewrite IH.
Qed.

Lemma byte_readChunks (chunks : list Chunk) : forall out,
  readChunks unit byteDecodeChunk (fun _ => "") tt chunks out
  = out +:+ string_of_list_byte (concat chunks).
Proof.
  induction chunks as [|value rest IH]; intros out.
  - done.
  - cbn [readChunks byteDecodeChunk concat]. rewrite IH.
    by rewrite string_of_list_byte_app, append_assoc.
Qed.

Lemma byte_streaming_decode (chunks : list Chunk) :
  readChunks unit byteDecodeChunk (fun _ => "") tt chunks ""
  = string_of_list_byte (concat chunks).
Proof. apply byte_readChunks. Qed.

Lemma byte_encode_decode (bytes : list Byte.byte) :
  True -> list_byte_of_string (string_of_list_byte bytes) = bytes.
Proof. intros _. apply list_byte_of_string_of_list_byte. Qed.

(** A first attempt that answers in words, cut into two chunks in the
    middle of an event. *)
Definition exampleChunks : list Chunk :=
  [ list_byte_of_string ("event: content_block_delta" +:+ LF +:+ "data");
    list_byte_of_string (": d3" +:+ LF +:+ LF +:+ "event: message_stop" +:+ LF
                         +:+ "data: [DONE]" +:+ LF +:+ LF) ].

Lemma quiet_stream_is_replayed_witness :
  exists replayed,
    bufferForMcpSwitchAndMaybeRetry (ApiMcp.parseFrom ApiMcp.examplePayloads)
      unit tt byteDecodeChunk (fun _ => "") list_byte_of_string
      "streamGenerateContent" "?alt=sse" emptyObjectRequest "gemini-3-pro-high"
      (Some exampleChunks) true = Replay replayed
    /\ concat replayed = concat exampleChunks.
Proof.
  apply (quiet_stream_is_replayed (ApiMcp.parseFrom ApiMcp.examplePayloads)
           unit tt byteDecodeChunk (fun _ => "") list_byte_of_string
           string_of_list_byte (fun _ => True)
           byte_streaming_decode byte_encode_decode).
  - exact I.
  - vm_compute. reflexivity.
  - vm_compute. reflexivity.
Defined.

End ClaudeApi.


(** ** The tool-invocation bridge (mcpXmlBridge.js)

    In this module a string is the list of its code units, so that positions,
    [slice] and [indexOf] are the list operations. *)

Module McpXmlBridge.

(** A string as the sequence of its code units, here the units below 256.
    Whatever goes by the letters of Unicode, [String.prototype.toLowerCase],
    is a parameter. *)
Definition Str : Type := list ascii.

(** A string literal. *)
Definition str (s : string) : Str := list_ascii_of_string s.

Definition LT : ascii := ascii_of_nat 60.
Definition GT : ascii := ascii_of_nat 62.
Definition SLASH : ascii := ascii_of_nat 47.

(** [s.startsWith(p)]. *)
Fixpoint startsWith (s p : Str) : bool :=
  match p, s with
  | [], _ => true
  | a :: p', b :: s' => Ascii.eqb a b && startsWith s' p'
  | _ :: _, [] => false
  end.

(** [s.indexOf(c)] for one unit [c]. *)
Fixpoint indexOfChar (c : ascii) (s : Str) : option nat :=
  match s with
  | [] => None
  | x :: r => if Ascii.eqb x c then Some 0 else S <$> indexOfChar c r
  end.

(** [s.lastIndexOf(needle)]: the scan keeps the last position found; [pos] is
    the position of the head of [s]. *)
Fixpoint lastIndexFrom (needle : Str) (pos : nat) (s : Str) (found : option nat)
  : option nat :=
  match s with
  | [] => if startsWith [] needle then Some pos else found
  | _ :: r =>
      lastIndexFrom needle (S pos) r (if startsWith s needle then Some pos else found)
  end.

Definition lastIndexOf (s needle : Str) : option nat := lastIndexFrom needle 0 s None.

(** [/\s/.test(c)]. *)
Definition isSpace (c : ascii) : bool := JsText.isWhiteSpace c.

(** [s.trim()]. *)
Fixpoint trimStart (s : Str) : Str :=
  match s with
  | [] => []
  | c :: r => if isSpace c then trimStart r else s
  end.

Definition trim (s : Str) : Str := rev (trimStart (rev (trimStart s))).

(** The letters A to Z in lower case, the other units as they are. *)
Definition lowerUnit (c : ascii) : ascii :=
  let n := nat_of_ascii c in
  if Nat.leb 65 n && Nat.leb n 90 then ascii_of_nat (n + 32) else c.

(** How a pattern with the flag [i] compares the units of a text with the
    letters, digits, [_] and [-] of a plain name: a letter matches itself in
    either case and no unit above 127, every other unit of the name matches
    itself only. *)
Definition foldCase (s : Str) : Str := map lowerUnit s.

(** An event of the tokenizer: [{ type: "text", text }] or
    [{ type: "tool", name, input }]. *)
Inductive Event : Type :=
| Text (text : Str)
| Tool (name : Str) (input : Json).

(** A name the patterns of [tryParseMcpToolCallXml] read as themselves:
    letters, digits, [_] and [-]. *)
Definition isNameUnit (c : ascii) : bool :=
  let n := nat_of_ascii c in
  (Nat.leb 48 n && Nat.leb n 57) || (Nat.leb 65 n && Nat.leb n 90)
  || (Nat.leb 97 n && Nat.leb n 122) || Nat.eqb n 95 || Nat.eqb n 45.

Definition plainName (name : Str) : bool := forallb isNameUnit name.


(** [!s]: the empty string. *)
Definition isEmpty (s : Str) : bool :=
  match s with [] => true | _ => false end.

(** [s.includes(needle)]. *)
Fixpoint includes (s needle : Str) : bool :=
  startsWith s needle
  || match s with
     | [] => false
     | _ :: r => includes r needle
     end.

(** The markup of one call, [`<${toolName}>${payload}</${toolName}>`] as
    [buildMcpToolCallXml] writes it. *)
Definition toolCallXml (toolName payload : Str) : Str :=
  LT :: toolName ++ GT :: payload ++ LT :: SLASH :: toolName ++ [GT].

Section Parser.

(** [JSON.parse], [None] when it throws. *)
Variable parseJson : Str -> option Json.

(** The fallback of [tryParseMcpToolCallXml] for an inner text that is not
    JSON: [parseXmlToObject] of the text wrapped in [<root>], its [root] if
    any, and [{ raw: inner }] when that throws. *)
Variable xmlInput : Str -> Json.

(** [openRe] and [closeRe] for a name with other units than letters, digits,
    [_] and [-], which the pattern may read as operators: the length of what
    [openRe] matches, and whether [closeRe] matches. *)
Variable regexOpen : Str -> Str -> option nat.
Variable regexClose : Str -> Str -> bool.

(** [String.prototype.toLowerCase], which goes by the letters of Unicode and
    may replace one unit by two (U+0130). *)
Variable toLowerCase : Str -> Str.

(** [toLowerCase] changes [s] unit by unit, and the units below 128 as ASCII
    has them: every unit stays at its index. *)
Definition lowersInPlace (s : Str) : Prop :=
  exists lower : ascii -> ascii,
    toLowerCase s = map lower s
    /\ forall c, nat_of_ascii c < 128 -> lower c = lowerUnit c.

(** [openRe] for a plain name: at the start of the text, [<name] whatever the
    case of its letters, then [>] at once or after one white space and any
    units other than [>]; the length of the match. *)
Definition openMatchPlain (name text : Str) : option nat :=
  match text with
  | c :: rest =>
      if Ascii.eqb c LT && startsWith (foldCase rest) (foldCase name) then
        match drop (length name) rest with
        | d :: after =>
            if Ascii.eqb d GT then Some (length name + 2)
            else if isSpace d
                 then (fun g => length name + 2 + S g) <$> indexOfChar GT after
                 else None
        | [] => None
        end
      else None
  | [] => None
  end.

(** [closeRe] for a plain name: the text ends with [</name], whatever the
    case of its letters, white space if any, and [>]. *)
Definition closeTestPlain (name text : Str) : bool :=
  match rev text with
  | c :: r =>
      Ascii.eqb c GT
      && startsWith (foldCase (trimStart r)) (rev (foldCase (LT :: SLASH :: name)))
  | [] => false
  end.

(** The [input] for the inner text. *)
Definition inputOf (inner : Str) : Json :=
  match inner with
  | [] => JObj []
  | c :: _ =>
      let parsed :=
        if Ascii.eqb c (ascii_of_nat 123) || Ascii.eqb c (ascii_of_nat 91)
        then parseJson inner else None in
      match parsed with
      | Some v => v
      | None => xmlInput inner
      end
  end.

(** [tryParseMcpToolCallXml]. *)
Definition tryParseMcpToolCallXml (xmlText toolName : Str) : option (Str * Json) :=
  let text := trim xmlText in
  if isEmpty toolName || isEmpty text then None
  else
    let opened :=
      if plainName toolName then openMatchPlain toolName text
      else regexOpen toolName text in
    let closed :=
      if plainName toolName then closeTestPlain toolName text
      else regexClose toolName text in
    match opened with
    | None => None
    | Some openLen =>
        if negb closed then None
        else match lastIndexOf (toLowerCase text) (LT :: SLASH :: toLowerCase toolName) with
             | None => None
             | Some closeStart =>
                 if Nat.ltb closeStart openLen then None
                 else Some (toolName,
                            inputOf (trim (take (closeStart - openLen)
                                             (drop openLen text))))
             end
    end.

(** *** [createMcpXmlStreamParser] *)

(** [toolNames]. *)
Variable toolNames : list Str.

(** [new Set(toolNames.filter(Boolean))], in insertion order. *)
Definition nameSet : list Str :=
  foldl (fun acc name =>
           match name with
           | [] => acc
           | _ => if bool_decide (name ∈ acc) then acc else acc ++ [name]
           end) [] toolNames.

(** [isPossibleToolTagPrefix]. *)
Definition isPossibleToolTagPrefix (frag : Str) : bool :=
  startsWith frag [LT]
  && existsb (fun name => startsWith (LT :: name) frag
                          || startsWith (LT :: SLASH :: name) frag) nameSet.

(** [splitBufferForPartialTag]: [(emit, keep)]. *)
Definition splitBufferForPartialTag (raw : Str) : Str * Str :=
  match raw with
  | [] => ([], [])
  | _ =>
      match lastIndexOf raw [LT] with
      | None => (raw, [])
      | Some lastLt =>
          let tail := drop lastLt raw in
          if isPossibleToolTagPrefix tail then (take lastLt raw, tail) else (raw, [])
      end
  end.

(** [boundaryCh === ">" || boundaryCh === "/" || /\s/.test(boundaryCh)]. *)
Definition isOpenBoundary (c : ascii) : bool :=
  Ascii.eqb c GT || Ascii.eqb c SLASH || isSpace c.

(** The inner loop of [findNextToolStartIndex] for one name: the first
    position at which [open] stands with a boundary unit after it; [pos] is
    the position of the head of [text]. *)
Fixpoint firstBounded (open : Str) (pos : nat) (text : Str) : option nat :=
  match text with
  | [] => None
  | _ :: r =>
      if startsWith text open
         && match drop (length open) text with
            | c :: _ => isOpenBoundary c
            | [] => false
            end
      then Some pos
      else firstBounded open (S pos) r
  end.

(** One turn of the outer loop of [findNextToolStartIndex]. *)
Definition betterStart (text : Str) (best : option (nat * Str)) (name : Str)
  : option (nat * Str) :=
  match firstBounded (LT :: name) 0 text with
  | None => best
  | Some idx =>
      match best with
      | None => Some (idx, name)
      | Some (bestIdx, bestName) =>
          if Nat.ltb idx bestIdx then Some (idx, name)
          else if Nat.eqb idx bestIdx && Nat.ltb (length bestName) (length name)
               then Some (bestIdx, name)
               else best
      end
  end.

(** [findNextToolStartIndex]; [None] is [{ index: -1, name: null }]. *)
Definition findNextToolStartIndex (text : Str) : option (nat * Str) :=
  foldl (betterStart text) None nameSet.

(** What [findCloseTagEndIndex] finds behind one occurrence of [</name]. *)
Inductive AfterName : Type :=
| Incomplete            (* the buffer ends before the tag does *)
| NotAClose             (* another tag, such as [</nameX>] *)
| ClosedAt (gt : nat).  (* [>] stands [gt] units further on *)

(** [ch === ">" || /\s/.test(ch)]. *)
Definition isCloseBoundary (c : ascii) : bool := Ascii.eqb c GT || isSpace c.

Definition afterName (rest : Str) : AfterName :=
  match rest with
  | [] => Incomplete
  | ch :: _ =>
      if negb (isCloseBoundary ch) then NotAClose
      else match indexOfChar GT rest with
           | None => Incomplete
           | Some gt => if forallb isSpace (take gt rest) then ClosedAt gt else NotAClose
           end
  end.

(** The loop of [findCloseTagEndIndex] over the occurrences of [needle];
    [pos] is the position of the head of [src]. *)
Fixpoint findCloseFrom (needle : Str) (pos : nat) (src : Str) : option nat :=
  match src with
  | [] => None
  | _ :: r =>
      if startsWith src needle then
        match afterName (drop (length needle) src) with
        | Incomplete => None
        | NotAClose => findCloseFrom needle (S pos) r
        | ClosedAt gt => Some (pos + length needle + gt + 1)
        end
      else findCloseFrom needle (S pos) r
  end.

(** [findCloseTagEndIndex]; [None] is [-1]. *)
Definition findCloseTagEndIndex (src toolName : Str) : option nat :=
  findCloseFrom (LT :: SLASH :: toolName) 0 src.

(** The [while (true)] of [pushText]: each turn that does not leave the loop
    takes at least one unit off the buffer, so [fuel] turns are enough when
    [fuel] exceeds its length; [None] is a loop cut short by [fuel]. *)
Fixpoint pushLoop (fuel : nat) (buffer : Str) (out : list Event)
  : option (list Event * Str) :=
  match fuel with
  | O => None
  | S fuel' =>
      match findNextToolStartIndex buffer with
      | None =>
          let '(emit, keep) := splitBufferForPartialTag buffer in
          Some (match emit with [] => out | _ => out ++ [Text emit] end, keep)
      | Some (index, name) =>
          let out1 :=
            if Nat.ltb 0 index then out ++ [Text (take index buffer)] else out in
          let buffer1 := if Nat.ltb 0 index then drop index buffer else buffer in
          match findCloseTagEndIndex buffer1 name with
          | None => Some (out1, buffer1)
          | Some closeEnd =>
              let xml := take closeEnd buffer1 in
              let out2 :=
                match tryParseMcpToolCallXml xml name with
                | Some (parsedName, input) => out1 ++ [Tool parsedName input]
                | None => out1 ++ [Text xml]
                end in
              pushLoop fuel' (drop closeEnd buffer1) out2
          end
      end
  end.

(** [pushText] on a parser whose buffer is [buffer]: the events and the buffer
    afterwards. *)
Definition pushText (text : Str) (buffer : Str) : option (list Event * Str) :=
  match text with
  | [] => Some ([], buffer)
  | _ => pushLoop (S (length (buffer ++ text))) (buffer ++ text) []
  end.

(** [flush]. *)
Definition flush (buffer : Str) : list Event * Str :=
  (match buffer with [] => [] | _ => [Text buffer] end, []).

(** The chunks pushed one after the other, then [flush]: all the events. *)
Fixpoint feedFrom (buffer : Str) (chunks : list Str) : option (list Event) :=
  match chunks with
  | [] => Some (fst (flush buffer))
  | chunk :: rest =>
      '(out, buffer') ← pushText chunk buffer;
      later ← feedFrom buffer' rest;
      Some (out ++ later)
  end.

Definition feed (chunks : list Str) : option (list Event) := feedFrom [] chunks.

(** *** One call, however its markup is cut *)

Lemma startsWith_prefix (s p : Str) : startsWith s p = true <-> p `prefix_of` s.
Proof.
  revert s. induction p as [|a p IH]; intros s.
  - split; [intros _; apply prefix_nil|by destruct s].
  - destruct s as [|b s]; cbn [startsWith].
    + split; [done|]. intros Hp. by apply prefix_nil_not in Hp.
    + rewrite andb_true_iff, Ascii.eqb_eq, IH. split.
      * intros [-> Hp]. by apply prefix_cons.
      * intros Hp. split; [by apply prefix_cons_inv_1 in Hp|by apply prefix_cons_inv_2 in Hp].
Qed.

Lemma startsWith_false (s p : Str) : startsWith s p = false <-> ~ p `prefix_of` s.
Proof.
  rewrite <- startsWith_prefix. by destruct (startsWith s p).
Qed.

(** The units of a plain name are none of the delimiters. *)
Lemma nameUnit_not_delimiter c :
  isNameUnit c = true ->
  c <> LT /\ c <> GT /\ c <> SLASH /\ isSpace c = false /\ isOpenBoundary c = false.
Proof.
  intros H. destruct c as [[] [] [] [] [] [] [] []]; vm_compute in H; try discriminate H;
    (split_and!; [discriminate..|reflexivity|reflexivity]).
Qed.

Lemma plainName_elem name c : plainName name = true -> c ∈ name -> isNameUnit c = true.
Proof.
  unfold plainName. rewrite forallb_forall. intros H Hc. apply H.
  by apply list_elem_of_In.
Qed.

Lemma plainName_no_LT name : plainName name = true -> LT ∉ name.
Proof.
  intros Hp Hin. by destruct (nameUnit_not_delimiter _ (plainName_elem _ _ Hp Hin)).
Qed.

Lemma plainName_no_GT name : plainName name = true -> GT ∉ name.
Proof.
  intros Hp Hin.
  by destruct (nameUnit_not_delimiter _ (plainName_elem _ _ Hp Hin)) as (_ & ? & _).
Qed.

(** The names of the set are the declared names that are not empty. *)
Lemma nameSet_elem name : name ∈ nameSet <-> name ∈ toolNames /\ name <> [].
Proof.
  unfold nameSet.
  assert (H : forall l acc,
    name ∈ foldl (fun acc name =>
                    match name with
                    | [] => acc
                    | _ => if bool_decide (name ∈ acc) then acc else acc ++ [name]
                    end) acc l
    <-> name ∈ acc \/ (name ∈ l /\ name <> [])).
  { induction l as [|x l IH]; intros acc; cbn [foldl].
    - split; [by left|]. intros [?|[H _]]; [done|]. by apply elem_of_nil in H.
    - rewrite IH. destruct x as [|c x].
      + rewrite elem_of_cons. split.
        * intros [?|[? ?]]; auto.
        * intros [?|[[->|?] ?]]; auto. done.
      + case_bool_decide as Hx.
        * rewrite elem_of_cons. split.
          -- intros [?|[? ?]]; auto.
          -- intros [?|[[->|?] ?]]; auto.
        * rewrite elem_of_app, list_elem_of_singleton, elem_of_cons. split.
          -- intros [[?| ->]|[? ?]]; auto.
          -- intros [?|[[->|?] ?]]; auto. }
  rewrite H. split; [|by right]. intros [Hn|?]; [|done]. by apply elem_of_nil in Hn.
Qed.

Lemma firstBounded_Some open text : forall pos i,
  firstBounded open pos text = Some i ->
  exists pre c post,
    text = pre ++ open ++ c :: post /\ i = pos + length pre /\ isOpenBoundary c = true.
Proof.
  induction text as [|x r IH]; intros pos i H; [done|].
  cbn [firstBounded] in H.
  destruct (startsWith (x :: r) open) eqn:Hs.
  - apply startsWith_prefix in Hs as [k Hk].
    rewrite Hk, drop_app_length in H. destruct k as [|c post]; cbn [andb] in H.
    + apply IH in H as (pre & c & post & -> & -> & Hc).
      exists (x :: pre), c, post. split_and!; [done|cbn; lia|done].
    + destruct (isOpenBoundary c) eqn:Hc.
      * injection H as <-. exists [], c, post. split_and!; [done|cbn; lia|done].
      * apply IH in H as (pre & c' & post' & Hr & -> & Hc').
        exists (x :: pre), c', post'. rewrite Hr. split_and!; [done|cbn; lia|done].
  - cbn [andb] in H. apply IH in H as (pre & c & post & -> & -> & Hc).
    exists (x :: pre), c, post. split_and!; [done|cbn; lia|done].
Qed.

Lemma firstBounded_here a open pos c rest :
  isOpenBoundary c = true ->
  firstBounded (a :: open) pos (a :: open ++ c :: rest) = Some pos.
Proof.
  intros Hc. cbn [firstBounded].
  assert (startsWith (a :: open ++ c :: rest) (a :: open) = true) as ->.
  { apply startsWith_prefix. by exists (c :: rest). }
  change (a :: open ++ c :: rest) with ((a :: open) ++ c :: rest).
  rewrite drop_app_length. by rewrite Hc.
Qed.

Lemma firstBounded_nil open pos : firstBounded open pos [] = None.
Proof. done. Qed.

(** The start that [findNextToolStartIndex] settles on, when one name of the
    set, and only that one, stands at the very start of the text. *)
Lemma findNext_at_start name text :
  name ∈ nameSet ->
  firstBounded (LT :: name) 0 text = Some 0 ->
  (forall n, n ∈ nameSet -> firstBounded (LT :: n) 0 text = Some 0 -> n = name) ->
  findNextToolStartIndex text = Some (0, name).
Proof.
  intros Hin Hname Honly. unfold findNextToolStartIndex.
  assert (H : forall l best,
    (forall n, n ∈ l -> n ∈ nameSet) ->
    match best with
    | None => name ∈ l
    | Some (bi, bn) => (bi = 0 -> bn = name) /\ (bi <> 0 -> name ∈ l)
    end ->
    foldl (betterStart text) best l = Some (0, name)).
  { induction l as [|n l IH]; intros best Hl Hbest; cbn [foldl].
    - destruct best as [[bi bn]|]; [|by apply elem_of_nil in Hbest].
      destruct Hbest as [H0 Hn]. destruct bi; [by rewrite H0|].
      exfalso. assert (name ∈ []) as Hx by (by apply Hn). by apply elem_of_nil in Hx.
    - apply IH; [intros n' Hn'; apply Hl; by right|].
      assert (Hnset : n ∈ nameSet) by (apply Hl; by left).
      unfold betterStart.
      destruct (firstBounded (LT :: n) 0 text) as [idx|] eqn:Hidx.
      + destruct best as [[bi bn]|].
        * destruct Hbest as [H0 Hn].
          destruct (Nat.ltb idx bi) eqn:Hlt.
          -- apply Nat.ltb_lt in Hlt. split.
             ++ intros ->. by apply Honly.
             ++ intros Hne. destruct (decide (n = name)) as [->|Hnn].
                ** rewrite Hname in Hidx. by injection Hidx as <-.
                ** assert (name ∈ n :: l) as Hx by (apply Hn; lia).
                   apply elem_of_cons in Hx as [?|?]; [congruence|done].
          -- apply Nat.ltb_ge in Hlt.
             destruct (Nat.eqb idx bi && Nat.ltb (length bn) (length n)) eqn:Hc.
             ++ apply andb_true_iff in Hc as [He Hlen].
                apply Nat.eqb_eq in He as ->. apply Nat.ltb_lt in Hlen. split.
                ** intros ->. by apply Honly.
                ** intros Hne. pose proof (Hn Hne) as Hx.
                   apply elem_of_cons in Hx as [<-|?]; [|done].
                   rewrite Hname in Hidx. injection Hidx as <-. done.
             ++ split; [done|]. intros Hne. pose proof (Hn Hne) as Hx.
                apply elem_of_cons in Hx as [<-|?]; [|done].
                rewrite Hname in Hidx. injection Hidx as <-. lia.
        * split.
          -- intros ->. by apply Honly.
          -- intros Hne. apply elem_of_cons in Hbest as [<-|?]; [|done].
             rewrite Hname in Hidx. by injection Hidx as <-.
      + destruct best as [[bi bn]|].
        * destruct Hbest as [H0 Hn]. split; [done|]. intros Hne. apply Hn in Hne.
          apply elem_of_cons in Hne as [<-|?]; [|done]. congruence.
        * apply elem_of_cons in Hbest as [<-|?]; [|done]. congruence. }
  by apply H.
Qed.

Lemma findNext_none text :
  (forall n, n ∈ nameSet -> firstBounded (LT :: n) 0 text = None) ->
  findNextToolStartIndex text = None.
Proof.
  intros Hnone. unfold findNextToolStartIndex.
  assert (H : forall l, (forall n, n ∈ l -> n ∈ nameSet) ->
                        foldl (betterStart text) None l = None).
  { induction l as [|n l IH]; intros Hl; [done|]. cbn [foldl].
    unfold betterStart at 2. rewrite Hnone by (apply Hl; by left).
    apply IH. intros n' Hn'. apply Hl. by right. }
  by apply H.
Qed.

Lemma includes_false (s needle : Str) :
  includes s needle = false -> forall a b, s <> a ++ needle ++ b.
Proof.
  induction s as [|x r IH]; cbn [includes]; intros H a b Heq.
  - rewrite orb_false_r in H. apply startsWith_false in H. apply H.
    destruct a; [|done]. by exists b.
  - apply orb_false_iff in H as [Hs Hr]. destruct a as [|y a].
    + apply startsWith_false in Hs. apply Hs. by exists b.
    + injection Heq as -> Heq. by apply (IH Hr a b).
Qed.

Lemma firstBounded_no_boundary open pos text :
  (forall c, c ∈ text -> isOpenBoundary c = false) -> firstBounded open pos text = None.
Proof.
  intros Hno. destruct (firstBounded open pos text) as [i|] eqn:H; [|done].
  apply firstBounded_Some in H as (pre & c & post & -> & _ & Hc).
  rewrite Hno in Hc; [done|]. rewrite !elem_of_app, elem_of_cons. auto.
Qed.

Lemma lastIndexFrom_absent needle pos s found :
  needle <> [] -> (forall a b, s <> a ++ needle ++ b) ->
  lastIndexFrom needle pos s found = found.
Proof.
  intros Hne. revert pos found. induction s as [|x r IH]; intros pos found Hno.
  - cbn [lastIndexFrom]. by destruct needle.
  - cbn [lastIndexFrom].
    assert (startsWith (x :: r) needle = false) as ->.
    { apply startsWith_false. intros [k Hk]. by apply (Hno [] k). }
    apply IH. intros a b ->. by apply (Hno (x :: a) b).
Qed.

Section OneCall.

Variable name : Str.
Variable payload : Str.

Hypothesis names_plain : Forall (fun n => plainName n = true) toolNames.
Hypothesis name_declared : name ∈ toolNames.
Hypothesis name_not_empty : name <> [].
Hypothesis payload_clean : includes payload (LT :: SLASH :: name) = false.
Hypothesis markup_lowered : lowersInPlace (toolCallXml name payload).
Hypothesis name_lowered : lowersInPlace name.

Lemma name_plain : plainName name = true.
Proof. by apply (proj1 (Forall_forall _ _) names_plain). Qed.

Lemma name_in_set : name ∈ nameSet.
Proof. by apply nameSet_elem. Qed.

Lemma nameSet_plain n : n ∈ nameSet -> plainName n = true.
Proof.
  intros Hn%nameSet_elem. by apply (proj1 (Forall_forall _ _) names_plain), Hn.
Qed.

Lemma name_unit_no_boundary c : c ∈ name -> isOpenBoundary c = false.
Proof.
  intros Hc.
  by destruct (nameUnit_not_delimiter _ (plainName_elem _ _ name_plain Hc))
    as (_ & _ & _ & _ & ?).
Qed.

(** A buffer that ends inside the opening tag: nothing is emitted, all of it
    is kept. *)
Lemma pushLoop_partial_open fuel p out :
  p <> [] -> p `prefix_of` LT :: name ->
  pushLoop (S fuel) p out = Some (out, p).
Proof.
  intros Hp [k Hk]. destruct p as [|x n']; [done|]. injection Hk as <- Hname.
  assert (Hunits : forall c, c ∈ LT :: n' -> isOpenBoundary c = false).
  { intros c [->|Hc]%elem_of_cons; [done|].
    apply name_unit_no_boundary. rewrite Hname. apply elem_of_app. by left. }
  cbn [pushLoop].
  rewrite findNext_none by (intros n _; by apply firstBounded_no_boundary).
  unfold splitBufferForPartialTag.
  assert (lastIndexOf (LT :: n') [LT] = Some 0) as ->.
  { unfold lastIndexOf. cbn [lastIndexFrom startsWith]. rewrite Ascii.eqb_refl.
    cbn [andb]. destruct n' as [|c r]; [done|].
    change (match c :: r with [] => true | _ => true end) with true.
    apply lastIndexFrom_absent; [done|]. intros a b Heq.
    assert (LT ∈ name) as Hin.
    { rewrite Hname, Heq. rewrite !elem_of_app, elem_of_cons. auto. }
    by apply (plainName_no_LT _ name_plain). }
  cbn [drop take].
  assert (isPossibleToolTagPrefix (LT :: n') = true) as ->.
  { unfold isPossibleToolTagPrefix. apply andb_true_iff. split.
    - apply startsWith_prefix. by exists n'.
    - apply existsb_exists. exists name. split; [apply list_elem_of_In, name_in_set|].
      apply orb_true_iff. left. apply startsWith_prefix. exists k. by rewrite Hname. }
  done.
Qed.

Lemma toolCallXml_split :
  toolCallXml name payload
  = (LT :: name ++ GT :: payload) ++ (LT :: SLASH :: name) ++ [GT].
Proof. unfold toolCallXml. cbn [app]. by rewrite <- !app_assoc. Qed.

Lemma LT_not_in_close_tail l : LT ∈ l -> l = SLASH :: name ++ [GT] -> False.
Proof.
  intros Hin ->. apply elem_of_cons in Hin as [?|Hin]; [done|].
  apply elem_of_app in Hin as [Hin|Hin].
  - by apply (plainName_no_LT _ name_plain).
  - by apply list_elem_of_singleton in Hin.
Qed.

Lemma payload_has_no_close a b : payload <> a ++ (LT :: SLASH :: name) ++ b.
Proof. by apply includes_false. Qed.

Lemma plain_head_not_slash (nm k rest : Str) :
  plainName nm = true -> nm <> [] -> SLASH :: k = nm ++ rest -> False.
Proof.
  intros Hp Hne H. destruct nm as [|n0 nm]; [done|]. injection H as <- _.
  assert (isNameUnit SLASH = true) as Hunit by (apply (plainName_elem _ _ Hp); by left).
  done.
Qed.

(** The closing tag of the markup is the only place where [</name] stands. *)
Lemma unique_close a b :
  a ++ (LT :: SLASH :: name) ++ b = toolCallXml name payload ->
  a = LT :: name ++ GT :: payload /\ b = [GT].
Proof.
  rewrite toolCallXml_split. intros H.
  apply app_eq_inv in H as [(k & Ha & Hk)|(k & Hu & Hk)].
  - destruct k as [|c k'].
    + rewrite app_nil_r in Ha. cbn [app] in Hk. split; [done|].
      injection Hk as Hk. by apply app_inv_head in Hk.
    + exfalso. cbn [app] in Hk. injection Hk as <- Hk.
      apply (LT_not_in_close_tail (SLASH :: name ++ [GT])); [|done].
      rewrite Hk at 1. rewrite elem_of_app, elem_of_cons. auto.
  - destruct k as [|c k'].
    + rewrite app_nil_r in Hu. cbn [app] in Hk. split; [done|].
      injection Hk as Hk. by apply app_inv_head in Hk.
    + exfalso. cbn [app] in Hk. injection Hk as <- Hk.
      destruct a as [|a0 a'].
      * cbn [app] in Hu. injection Hu as Hu. subst k'.
        rewrite <- app_assoc in Hk.
        by apply (plain_head_not_slash _ _ _ name_plain name_not_empty Hk).
      * cbn [app] in Hu. injection Hu as _ Hu.
        apply app_eq_inv in Hu as [(k2 & Hn & Hk2)|(k2 & Ha & Hk2)].
        -- destruct k2 as [|c2 k2]; [done|]. cbn [app] in Hk2. injection Hk2 as <- _.
           apply (plainName_no_LT _ name_plain). rewrite Hn.
           rewrite elem_of_app, elem_of_cons. auto.
        -- destruct k2 as [|c2 k3]; [done|]. cbn [app] in Hk2. injection Hk2 as _ Hpay.
           change (SLASH :: name ++ b) with ((SLASH :: name) ++ b) in Hk.
           apply app_eq_inv in Hk as [(k4 & Hk4 & Hb)|(k4 & Hk4 & Hb)].
           ++ destruct k4 as [|c4 k4].
              ** rewrite app_nil_r in Hk4. apply (payload_has_no_close k3 []).
                 rewrite Hpay, <- Hk4. cbn [app]. by rewrite app_nil_r.
              ** cbn [app] in Hb. injection Hb as <- _.
                 apply (LT_not_in_close_tail (SLASH :: name ++ [GT])); [|done].
                 change (SLASH :: name ++ [GT]) with ((SLASH :: name) ++ [GT]).
                 rewrite Hk4. rewrite !elem_of_app, elem_of_cons. auto.
           ++ apply (payload_has_no_close k3 k4). by rewrite Hpay, Hk4.
Qed.

Lemma findCloseFrom_none needle s : forall pos,
  (forall a b, s <> a ++ needle ++ b) -> findCloseFrom needle pos s = None.
Proof.
  induction s as [|x r IH]; intros pos Hno; [done|]. cbn [findCloseFrom].
  assert (startsWith (x :: r) needle = false) as ->.
  { apply startsWith_false. intros [k Hk]. by apply (Hno [] k). }
  apply IH. intros a b ->. by apply (Hno (x :: a) b).
Qed.

Lemma findCloseFrom_skip needle u v : forall pos,
  (forall u1 u2 b, u = u1 ++ u2 -> u2 <> [] -> u2 ++ v <> needle ++ b) ->
  findCloseFrom needle pos (u ++ v) = findCloseFrom needle (pos + length u) v.
Proof.
  induction u as [|x u IH]; intros pos Hno.
  - cbn [app length]. by rewrite Nat.add_0_r.
  - cbn [app findCloseFrom length].
    assert (startsWith (x :: u ++ v) needle = false) as ->.
    { apply startsWith_false. intros [k Hk]. by apply (Hno [] (x :: u) k). }
    rewrite IH; [f_equal; lia|].
    intros u1 u2 b -> Hu2. by apply (Hno (x :: u1) u2 b).
Qed.

Lemma prefix_snoc_cases {A} (p l : list A) (x : A) :
  p `prefix_of` l ++ [x] -> p = l ++ [x] \/ p `prefix_of` l.
Proof.
  intros [k Hk]. destruct (decide (k = [])) as [->|Hne].
  - left. by rewrite app_nil_r in Hk.
  - right. destruct (exists_last Hne) as (k' & y & ->).
    rewrite app_assoc in Hk. apply app_inj_tail in Hk as [-> _]. by exists k'.
Qed.

(** No [</name] stands in the markup before its closing tag. *)
Lemma no_close_before u1 u2 b v :
  LT :: name ++ GT :: payload = u1 ++ u2 -> u2 <> [] ->
  (exists w, (LT :: SLASH :: name) ++ [GT] = v ++ w) ->
  u2 ++ v <> (LT :: SLASH :: name) ++ b.
Proof.
  intros Hu Hu2 [w Hw] Heq.
  destruct (unique_close u1 (b ++ w)) as [Ha _].
  - rewrite toolCallXml_split, Hu, Hw.
    rewrite <- !app_assoc. f_equal. rewrite !app_assoc. f_equal.
    exact (eq_sym Heq).
  - rewrite Hu in Ha. rewrite <- (app_nil_r u1) in Ha at 1.
    apply app_inv_head in Ha. by rewrite <- Ha in Hu2.
Qed.

Lemma startsWith_self_app (a b : Str) : startsWith (a ++ b) a = true.
Proof. apply startsWith_prefix. by exists b. Qed.

Lemma findCloseFrom_at needle rest pos :
  needle <> [] ->
  findCloseFrom needle pos (needle ++ rest)
  = match afterName rest with
    | Incomplete => None
    | NotAClose =>
        findCloseFrom needle (S pos) (tail (needle ++ rest))
    | ClosedAt gt => Some (pos + length needle + gt + 1)
    end.
Proof.
  intros Hne. destruct needle as [|x needle]; [done|].
  change ((x :: needle) ++ rest) with (x :: (needle ++ rest)).
  cbn [findCloseFrom tail].
  change (x :: needle ++ rest) with ((x :: needle) ++ rest).
  by rewrite startsWith_self_app, drop_app_length.
Qed.

(** While the markup is not all there, no closing tag is found. *)
Lemma findClose_partial p :
  p `prefix_of` toolCallXml name payload -> p <> toolCallXml name payload ->
  findCloseTagEndIndex p name = None.
Proof.
  rewrite toolCallXml_split, app_assoc. intros Hp Hne.
  apply prefix_snoc_cases in Hp as [?|[k Hk]]; [done|].
  unfold findCloseTagEndIndex. destruct (decide (k = [])) as [->|Hk0].
  - rewrite app_nil_r in Hk. rewrite <- Hk.
    rewrite findCloseFrom_skip.
    + rewrite <- (app_nil_r (LT :: SLASH :: name)) at 2.
      by rewrite findCloseFrom_at.
    + intros u1 u2 b Hu Hu2. apply (no_close_before u1); [done..|]. by exists [GT].
  - apply findCloseFrom_none. intros a b ->.
    destruct (unique_close a (b ++ k ++ [GT])) as [_ Hb].
    + rewrite toolCallXml_split, (app_assoc (LT :: name ++ GT :: payload)), Hk.
      by rewrite <- !app_assoc.
    + rewrite app_assoc in Hb. rewrite <- (app_nil_l [GT]) in Hb at 2.
      apply app_inj_tail in Hb as [Hb _]. apply app_eq_nil in Hb as [_ ?]. done.
Qed.

(** On the whole markup the closing tag is found at its end. *)
Lemma findClose_complete :
  findCloseTagEndIndex (toolCallXml name payload) name
  = Some (length (toolCallXml name payload)).
Proof.
  unfold findCloseTagEndIndex. rewrite toolCallXml_split.
  rewrite findCloseFrom_skip.
  - rewrite findCloseFrom_at by done.
    replace (afterName [GT]) with (ClosedAt 0) by (vm_compute; reflexivity).
    f_equal. rewrite !length_app. cbn [length]. lia.
  - intros u1 u2 b Hu Hu2. apply (no_close_before u1); [done..|].
    exists []. by rewrite app_nil_r.
Qed.

Lemma findNext_open q : findNextToolStartIndex (LT :: name ++ GT :: q) = Some (0, name).
Proof.
  apply findNext_at_start.
  - apply name_in_set.
  - by apply firstBounded_here.
  - intros n Hn H. apply firstBounded_Some in H as (pre & c & post & Htext & Hpre & Hc).
    destruct pre; [|cbn in Hpre; lia]. cbn [app] in Htext. injection Htext as Htext.
    symmetry.
    apply (not_elem_of_app_cons_inv_l GT c name q n post); [| |done].
    + by apply plainName_no_GT, nameSet_plain.
    + intros Hin. apply name_unit_no_boundary in Hin. congruence.
Qed.

Lemma findNext_nil : findNextToolStartIndex [] = None.
Proof. by apply findNext_none. Qed.

(** A buffer that holds the opening tag and not yet the whole markup:
    nothing is emitted, all of it is kept. *)
Lemma pushLoop_partial_call fuel p out :
  LT :: name ++ [GT] `prefix_of` p ->
  p `prefix_of` toolCallXml name payload -> p <> toolCallXml name payload ->
  pushLoop (S fuel) p out = Some (out, p).
Proof.
  intros [q Hq] Hp Hne. cbn [pushLoop].
  assert (p = LT :: name ++ GT :: q) as Hform.
  { rewrite Hq. cbn [app]. by rewrite <- app_assoc. }
  rewrite Hform at 1. rewrite findNext_open. cbn [Nat.ltb Nat.leb].
  by rewrite findClose_partial.
Qed.

(** On an empty buffer the loop ends at once. *)
Lemma pushLoop_nil fuel out : pushLoop (S fuel) [] out = Some (out, []).
Proof. cbn [pushLoop]. by rewrite findNext_nil. Qed.

Lemma lowerUnit_nameUnit c : isNameUnit c = true -> isNameUnit (lowerUnit c) = true.
Proof.
  intros H. destruct c as [[] [] [] [] [] [] [] []]; vm_compute in H; try discriminate H;
    reflexivity.
Qed.

Lemma plainName_lower nm : plainName nm = true -> plainName (foldCase nm) = true.
Proof.
  unfold plainName, foldCase. induction nm as [|c nm IH]; [done|].
  cbn [forallb map]. intros [Hc Hr]%andb_true_iff.
  by rewrite lowerUnit_nameUnit, IH.
Qed.

Lemma lastIndexFrom_last h t c a : forall pos found,
  h ∉ t ++ [c] ->
  lastIndexFrom (h :: t) pos (a ++ (h :: t) ++ [c]) found = Some (pos + length a).
Proof.
  induction a as [|x a IH]; intros pos found Hh.
  - change ([] ++ (h :: t) ++ [c]) with (h :: (t ++ [c])). cbn [lastIndexFrom length].
    change (h :: t ++ [c]) with ((h :: t) ++ [c]). rewrite startsWith_self_app.
    rewrite lastIndexFrom_absent; [f_equal; lia|done|].
    intros a b Heq. apply Hh. rewrite Heq. rewrite !elem_of_app, elem_of_cons. auto.
  - change ((x :: a) ++ (h :: t) ++ [c]) with (x :: (a ++ (h :: t) ++ [c])).
    cbn [lastIndexFrom length]. rewrite IH by done. f_equal. lia.
Qed.

Lemma trim_id s :
  match s with c :: _ => isSpace c = false | [] => True end ->
  match rev s with c :: _ => isSpace c = false | [] => True end ->
  trim s = s.
Proof.
  intros Hhead Hlast. unfold trim.
  assert (trimStart s = s) as -> by (destruct s as [|c r]; [done|]; cbn; by rewrite Hhead).
  assert (trimStart (rev s) = rev s) as ->
    by (destruct (rev s) as [|c r]; [done|]; cbn; by rewrite Hlast).
  apply rev_involutive.
Qed.

Lemma isEmpty_false (s : Str) : s <> [] -> isEmpty s = false.
Proof. by destruct s. Qed.

Lemma openMatch_markup :
  openMatchPlain name (toolCallXml name payload) = Some (length name + 2).
Proof.
  unfold openMatchPlain, toolCallXml. rewrite Ascii.eqb_refl.
  unfold foldCase. rewrite map_app, startsWith_self_app. cbn [andb].
  rewrite drop_app_length. by rewrite Ascii.eqb_refl.
Qed.

Lemma closeTest_markup : closeTestPlain name (toolCallXml name payload) = true.
Proof.
  unfold closeTestPlain.
  rewrite toolCallXml_split, (app_assoc (LT :: name ++ GT :: payload)), rev_unit.
  rewrite Ascii.eqb_refl. cbn [andb]. rewrite rev_app_distr.
  destruct (exists_last name_not_empty) as (front & z & Hz).
  assert (isSpace z = false) as Hzs.
  { assert (isNameUnit z = true) as Hu.
    { apply (plainName_elem name); [apply name_plain|].
      rewrite Hz. apply elem_of_app. right. by apply list_elem_of_singleton. }
    by destruct (nameUnit_not_delimiter _ Hu) as (_ & _ & _ & ? & _). }
  assert (trimStart (rev (LT :: SLASH :: name) ++ rev (LT :: name ++ GT :: payload))
          = rev (LT :: SLASH :: name) ++ rev (LT :: name ++ GT :: payload)) as ->.
  { assert (LT :: SLASH :: name = (LT :: SLASH :: front) ++ [z]) as -> by (by rewrite Hz).
    rewrite rev_unit. cbn [app trimStart]. by rewrite Hzs. }
  unfold foldCase. rewrite map_app, map_rev. apply startsWith_self_app.
Qed.

Lemma nameUnit_ascii c : isNameUnit c = true -> nat_of_ascii c < 128.
Proof.
  intros H. destruct c as [[] [] [] [] [] [] [] []]; vm_compute in H; try discriminate H;
    vm_compute; lia.
Qed.

Lemma lower_plain (lower : ascii -> ascii) nm :
  (forall c, nat_of_ascii c < 128 -> lower c = lowerUnit c) ->
  plainName nm = true -> map lower nm = foldCase nm.
Proof.
  intros Hlower. unfold plainName, foldCase. induction nm as [|c nm IH]; [done|].
  cbn [forallb map]. intros [Hc Hr]%andb_true_iff.
  by rewrite IH, (Hlower c (nameUnit_ascii c Hc)).
Qed.

Lemma lastIndex_markup :
  lastIndexOf (toLowerCase (toolCallXml name payload)) (LT :: SLASH :: toLowerCase name)
  = Some (length name + 2 + length payload).
Proof.
  destruct markup_lowered as (lower & -> & Hlower).
  destruct name_lowered as (lower' & -> & Hlower').
  rewrite (lower_plain lower' name Hlower' name_plain).
  unfold lastIndexOf. rewrite toolCallXml_split.
  rewrite !map_app.
  change (map lower (LT :: SLASH :: name)) with (lower LT :: lower SLASH :: map lower name).
  change (map lower [GT]) with [lower GT].
  rewrite (lower_plain lower name Hlower name_plain).
  rewrite (Hlower LT), (Hlower SLASH), (Hlower GT) by (vm_compute; lia).
  change (lowerUnit LT) with LT. change (lowerUnit SLASH) with SLASH.
  change (lowerUnit GT) with GT.
  rewrite lastIndexFrom_last.
  - f_equal. rewrite length_map. cbn [length]. rewrite length_app. cbn [length]. lia.
  - intros Hin. apply elem_of_app in Hin as [Hin|Hin].
    + apply elem_of_cons in Hin as [?|Hin]; [done|].
      by apply (plainName_no_LT _ (plainName_lower _ name_plain)).
    + by apply list_elem_of_singleton in Hin.
Qed.

(** The whole markup parses to the call of [name] with the input that the
    trimmed payload stands for. *)
Lemma tryParse_markup :
  tryParseMcpToolCallXml (toolCallXml name payload) name
  = Some (name, inputOf (trim payload)).
Proof.
  unfold tryParseMcpToolCallXml. cbv zeta.
  assert (trim (toolCallXml name payload) = toolCallXml name payload) as ->.
  { apply trim_id; [done|].
    by rewrite toolCallXml_split, (app_assoc (LT :: name ++ GT :: payload)), rev_unit. }
  rewrite (isEmpty_false name name_not_empty), name_plain.
  assert (isEmpty (toolCallXml name payload) = false) as -> by done.
  cbn [orb]. rewrite openMatch_markup, closeTest_markup, lastIndex_markup. cbn [negb].
  assert (Nat.ltb (length name + 2 + length payload) (length name + 2) = false) as ->
    by (apply Nat.ltb_ge; lia).
  do 3 f_equal.
  replace (length name + 2 + length payload - (length name + 2)) with (length payload)
    by lia.
  assert (toolCallXml name payload
          = (LT :: name ++ [GT]) ++ payload ++ LT :: SLASH :: name ++ [GT]) as ->.
  { unfold toolCallXml. cbn [app]. by rewrite <- app_assoc. }
  rewrite drop_app_length'; [|cbn [length]; rewrite length_app; cbn [length]; lia].
  by rewrite take_app_length.
Qed.

Lemma pushLoop_step fuel buffer out :
  pushLoop (S fuel) buffer out
  = match findNextToolStartIndex buffer with
    | None =>
        let '(emit, keep) := splitBufferForPartialTag buffer in
        Some (match emit with [] => out | _ => out ++ [Text emit] end, keep)
    | Some (index, name) =>
        let out1 :=
          if Nat.ltb 0 index then out ++ [Text (take index buffer)] else out in
        let buffer1 := if Nat.ltb 0 index then drop index buffer else buffer in
        match findCloseTagEndIndex buffer1 name with
        | None => Some (out1, buffer1)
        | Some closeEnd =>
            let xml := take closeEnd buffer1 in
            let out2 :=
              match tryParseMcpToolCallXml xml name with
              | Some (parsedName, input) => out1 ++ [Tool parsedName input]
              | None => out1 ++ [Text xml]
              end in
            pushLoop fuel (drop closeEnd buffer1) out2
        end
    end.
Proof. done. Qed.

(** The buffer that holds the whole markup: the call, and nothing is kept. *)
Lemma pushLoop_complete fuel out :
  pushLoop (S (S fuel)) (toolCallXml name payload) out
  = Some (out ++ [Tool name (inputOf (trim payload))], []).
Proof.
  rewrite pushLoop_step.
  assert (findNextToolStartIndex (toolCallXml name payload) = Some (0, name)) as ->
    by apply findNext_open.
  cbv zeta. cbn [Nat.ltb Nat.leb].
  rewrite findClose_complete. rewrite firstn_all, drop_all, tryParse_markup.
  apply pushLoop_nil.
Qed.

Lemma feedFrom_nothing_left chunks : concat chunks = [] -> feedFrom [] chunks = Some [].
Proof.
  induction chunks as [|c rest IH]; [done|]. cbn [concat feedFrom].
  intros [-> Hrest]%app_eq_nil. cbn [pushText]. cbn. by rewrite IH.
Qed.

Lemma open_tag_prefix : LT :: name ++ [GT] `prefix_of` toolCallXml name payload.
Proof.
  exists (payload ++ LT :: SLASH :: name ++ [GT]). unfold toolCallXml. cbn [app].
  by rewrite <- app_assoc.
Qed.

Lemma feedFrom_markup chunks : forall p,
  p ++ concat chunks = toolCallXml name payload -> p <> toolCallXml name payload ->
  feedFrom p chunks = Some [Tool name (inputOf (trim payload))].
Proof.
  induction chunks as [|c rest IH]; intros p Hcat Hp.
  - cbn [concat] in Hcat. by rewrite app_nil_r in Hcat.
  - cbn [concat] in Hcat. cbn [feedFrom]. destruct c as [|x c'].
    + cbn [pushText]. cbn [mbind option_bind]. by rewrite (IH p).
    + unfold pushText. set (p' := p ++ x :: c') in *.
      assert (Hp' : p' `prefix_of` toolCallXml name payload).
      { exists (concat rest). subst p'. by rewrite <- app_assoc. }
      assert (Hne : p' <> []) by (subst p'; by destruct p).
      destruct (decide (p' = toolCallXml name payload)) as [Hall|Hpart].
      * rewrite Hall. unfold toolCallXml at 1. cbn [length].
        rewrite length_app. cbn [length]. rewrite Nat.add_succ_r.
        rewrite pushLoop_complete. cbn [mbind option_bind app].
        rewrite feedFrom_nothing_left; [done|].
        apply (app_inv_head p'). rewrite app_nil_r. subst p'.
        rewrite <- app_assoc. by rewrite Hcat.
      * assert (pushLoop (S (length p')) p' [] = Some ([], p')) as ->.
        { destruct (prefix_weak_total _ _ _ Hp' open_tag_prefix) as [Hshort|Hlong].
          - change (LT :: name ++ [GT]) with ((LT :: name) ++ [GT]) in Hshort.
            apply prefix_snoc_cases in Hshort as [Heq|Hshort].
            + apply pushLoop_partial_call; [by rewrite Heq|done..].
            + by apply pushLoop_partial_open.
          - by apply pushLoop_partial_call. }
        cbn [mbind option_bind]. rewrite (IH p'); [done| |done].
        subst p'. by rewrite <- app_assoc.
Qed.

(** C2 (amended): the declared names being plain (letters, digits, [_], [-]),
    the payload not holding [</name], and [toLowerCase] changing the markup
    and the name unit by unit, the markup of one call of a declared name
    yields that call and nothing else, whatever the chunks it is pushed in, as
    it does when it is pushed whole.  (Where a unit of the payload has a lower
    case of two units, as U+0130 has, [tryParseMcpToolCallXml] finds the close
    tag in the lowered text one index late and cuts the original text there.) *)
Theorem split_markup_yields_one_call (chunks : list Str) :
  concat chunks = toolCallXml name payload ->
  feed chunks = Some [Tool name (inputOf (trim payload))]
  /\ feed chunks = feed [toolCallXml name payload].
Proof.
  intros Hcat.
  assert (Hany : forall l, concat l = toolCallXml name payload ->
                           feed l = Some [Tool name (inputOf (trim payload))]).
  { intros l Hl. apply feedFrom_markup; [done|]. by unfold toolCallXml. }
  split; [by apply Hany|]. rewrite !Hany; [done|cbn [concat]; by rewrite app_nil_r|done].
Qed.

End OneCall.

(** *** Text that is no call passes through *)

Definition isText (e : Event) : bool :=
  match e with Text _ => true | Tool _ _ => false end.

Definition allText (events : list Event) : bool := forallb isText events.

(** The texts of the events, put end to end. *)
Definition textOf (events : list Event) : Str :=
  concat (map (fun e => match e with Text t => t | Tool _ _ => [] end) events).

Lemma textOf_app a b : textOf (a ++ b) = textOf a ++ textOf b.
Proof. unfold textOf. by rewrite map_app, concat_app. Qed.

Lemma allText_app a b : allText (a ++ b) = allText a && allText b.
Proof. apply forallb_app. Qed.

Lemma splitBuffer_app raw :
  fst (splitBufferForPartialTag raw) ++ snd (splitBufferForPartialTag raw) = raw.
Proof.
  unfold splitBufferForPartialTag. destruct raw as [|c raw]; [done|].
  destruct (lastIndexOf (c :: raw) [LT]) as [lastLt|]; [|apply app_nil_r].
  destruct (isPossibleToolTagPrefix _); [apply take_drop|apply app_nil_r].
Qed.

Lemma findCloseFrom_positive needle src : forall pos i,
  findCloseFrom needle pos src = Some i -> 0 < i /\ src <> [].
Proof.
  induction src as [|c src IH]; intros pos i H; [done|].
  split; [|done]. cbn [findCloseFrom] in H.
  destruct (startsWith (c :: src) needle).
  - destruct (afterName _) as [| |gt]; [done| |].
    + by apply IH in H as [? _].
    + injection H as <-. lia.
  - by apply IH in H as [? _].
Qed.

(** The loop of [pushText] ends: each turn that goes on has taken the markup
    of a call, which is not empty, off the buffer. *)
Lemma pushLoop_total fuel : forall buffer out,
  length buffer < fuel -> is_Some (pushLoop fuel buffer out).
Proof.
  induction fuel as [|fuel IH]; intros buffer out Hfuel; [lia|].
  cbn [pushLoop].
  destruct (findNextToolStartIndex buffer) as [[index name]|].
  - set (buffer1 := if Nat.ltb 0 index then drop index buffer else buffer).
    assert (length buffer1 <= length buffer) as Hle.
    { unfold buffer1. destruct (Nat.ltb 0 index); [rewrite length_drop; lia|lia]. }
    destruct (findCloseTagEndIndex buffer1 name) as [closeEnd|] eqn:Hclose; [|done].
    apply findCloseFrom_positive in Hclose as [Hpos Hne].
    apply IH. rewrite length_drop. destruct buffer1; [done|]. cbn [length] in *. lia.
  - by destruct (splitBufferForPartialTag buffer).
Qed.

Lemma pushLoop_conserves fuel : forall buffer out out' buffer',
  pushLoop fuel buffer out = Some (out', buffer') ->
  allText out' = true ->
  allText out = true /\ textOf out' ++ buffer' = textOf out ++ buffer.
Proof.
  induction fuel as [|fuel IH]; intros buffer out out' buffer' H Hall; [done|].
  cbn [pushLoop] in H.
  destruct (findNextToolStartIndex buffer) as [[index name]|].
  - set (out1 := if Nat.ltb 0 index then out ++ [Text (take index buffer)] else out) in *.
    set (buffer1 := if Nat.ltb 0 index then drop index buffer else buffer) in *.
    assert (allText out1 = allText out /\ textOf out1 ++ buffer1 = textOf out ++ buffer)
      as [Hall1 Htext1].
    { unfold out1, buffer1. destruct (Nat.ltb 0 index); [|done].
      rewrite allText_app, textOf_app. cbn. rewrite andb_true_r. split; [done|].
      unfold textOf at 2. cbn. by rewrite app_nil_r, <- app_assoc, take_drop. }
    destruct (findCloseTagEndIndex buffer1 name) as [closeEnd|].
    + destruct (tryParseMcpToolCallXml _ name) as [[parsedName input]|].
      * apply IH in H as [H _]; [|done].
        rewrite allText_app in H. cbn in H. by rewrite andb_false_r in H.
      * apply IH in H as [H1 H2]; [|done].
        rewrite allText_app in H1. apply andb_true_iff in H1 as [H1 _].
        split; [by rewrite <- Hall1|].
        rewrite H2, textOf_app, <- Htext1. unfold textOf at 2. cbn.
        by rewrite app_nil_r, <- app_assoc, take_drop.
    + injection H as <- <-. by rewrite <- Hall1.
  - pose proof (splitBuffer_app buffer) as Hsplit.
    destruct (splitBufferForPartialTag buffer) as [emit keep]. cbn in Hsplit.
    injection H as <- <-. destruct emit as [|c emit].
    + by cbn in Hsplit; subst.
    + rewrite allText_app in Hall. apply andb_true_iff in Hall as [Hall _].
      split; [done|]. rewrite textOf_app. unfold textOf at 2. cbn [map concat].
      by rewrite app_nil_r, <- app_assoc, Hsplit.
Qed.

Lemma pushText_total chunk buffer : is_Some (pushText chunk buffer).
Proof.
  unfold pushText. destruct chunk; [done|]. apply pushLoop_total. lia.
Qed.

Lemma pushText_conserves chunk buffer out buffer' :
  pushText chunk buffer = Some (out, buffer') ->
  allText out = true -> textOf out ++ buffer' = buffer ++ chunk.
Proof.
  unfold pushText. intros H Hall. destruct chunk as [|c chunk].
  - injection H as <- <-. by rewrite app_nil_r.
  - by apply pushLoop_conserves in H as [_ H].
Qed.

Lemma feedFrom_total chunks : forall buffer, is_Some (feedFrom buffer chunks).
Proof.
  induction chunks as [|chunk rest IH]; intros buffer; [done|].
  cbn [feedFrom]. destruct (pushText_total chunk buffer) as [[out buffer'] ->].
  cbn. by destruct (IH buffer') as [later ->].
Qed.

Lemma feedFrom_conserves chunks : forall buffer events,
  feedFrom buffer chunks = Some events ->
  allText events = true -> textOf events = buffer ++ concat chunks.
Proof.
  induction chunks as [|chunk rest IH]; intros buffer events H Hall.
  - injection H as <-. cbn [concat]. rewrite app_nil_r.
    destruct buffer; [done|]. unfold textOf. cbn. by rewrite app_nil_r.
  - cbn [feedFrom] in H.
    destruct (pushText chunk buffer) as [[out buffer']|] eqn:Hpush; [|done].
    cbn in H. destruct (feedFrom buffer' rest) as [later|] eqn:Hlater; [|done].
    cbn in H. injection H as <-.
    rewrite allText_app in Hall. apply andb_true_iff in Hall as [Hout Hrest].
    rewrite textOf_app, (IH _ _ Hlater Hrest). cbn [concat].
    by rewrite !app_assoc, (pushText_conserves _ _ _ _ Hpush Hout).
Qed.

(** X1.  The tokenizer ends on every sequence of chunks, and as long as it
    reports no tool call, the text it emits, the flush included, is the
    input put end to end: nothing is dropped, doubled or reordered. *)
Theorem text_passes_through (chunks : list Str) :
  is_Some (feed chunks)
  /\ (forall events, feed chunks = Some events -> allText events = true ->
        textOf events = concat chunks).
Proof.
  split; [apply feedFrom_total|].
  intros events H Hall. by apply (feedFrom_conserves chunks []).
Qed.

(** *** What the tokenizer holds back *)

(** A buffer that is empty, or may still grow into [<name] or [</name] of
    a declared name, or begins with the open tag of a declared name. *)
Definition heldBack (keep : Str) : Prop :=
  keep = []
  \/ (exists name, name ∈ nameSet /\ keep <> []
        /\ (keep `prefix_of` LT :: name \/ keep `prefix_of` LT :: SLASH :: name))
  \/ (exists name c rest, name ∈ nameSet /\ keep = LT :: name ++ c :: rest
        /\ isOpenBoundary c = true).

Lemma findNext_sound text index name :
  findNextToolStartIndex text = Some (index, name) ->
  name ∈ nameSet /\ firstBounded (LT :: name) 0 text = Some index.
Proof.
  unfold findNextToolStartIndex.
  set (P := fun best : option (nat * Str) =>
              match best with
              | None => True
              | Some (i, n) => n ∈ nameSet /\ firstBounded (LT :: n) 0 text = Some i
              end).
  assert (forall l best, (forall n, n ∈ l -> n ∈ nameSet) -> P best ->
                         P (foldl (betterStart text) best l)) as Hfold.
  { induction l as [|n l IH]; intros best Hl Hbest; [done|].
    cbn [foldl]. apply IH; [intros m Hm; apply Hl; by right|].
    assert (n ∈ nameSet) as Hn by (apply Hl; by left).
    unfold betterStart.
    destruct (firstBounded (LT :: n) 0 text) as [idx|] eqn:Hidx; [|done].
    destruct best as [[bestIdx bestName]|]; [|done].
    destruct (Nat.ltb idx bestIdx); [done|].
    destruct (Nat.eqb idx bestIdx) eqn:Heq; [|done].
    apply Nat.eqb_eq in Heq as ->.
    by destruct (Nat.ltb (length bestName) (length n)). }
  intros H. specialize (Hfold nameSet None (fun n Hn => Hn) I).
  by rewrite H in Hfold.
Qed.

Lemma splitBuffer_heldBack raw : heldBack (snd (splitBufferForPartialTag raw)).
Proof.
  unfold splitBufferForPartialTag. destruct raw as [|c raw]; [by left|].
  destruct (lastIndexOf (c :: raw) [LT]) as [lastLt|]; [|by left].
  destruct (isPossibleToolTagPrefix _) eqn:Hprefix; [|by left].
  cbn [snd]. unfold isPossibleToolTagPrefix in Hprefix.
  apply andb_true_iff in Hprefix as [Hlt Hnames].
  apply existsb_exists in Hnames as (name & Hin & Hname).
  right. left. exists name. split_and!.
  - by apply list_elem_of_In.
  - intros Hnil. by rewrite Hnil in Hlt.
  - apply orb_true_iff in Hname as [H|H]; apply startsWith_prefix in H; auto.
Qed.

Lemma pushLoop_heldBack fuel : forall buffer out out' keep,
  pushLoop fuel buffer out = Some (out', keep) -> heldBack keep.
Proof.
  induction fuel as [|fuel IH]; intros buffer out out' keep H; [done|].
  cbn [pushLoop] in H.
  destruct (findNextToolStartIndex buffer) as [[index name]|] eqn:Hnext.
  - apply findNext_sound in Hnext as [Hname Hfirst].
    apply firstBounded_Some in Hfirst as (pre & c & post & -> & -> & Hc).
    destruct (findCloseTagEndIndex _ name) as [closeEnd|]; [by eapply IH|].
    injection H as _ <-. right. right. exists name, c, post. split_and!; [done| |done].
    cbn [Nat.add]. destruct pre as [|a pre]; [done|].
    change (Nat.ltb 0 (length (a :: pre))) with true. cbv iota.
    by rewrite drop_app_length.
  - pose proof (splitBuffer_heldBack buffer) as Hkeep.
    destruct (splitBufferForPartialTag buffer) as [emit keep0].
    by injection H as _ <-.
Qed.

(** X2.  After a push the tokenizer holds back nothing but what may still
    become a tag of a declared tool: the buffer is empty, or a beginning of
    [<name] or [</name], or starts with the open tag of a call whose close tag
    has not come; with no tool declared it holds back nothing. *)
Theorem held_back_text_is_a_tag (chunk buffer : Str) (out : list Event) (keep : Str) :
  pushText chunk buffer = Some (out, keep) ->
  chunk <> [] \/ heldBack buffer ->
  heldBack keep /\ (nameSet = [] -> keep = []).
Proof.
  intros Hpush Hbefore.
  assert (heldBack keep) as Hkeep.
  { unfold pushText in Hpush. destruct chunk as [|c chunk].
    - injection Hpush as _ <-. by destruct Hbefore.
    - by eapply pushLoop_heldBack. }
  split; [done|]. intros Hnone.
  destruct Hkeep as [?|[(name & Hin & _)|(name & c & rest & Hin & _)]]; [done| |];
    rewrite Hnone in Hin; by apply elem_of_nil in Hin.
Qed.

End Parser.

(** *** Examples *)

(** Stand-ins for the parsers: [JSON.parse] knows the empty object, and the
    XML fallback wraps the text as its [catch] branch does. *)
Definition parseEmptyObject (inner : Str) : option Json :=
  if String.eqb (string_of_list_ascii inner) "{}" then Some (JObj []) else None.

Definition rawInput (inner : Str) : Json :=
  JObj [("raw", JStr (string_of_list_ascii inner))].

Definition noRegexOpen (_ _ : Str) : option nat := None.
Definition noRegexClose (_ _ : Str) : bool := false.

(** [toLowerCase] on the texts of the examples, whose units are all below 128. *)
Definition lowerCaseOfAscii (s : Str) : Str := map lowerUnit s.

(** The tokenizer of the examples, for the one declared name [mcp__s__t]. *)
Definition exampleFeed (chunks : list Str) : option (list Event) :=
  feed parseEmptyObject rawInput noRegexOpen noRegexClose lowerCaseOfAscii
    [str "mcp__s__t"] chunks.

Example text_around_a_call :
  exampleFeed [str "hello <mcp__s_"; str "_t>{}</mcp__s__t> bye <mc"; str "p"]
  = Some [Text (str "hello "); Tool (str "mcp__s__t") (JObj []);
          Text (str " bye "); Text (str "<mcp")].
Proof. vm_compute. reflexivity. Qed.

Lemma split_markup_yields_one_call_witness :
  exampleFeed [str "<mcp__s"; str "__t>{"; str "}</mcp__s__t"; str ">"]
  = Some [Tool (str "mcp__s__t") (JObj [])]
  /\ exampleFeed [str "<mcp__s"; str "__t>{"; str "}</mcp__s__t"; str ">"]
     = exampleFeed [toolCallXml (str "mcp__s__t") (str "{}")].
Proof.
  apply (split_markup_yields_one_call parseEmptyObject rawInput noRegexOpen noRegexClose
           lowerCaseOfAscii [str "mcp__s__t"] (str "mcp__s__t") (str "{}")).
  - repeat constructor.
  - by left.
  - discriminate.
  - reflexivity.
  - exists lowerUnit. split; [reflexivity|done].
  - exists lowerUnit. split; [reflexivity|done].
  - reflexivity.
Defined.

Definition QUOTE : ascii := ascii_of_nat 34.

(** The payload of the counterexample: a JSON object whose one string, under
    the key [a], is [</mcp__s__t><mcp__s__t>], a closing and an opening tag. *)
Definition taggedPayload : Str :=
  str "{" ++ [QUOTE] ++ str "a" ++ [QUOTE] ++ str ":" ++ [QUOTE]
  ++ str "</mcp__s__t><mcp__s__t>" ++ [QUOTE] ++ str "}".

(** C2, as stated, fails: the markup of one call whose payload holds the
    tags of its own name is read as two calls, already when pushed whole. *)
Lemma payload_with_own_tags_is_two_calls :
  exampleFeed [toolCallXml (str "mcp__s__t") taggedPayload]
  = Some [ Tool (str "mcp__s__t")
             (rawInput (str "{" ++ [QUOTE] ++ str "a" ++ [QUOTE] ++ str ":" ++ [QUOTE]));
           Tool (str "mcp__s__t") (rawInput ([QUOTE] ++ str "}")) ]
  /\ ~ (exists input,
          exampleFeed [toolCallXml (str "mcp__s__t") taggedPayload]
          = Some [Tool (str "mcp__s__t") input]).
Proof.
  assert (H : exampleFeed [toolCallXml (str "mcp__s__t") taggedPayload]
    = Some [ Tool (str "mcp__s__t")
               (rawInput (str "{" ++ [QUOTE] ++ str "a" ++ [QUOTE] ++ str ":" ++ [QUOTE]));
             Tool (str "mcp__s__t") (rawInput ([QUOTE] ++ str "}")) ])
    by (vm_compute; reflexivity).
  split; [exact H|]. rewrite H. intros (input & Heq). discriminate Heq.
Qed.

Lemma held_back_text_is_a_tag_witness :
  heldBack [str "mcp__s__t"] (str "<mcp__s_")
  /\ (nameSet [str "mcp__s__t"] = [] -> str "<mcp__s_" = []).
Proof.
  apply (held_back_text_is_a_tag parseEmptyObject rawInput noRegexOpen noRegexClose
           lowerCaseOfAscii [str "mcp__s__t"] (str "hello <mcp__s_") [] [Text (str "hello ")]
           (str "<mcp__s_")).
  - reflexivity.
  - left. discriminate.
Defined.

(** *** The markup of a call, written and read back *)

Section Builder.

(** [JSON.stringify], [None] when it throws. *)
Variable stringify : Json -> option Str.

(** [safeJsonStringify]. *)
Definition safeJsonStringify (value : Json) (maxLen : nat) : Str :=
  match stringify value with
  | Some text =>
      if Nat.ltb maxLen (length text) then take maxLen text ++ str "..." else text
  | None => []
  end.

(** [input ?? {}]; [None] is [undefined]. *)
Definition inputOrEmpty (input : option Json) : Json :=
  match input with
  | None | Some JNull => JObj []
  | Some v => v
  end.

(** The [maxLen] of a call's payload, 20000. *)
Definition callPayloadLimit : nat := 20 * 1000.

(** [buildMcpToolCallXml] for a name that is a string. *)
Definition buildMcpToolCallXml (name : Str) (input : option Json) : Str :=
  let payload := safeJsonStringify (inputOrEmpty input) callPayloadLimit in
  toolCallXml name (if isEmpty payload then str "{}" else payload).

Lemma trimStart_head c r : isSpace c = false -> trimStart (c :: r) = c :: r.
Proof. intros H. cbn [trimStart]. by rewrite H. Qed.

Lemma trimStart_snoc s c :
  isSpace c = false -> exists r, trimStart (s ++ [c]) = r ++ [c].
Proof.
  intros Hc. induction s as [|a s IH].
  - exists []. cbn. by rewrite Hc.
  - cbn [app trimStart]. destruct (isSpace a); [done|]. by exists (a :: s).
Qed.

(** Trimming keeps a first unit that is no white space. *)
Lemma trim_head c r : isSpace c = false -> exists r', trim (c :: r) = c :: r'.
Proof.
  intros Hc. unfold trim. rewrite trimStart_head by done.
  cbn [rev]. destruct (trimStart_snoc (rev r) c Hc) as [t ->].
  rewrite rev_app_distr. cbn. by eexists.
Qed.

(** X3.  A call written by [buildMcpToolCallXml] is read back by
    [tryParseMcpToolCallXml]: for a tool name of letters, digits, [_] and [-]
    and an input whose JSON text is an object or an array of at most 20000
    units that [JSON.parse] reads back, and when [toLowerCase] changes the
    markup and the name unit by unit, the result is that name and that
    input.  (A unit whose lower case is two units, as U+0130, moves the close
    tag in the lowered text, and the slice of the original text goes wrong.) *)
Theorem built_call_is_parsed_back (parseJson : Str -> option Json)
    (xmlInput : Str -> Json) (regexOpen : Str -> Str -> option nat)
    (regexClose : Str -> Str -> bool) (toLowerCase : Str -> Str)
    (name : Str) (input : option Json) (text : Str) :
  plainName name = true -> name <> [] ->
  stringify (inputOrEmpty input) = Some text ->
  length text <= callPayloadLimit ->
  startsWith text [ascii_of_nat 123] || startsWith text [ascii_of_nat 91] = true ->
  parseJson (trim text) = Some (inputOrEmpty input) ->
  lowersInPlace toLowerCase (buildMcpToolCallXml name input) ->
  lowersInPlace toLowerCase name ->
  tryParseMcpToolCallXml parseJson xmlInput regexOpen regexClose toLowerCase
    (buildMcpToolCallXml name input) name
  = Some (name, inputOrEmpty input).
Proof.
  intros Hplain Hname Htext Hlen Hopen Hparse.
  unfold buildMcpToolCallXml, safeJsonStringify. rewrite Htext.
  destruct (Nat.ltb_spec callPayloadLimit (length text)) as [?|_]; [lia|].
  destruct text as [|c text]; [done|]. cbn [isEmpty].
  intros Hmarkup Hlowered.
  rewrite (tryParse_markup parseJson xmlInput regexOpen regexClose toLowerCase [name]);
    [|by constructor|by left|done|done|done].
  assert (Ascii.eqb c (ascii_of_nat 123) || Ascii.eqb c (ascii_of_nat 91) = true) as Hc.
  { cbn [startsWith] in Hopen.
    replace (startsWith text []) with true in Hopen by (by destruct text).
    rewrite !andb_true_r in Hopen.
    by rewrite (Ascii.eqb_sym c), (Ascii.eqb_sym c (ascii_of_nat 91)). }
  assert (isSpace c = false) as Hspace.
  { apply orb_true_iff in Hc as [H|H]; apply Ascii.eqb_eq in H; by subst. }
  destruct (trim_head c text Hspace) as [r Hr].
  rewrite Hr in Hparse |- *. unfold inputOf. by rewrite Hc, Hparse.
Qed.

End Builder.

(** [JSON.stringify] and [JSON.parse] of the example: they know the object
    with one member. *)
Definition oneMember : Json := JObj [("path", JStr "a.txt")].

Definition oneMemberText : Str :=
  str "{" ++ [QUOTE] ++ str "path" ++ [QUOTE] ++ str ":" ++ [QUOTE] ++ str "a.txt"
  ++ [QUOTE] ++ str "}".

Definition stringifyOne (value : Json) : option Str :=
  match value with
  | JObj [(_, JStr _)] => Some oneMemberText
  | _ => None
  end.

Definition parseOne (text : Str) : option Json :=
  if bool_decide (text = oneMemberText) then Some oneMember else None.

Lemma built_call_is_parsed_back_witness :
  tryParseMcpToolCallXml parseOne rawInput noRegexOpen noRegexClose lowerCaseOfAscii
    (buildMcpToolCallXml stringifyOne (str "mcp__fs__read") (Some oneMember))
    (str "mcp__fs__read")
  = Some (str "mcp__fs__read", oneMember).
Proof.
  apply (built_call_is_parsed_back stringifyOne parseOne rawInput noRegexOpen
           noRegexClose lowerCaseOfAscii (str "mcp__fs__read") (Some oneMember)
           oneMemberText).
  - reflexivity.
  - discriminate.
  - reflexivity.
  - apply Nat.leb_le. reflexivity.
  - reflexivity.
  - vm_compute. reflexivity.
  - exists lowerUnit. split; [reflexivity|done].
  - exists lowerUnit. split; [reflexivity|done].
Defined.

End McpXmlBridge.


(** ** The routing between the models and the sessions (claudeApiMcp.js) *)

Module McpRouting.

Import JsText ApiMcp ClaudeApi.

(** [typeof name === "string" && name.startsWith("mcp__")]. *)
Definition isMcpName (name : option Json) : bool :=
  match name with
  | Some (JStr text) => startsWith text "mcp__"
  | _ => false
  end.

(** [hasMcpTools]. *)
Definition hasMcpTools (claudeReq : ClaudeRequest) : bool :=
  match req_tools claudeReq with
  | JArr tools => existsb (fun tool => isMcpName (prop "name" tool)) tools
  | _ => false
  end.

(** [getSessionId]: [metadata.user_id], trimmed, when it is a string that is
    not blank. *)
Definition getSessionId (claudeReq : ClaudeRequest) : option string :=
  match prop "user_id" (req_metadata claudeReq) with
  | Some (JStr id) => if String.eqb (trim id) "" then None else Some (trim id)
  | _ => None
  end.

(** [{ lastFamily: null, mcpStartIndex: null, foldedSegments: [] }]. *)
Definition newSession : SessionState :=
  {| lastFamily := None; mcpStartIndex := None; foldedSegments := [] |}.

(** [ensureSessionState]: the key of the entry, and the map afterwards.
    [sessionMcpState] is the [Map] from session ids to the session entries.
    An entry is an object that the map and the handler share; it is never
    taken out of the map, so the handler's reference to it is the key, and an
    assignment to one of its fields is an update of the map at that key. *)
Definition ensureSessionState (sessionMcpState : (gmap string SessionState)) (claudeReq : ClaudeRequest)
  : option string * (gmap string SessionState) :=
  match getSessionId claudeReq with
  | None => (None, sessionMcpState)
  | Some sessionId =>
      match sessionMcpState !! sessionId with
      | Some _ => (Some sessionId, sessionMcpState)
      | None => (Some sessionId, <[sessionId := newSession]> sessionMcpState)
      end
  end.

(** The entry a reference stands for. *)
Definition entryOf (sessions : (gmap string SessionState)) (key : option string) : option SessionState :=
  match key with
  | Some sessionId => sessions !! sessionId
  | None => None
  end.

(** The first loop of [collectToolResultIdsAfterLastAssistant]: the greatest
    index of a message whose role is [assistant]. *)
Fixpoint lastAssistantIndex (messages : list Json) : option nat :=
  match messages with
  | [] => None
  | msg :: rest =>
      match lastAssistantIndex rest with
      | Some i => Some (S i)
      | None => if isAssistant msg then Some 0 else None
      end
  end.

(** [item && item.type === "tool_result" &&
    typeof item.tool_use_id === "string" && item.tool_use_id]. *)
Definition toolResultId (item : Json) : option string :=
  match prop "type" item, prop "tool_use_id" item with
  | Some (JStr ty), Some (JStr id) =>
      if String.eqb ty "tool_result" && negb (String.eqb id "") then Some id else None
  | _, _ => None
  end.

(** The ids one message adds to the set. *)
Definition toolResultIdsOf (msg : Json) : list string :=
  match prop "content" msg with
  | Some (JArr items) => omap toolResultId items
  | _ => []
  end.

(** The ids of the tool results in a run of messages. *)
Definition toolResultIdsIn (messages : list Json) : gset string :=
  list_to_set (concat (map toolResultIdsOf messages)).

(** [collectToolResultIdsAfterLastAssistant]. *)
Definition collectToolResultIdsAfterLastAssistant (claudeReq : ClaudeRequest)
  : gset string :=
  match req_messages claudeReq with
  | None => ∅
  | Some messages =>
      let startIndex :=
        match lastAssistantIndex messages with
        | Some lastAssistant => S lastAssistant
        | None => 0
        end in
      toolResultIdsIn (drop startIndex messages)
  end.

(** [hasAnyToolResultTurn]. *)
Definition hasAnyToolResultTurn (claudeReq : ClaudeRequest) : bool :=
  negb (bool_decide (collectToolResultIdsAfterLastAssistant claudeReq = ∅)).

(** [item && item.type === "tool_use" && toolUseIds.has(item.id)]. *)
Definition isMatchedToolUse (toolUseIds : gset string) (item : Json) : bool :=
  match prop "type" item, prop "id" item with
  | Some (JStr ty), Some (JStr id) =>
      String.eqb ty "tool_use" && bool_decide (id ∈ toolUseIds)
  | _, _ => false
  end.

(** [sessionState?.mcpStartIndex != null && i >= sessionState.mcpStartIndex]. *)
Definition inSegment (segmentStart : option nat) (i : nat) : bool :=
  match segmentStart with
  | Some start => Nat.leb start i
  | None => false
  end.

(** Where the loops of [isMcpToolResultTurn] stand: [return true] has been
    reached, or the scan goes on with its flag [matchedAnyToolUse]. *)
Inductive Scan : Type :=
| Routed
| Scanning (matchedAnyToolUse : bool).

(** The loop over the items of the assistant message at index [i]. *)
Fixpoint scanItems (toolUseIds : gset string) (segmentStart : option nat) (i : nat)
    (items : list Json) (matchedAnyToolUse : bool) : Scan :=
  match items with
  | [] => Scanning matchedAnyToolUse
  | item :: rest =>
      if isMatchedToolUse toolUseIds item then
        if isMcpName (prop "name" item) then Routed
        else if inSegment segmentStart i then Routed
        else scanItems toolUseIds segmentStart i rest true
      else scanItems toolUseIds segmentStart i rest matchedAnyToolUse
  end.

(** The loop over the messages from the last one down to the first; the
    message at the head of [downwards] has the index [length rest]. *)
Fixpoint scanMessages (toolUseIds : gset string) (segmentStart : option nat)
    (downwards : list Json) (matchedAnyToolUse : bool) : Scan :=
  match downwards with
  | [] => Scanning matchedAnyToolUse
  | msg :: rest =>
      if isAssistant msg then
        match prop "content" msg with
        | Some (JArr items) =>
            match scanItems toolUseIds segmentStart (length rest) items
                    matchedAnyToolUse with
            | Routed => Routed
            | Scanning matched => scanMessages toolUseIds segmentStart rest matched
            end
        | _ => scanMessages toolUseIds segmentStart rest matchedAnyToolUse
        end
      else scanMessages toolUseIds segmentStart rest matchedAnyToolUse
  end.

(** [sessionState?.mcpStartIndex], [None] when it is [null] or there is no
    session. *)
Definition segmentStartOf (sessionState : option SessionState) : option nat :=
  match sessionState with
  | Some st => mcpStartIndex st
  | None => None
  end.

(** [isMcpToolResultTurn]. *)
Definition isMcpToolResultTurn (claudeReq : ClaudeRequest)
    (sessionState : option SessionState) : bool :=
  let toolUseIds := collectToolResultIdsAfterLastAssistant claudeReq in
  if bool_decide (toolUseIds = ∅) then false
  else
    match scanMessages toolUseIds (segmentStartOf sessionState)
            (rev (default [] (req_messages claudeReq))) false with
    | Routed => true
    | Scanning true => false
    | Scanning false => bool_decide (segmentStartOf sessionState <> None)
    end.

(** [{ ...requestData, model }]. *)
Definition setModel (model : Json) (req : ClaudeRequest) : ClaudeRequest :=
  {| req_model := model; req_system := req_system req;
     req_messages := req_messages req; req_tools := req_tools req;
     req_stream := req_stream req; req_metadata := req_metadata req |}.

(** [{ ...upstreamRequestForTransform, messages }]. *)
Definition setMessages (messages : list Json) (req : ClaudeRequest) : ClaudeRequest :=
  {| req_model := req_model req; req_system := req_system req;
     req_messages := Some messages; req_tools := req_tools req;
     req_stream := req_stream req; req_metadata := req_metadata req |}.

Section Routing.

(** [mapClaudeModelToGemini], which consults the environment's model map;
    [None] is [undefined]. *)
Variable mapClaudeModelToGemini : Json -> option string.

(** [inferClaudeCodeModelFromSystem]: the model id the system prompt names,
    found by a regular expression; [None] is [null]. *)
Variable inferClaudeCodeModelFromSystem : ClaudeRequest -> option string.

(** [String.prototype.toLowerCase]. *)
Variable toLowerCase : string -> string.

(** [inferClaudeCodeModelFromSystem(requestData) || requestData.model]. *)
Definition baseModelOf (requestData : ClaudeRequest) : Json :=
  match inferClaudeCodeModelFromSystem requestData with
  | Some exact => if String.eqb exact "" then req_model requestData else JStr exact
  | None => req_model requestData
  end.

(** [String(mapClaudeModelToGemini(baseModel)).startsWith("claude")]. *)
Definition baseFamilyIsClaude (baseModel : Json) : bool :=
  startsWith (default "undefined" (mapClaudeModelToGemini baseModel)) "claude".

(** [String(modelForQuota || "").toLowerCase().includes("claude")]. *)
Definition targetIsClaude (modelForQuota : option string) : bool :=
  includes (toLowerCase (default "" modelForQuota)) "claude".

(** What [prepareMcpContext] returns: the context, the reference to the
    session entry, and the sessions afterwards. *)
Definition prepareMcpContext (requestData : ClaudeRequest) (sessionMcpState : (gmap string SessionState))
    (mcpModel : string) : McpContext * option string * (gmap string SessionState) :=
  let '(key, sessions1) := ensureSessionState sessionMcpState requestData in
  let sessionState := entryOf sessions1 key in
  let baseModel := baseModelOf requestData in
  let isToolResultTurn := hasAnyToolResultTurn requestData in
  let isMcpResultTurn := isMcpToolResultTurn requestData sessionState in
  let upstreamRequest :=
    setModel (if isMcpResultTurn then JStr mcpModel else baseModel) requestData in
  let shouldBufferForSwitch :=
    truthy (req_stream requestData) && negb isToolResultTurn
    && hasMcpTools requestData && baseFamilyIsClaude baseModel in
  let modelForQuota :=
    if isMcpResultTurn then Some mcpModel
    else inferFinalModelForQuota mapClaudeModelToGemini (setModel baseModel requestData) in
  let '(upstreamRequestForTransform, sessionState1) :=
    match sessionState, req_messages requestData with
    | Some st, Some messages =>
        let '(upstreamMessages, st1) :=
          foldForTarget (targetIsClaude modelForQuota) messages (Some st) in
        (setMessages upstreamMessages upstreamRequest, st1)
    | _, _ => (upstreamRequest, sessionState)
    end in
  let transformOptions :=
    if baseFamilyIsClaude baseModel && negb (targetIsClaude modelForQuota) then
      match req_messages upstreamRequestForTransform with
      | Some messages =>
          Some (default (length messages) (segmentStartOf sessionState1))
      | None => None
      end
    else None in
  ({| ctx_baseModel := baseModel; ctx_modelForQuota := modelForQuota;
      ctx_upstreamRequestForTransform := upstreamRequestForTransform;
      ctx_shouldBufferForSwitch := shouldBufferForSwitch;
      ctx_transformOptions := transformOptions |},
   key,
   match key, sessionState1 with
   | Some sessionId, Some st1 => <[sessionId := st1]> sessions1
   | _, _ => sessions1
   end).

(** [updateSessionAfterResponse], on the entry the reference stands for. *)
Definition updateSessionAfterResponse (sessions : (gmap string SessionState)) (key : option string)
    (requestData : ClaudeRequest) (baseModel : Json) (modelForQuota : option string)
    (mcpModel : string) : (gmap string SessionState) :=
  match key, entryOf sessions key with
  | Some sessionId, Some st =>
      let finalFamily := if targetIsClaude modelForQuota then "claude" else "gemini" in
      let start :=
        match mcpStartIndex st, req_messages requestData with
        | None, Some messages =>
            if baseFamilyIsClaude baseModel
               && bool_decide (modelForQuota = Some mcpModel)
            then Some (length messages) else None
        | current, _ => current
        end in
      <[sessionId := {| lastFamily := Some finalFamily; mcpStartIndex := start;
                        foldedSegments := foldedSegments st |}]> sessions
  | _, _ => sessions
  end.


(** The three results of [prepareMcpContext]. *)
Definition preparedContext (requestData : ClaudeRequest)
    (sessions : gmap string SessionState) (mcpModel : string) : McpContext :=
  (prepareMcpContext requestData sessions mcpModel).1.1.

Definition preparedKey (requestData : ClaudeRequest)
    (sessions : gmap string SessionState) (mcpModel : string) : option string :=
  (prepareMcpContext requestData sessions mcpModel).1.2.

Definition preparedSessions (requestData : ClaudeRequest)
    (sessions : gmap string SessionState) (mcpModel : string)
  : gmap string SessionState :=
  (prepareMcpContext requestData sessions mcpModel).2.

(** *** Only the turn after the last assistant message counts *)

Lemma lastAssistantIndex_none (messages : list Json) :
  forallb (fun msg => negb (isAssistant msg)) messages = true ->
  lastAssistantIndex messages = None.
Proof.
  induction messages as [|msg rest IH]; [done|].
  cbn [forallb lastAssistantIndex]. intros [Hmsg Hrest]%andb_true_iff.
  rewrite (IH Hrest). by destruct (isAssistant msg).
Qed.

Lemma lastAssistantIndex_last (pre post : list Json) (a : Json) :
  isAssistant a = true ->
  forallb (fun msg => negb (isAssistant msg)) post = true ->
  lastAssistantIndex (pre ++ a :: post) = Some (length pre).
Proof.
  intros Ha Hpost. induction pre as [|msg pre IH].
  - cbn [app lastAssistantIndex length]. by rewrite (lastAssistantIndex_none post Hpost), Ha.
  - cbn [app lastAssistantIndex length]. by rewrite IH.
Qed.

Lemma toolResultIdsIn_empty (messages : list Json) :
  toolResultIdsIn messages = ∅ <-> Forall (fun msg => toolResultIdsOf msg = []) messages.
Proof.
  unfold toolResultIdsIn. induction messages as [|msg rest IH].
  - split; [constructor|done].
  - cbn [map concat]. rewrite list_to_set_app_L. split.
    + intros H. apply empty_union_L in H as [H1 H2]. constructor.
      * destruct (toolResultIdsOf msg) as [|id ids]; [done|].
        exfalso. cbn in H1. apply (non_empty_inhabited_L id _) in H1; [done|]. apply elem_of_union_l. by apply elem_of_singleton.
      * by apply IH.
    + intros H. apply Forall_cons in H as [H1 H2]. rewrite H1.
      apply IH in H2. rewrite H2. set_solver.
Qed.

Lemma collectToolResultIds_last claudeReq pre post a :
  req_messages claudeReq = Some (pre ++ a :: post) ->
  isAssistant a = true ->
  forallb (fun msg => negb (isAssistant msg)) post = true ->
  collectToolResultIdsAfterLastAssistant claudeReq = toolResultIdsIn post.
Proof.
  intros Hmessages Ha Hpost.
  unfold collectToolResultIdsAfterLastAssistant. rewrite Hmessages.
  rewrite (lastAssistantIndex_last pre post a Ha Hpost).
  replace (S (length pre)) with (length (pre ++ [a])) by (rewrite length_app; cbn; lia).
  by rewrite (cons_middle a pre post), app_assoc, drop_app_length.
Qed.

(** X11.  The tool results that make a request a tool-result turn are those
    of the messages after the last assistant message: with an assistant
    message [a] followed by messages [post] of other roles, the ids collected
    are the ids of the tool results in [post], whatever the earlier history
    holds; a request that ends with the assistant message is no tool-result
    turn and is never routed as one. *)
Theorem only_the_last_turn_counts (claudeReq : ClaudeRequest) (pre post : list Json)
    (a : Json) :
  req_messages claudeReq = Some (pre ++ a :: post) ->
  isAssistant a = true ->
  forallb (fun msg => negb (isAssistant msg)) post = true ->
  collectToolResultIdsAfterLastAssistant claudeReq = toolResultIdsIn post
  /\ (hasAnyToolResultTurn claudeReq = false
      <-> Forall (fun msg => toolResultIdsOf msg = []) post)
  /\ (post = [] ->
      forall sessionState, isMcpToolResultTurn claudeReq sessionState = false).
Proof.
  intros Hmessages Ha Hpost.
  pose proof (collectToolResultIds_last claudeReq pre post a Hmessages Ha Hpost) as Hids.
  split_and!.
  - exact Hids.
  - unfold hasAnyToolResultTurn. rewrite Hids, <- toolResultIdsIn_empty.
    rewrite negb_false_iff, bool_decide_eq_true. done.
  - intros -> sessionState. unfold isMcpToolResultTurn. rewrite Hids.
    by rewrite bool_decide_true.
Qed.

(** *** When a tool-result turn goes to the substitute model *)

(** The item [item] of the assistant message at index [i] is a tool call
    that a tool result of the current turn answers. *)
Definition answeredCall (claudeReq : ClaudeRequest) (i : nat) (item : Json) : Prop :=
  exists msg items,
    default [] (req_messages claudeReq) !! i = Some msg
    /\ isAssistant msg = true
    /\ prop "content" msg = Some (JArr items)
    /\ item ∈ items
    /\ isMatchedToolUse (collectToolResultIdsAfterLastAssistant claudeReq) item = true.

Lemma scanItems_routed ids start i items matched :
  scanItems ids start i items matched = Routed
  <-> exists item, item ∈ items /\ isMatchedToolUse ids item = true
                   /\ (isMcpName (prop "name" item) = true \/ inSegment start i = true).
Proof.
  revert matched. induction items as [|item rest IH]; intros matched.
  - cbn. split; [done|]. intros (item & Hin & _). by apply elem_of_nil in Hin.
  - cbn [scanItems]. destruct (isMatchedToolUse ids item) eqn:Hm.
    + destruct (isMcpName (prop "name" item)) eqn:Hn.
      { split; [|done]. intros _. exists item. split_and!; [left|done|by left]. }
      destruct (inSegment start i) eqn:Hs.
      { split; [|done]. intros _. exists item. split_and!; [left|done|by right]. }
      rewrite IH. split.
      * intros (x & Hin & Hx). exists x. split; [by right|done].
      * intros (x & Hin & Hx & Hor). apply elem_of_cons in Hin as [->|Hin].
        -- rewrite Hn in Hor. destruct Hor; done.
        -- by exists x.
    + rewrite IH. split.
      * intros (x & Hin & Hx). exists x. split; [by right|done].
      * intros (x & Hin & Hx & Hor). apply elem_of_cons in Hin as [->|Hin].
        -- by rewrite Hm in Hx.
        -- by exists x.
Qed.

Lemma scanItems_scanning ids start i items matched matched' :
  scanItems ids start i items matched = Scanning matched' ->
  matched' = matched || existsb (isMatchedToolUse ids) items.
Proof.
  revert matched. induction items as [|item rest IH]; intros matched.
  - cbn. intros [= <-]. by rewrite orb_false_r.
  - cbn [scanItems existsb]. destruct (isMatchedToolUse ids item).
    + destruct (isMcpName _); [done|]. destruct (inSegment _ _); [done|].
      intros H%IH. rewrite H. cbn. by rewrite orb_true_r.
    + intros H%IH. by rewrite H.
Qed.

(** The tool calls of a run of messages, met at the indices from [0] on,
    that refer to one of the ids. *)
Definition matchedIn (ids : gset string) (messages : list Json) (i : nat) (item : Json)
  : Prop :=
  exists msg items,
    messages !! i = Some msg /\ isAssistant msg = true
    /\ prop "content" msg = Some (JArr items)
    /\ item ∈ items /\ isMatchedToolUse ids item = true.

Lemma matchedIn_snoc ids messages msg i item :
  matchedIn ids (messages ++ [msg]) i item
  <-> matchedIn ids messages i item
      \/ (i = length messages /\ isAssistant msg = true
          /\ exists items, prop "content" msg = Some (JArr items)
                           /\ item ∈ items /\ isMatchedToolUse ids item = true).
Proof.
  unfold matchedIn. split.
  - intros (m & items & Hi & Ha & Hc & Hin & Hm).
    apply lookup_app_Some in Hi as [Hi|[Hlen Hi]].
    + left. by exists m, items.
    + right. apply list_lookup_singleton_Some in Hi as [Hz ->].
      split; [lia|]. split; [done|]. by exists items.
  - intros [(m & items & Hi & Hrest)|(-> & Ha & items & Hc & Hin & Hm)].
    + exists m, items. split; [|done]. apply lookup_app_Some. by left.
    + exists msg, items. split; [|done]. apply lookup_app_Some. right.
      split; [lia|]. by rewrite Nat.sub_diag.
Qed.

Lemma scanMessages_routed ids start messages : forall matched,
  scanMessages ids start (rev messages) matched = Routed
  <-> exists i item, matchedIn ids messages i item
                     /\ (isMcpName (prop "name" item) = true \/ inSegment start i = true).
Proof.
  induction messages as [|msg messages IH] using rev_ind; intros matched.
  - cbn. split; [done|]. intros (i & item & (m & items & Hi & _) & _). done.
  - rewrite rev_unit. cbn [scanMessages]. rewrite length_rev.
    assert (Hskip : forall matched',
      scanMessages ids start (rev messages) matched' = Routed
      -> exists i item, matchedIn ids (messages ++ [msg]) i item
           /\ (isMcpName (prop "name" item) = true \/ inSegment start i = true)).
    { intros matched' H. apply IH in H as (i & item & Hm & Hor).
      exists i, item. split; [|done]. apply matchedIn_snoc. by left. }
    destruct (isAssistant msg) eqn:Ha.
    + destruct (prop "content" msg) as [[|b|n|s|items|fields]|] eqn:Hc;
        try (split; [apply Hskip|];
             intros (i & item & Hm & Hor); apply matchedIn_snoc in Hm
               as [Hm|(_ & _ & items' & Hitems & _)]; [|congruence];
             apply IH; by exists i, item).
      destruct (scanItems ids start (length messages) items matched) as [|matched'] eqn:Hs.
      * split; [|done]. intros _. apply scanItems_routed in Hs as (item & Hin & Hm & Hor).
        exists (length messages), item. split; [|done].
        apply matchedIn_snoc. right. split; [done|]. split; [done|]. by exists items.
      * split; [apply Hskip|].
        intros (i & item & Hm & Hor). apply matchedIn_snoc in Hm
          as [Hm|(-> & _ & items' & Hitems & Hin & Hmatch)].
        -- apply IH. by exists i, item.
        -- assert (items' = items) as -> by congruence.
           assert (scanItems ids start (length messages) items matched = Routed) as Hr.
           { apply scanItems_routed. by exists item. }
           congruence.
    + split; [apply Hskip|].
      intros (i & item & Hm & Hor). apply matchedIn_snoc in Hm
        as [Hm|(_ & Hcontra & _)]; [|congruence].
      apply IH. by exists i, item.
Qed.

Lemma scanMessages_scanning ids start messages : forall matched matched',
  scanMessages ids start (rev messages) matched = Scanning matched' ->
  (matched' = true <-> matched = true \/ exists i item, matchedIn ids messages i item).
Proof.
  induction messages as [|msg messages IH] using rev_ind; intros matched matched'.
  - cbn. intros [= <-]. split; [by left|].
    intros [H|(i & item & (m & items & Hi & _))]; done.
  - rewrite rev_unit. cbn [scanMessages]. rewrite length_rev.
    assert (Hskip : scanMessages ids start (rev messages) matched = Scanning matched' ->
      (forall item items, prop "content" msg = Some (JArr items) -> isAssistant msg = true ->
         item ∈ items -> isMatchedToolUse ids item = true -> False) ->
      (matched' = true <-> matched = true
         \/ exists i item, matchedIn ids (messages ++ [msg]) i item)).
    { intros H Hnone. apply IH in H. rewrite H. split.
      - intros [Hm|(i & item & Hm)]; [by left|]. right. exists i, item.
        apply matchedIn_snoc. by left.
      - intros [Hm|(i & item & Hm)]; [by left|]. right.
        apply matchedIn_snoc in Hm as [Hm|(_ & Ha & items & Hc & Hin & Hmatch)].
        + by exists i, item.
        + destruct (Hnone item items Hc Ha Hin Hmatch). }
    destruct (isAssistant msg) eqn:Ha; [|intros H; apply (Hskip H); intros; congruence].
    destruct (prop "content" msg) as [[|b|n|s|items|fields]|] eqn:Hc;
      try (intros H; apply (Hskip H); intros; congruence).
    destruct (scanItems ids start (length messages) items matched) as [|matched1] eqn:Hs;
      [done|].
    intros H. apply IH in H. apply scanItems_scanning in Hs. rewrite H, Hs.
    rewrite orb_true_iff, existsb_exists. split.
    + intros [[Hm|(item & Hin & Hmatch)]|(i & item & Hm)].
      * by left.
      * right. exists (length messages), item. apply matchedIn_snoc. right.
        split; [done|]. split; [done|]. exists items.
        split; [done|]. split; [by apply list_elem_of_In|done].
      * right. exists i, item. apply matchedIn_snoc. by left.
    + intros [Hm|(i & item & Hm)]; [by left; left|].
      apply matchedIn_snoc in Hm as [Hm|(_ & _ & items' & Hitems & Hin & Hmatch)].
      * right. by exists i, item.
      * assert (items' = items) as -> by congruence.
        left. right. exists item. split; [by apply list_elem_of_In|done].
Qed.

(** X12.  A request is routed to the substitute model as the answer to a
    bridged tool call exactly when its current turn holds a tool result and
    either a tool call that one of these results answers has a name that
    starts with [mcp__] or stands in an assistant message at or after the
    start of the segment under way, or a segment is under way and no tool
    call of the history is answered by them. *)
Theorem routed_turn_answers_a_bridged_call (claudeReq : ClaudeRequest)
    (sessionState : option SessionState) :
  isMcpToolResultTurn claudeReq sessionState = true
  <-> hasAnyToolResultTurn claudeReq = true
      /\ ((exists i item,
             answeredCall claudeReq i item
             /\ (isMcpName (prop "name" item) = true
                 \/ inSegment (segmentStartOf sessionState) i = true))
          \/ (segmentStartOf sessionState <> None
              /\ forall i item, ~ answeredCall claudeReq i item)).
Proof.
  unfold isMcpToolResultTurn, hasAnyToolResultTurn.
  set (ids := collectToolResultIdsAfterLastAssistant claudeReq).
  assert (Hsame : forall i item,
    answeredCall claudeReq i item
    <-> matchedIn ids (default [] (req_messages claudeReq)) i item) by done.
  destruct (bool_decide (ids = ∅)) eqn:Hempty; [by split; [|intros [? _]]|].
  cbn [negb].
  destruct (scanMessages ids (segmentStartOf sessionState)
              (rev (default [] (req_messages claudeReq))) false) as [|matched] eqn:Hscan.
  - apply scanMessages_routed in Hscan as (i & item & Hm & Hor).
    split; [|done]. intros _. split; [done|]. left. exists i, item.
    split; [by apply Hsame|done].
  - assert (Hnot : ~ exists i item,
      answeredCall claudeReq i item
      /\ (isMcpName (prop "name" item) = true
          \/ inSegment (segmentStartOf sessionState) i = true)).
    { intros (i & item & Hm & Hor).
      assert (scanMessages ids (segmentStartOf sessionState)
                (rev (default [] (req_messages claudeReq))) false = Routed) as Hr.
      { apply scanMessages_routed. exists i, item. split; [by apply Hsame|done]. }
      congruence. }
    apply scanMessages_scanning in Hscan. destruct matched.
    + split; [done|]. intros [_ [H|[_ Hnone]]]; [by destruct Hnot|].
      destruct Hscan as [Hscan _]. destruct (Hscan eq_refl) as [H|(i & item & Hm)]; [done|].
      destruct (Hnone i item). by apply Hsame.
    + rewrite bool_decide_eq_true. split.
      * intros Hseg. split; [done|]. right. split; [done|].
        intros i item Hm. destruct Hscan as [_ Hscan].
        assert (false = true) by (apply Hscan; right; exists i, item; by apply Hsame).
        done.
      * intros [_ [H|[Hseg _]]]; [by destruct Hnot|done].
Qed.


(** *** What [prepareMcpContext] decides *)

Lemma ensureSessionState_key sessions claudeReq :
  (ensureSessionState sessions claudeReq).1 = getSessionId claudeReq.
Proof.
  unfold ensureSessionState. destruct (getSessionId claudeReq) as [id|]; [|done].
  by destruct (sessions !! id).
Qed.

Lemma ensureSessionState_other sessions claudeReq other :
  getSessionId claudeReq <> Some other ->
  (ensureSessionState sessions claudeReq).2 !! other = sessions !! other.
Proof.
  intros Hne. unfold ensureSessionState.
  destruct (getSessionId claudeReq) as [id|]; [|done].
  destruct (sessions !! id); [done|]. cbn. apply lookup_insert_ne. congruence.
Qed.

Lemma ensureSessionState_entry sessions claudeReq :
  entryOf (ensureSessionState sessions claudeReq).2 (ensureSessionState sessions claudeReq).1
  = match getSessionId claudeReq with
    | Some id => Some (default newSession (sessions !! id))
    | None => None
    end.
Proof.
  unfold ensureSessionState. destruct (getSessionId claudeReq) as [id|]; [|done].
  destruct (sessions !! id) as [st|] eqn:E; cbn [fst snd entryOf default].
  - done.
  - by rewrite lookup_insert_eq.
Qed.

Lemma ensureSessionState_segment sessions claudeReq :
  segmentStartOf
    (entryOf (ensureSessionState sessions claudeReq).2
       (ensureSessionState sessions claudeReq).1)
  = segmentStartOf (entryOf sessions (getSessionId claudeReq)).
Proof.
  rewrite ensureSessionState_entry. destruct (getSessionId claudeReq) as [id|]; [|done].
  cbn. by destruct (sessions !! id).
Qed.

Lemma isMcpToolResultTurn_segment claudeReq a b :
  segmentStartOf a = segmentStartOf b ->
  isMcpToolResultTurn claudeReq a = isMcpToolResultTurn claudeReq b.
Proof. intros H. unfold isMcpToolResultTurn. by rewrite H. Qed.

Lemma isMcpToolResultTurn_turn claudeReq sessionState :
  isMcpToolResultTurn claudeReq sessionState = true ->
  hasAnyToolResultTurn claudeReq = true.
Proof.
  unfold isMcpToolResultTurn, hasAnyToolResultTurn.
  by destruct (bool_decide (collectToolResultIdsAfterLastAssistant claudeReq = ∅)).
Qed.

(** The request is routed to the substitute model. *)
Definition routed (requestData : ClaudeRequest) (sessions : (gmap string SessionState)) : bool :=
  isMcpToolResultTurn requestData (entryOf sessions (getSessionId requestData)).

(** The fields of the context that do not depend on the folding. *)
Lemma prepareMcpContext_route requestData sessions mcpModel :
  let ctx := (prepareMcpContext requestData sessions mcpModel).1.1 in
  ctx_baseModel ctx = baseModelOf requestData
  /\ req_model (ctx_upstreamRequestForTransform ctx)
     = (if routed requestData sessions then JStr mcpModel else baseModelOf requestData)
  /\ ctx_modelForQuota ctx
     = (if routed requestData sessions then Some mcpModel
        else inferFinalModelForQuota mapClaudeModelToGemini
               (setModel (baseModelOf requestData) requestData))
  /\ ctx_shouldBufferForSwitch ctx
     = truthy (req_stream requestData) && negb (hasAnyToolResultTurn requestData)
       && hasMcpTools requestData && baseFamilyIsClaude (baseModelOf requestData).
Proof.
  unfold routed.
  rewrite <- (isMcpToolResultTurn_segment requestData _ _
                (ensureSessionState_segment sessions requestData)).
  unfold prepareMcpContext.
  destruct (ensureSessionState sessions requestData) as [key sessions1]. cbn [fst snd].
  set (go := isMcpToolResultTurn requestData (entryOf sessions1 key)).
  destruct (entryOf sessions1 key) as [st|]; [|done].
  destruct (req_messages requestData) as [messages|]; [|done].
  by destruct (foldForTarget _ messages (Some st)) as [upstreamMessages st1].
Qed.

Section FirstAttempt.

Variable parseJson : string -> option Json.
Variable Decoder : Type.
Variable newDecoder : Decoder.
Variable decodeChunk : Decoder -> Chunk -> string * Decoder.
Variable decodeEnd : Decoder -> string.
Variable encode : string -> Chunk.

(** X13.  A routed turn is not retried.  A request routed to the substitute
    model as a tool-result turn goes there with its model replaced and is not
    buffered for the switch; every other request goes out under its base
    model, and the retry with the substitute model follows only such a first
    attempt: a streamed request that is not routed, offers bridged tools, is
    no tool-result turn and has a base model of the primary family. *)
Theorem routed_turn_is_not_retried (requestData : ClaudeRequest)
    (sessions : (gmap string SessionState)) (mcpModel method queryString : string)
    (convertedBody : option (list Chunk)) :
  req_model (ctx_upstreamRequestForTransform
               (preparedContext requestData sessions mcpModel))
  = (if routed requestData sessions then JStr mcpModel else baseModelOf requestData)
  /\ ctx_modelForQuota (preparedContext requestData sessions mcpModel)
     = (if routed requestData sessions then Some mcpModel
        else inferFinalModelForQuota mapClaudeModelToGemini
               (setModel (baseModelOf requestData) requestData))
  /\ (routed requestData sessions = true ->
      ctx_shouldBufferForSwitch (preparedContext requestData sessions mcpModel) = false)
  /\ (forall call,
        bufferForMcpSwitchAndMaybeRetry parseJson Decoder newDecoder decodeChunk
          decodeEnd encode method queryString requestData mcpModel convertedBody
          (ctx_shouldBufferForSwitch (preparedContext requestData sessions mcpModel))
        = RetryWith call ->
        routed requestData sessions = false
        /\ bc_model call = Some mcpModel
        /\ truthy (req_stream requestData) = true
        /\ hasAnyToolResultTurn requestData = false
        /\ hasMcpTools requestData = true
        /\ baseFamilyIsClaude (baseModelOf requestData) = true).
Proof.
  destruct (prepareMcpContext_route requestData sessions mcpModel)
    as (_ & Hmodel & Hquota & Hbuffer).
  unfold preparedContext. split_and!.
  - exact Hmodel.
  - exact Hquota.
  - intros Hrouted. rewrite Hbuffer.
    rewrite (isMcpToolResultTurn_turn _ _ Hrouted). cbn [negb]. by rewrite andb_false_r.
  - intros call Hretry. rewrite Hbuffer in Hretry.
    unfold bufferForMcpSwitchAndMaybeRetry in Hretry.
    destruct (truthy (req_stream requestData) && _ && _ && _) eqn:Hb; [|done].
    cbn [negb] in Hretry. destruct convertedBody as [chunks|]; [|done].
    destruct (negb (hasMcpSwitchSignal _ _)); [done|]. injection Hretry as <-. cbn [bc_model].
    apply andb_true_iff in Hb as [Hb Hfamily]. apply andb_true_iff in Hb as [Hb Htools].
    apply andb_true_iff in Hb as [Hstream Hturn]. apply negb_true_iff in Hturn.
    split_and!.
    + destruct (routed requestData sessions) eqn:Hrouted; [|done].
      apply isMcpToolResultTurn_turn in Hrouted. congruence.
    + done.
    + done.
    + done.
    + done.
    + done.
Qed.

End FirstAttempt.

(** *** The sessions *)

Lemma prepareMcpContext_key requestData sessions mcpModel :
  (prepareMcpContext requestData sessions mcpModel).1.2 = getSessionId requestData.
Proof.
  rewrite <- (ensureSessionState_key sessions requestData).
  unfold prepareMcpContext.
  destruct (ensureSessionState sessions requestData) as [key sessions1]. cbn [fst snd].
  destruct (entryOf sessions1 key) as [st|]; [|done].
  destruct (req_messages requestData) as [messages|]; [|done].
  by destruct (foldForTarget _ messages (Some st)) as [upstreamMessages st1].
Qed.

Lemma prepareMcpContext_other requestData sessions mcpModel other :
  getSessionId requestData <> Some other ->
  (prepareMcpContext requestData sessions mcpModel).2 !! other = sessions !! other.
Proof.
  intros Hne. rewrite <- (ensureSessionState_other sessions requestData other Hne).
  pose proof (ensureSessionState_key sessions requestData) as Hkey.
  unfold prepareMcpContext.
  destruct (ensureSessionState sessions requestData) as [key sessions1].
  cbn [fst snd] in *. subst key.
  destruct (getSessionId requestData) as [id|] eqn:Hid.
  - assert (id <> other) by congruence.
    destruct (entryOf sessions1 (Some id)) as [st|]; [|done].
    destruct (req_messages requestData) as [messages|].
    + destruct (foldForTarget _ messages (Some st)) as [upstreamMessages [st1|]]; cbn.
      * by apply lookup_insert_ne.
      * done.
    + cbn. by apply lookup_insert_ne.
  - cbn [entryOf]. done.
Qed.

Lemma foldForTarget_entry targetClaude messages st :
  is_Some (foldForTarget targetClaude messages (Some st)).2.
Proof. by cbn. Qed.

Lemma prepareMcpContext_entry requestData sessions mcpModel id :
  getSessionId requestData = Some id ->
  is_Some ((prepareMcpContext requestData sessions mcpModel).2 !! id).
Proof.
  intros Hid.
  pose proof (ensureSessionState_key sessions requestData) as Hkey.
  pose proof (ensureSessionState_entry sessions requestData) as Hentry.
  unfold prepareMcpContext.
  destruct (ensureSessionState sessions requestData) as [key sessions1].
  cbn [fst snd] in *. rewrite Hid in Hkey, Hentry. subst key. rewrite Hentry.
  destruct (req_messages requestData) as [messages|].
  - pose proof (foldForTarget_entry
      (targetIsClaude
         (if isMcpToolResultTurn requestData (Some (default newSession (sessions !! id)))
          then Some mcpModel
          else inferFinalModelForQuota mapClaudeModelToGemini
                 (setModel (baseModelOf requestData) requestData)))
      messages (default newSession (sessions !! id))) as [st1 Hst1].
    destruct (foldForTarget _ messages _) as [upstreamMessages st1'].
    cbn [snd] in Hst1. subst st1'. cbn. by rewrite lookup_insert_eq.
  - cbn. by rewrite lookup_insert_eq.
Qed.

Lemma updateSessionAfterResponse_other sessions key requestData baseModel modelForQuota
    mcpModel other :
  key <> Some other ->
  updateSessionAfterResponse sessions key requestData baseModel modelForQuota mcpModel
    !! other = sessions !! other.
Proof.
  intros Hne. unfold updateSessionAfterResponse.
  destruct key as [id|]; [|done]. destruct (entryOf sessions (Some id)); [|done].
  apply lookup_insert_ne. congruence.
Qed.

(** X14.  The sessions do not interfere.  The entry a request works on is
    that of its trimmed [metadata.user_id], which is in the map afterwards;
    the entries under all other ids are what they were, after the
    preparation and after the update that follows the response; and a
    request that names no session changes no entry and has its messages
    handed on as they are. *)
Theorem sessions_do_not_interfere (requestData : ClaudeRequest) (sessions : (gmap string SessionState))
    (mcpModel : string) :
  preparedKey requestData sessions mcpModel = getSessionId requestData
  /\ (forall id, getSessionId requestData = Some id ->
        is_Some (preparedSessions requestData sessions mcpModel !! id))
  /\ (forall other baseModel modelForQuota,
        getSessionId requestData <> Some other ->
        preparedSessions requestData sessions mcpModel !! other = sessions !! other
        /\ updateSessionAfterResponse (preparedSessions requestData sessions mcpModel)
             (preparedKey requestData sessions mcpModel) requestData baseModel
             modelForQuota mcpModel !! other = sessions !! other)
  /\ (getSessionId requestData = None ->
      preparedSessions requestData sessions mcpModel = sessions
      /\ req_messages (ctx_upstreamRequestForTransform
                         (preparedContext requestData sessions mcpModel))
         = req_messages requestData
      /\ forall baseModel modelForQuota,
           updateSessionAfterResponse (preparedSessions requestData sessions mcpModel)
             (preparedKey requestData sessions mcpModel) requestData baseModel
             modelForQuota mcpModel = sessions).
Proof.
  unfold preparedKey, preparedSessions, preparedContext. split_and!.
  - apply prepareMcpContext_key.
  - intros id. apply prepareMcpContext_entry.
  - intros other baseModel modelForQuota Hne. split.
    + by apply prepareMcpContext_other.
    + rewrite updateSessionAfterResponse_other.
      * by apply prepareMcpContext_other.
      * by rewrite prepareMcpContext_key.
  - intros Hnone.
    assert ((prepareMcpContext requestData sessions mcpModel).2 = sessions
            /\ req_messages
                 (ctx_upstreamRequestForTransform
                    (prepareMcpContext requestData sessions mcpModel).1.1)
               = req_messages requestData) as [Hsame Hmessages].
    { unfold prepareMcpContext, ensureSessionState. rewrite Hnone. by cbn. }
    split_and!.
    + exact Hsame.
    + exact Hmessages.
    + intros baseModel modelForQuota. rewrite prepareMcpContext_key, Hnone. by cbn.
Qed.


(** *** A segment with the substitute model *)

Lemma foldForTarget_gemini messages st :
  foldForTarget false messages (Some st) = (messages, Some st).
Proof. unfold foldForTarget. by destruct (mcpStartIndex st). Qed.

Lemma setMessages_same messages req :
  req_messages req = Some messages -> setMessages messages req = req.
Proof. intros H. destruct req. cbn in *. by subst. Qed.

(** A request that goes to a model outside the primary family: nothing is
    folded, and the session is left as [ensureSessionState] finds or makes
    it. *)
Lemma prepareMcpContext_gemini requestData sessions mcpModel :
  let result := prepareMcpContext requestData sessions mcpModel in
  targetIsClaude (ctx_modelForQuota result.1.1) = false ->
  req_messages (ctx_upstreamRequestForTransform result.1.1) = req_messages requestData
  /\ ctx_transformOptions result.1.1
     = (if baseFamilyIsClaude (baseModelOf requestData)
        then match req_messages requestData with
             | Some messages =>
                 Some (default (length messages)
                         (segmentStartOf (entryOf sessions (getSessionId requestData))))
             | None => None
             end
        else None)
  /\ result.2 = (ensureSessionState sessions requestData).2.
Proof.
  cbn zeta.
  destruct (prepareMcpContext_route requestData sessions mcpModel) as (_ & _ & Hquota & _).
  rewrite Hquota. clear Hquota. unfold routed.
  rewrite <- (isMcpToolResultTurn_segment requestData _ _
                (ensureSessionState_segment sessions requestData)).
  rewrite <- (ensureSessionState_segment sessions requestData).
  pose proof (ensureSessionState_key sessions requestData) as Hkey.
  unfold prepareMcpContext.
  destruct (ensureSessionState sessions requestData) as [key sessions1].
  cbn [fst snd] in *.
  set (quota := if isMcpToolResultTurn requestData (entryOf sessions1 key)
                then Some mcpModel
                else inferFinalModelForQuota mapClaudeModelToGemini
                       (setModel (baseModelOf requestData) requestData)).
  intros Htarget.
  destruct (entryOf sessions1 key) as [st|] eqn:Hentry.
  - destruct (req_messages requestData) as [messages|] eqn:Hmessages.
    + rewrite Htarget, foldForTarget_gemini.
      cbn [fst snd ctx_upstreamRequestForTransform ctx_transformOptions req_messages
           setMessages negb segmentStartOf].
      rewrite andb_true_r. split_and!; [done|done|].
      destruct key as [id|]; [|done]. cbn [entryOf] in Hentry. by apply insert_id.
    + cbn [fst snd ctx_upstreamRequestForTransform ctx_transformOptions req_messages
           setModel]. rewrite Hmessages.
      split_and!; [done|by destruct (baseFamilyIsClaude _), (targetIsClaude _)|].
      destruct key as [id|]; [|done]. cbn [entryOf] in Hentry. by apply insert_id.
  - cbn [fst snd ctx_upstreamRequestForTransform ctx_transformOptions req_messages
         setModel segmentStartOf].
    rewrite Htarget, andb_true_r. split_and!; [done|done|]. by destruct key.
Qed.

Lemma toolResultIdsIn_matched post item :
  isMatchedToolUse (toolResultIdsIn post) item = true -> toolResultIdsIn post <> ∅.
Proof.
  unfold isMatchedToolUse. destruct (prop "type" item) as [[| | |ty| |]|]; try done.
  destruct (prop "id" item) as [[| | |id| |]|]; try done.
  intros [_ Hin%bool_decide_eq_true]%andb_true_iff Hempty.
  rewrite Hempty in Hin. by apply not_elem_of_empty in Hin.
Qed.

Lemma prepareMcpContext_tools requestData sessions mcpModel :
  req_tools (ctx_upstreamRequestForTransform
               (prepareMcpContext requestData sessions mcpModel).1.1)
  = req_tools requestData.
Proof.
  unfold prepareMcpContext.
  destruct (ensureSessionState sessions requestData) as [key sessions1]. cbn [fst snd].
  destruct (entryOf sessions1 key) as [st|]; [|done].
  destruct (req_messages requestData) as [messages|]; [|done].
  by destruct (foldForTarget _ messages (Some st)) as [upstreamMessages st1].
Qed.

(** The sessions after the substitute model has answered [firstRequest] in
    the session [id]. *)
Definition segmentBegun (sessions0 : gmap string SessionState) (id : string)
    (firstRequest : ClaudeRequest) (baseModel : Json) (mcpModel : string)
  : gmap string SessionState :=
  updateSessionAfterResponse sessions0 (Some id) firstRequest baseModel
    (Some mcpModel) mcpModel.

(** X15.  A segment with the substitute model, once begun, keeps its tool
    results.  When the substitute model has answered a request of [n]
    messages whose base model is of the primary family, in a session with no
    segment under way, the session records [n] as the start of the segment.
    A later request of the session whose last assistant message stands at or
    after index [n] and holds a tool call that a tool result of the current
    turn answers is routed to the substitute model, whatever the name of the
    tool: it is not buffered, its messages are handed on unfolded, the
    signatures are to be forwarded from index [n] on, and the session is left
    as it is. *)
Theorem segment_keeps_its_tool_results (sessions0 : gmap string SessionState)
    (id mcpModel : string) (st0 : SessionState) (firstRequest : ClaudeRequest)
    (baseModel : Json) (history : list Json) (requestData : ClaudeRequest)
    (pre post items : list Json) (a : Json) :
  sessions0 !! id = Some st0 ->
  mcpStartIndex st0 = None ->
  req_messages firstRequest = Some history ->
  baseFamilyIsClaude baseModel = true ->
  targetIsClaude (Some mcpModel) = false ->
  getSessionId requestData = Some id ->
  req_messages requestData = Some (pre ++ a :: post) ->
  length history <= length pre ->
  isAssistant a = true ->
  forallb (fun msg => negb (isAssistant msg)) post = true ->
  prop "content" a = Some (JArr items) ->
  existsb (isMatchedToolUse (toolResultIdsIn post)) items = true ->
  segmentStartOf (segmentBegun sessions0 id firstRequest baseModel mcpModel !! id)
  = Some (length history)
  /\ ctx_modelForQuota
       (preparedContext requestData
          (segmentBegun sessions0 id firstRequest baseModel mcpModel) mcpModel)
     = Some mcpModel
  /\ req_model
       (ctx_upstreamRequestForTransform
          (preparedContext requestData
             (segmentBegun sessions0 id firstRequest baseModel mcpModel) mcpModel))
     = JStr mcpModel
  /\ req_messages
       (ctx_upstreamRequestForTransform
          (preparedContext requestData
             (segmentBegun sessions0 id firstRequest baseModel mcpModel) mcpModel))
     = Some (pre ++ a :: post)
  /\ ctx_shouldBufferForSwitch
       (preparedContext requestData
          (segmentBegun sessions0 id firstRequest baseModel mcpModel) mcpModel)
     = false
  /\ (baseFamilyIsClaude (baseModelOf requestData) = true ->
      ctx_transformOptions
        (preparedContext requestData
           (segmentBegun sessions0 id firstRequest baseModel mcpModel) mcpModel)
      = Some (length history))
  /\ preparedSessions requestData
       (segmentBegun sessions0 id firstRequest baseModel mcpModel) mcpModel
     = segmentBegun sessions0 id firstRequest baseModel mcpModel.
Proof.
  intros Hst0 Hnone Hhistory Hfamily Htarget Hid Hmessages Hle Ha Hpost Hcontent Hcall.
  unfold preparedContext, preparedSessions, segmentBegun.
  set (sessions := updateSessionAfterResponse sessions0 (Some id) firstRequest baseModel
                     (Some mcpModel) mcpModel).
  assert (Hentry : sessions !! id
                   = Some {| lastFamily := Some "gemini";
                             mcpStartIndex := Some (length history);
                             foldedSegments := foldedSegments st0 |}).
  { unfold sessions, updateSessionAfterResponse. cbn [entryOf].
    rewrite Hst0, Hnone, Hhistory, Hfamily, Htarget, bool_decide_true by done.
    cbn [andb]. by rewrite lookup_insert_eq. }
  assert (Hstart : segmentStartOf (entryOf sessions (getSessionId requestData))
                   = Some (length history)).
  { by rewrite Hid; cbn [entryOf]; rewrite Hentry. }
  assert (Hrouted : routed requestData sessions = true).
  { unfold routed, isMcpToolResultTurn. rewrite Hstart.
    rewrite (collectToolResultIds_last requestData pre post a Hmessages Ha Hpost).
    apply existsb_exists in Hcall as (item & Hin & Hmatch).
    rewrite bool_decide_false by (by eapply toolResultIdsIn_matched).
    rewrite Hmessages. change (default [] (Some (pre ++ a :: post))) with (pre ++ a :: post).
    assert (scanMessages (toolResultIdsIn post) (Some (length history))
              (rev (pre ++ a :: post)) false = Routed) as ->; [|done].
    apply scanMessages_routed. exists (length pre), item. split.
    - exists a, items. split_and!.
      + by rewrite lookup_app_r, Nat.sub_diag by lia.
      + done.
      + done.
      + by apply list_elem_of_In.
      + done.
    - right. cbn [inSegment]. by apply Nat.leb_le. }
  destruct (prepareMcpContext_route requestData sessions mcpModel)
    as (_ & Hmodel & Hquota & Hbuffer).
  rewrite Hrouted in Hmodel, Hquota.
  destruct (prepareMcpContext_gemini requestData sessions mcpModel)
    as (Hsame & Hoptions & Hsessions).
  { by rewrite Hquota. }
  split_and!.
  - by rewrite Hentry.
  - exact Hquota.
  - exact Hmodel.
  - by rewrite Hsame.
  - rewrite Hbuffer. apply isMcpToolResultTurn_turn in Hrouted. rewrite Hrouted.
    cbn [negb]. by rewrite andb_false_r.
  - intros Hbase. rewrite Hoptions, Hbase, Hmessages, Hstart. done.
  - rewrite Hsessions. unfold ensureSessionState. by rewrite Hid, Hentry.
Qed.

(** *** Back to the primary family *)

(** A request of a session that goes to a model of the primary family: the
    messages handed on and the session entry afterwards are those of the
    folding. *)
Lemma prepareMcpContext_claude requestData sessions mcpModel id messages :
  getSessionId requestData = Some id ->
  req_messages requestData = Some messages ->
  targetIsClaude (ctx_modelForQuota (preparedContext requestData sessions mcpModel)) = true ->
  req_messages (ctx_upstreamRequestForTransform
                  (preparedContext requestData sessions mcpModel))
  = Some (foldForTarget true messages (Some (default newSession (sessions !! id)))).1
  /\ preparedSessions requestData sessions mcpModel !! id
     = (foldForTarget true messages (Some (default newSession (sessions !! id)))).2.
Proof.
  intros Hid Hmessages. unfold preparedContext, preparedSessions.
  pose proof (ensureSessionState_key sessions requestData) as Hkey.
  pose proof (ensureSessionState_entry sessions requestData) as Hentry.
  unfold prepareMcpContext.
  destruct (ensureSessionState sessions requestData) as [key sessions1].
  cbn [fst snd] in *. rewrite Hid in Hkey, Hentry. subst key. rewrite Hentry, Hmessages.
  set (quota := if isMcpToolResultTurn requestData _ then Some mcpModel else _).
  destruct (targetIsClaude quota) eqn:Htarget.
  - destruct (foldForTarget true messages _) as [upstreamMessages st1] eqn:Hfold.
    cbn [fst snd ctx_modelForQuota ctx_upstreamRequestForTransform req_messages
         setMessages].
    intros _. split; [done|].
    assert (is_Some st1) as [st1' ->].
    { pose proof (foldForTarget_entry true messages (default newSession (sessions !! id)))
        as H. by rewrite Hfold in H. }
    by rewrite lookup_insert_eq.
  - destruct (foldForTarget false messages _) as [upstreamMessages st1].
    cbn [fst snd ctx_modelForQuota]. by rewrite Htarget.
Qed.


End Routing.

(** Stand-ins for the examples: a model map that knows every name it is
    given, a system prompt that names no model, and names in lower case,
    which [toLowerCase] leaves as they are. *)
Definition mapEveryName (model : Json) : option string :=
  match model with
  | JStr name => Some name
  | _ => None
  end.

Definition noModelInSystem (_ : ClaudeRequest) : option string := None.

Definition lowerCaseAlready (text : string) : string := text.

(** A request of the session [session-1] for a model of the primary family. *)
Definition sessionRequest (messages : list Json) : ClaudeRequest :=
  {| req_model := JStr "claude-sonnet-4-5"; req_system := JNull;
     req_messages := Some messages;
     req_tools := JArr [JObj [("name", JStr "mcp__fs__list")]];
     req_stream := JBool true;
     req_metadata := JObj [("user_id", JStr " session-1 ")] |}.

(** The assistant has called a bridged tool, and the client sends the
    result. *)
Definition bridgedTurn : list Json :=
  [ userText "list the files";
    assistantBlocks [toolUseBlock "toolu_1" "mcp__fs__list"];
    toolResultMessage "toolu_1" "a.txt" ].

Lemma only_the_last_turn_counts_witness :
  collectToolResultIdsAfterLastAssistant (sessionRequest bridgedTurn)
  = toolResultIdsIn [toolResultMessage "toolu_1" "a.txt"]
  /\ (hasAnyToolResultTurn (sessionRequest bridgedTurn) = false
      <-> Forall (fun msg => toolResultIdsOf msg = [])
            [toolResultMessage "toolu_1" "a.txt"])
  /\ ([toolResultMessage "toolu_1" "a.txt"] = [] ->
      forall sessionState,
        isMcpToolResultTurn (sessionRequest bridgedTurn) sessionState = false).
Proof.
  apply (only_the_last_turn_counts (sessionRequest bridgedTurn)
           [userText "list the files"] [toolResultMessage "toolu_1" "a.txt"]
           (assistantBlocks [toolUseBlock "toolu_1" "mcp__fs__list"])).
  - reflexivity.
  - reflexivity.
  - reflexivity.
Defined.

(** The substitute model, answering the first request of the session, has
    called a tool that is not bridged, and the client sends its result. *)
Definition segmentTurn : list Json :=
  [ userText "list the files";
    assistantBlocks [toolUseBlock "toolu_2" "TodoWrite"];
    toolResultMessage "toolu_2" "noted" ].

(** The sessions after that first answer. *)
Definition sessionsInSegment : gmap string SessionState :=
  segmentBegun mapEveryName lowerCaseAlready {[ "session-1" := newSession ]}
    "session-1" (sessionRequest [userText "list the files"])
    (JStr "claude-sonnet-4-5") "gemini-3-pro-high".

Definition segmentContext : McpContext :=
  preparedContext mapEveryName noModelInSystem lowerCaseAlready
    (sessionRequest segmentTurn) sessionsInSegment "gemini-3-pro-high".

Lemma segment_keeps_its_tool_results_witness :
  segmentStartOf (sessionsInSegment !! "session-1") = Some 1
  /\ ctx_modelForQuota segmentContext = Some "gemini-3-pro-high"
  /\ req_model (ctx_upstreamRequestForTransform segmentContext)
     = JStr "gemini-3-pro-high"
  /\ req_messages (ctx_upstreamRequestForTransform segmentContext) = Some segmentTurn
  /\ ctx_shouldBufferForSwitch segmentContext = false
  /\ ctx_transformOptions segmentContext = Some 1
  /\ preparedSessions mapEveryName noModelInSystem lowerCaseAlready
       (sessionRequest segmentTurn) sessionsInSegment "gemini-3-pro-high"
     = sessionsInSegment.
Proof.
  pose proof (segment_keeps_its_tool_results mapEveryName noModelInSystem
                lowerCaseAlready {[ "session-1" := newSession ]}
                "session-1" "gemini-3-pro-high" newSession
                (sessionRequest [userText "list the files"]) (JStr "claude-sonnet-4-5")
                [userText "list the files"] (sessionRequest segmentTurn)
                [userText "list the files"] [toolResultMessage "toolu_2" "noted"]
                [toolUseBlock "toolu_2" "TodoWrite"]
                (assistantBlocks [toolUseBlock "toolu_2" "TodoWrite"])) as H.
  destruct H as (Hstart & Hquota & Hmodel & Hmessages & Hbuffer & Hoptions & Hsessions).
  - vm_compute. reflexivity.
  - reflexivity.
  - reflexivity.
  - vm_compute. reflexivity.
  - vm_compute. reflexivity.
  - vm_compute. reflexivity.
  - reflexivity.
  - cbn. lia.
  - reflexivity.
  - reflexivity.
  - reflexivity.
  - vm_compute. reflexivity.
  - split_and!.
    + exact Hstart.
    + exact Hquota.
    + exact Hmodel.
    + exact Hmessages.
    + exact Hbuffer.
    + apply Hoptions. vm_compute. reflexivity.
    + exact Hsessions.
Defined.

(** *** A segment and the turn after it *)

(** The session [session-1] after its first request, the tool-result turn
    [bridgedTurn]: [prepareMcpContext] routes it to the substitute model, and
    [updateSessionAfterResponse], called by the handler with the context's
    models, records the start of the segment. *)
Definition sessionsAfterBridgedTurn : gmap string SessionState :=
  updateSessionAfterResponse mapEveryName lowerCaseAlready
    (preparedSessions mapEveryName noModelInSystem lowerCaseAlready
       (sessionRequest bridgedTurn) ∅ "gemini-3-pro-high")
    (preparedKey mapEveryName noModelInSystem lowerCaseAlready
       (sessionRequest bridgedTurn) ∅ "gemini-3-pro-high")
    (sessionRequest bridgedTurn)
    (ctx_baseModel
       (preparedContext mapEveryName noModelInSystem lowerCaseAlready
          (sessionRequest bridgedTurn) ∅ "gemini-3-pro-high"))
    (ctx_modelForQuota
       (preparedContext mapEveryName noModelInSystem lowerCaseAlready
          (sessionRequest bridgedTurn) ∅ "gemini-3-pro-high"))
    "gemini-3-pro-high".

(** The substitute model has answered in words, and the user goes on. *)
Definition answeredHistory : list Json :=
  bridgedTurn
  ++ [ assistantBlocks [textBlock " There is one file: a.txt. "];
       userText "thanks, now commit" ].

(** The substitute model has answered with another call and no text; the
    user sends no result and goes on. *)
Definition silentHistory : list Json :=
  bridgedTurn
  ++ [ assistantBlocks [toolUseBlock "toolu_2" "mcp__fs__read"];
       userText "never mind, commit" ].

Definition contextAfterSegment (messages : list Json) : McpContext :=
  preparedContext mapEveryName noModelInSystem lowerCaseAlready
    (sessionRequest messages) sessionsAfterBridgedTurn "gemini-3-pro-high".



End McpRouting.


(** ** The request transcoder: the messages (ClaudeRequestIn.js)

    [transformClaudeRequestIn] from [// 2. Contents (Messages)] to the end of
    its loop over [claudeReq.messages]: the [contents] of the backend
    request.  The other fields of the body ([systemInstruction], [tools],
    [generationConfig], [safetySettings]) are built from the system text, the
    tool declarations and constants, and hold no message part. *)

Module RequestIn.

Import JsText.

(** [{ name, args, id }]; a field that is [undefined] is [None]. *)
Record FunctionCall : Type := {
  fc_name : option Json;
  fc_args : Json;
  fc_id : option Json
}.

(** [{ name, response: { result, is_error, content }, id }]. *)
Record FunctionResponse : Type := {
  fr_name : option Json;
  fr_result : string;
  fr_is_error : bool;
  fr_content : option Json;
  fr_id : option Json
}.

(** [{ mimeType, data }]. *)
Record InlineData : Type := {
  mimeType : Json;
  data : Json
}.

(** A part of the backend request, with the keys the transcoder writes. *)
Record Part : Type := {
  text : option string;
  thought : bool;
  thoughtSignature : option string;
  functionCall : option FunctionCall;
  functionResponse : option FunctionResponse;
  inlineData : option InlineData
}.

(** [{ text }]. *)
Definition textPart (t : string) : Part :=
  {| text := Some t; thought := false; thoughtSignature := None;
     functionCall := None; functionResponse := None; inlineData := None |}.

(** [part.thoughtSignature = sig]. *)
Definition withSignature (sig : option string) (p : Part) : Part :=
  {| text := text p; thought := thought p; thoughtSignature := sig;
     functionCall := functionCall p; functionResponse := functionResponse p;
     inlineData := inlineData p |}.

(** [{ role, parts }]. *)
Record Content : Type := {
  role : option Json;
  parts : list Part
}.

(** [typeof v === "string" ? v : ""]. *)
Definition stringOr (v : option Json) : string :=
  match v with Some (JStr s) => s | _ => "" end.

(** [typeof v === "string" && v ? v : null]. *)
Definition nonEmptyString (v : option Json) : option string :=
  match v with
  | Some (JStr s) => if String.eqb s "" then None else Some s
  | _ => None
  end.

(** The truthiness of a property that may be absent. *)
Definition truthyProp (v : option Json) : bool :=
  match v with Some j => truthy j | None => false end.

(** [text.replace(/\s+/g, "")]. *)
Fixpoint stripSpaces (s : string) : string :=
  match s with
  | EmptyString => ""
  | String c r => if isWhiteSpace c then stripSpaces r else String c (stripSpaces r)
  end.

(** [isMcpToolName]. *)
Definition isMcpToolName (name : option Json) : bool :=
  match name with Some (JStr n) => startsWith n "mcp__" | _ => false end.

(** How [Map] compares two keys that come from two items of the request:
    strings, numbers and booleans by value, objects and arrays never the same. *)
Definition sameKey (a b : Json) : bool := sameValueZero a b.

(** [toolIdToName]: the entries in the order they were set. *)
Definition ToolNames : Type := list (Json * Json).

(** [toolIdToName.get(id)]. *)
Fixpoint toolNameOf (id : Json) (m : ToolNames) : option Json :=
  match m with
  | [] => None
  | (k, v) :: r => if sameKey id k then Some v else toolNameOf id r
  end.

(** [toolIdToName.set(id, name)]; the entry set last is the one found. *)
Definition setToolName (id name : Json) (m : ToolNames) : ToolNames := (id, name) :: m.


(** The items [{ type: "thinking", thinking, signature }] and
    [{ type: "text", text }]. *)
Definition thinkingItem (t signature : string) : Json :=
  JObj [("type", JStr "thinking"); ("thinking", JStr t); ("signature", JStr signature)].

Definition textItem (t : string) : Json :=
  JObj [("type", JStr "text"); ("text", JStr t)].

Section Transform.

(** The continuation-token ledger (ToolThoughtSignatureStore.js) and its
    [getToolThoughtSignature] and [deleteToolThoughtSignature], for an id that
    may be [undefined]. *)
Variable Ledger : Type.
Variable getToolThoughtSignature : Ledger -> option Json -> option string.
Variable deleteToolThoughtSignature : Ledger -> option Json -> Ledger.

(** [buildMcpToolCallXml(name, input)] and
    [buildMcpToolResultXml(name, toolUseId, contentText)] of the bridge, whose
    texts are passed along. *)
Variable buildMcpToolCallXml : option Json -> Json -> string.
Variable buildMcpToolResultXml : option Json -> option Json -> string -> string.

(** [extractInlineDataPartsFromClaudeToolResultContent(rawContent)]:
    [contentText], [sanitizedContent] and the data of the [inlineParts]. *)
Variable extractInlineDataParts : option Json -> string * option Json * list InlineData.

(** What stays the same during one message. *)
Record MessageEnv : Type := {
  env_role : option Json;
  shouldForwardThoughtSignatures : bool;
  mcpXmlEnabled : bool;
  messageHasFunctionCallToolUse : bool
}.

(** [role === "model"], [role === "user"]. *)
Definition isRole (r : string) (env : MessageEnv) : bool :=
  match env_role env with Some (JStr s) => String.eqb s r | _ => false end.

(** What the loop over the items of one message changes. *)
Record ItemState : Type := {
  st_parts : list Part;
  sawNonThinkingContent : bool;
  previousWasToolResult : bool;
  pendingThoughtSignature : option string;
  toolIdToName : ToolNames;
  ledger : Ledger;
  lastUserTaskTextNormalized : option string
}.

Definition pushPart (p : Part) (st : ItemState) : ItemState :=
  {| st_parts := st_parts st ++ [p];
     sawNonThinkingContent := sawNonThinkingContent st;
     previousWasToolResult := previousWasToolResult st;
     pendingThoughtSignature := pendingThoughtSignature st;
     toolIdToName := toolIdToName st; ledger := ledger st;
     lastUserTaskTextNormalized := lastUserTaskTextNormalized st |}.

Definition setSaw (st : ItemState) : ItemState :=
  {| st_parts := st_parts st; sawNonThinkingContent := true;
     previousWasToolResult := previousWasToolResult st;
     pendingThoughtSignature := pendingThoughtSignature st;
     toolIdToName := toolIdToName st; ledger := ledger st;
     lastUserTaskTextNormalized := lastUserTaskTextNormalized st |}.

Definition setPreviousWasToolResult (b : bool) (st : ItemState) : ItemState :=
  {| st_parts := st_parts st; sawNonThinkingContent := sawNonThinkingContent st;
     previousWasToolResult := b;
     pendingThoughtSignature := pendingThoughtSignature st;
     toolIdToName := toolIdToName st; ledger := ledger st;
     lastUserTaskTextNormalized := lastUserTaskTextNormalized st |}.

Definition setPending (sig : option string) (st : ItemState) : ItemState :=
  {| st_parts := st_parts st; sawNonThinkingContent := sawNonThinkingContent st;
     previousWasToolResult := previousWasToolResult st;
     pendingThoughtSignature := sig;
     toolIdToName := toolIdToName st; ledger := ledger st;
     lastUserTaskTextNormalized := lastUserTaskTextNormalized st |}.

Definition setToolNames (m : ToolNames) (st : ItemState) : ItemState :=
  {| st_parts := st_parts st; sawNonThinkingContent := sawNonThinkingContent st;
     previousWasToolResult := previousWasToolResult st;
     pendingThoughtSignature := pendingThoughtSignature st;
     toolIdToName := m; ledger := ledger st;
     lastUserTaskTextNormalized := lastUserTaskTextNormalized st |}.

Definition setLedger (l : Ledger) (st : ItemState) : ItemState :=
  {| st_parts := st_parts st; sawNonThinkingContent := sawNonThinkingContent st;
     previousWasToolResult := previousWasToolResult st;
     pendingThoughtSignature := pendingThoughtSignature st;
     toolIdToName := toolIdToName st; ledger := l;
     lastUserTaskTextNormalized := lastUserTaskTextNormalized st |}.

Definition setLastUserTask (t : option string) (st : ItemState) : ItemState :=
  {| st_parts := st_parts st; sawNonThinkingContent := sawNonThinkingContent st;
     previousWasToolResult := previousWasToolResult st;
     pendingThoughtSignature := pendingThoughtSignature st;
     toolIdToName := toolIdToName st; ledger := ledger st;
     lastUserTaskTextNormalized := t |}.

(** [if (item.id && item.name) toolIdToName.set(item.id, item.name)]. *)
Definition rememberToolName (item : Json) (st : ItemState) : ItemState :=
  match prop "id" item, prop "name" item with
  | Some id, Some name =>
      if truthy id && truthy name
      then setToolNames (setToolName id name (toolIdToName st)) st
      else st
  | _, _ => st
  end.

(** [v || fallback]. *)
Definition orElse (v : option Json) (fallback : Json) : Json :=
  match v with
  | Some j => if truthy j then j else fallback
  | None => fallback
  end.

Definition isSome {A} (o : option A) : bool :=
  match o with Some _ => true | None => false end.

(** An item of type [text]. *)
Definition itemText (env : MessageEnv) (item : Json) (st : ItemState) : ItemState :=
  let t := stringOr (prop "text" item) in
  if String.eqb t "" || String.eqb t "(no content)" then st
  else if isRole "user" env && previousWasToolResult st
          && match lastUserTaskTextNormalized st with
             | Some l => negb (String.eqb l "") && String.eqb (stripSpaces t) l
             | None => false
             end
  then setPreviousWasToolResult false st
  else
    let attach :=
      isSome (pendingThoughtSignature st) && shouldForwardThoughtSignatures env
      && isRole "model" env && negb (messageHasFunctionCallToolUse env) in
    let part :=
      if attach then withSignature (pendingThoughtSignature st) (textPart t)
      else textPart t in
    let st1 := if attach then setPending None st else st in
    let st2 := setPreviousWasToolResult false (setSaw (pushPart part st1)) in
    if isRole "user" env then setLastUserTask (Some (stripSpaces t)) st2 else st2.

(** [if (signature && shouldForwardThoughtSignatures) pendingThoughtSignature = signature]. *)
Definition holdSignature (env : MessageEnv) (signature : option string) (st : ItemState)
  : ItemState :=
  match signature with
  | Some sig => if shouldForwardThoughtSignatures env then setPending (Some sig) st else st
  | None => st
  end.

(** An item of type [thinking]. *)
Definition itemThinking (env : MessageEnv) (item : Json) (st : ItemState) : ItemState :=
  let thinkingText := stringOr (prop "thinking" item) in
  let signature := nonEmptyString (prop "signature" item) in
  if String.eqb thinkingText "" then holdSignature env signature st
  else if sawNonThinkingContent st then st
  else
    let st1 := holdSignature env signature st in
    let st2 :=
      if shouldForwardThoughtSignatures env
      then pushPart {| text := Some thinkingText; thought := true;
                       thoughtSignature := None; functionCall := None;
                       functionResponse := None; inlineData := None |} st1
      else setSaw (pushPart (textPart thinkingText) st1) in
    setPreviousWasToolResult false st2.

(** An item of type [redacted_thinking]. *)
Definition itemRedactedThinking (item : Json) (st : ItemState) : ItemState :=
  let t := stringOr (prop "data" item) in
  if String.eqb t "" then st
  else if sawNonThinkingContent st then st
  else setPreviousWasToolResult false (setSaw (pushPart (textPart t) st)).

(** An item of type [image]. *)
Definition itemImage (item : Json) (st : ItemState) : ItemState :=
  let source := orElse (prop "source" item) (JObj []) in
  let st1 :=
    match prop "type" source with
    | Some (JStr ty) =>
        if String.eqb ty "base64" then
          setSaw (pushPart
                    {| text := None; thought := false; thoughtSignature := None;
                       functionCall := None; functionResponse := None;
                       inlineData :=
                         Some {| mimeType := orElse (prop "media_type" source)
                                               (JStr "image/png");
                                 data := orElse (prop "data" source) (JStr "") |} |} st)
        else st
    | _ => st
    end in
  setPreviousWasToolResult false st1.

(** An item of type [tool_use] whose call travels as bridge markup. *)
Definition itemToolUseXml (env : MessageEnv) (item : Json) (st : ItemState) : ItemState :=
  let st1 := rememberToolName item st in
  let pendingSig :=
    if shouldForwardThoughtSignatures env then pendingThoughtSignature st1 else None in
  let itemSig := nonEmptyString (prop "signature" item) in
  let st2 :=
    if truthyProp (prop "id" item) && (isSome itemSig || isSome pendingSig)
    then setLedger (deleteToolThoughtSignature (ledger st1) (prop "id" item)) st1
    else st1 in
  let st3 := if isSome pendingSig then setPending None st2 else st2 in
  let part := textPart (buildMcpToolCallXml (prop "name" item)
                          (orElse (prop "input" item) (JObj []))) in
  let signed :=
    if isSome itemSig && shouldForwardThoughtSignatures env
    then withSignature itemSig part
    else if isSome pendingSig && shouldForwardThoughtSignatures env
         then withSignature pendingSig part
         else part in
  setPreviousWasToolResult false (setSaw (pushPart signed st3)).

(** An item of type [tool_use] that becomes a [functionCall] part. *)
Definition itemToolUseCall (env : MessageEnv) (item : Json) (st : ItemState) : ItemState :=
  let fcPart :=
    {| text := None; thought := false; thoughtSignature := None;
       functionCall := Some {| fc_name := prop "name" item;
                               fc_args := orElse (prop "input" item) (JObj []);
                               fc_id := prop "id" item |};
       functionResponse := None; inlineData := None |} in
  let st1 := rememberToolName item st in
  let itemSig := nonEmptyString (prop "signature" item) in
  let st2 :=
    if isSome itemSig
    then setLedger (deleteToolThoughtSignature (ledger st1) (prop "id" item)) st1
    else st1 in
  let pendingSig :=
    if shouldForwardThoughtSignatures env then pendingThoughtSignature st2 else None in
  let '(sig, st3) :=
    match itemSig, pendingSig with
    | Some s, _ => (Some s, st2)
    | None, Some s =>
        (Some s,
         if truthyProp (prop "id" item)
         then setLedger (deleteToolThoughtSignature (ledger st2) (prop "id" item)) st2
         else st2)
    | None, None => (getToolThoughtSignature (ledger st2) (prop "id" item), st2)
    end in
  let st4 := if isSome pendingSig then setPending None st3 else st3 in
  let signed :=
    if isSome sig && shouldForwardThoughtSignatures env then withSignature sig fcPart
    else fcPart in
  setPreviousWasToolResult false (setSaw (pushPart signed st4)).

(** An item of type [tool_use]. *)
Definition itemToolUse (env : MessageEnv) (item : Json) (st : ItemState) : ItemState :=
  if mcpXmlEnabled env && isMcpToolName (prop "name" item)
  then itemToolUseXml env item st
  else itemToolUseCall env item st.

(** [toolIdToName.get(item.tool_use_id) || item.tool_use_id], and whether
    the result [=== item.tool_use_id]. *)
Definition resolveToolName (id : option Json) (m : ToolNames) : option Json * bool :=
  match id with
  | None => (None, true)
  | Some i =>
      match toolNameOf i m with
      | Some name => if truthy name then (Some name, sameKey name i) else (id, true)
      | None => (id, true)
      end
  end.

Definition inlinePart (d : InlineData) : Part :=
  {| text := None; thought := false; thoughtSignature := None;
     functionCall := None; functionResponse := None; inlineData := Some d |}.

Definition pushParts (ps : list Part) (st : ItemState) : ItemState :=
  foldl (fun acc p => pushPart p acc) st ps.

(** An item of type [tool_result]. *)
Definition itemToolResult (env : MessageEnv) (item : Json) (st : ItemState) : ItemState :=
  let id := prop "tool_use_id" item in
  let '(funcName, unknown) := resolveToolName id (toolIdToName st) in
  let '(contentText, sanitizedContent, inlineParts) :=
    extractInlineDataParts (prop "content" item) in
  let isError :=
    match prop "is_error" item with Some (JBool true) => true | _ => false end in
  let part :=
    if mcpXmlEnabled env && isMcpToolName funcName
    then textPart (buildMcpToolResultXml funcName id contentText)
    else if mcpXmlEnabled env && unknown
         then textPart (buildMcpToolResultXml (Some (JStr "")) id contentText)
         else {| text := None; thought := false; thoughtSignature := None;
                 functionCall := None;
                 functionResponse :=
                   Some {| fr_name := funcName; fr_result := contentText;
                           fr_is_error := isError; fr_content := sanitizedContent;
                           fr_id := id |};
                 inlineData := None |} in
  setPreviousWasToolResult true
    (setSaw (pushParts (map inlinePart inlineParts) (pushPart part st))).

(** The [if ... else if ...] over [item.type]. *)
Definition dispatchItem (env : MessageEnv) (item : Json) (st : ItemState) : ItemState :=
  match prop "type" item with
  | Some (JStr ty) =>
      if String.eqb ty "text" then itemText env item st
      else if String.eqb ty "thinking" then itemThinking env item st
      else if String.eqb ty "redacted_thinking" then itemRedactedThinking item st
      else if String.eqb ty "image" then itemImage item st
      else if String.eqb ty "tool_use" then itemToolUse env item st
      else if String.eqb ty "tool_result" then itemToolResult env item st
      else st
  | _ => st
  end.

(** One turn of [for (const item of msg.content)]; [None] when reading
    [item.type] throws, which it does for [null]. *)
Definition processItem (env : MessageEnv) (item : Json) (st : ItemState)
  : option ItemState :=
  match item with
  | JNull => None
  | _ => Some (dispatchItem env item st)
  end.

(** The loop over the items. *)
Fixpoint processItems (env : MessageEnv) (items : list Json) (st : ItemState)
  : option ItemState :=
  match items with
  | [] => Some st
  | item :: rest => st' ← processItem env item st; processItems env rest st'
  end.

(** The fallback after the items: a signature still pending is put on the
    last part that can carry one, going backwards; [backwards] is the parts
    from the last to the first.  The result is the parts, again from the last
    to the first, and whether the signature was placed. *)
Fixpoint attachBackwards (sig : string) (backwards : list Part) : list Part * bool :=
  match backwards with
  | [] => ([], false)
  | p :: rest =>
      if isSome (thoughtSignature p)
      then let '(rest', placed) := attachBackwards sig rest in (p :: rest', placed)
      else if isSome (functionCall p) then (withSignature (Some sig) p :: rest, true)
      else match text p with
           | Some t =>
               if negb (thought p) && negb (String.eqb t "")
               then (withSignature (Some sig) p :: rest, true)
               else let '(rest', placed) := attachBackwards sig rest in
                    (p :: rest', placed)
           | None =>
               let '(rest', placed) := attachBackwards sig rest in (p :: rest', placed)
           end
  end.

Definition setParts (ps : list Part) (st : ItemState) : ItemState :=
  {| st_parts := ps; sawNonThinkingContent := sawNonThinkingContent st;
     previousWasToolResult := previousWasToolResult st;
     pendingThoughtSignature := pendingThoughtSignature st;
     toolIdToName := toolIdToName st; ledger := ledger st;
     lastUserTaskTextNormalized := lastUserTaskTextNormalized st |}.

Definition fallbackSignature (env : MessageEnv) (st : ItemState) : ItemState :=
  match pendingThoughtSignature st with
  | Some sig =>
      if shouldForwardThoughtSignatures env && isRole "model" env then
        let '(backwards, placed) := attachBackwards sig (rev (st_parts st)) in
        let st1 := setParts (rev backwards) st in
        if placed then setPending None st1 else st1
      else st
  | None => st
  end.

(** The reordering of a user message that holds a [functionResponse]: each
    of them with the [inlineData] parts right behind it first, the other parts
    after; [attached] tells that the part before went with a response. *)
Fixpoint splitResponses (attached : bool) (ps : list Part) : list Part * list Part :=
  match ps with
  | [] => ([], [])
  | p :: rest =>
      if isSome (functionResponse p)
      then let '(reordered, deferred) := splitResponses true rest in
           (p :: reordered, deferred)
      else if attached && isSome (inlineData p)
           then let '(reordered, deferred) := splitResponses true rest in
                (p :: reordered, deferred)
           else let '(reordered, deferred) := splitResponses false rest in
                (reordered, p :: deferred)
  end.

Definition reorderResponses (env : MessageEnv) (ps : list Part) : list Part :=
  if isRole "user" env && existsb (fun p => isSome (functionResponse p)) ps
  then let '(reordered, deferred) := splitResponses false ps in reordered ++ deferred
  else ps.

(** What one message hands to the next: the names recorded for the tool
    ids, the ledger and the last task text of the user. *)
Record Carry : Type := {
  c_toolIdToName : ToolNames;
  c_ledger : Ledger;
  c_lastUserTask : option string
}.

Definition startMessage (carry : Carry) : ItemState :=
  {| st_parts := []; sawNonThinkingContent := false; previousWasToolResult := false;
     pendingThoughtSignature := None; toolIdToName := c_toolIdToName carry;
     ledger := c_ledger carry; lastUserTaskTextNormalized := c_lastUserTask carry |}.

Definition carryOf (st : ItemState) : Carry :=
  {| c_toolIdToName := toolIdToName st; c_ledger := ledger st;
     c_lastUserTask := lastUserTaskTextNormalized st |}.

(** [role === "assistant" ? "model" : role]. *)
Definition backendRole (role : option Json) : option Json :=
  match role with
  | Some (JStr r) => if String.eqb r "assistant" then Some (JStr "model") else role
  | _ => role
  end.

(** [messageHasFunctionCallToolUse]. *)
Definition hasFunctionCallToolUse (xml : bool) (role content : option Json) : bool :=
  match role, content with
  | Some (JStr r), Some (JArr items) =>
      String.eqb r "model"
      && existsb (fun it =>
                    truthy it
                    && match prop "type" it with
                       | Some (JStr ty) => String.eqb ty "tool_use"
                       | _ => false
                       end
                    && negb (xml && isMcpToolName (prop "name" it))) items
  | _, _ => false
  end.

Definition envOf (xml forward : bool) (msg : Json) : MessageEnv :=
  let r := backendRole (prop "role" msg) in
  {| env_role := r; shouldForwardThoughtSignatures := forward; mcpXmlEnabled := xml;
     messageHasFunctionCallToolUse := hasFunctionCallToolUse xml r (prop "content" msg) |}.

(** The parts of one message before the fallback: the loop over the items of
    an array, or the one text of a string. *)
Definition readContent (env : MessageEnv) (content : option Json) (st : ItemState)
  : option ItemState :=
  match content with
  | Some (JArr items) => processItems env items st
  | Some (JStr t) =>
      Some (if String.eqb t "" then st
            else let st1 := pushPart (textPart t) st in
                 if isRole "user" env then setLastUserTask (Some (stripSpaces t)) st1
                 else st1)
  | _ => Some st
  end.

(** One turn of the loop over [claudeReq.messages]: the content to push, if
    it has parts, and what is carried on; [None] when reading [msg.role]
    or an item throws. *)
Definition transformMessage (xml forward : bool) (msg : Json) (carry : Carry)
  : option (option Content * Carry) :=
  match msg with
  | JNull => None
  | _ =>
      let env := envOf xml forward msg in
      st ← readContent env (prop "content" msg) (startMessage carry);
      let st1 := fallbackSignature env st in
      let ps := reorderResponses env (st_parts st1) in
      Some (match ps with
            | [] => None
            | _ => Some {| role := env_role env; parts := ps |}
            end, carryOf st1)
  end.

(** [forwardThoughtSignaturesByDefault &&
    (signatureSegmentStartIndex == null || msgIndex >= signatureSegmentStartIndex)]. *)
Definition shouldForward (forwardByDefault : bool) (segmentStart : option nat)
    (msgIndex : nat) : bool :=
  forwardByDefault
  && match segmentStart with
     | None => true
     | Some start => Nat.leb start msgIndex
     end.

(** The loop over the messages from index [msgIndex] on. *)
Fixpoint transformMessages (xml forwardByDefault : bool) (segmentStart : option nat)
    (msgIndex : nat) (messages : list Json) (carry : Carry) (contents : list Content)
  : option (list Content * Carry) :=
  match messages with
  | [] => Some (contents, carry)
  | msg :: rest =>
      '(content, carry') ←
        transformMessage xml (shouldForward forwardByDefault segmentStart msgIndex)
          msg carry;
      transformMessages xml forwardByDefault segmentStart (S msgIndex) rest carry'
        (match content with Some c => contents ++ [c] | None => contents end)
  end.

(** [options]: [forwardThoughtSignatures] (absent is [None]) and the integer
    [signatureSegmentStartIndex], if any. *)
Record Options : Type := {
  forwardThoughtSignatures : option bool;
  signatureSegmentStartIndex : option nat
}.

(** [isMcpXmlEnabled()], read from the environment. *)
Variable mcpXmlFlag : bool.

(** [isMcpXmlEnabled() && getMcpTools(claudeReq?.tools).length > 0]. *)
Definition mcpXmlEnabledFor (tools : Json) : bool :=
  mcpXmlFlag
  && match tools with
     | JArr l => existsb (fun t => isMcpToolName (prop "name" t)) l
     | _ => false
     end.

(** The [contents] of the body [transformClaudeRequestIn] builds, and the
    ledger afterwards. *)
Definition transformContents (req : ClaudeApi.ClaudeRequest) (options : Options)
    (ledger0 : Ledger) : option (list Content * Ledger) :=
  match ClaudeApi.req_messages req with
  | None => Some ([], ledger0)
  | Some messages =>
      '(contents, carry) ←
        transformMessages (mcpXmlEnabledFor (ClaudeApi.req_tools req))
          (negb (bool_decide (forwardThoughtSignatures options = Some false)))
          (signatureSegmentStartIndex options) 0 messages
          {| c_toolIdToName := []; c_ledger := ledger0; c_lastUserTask := None |} [];
      Some (contents, c_ledger carry)
  end.

(** *** Reasoning items come first or not at all *)

(** An item of type [thinking] with text. *)
Definition isReasoningWithText (item : Json) : bool :=
  match prop "type" item with
  | Some (JStr ty) =>
      String.eqb ty "thinking" && negb (String.eqb (stringOr (prop "thinking" item)) "")
  | _ => false
  end.

(** An item of type [text], [image], [tool_use] or [tool_result]. *)
Definition isNonReasoningItem (item : Json) : bool :=
  match prop "type" item with
  | Some (JStr ty) =>
      String.eqb ty "text" || String.eqb ty "image" || String.eqb ty "tool_use"
      || String.eqb ty "tool_result"
  | _ => false
  end.

Lemma pushParts_fields ps : forall st,
  sawNonThinkingContent (pushParts ps st) = sawNonThinkingContent st
  /\ st_parts (pushParts ps st) = st_parts st ++ ps.
Proof.
  induction ps as [|p ps IH]; intros st; cbn [pushParts foldl].
  - by rewrite app_nil_r.
  - destruct (IH (pushPart p st)) as [H1 H2]. fold (pushParts ps (pushPart p st)).
    rewrite H1, H2. cbn. by rewrite <- app_assoc.
Qed.

Lemma rememberToolName_fields item st :
  sawNonThinkingContent (rememberToolName item st) = sawNonThinkingContent st
  /\ st_parts (rememberToolName item st) = st_parts st
  /\ pendingThoughtSignature (rememberToolName item st) = pendingThoughtSignature st.
Proof. unfold rememberToolName. by repeat case_match. Qed.

Lemma processItem_Some env item st st' :
  processItem env item st = Some st' -> st' = dispatchItem env item st.
Proof. unfold processItem. destruct item; naive_solver. Qed.

Lemma processItem_not_null env item st :
  item <> JNull -> processItem env item st = Some (dispatchItem env item st).
Proof. by destruct item. Qed.

(** Every branch leaves [sawNonThinkingContent] set once it is. *)
Lemma processItem_saw env item st st' :
  processItem env item st = Some st' ->
  sawNonThinkingContent st = true -> sawNonThinkingContent st' = true.
Proof.
  intros ->%processItem_Some Hsaw. unfold dispatchItem.
  destruct (prop "type" item) as [[| | |ty| |]|]; try done.
  destruct (String.eqb ty "text").
  { unfold itemText. repeat case_match; done. }
  destruct (String.eqb ty "thinking").
  { unfold itemThinking, holdSignature. rewrite Hsaw. repeat case_match; done. }
  destruct (String.eqb ty "redacted_thinking").
  { unfold itemRedactedThinking. repeat case_match; done. }
  destruct (String.eqb ty "image").
  { unfold itemImage. repeat case_match; done. }
  destruct (String.eqb ty "tool_use").
  { unfold itemToolUse, itemToolUseXml, itemToolUseCall. repeat case_match; done. }
  destruct (String.eqb ty "tool_result"); [|done].
  unfold itemToolResult. repeat case_match; done.
Qed.

(** An item that is not reasoning and has added a part has set
    [sawNonThinkingContent]. *)
Lemma processItem_produced env item st st' :
  isNonReasoningItem item = true ->
  processItem env item st = Some st' ->
  length (st_parts st) < length (st_parts st') ->
  sawNonThinkingContent st' = true.
Proof.
  intros Hnon ->%processItem_Some Hlen. unfold isNonReasoningItem in Hnon.
  unfold dispatchItem in *.
  destruct (prop "type" item) as [[| | |ty| |]|]; try done.
  destruct (String.eqb ty "text") eqn:E1.
  { revert Hlen. unfold itemText. repeat case_match; cbn; first [done|lia]. }
  destruct (String.eqb ty "thinking") eqn:E2.
  { apply String.eqb_eq in E2. subst ty. by vm_compute in Hnon. }
  destruct (String.eqb ty "redacted_thinking") eqn:E3.
  { apply String.eqb_eq in E3. subst ty. by vm_compute in Hnon. }
  destruct (String.eqb ty "image") eqn:E4.
  { revert Hlen. unfold itemImage. repeat case_match; cbn; first [done|lia]. }
  destruct (String.eqb ty "tool_use") eqn:E5.
  { unfold itemToolUse, itemToolUseXml, itemToolUseCall. repeat case_match; done. }
  destruct (String.eqb ty "tool_result") eqn:E6.
  { unfold itemToolResult. repeat case_match; done. }
  cbn [orb] in Hnon. done.
Qed.

(** A reasoning item with text that comes after is passed over: the state is
    left as it was. *)
Lemma processItem_late_reasoning env item st :
  isReasoningWithText item = true ->
  sawNonThinkingContent st = true ->
  processItem env item st = Some st.
Proof.
  intros Hr Hsaw. unfold isReasoningWithText in Hr.
  rewrite processItem_not_null by (intros ->; done). f_equal.
  unfold dispatchItem.
  destruct (prop "type" item) as [[| | |ty| |]|]; try done.
  apply andb_true_iff in Hr as [Hty Htext]. apply String.eqb_eq in Hty. subst ty.
  eqb_consts. unfold itemThinking. apply negb_true_iff in Htext.
  by rewrite Htext, Hsaw.
Qed.

Lemma processItems_app env a b st :
  processItems env (a ++ b) st = processItems env a st ≫= processItems env b.
Proof.
  revert st. induction a as [|x a IH]; intros st; [done|].
  cbn [app processItems]. destruct (processItem env x st) as [st'|]; [|done].
  cbn [mbind option_bind]. apply IH.
Qed.

Lemma processItems_saw env items : forall st st',
  processItems env items st = Some st' ->
  sawNonThinkingContent st = true -> sawNonThinkingContent st' = true.
Proof.
  induction items as [|x items IH]; intros st st' H Hsaw.
  - by injection H as <-.
  - cbn [processItems] in H. destruct (processItem env x st) as [st1|] eqn:Hx; [|done].
    cbn [mbind option_bind] in H. eapply IH; [done|]. by eapply processItem_saw.
Qed.

Lemma processItems_late_reasoning (env : MessageEnv)
    (pre mid post : list Json) (x th : Json) (st s1 s2 : ItemState) :
  processItems env pre st = Some s1 ->
  processItem env x s1 = Some s2 ->
  isNonReasoningItem x = true ->
  length (st_parts s1) < length (st_parts s2) ->
  isReasoningWithText th = true ->
  processItems env (pre ++ x :: mid ++ th :: post) st
  = processItems env (pre ++ x :: mid ++ post) st.
Proof.
  intros Hpre Hx Hnon Hlen Hth.
  rewrite !processItems_app, Hpre. cbn [mbind option_bind processItems].
  rewrite Hx. cbn [mbind option_bind]. rewrite !processItems_app.
  destruct (processItems env mid s2) as [s3|] eqn:Hmid; [|done].
  cbn [mbind option_bind processItems].
  rewrite processItem_late_reasoning; [done|done|].
  eapply processItems_saw; [done|]. by eapply processItem_produced.
Qed.

(** [{ role, content: items }]. *)
Definition message (role : Json) (items : list Json) : Json :=
  JObj [("role", role); ("content", JArr items)].

Lemma envOf_without_reasoning xml forward role a th b :
  isReasoningWithText th = true ->
  envOf xml forward (message role (a ++ th :: b))
  = envOf xml forward (message role (a ++ b)).
Proof.
  intros Hth. unfold envOf, message. cbn [prop obj_get]. eqb_consts. f_equal.
  unfold hasFunctionCallToolUse. destruct (backendRole (Some role)) as [[| | |r| |]|]; try done.
  f_equal. rewrite !existsb_app. f_equal. cbn [existsb].
  unfold isReasoningWithText in Hth.
  destruct (prop "type" th) as [[| | |ty| |]|]; try done.
  apply andb_true_iff in Hth as [Hty _]. apply String.eqb_eq in Hty. subst ty.
  eqb_consts. by rewrite andb_false_r.
Qed.

(** A later reasoning item with text changes nothing once an item of type
    text, image, tool_use or tool_result has added a part. *)
Lemma transformMessage_late_reasoning (xml forward : bool) (role : Json)
    (pre mid post : list Json) (x th : Json) (carry : Carry) (s1 s2 : ItemState) :
  processItems (envOf xml forward (message role (pre ++ x :: mid ++ th :: post)))
    pre (startMessage carry) = Some s1 ->
  processItem (envOf xml forward (message role (pre ++ x :: mid ++ th :: post)))
    x s1 = Some s2 ->
  isNonReasoningItem x = true ->
  length (st_parts s1) < length (st_parts s2) ->
  isReasoningWithText th = true ->
  transformMessage xml forward (message role (pre ++ x :: mid ++ th :: post)) carry
  = transformMessage xml forward (message role (pre ++ x :: mid ++ post)) carry.
Proof.
  intros Hpre Hx Hnon Hlen Hth.
  assert (Henv : envOf xml forward (message role (pre ++ x :: mid ++ th :: post))
                 = envOf xml forward (message role (pre ++ x :: mid ++ post))).
  { assert (pre ++ x :: mid ++ th :: post = (pre ++ x :: mid) ++ th :: post) as ->
      by (by rewrite <- app_assoc).
    assert (pre ++ x :: mid ++ post = (pre ++ x :: mid) ++ post) as ->
      by (by rewrite <- app_assoc).
    by apply envOf_without_reasoning. }
  unfold transformMessage.
  change (message role (pre ++ x :: mid ++ th :: post)) with
    (JObj [("role", role); ("content", JArr (pre ++ x :: mid ++ th :: post))]) at 1.
  change (message role (pre ++ x :: mid ++ post)) with
    (JObj [("role", role); ("content", JArr (pre ++ x :: mid ++ post))]) at 1.
  cbv iota beta.
  assert (Hc : forall items, prop "content" (message role items) = Some (JArr items)).
  { intros items. unfold message. cbn [prop obj_get]. by eqb_consts. }
  rewrite !Hc, <- Henv. cbn [readContent].
  by rewrite (processItems_late_reasoning _ pre mid post x th _ s1 s2).
Qed.

(** The parts an assistant turn [reasoning, text] becomes.  With the
    signatures forwarded: the reasoning as a [thought] part, and the text,
    which takes the signature of the reasoning item if that has one.
    Without: two text parts. *)
Definition partsOfReasoningThenText (forward : bool) (r sig t : string) : list Part :=
  if forward then
    [ {| text := Some r; thought := true; thoughtSignature := None;
         functionCall := None; functionResponse := None; inlineData := None |};
      if String.eqb sig "" then textPart t else withSignature (Some sig) (textPart t) ]
  else [textPart r; textPart t].

(** A reasoning item with text. *)
Lemma dispatchItem_thinkingItem (env : MessageEnv) (r sig : string) (st : ItemState) :
  r <> "" ->
  dispatchItem env (thinkingItem r sig) st
  = if sawNonThinkingContent st then st
    else
      let st1 := holdSignature env (if String.eqb sig "" then None else Some sig) st in
      setPreviousWasToolResult false
        (if shouldForwardThoughtSignatures env
         then pushPart {| text := Some r; thought := true; thoughtSignature := None;
                          functionCall := None; functionResponse := None;
                          inlineData := None |} st1
         else setSaw (pushPart (textPart r) st1)).
Proof.
  intros Hr%String.eqb_neq.
  unfold dispatchItem, thinkingItem. cbn [prop obj_get]. eqb_consts. cbv iota.
  unfold itemThinking. cbn [prop obj_get]. eqb_consts.
  cbn [stringOr nonEmptyString]. by rewrite Hr.
Qed.

(** A text item of a message that is not the user's. *)
Lemma dispatchItem_textItem (env : MessageEnv) (t : string) (st : ItemState) :
  t <> "" -> t <> "(no content)" -> isRole "user" env = false ->
  dispatchItem env (textItem t) st
  = let attach :=
      isSome (pendingThoughtSignature st) && shouldForwardThoughtSignatures env
      && isRole "model" env && negb (messageHasFunctionCallToolUse env) in
    setPreviousWasToolResult false
      (setSaw
         (pushPart
            (if attach then withSignature (pendingThoughtSignature st) (textPart t)
             else textPart t)
            (if attach then setPending None st else st))).
Proof.
  intros Ht%String.eqb_neq Hnc%String.eqb_neq Huser.
  unfold dispatchItem, textItem. cbn [prop obj_get]. eqb_consts. cbv iota.
  unfold itemText. cbn [prop obj_get]. eqb_consts.
  cbn [stringOr]. rewrite Ht, Hnc, Huser. done.
Qed.


(** The state after the items [reasoning, text] of an assistant turn. *)
Lemma processItems_reasoning_text (xml forward : bool) (r sig t : string)
    (rest : list Json) (carry : Carry) :
  r <> "" -> t <> "" -> t <> "(no content)" ->
  let env := {| env_role := Some (JStr "model");
                shouldForwardThoughtSignatures := forward; mcpXmlEnabled := xml;
                messageHasFunctionCallToolUse := false |} in
  processItems env (thinkingItem r sig :: textItem t :: rest) (startMessage carry)
  = processItems env rest
      {| st_parts := partsOfReasoningThenText forward r sig t;
         sawNonThinkingContent := true; previousWasToolResult := false;
         pendingThoughtSignature := None; toolIdToName := c_toolIdToName carry;
         ledger := c_ledger carry;
         lastUserTaskTextNormalized := c_lastUserTask carry |}.
Proof.
  intros Hr Ht Hnc env.
  cbn [processItems].
  rewrite (processItem_not_null env (thinkingItem r sig)) by done.
  cbn [mbind option_bind].
  rewrite (processItem_not_null env (textItem t)) by done.
  cbn [mbind option_bind]. f_equal.
  rewrite dispatchItem_thinkingItem by done.
  rewrite dispatchItem_textItem by done.
  unfold partsOfReasoningThenText, startMessage, holdSignature.
  subst env. cbn [sawNonThinkingContent shouldForwardThoughtSignatures].
  destruct forward, (String.eqb sig ""); reflexivity.
Qed.

(** Reasoning items with text that come after are all passed over. *)
Lemma processItems_late_reasonings env items : forall st : ItemState,
  Forall (fun th => isReasoningWithText th = true) items ->
  sawNonThinkingContent st = true ->
  processItems env items st = Some st.
Proof.
  induction items as [|th items IH]; intros st Hall Hsaw; [done|].
  apply Forall_cons in Hall as [Hth Hall]. cbn [processItems].
  rewrite processItem_late_reasoning by done. cbn [mbind option_bind]. by apply IH.
Qed.

Lemma hasFunctionCallToolUse_reasoning xml role r sig t lates :
  Forall (fun th => isReasoningWithText th = true) lates ->
  hasFunctionCallToolUse xml role
    (Some (JArr (thinkingItem r sig :: textItem t :: lates))) = false.
Proof.
  intros Hall. unfold hasFunctionCallToolUse.
  destruct role as [[| | |ro| |]|]; try done.
  apply andb_false_iff. right.
  unfold thinkingItem, textItem. cbn [existsb prop obj_get truthy].
  eqb_consts. cbv iota. eqb_consts. cbn [andb orb].
  induction Hall as [|th lates Hth _ IH]; [done|]. cbn [existsb]. rewrite IH, orb_false_r.
  unfold isReasoningWithText in Hth.
  destruct (prop "type" th) as [[| | |ty| |]|]; try by rewrite andb_false_r.
  apply andb_true_iff in Hth as [Hty _]. apply String.eqb_eq in Hty. subst ty.
  eqb_consts. by rewrite andb_false_r.
Qed.

(** An assistant turn of a reasoning item, a text and reasoning items with
    text after it becomes the parts of the first two. *)
Lemma transformMessage_reasoning_text (xml forward : bool) (r sig t : string)
    (lates : list Json) (carry : Carry) :
  r <> "" -> t <> "" -> t <> "(no content)" ->
  Forall (fun th => isReasoningWithText th = true) lates ->
  transformMessage xml forward
    (message (JStr "assistant") (thinkingItem r sig :: textItem t :: lates)) carry
  = Some (Some {| role := Some (JStr "model");
                  parts := partsOfReasoningThenText forward r sig t |}, carry).
Proof.
  intros Hr Ht Hnc Hall.
  unfold transformMessage.
  change (message (JStr "assistant") (thinkingItem r sig :: textItem t :: lates)) with
    (JObj [("role", JStr "assistant");
           ("content", JArr (thinkingItem r sig :: textItem t :: lates))]).
  cbv iota beta.
  assert (envOf xml forward
            (JObj [("role", JStr "assistant");
                   ("content", JArr (thinkingItem r sig :: textItem t :: lates))])
          = {| env_role := Some (JStr "model");
               shouldForwardThoughtSignatures := forward; mcpXmlEnabled := xml;
               messageHasFunctionCallToolUse := false |}) as ->.
  { unfold envOf. cbn [prop obj_get]. eqb_consts. unfold backendRole. eqb_consts.
    by rewrite hasFunctionCallToolUse_reasoning. }
  cbn [prop obj_get]. eqb_consts. cbn [readContent].
  rewrite processItems_reasoning_text by done.
  rewrite processItems_late_reasonings by done.
  cbn [mbind option_bind]. unfold fallbackSignature, reorderResponses.
  cbn [pendingThoughtSignature st_parts isRole env_role]. eqb_consts. cbn [andb].
  unfold carryOf. cbn [toolIdToName ledger lastUserTaskTextNormalized].
  destruct carry as [names led task]. cbn [c_toolIdToName c_ledger c_lastUserTask].
  unfold partsOfReasoningThenText. by destruct forward.
Qed.


(** C6: in one message, once an item of type text, image, tool_use or
    tool_result has added a part, a later reasoning item with text is
    discarded: the message is transformed as if the item were not there.  In
    particular an assistant turn of a reasoning item, a text and any
    reasoning items with text after it becomes the parts of [reasoning, text]
    and nothing else. *)
Theorem late_reasoning_is_discarded (xml forward : bool) (carry : Carry) :
  (forall (role : Json) (pre mid post : list Json) (x th : Json) (s1 s2 : ItemState),
      processItems (envOf xml forward (message role (pre ++ x :: mid ++ th :: post)))
        pre (startMessage carry) = Some s1 ->
      processItem (envOf xml forward (message role (pre ++ x :: mid ++ th :: post)))
        x s1 = Some s2 ->
      isNonReasoningItem x = true ->
      length (st_parts s1) < length (st_parts s2) ->
      isReasoningWithText th = true ->
      transformMessage xml forward (message role (pre ++ x :: mid ++ th :: post)) carry
      = transformMessage xml forward (message role (pre ++ x :: mid ++ post)) carry)
  /\ (forall (r sig t : string) (lates : list Json),
        r <> "" -> t <> "" -> t <> "(no content)" ->
        Forall (fun th => isReasoningWithText th = true) lates ->
        transformMessage xml forward
          (message (JStr "assistant") (thinkingItem r sig :: textItem t :: lates)) carry
        = Some (Some {| role := Some (JStr "model");
                        parts := partsOfReasoningThenText forward r sig t |}, carry)).
Proof.
  split.
  - intros role pre mid post x th s1 s2. apply transformMessage_late_reasoning.
  - intros r sig t lates. apply transformMessage_reasoning_text.
Qed.

(** *** No signature is forwarded from outside the segment *)

(** A part with no [thoughtSignature] and without [thought: true]. *)
Definition unsigned (p : Part) : Prop := thoughtSignature p = None /\ thought p = false.

Definition unsignedParts (ps : list Part) : Prop := Forall unsigned ps.

Lemma unsignedParts_snoc ps p : unsignedParts ps -> unsigned p -> unsignedParts (ps ++ [p]).
Proof. intros H1 H2. apply Forall_app. split; [done|]. by constructor. Qed.

Lemma unsigned_textPart t : unsigned (textPart t).
Proof. done. Qed.

Lemma unsignedParts_inline ds : unsignedParts (map inlinePart ds).
Proof. induction ds; by constructor. Qed.

Ltac unsigned_step :=
  first [ done
        | match goal with H : _ && false = true |- _ => by rewrite andb_false_r in H end
        | apply unsignedParts_snoc; [|done]
        | apply Forall_app; split; [|apply unsignedParts_inline] ].

(** With forwarding off, no branch adds a signature or a thought flag. *)
Lemma dispatchItem_unsigned env item st :
  shouldForwardThoughtSignatures env = false ->
  unsignedParts (st_parts st) -> unsignedParts (st_parts (dispatchItem env item st)).
Proof.
  intros Hoff Hst. unfold dispatchItem.
  destruct (prop "type" item) as [[| | |ty| |]|]; try done.
  destruct (String.eqb ty "text").
  { unfold itemText. rewrite Hoff, andb_false_r. cbn [andb].
    repeat case_match; cbn; repeat unsigned_step. }
  destruct (String.eqb ty "thinking").
  { unfold itemThinking, holdSignature. rewrite Hoff.
    repeat case_match; cbn; repeat unsigned_step. }
  destruct (String.eqb ty "redacted_thinking").
  { unfold itemRedactedThinking. repeat case_match; cbn; repeat unsigned_step. }
  destruct (String.eqb ty "image").
  { unfold itemImage. repeat case_match; cbn; repeat unsigned_step. }
  destruct (String.eqb ty "tool_use").
  { destruct (rememberToolName_fields item st) as (_ & Hparts & _).
    unfold itemToolUse, itemToolUseXml, itemToolUseCall. rewrite Hoff, !andb_false_r.
    revert Hparts. generalize (rememberToolName item st). intros st1 Hparts.
    rewrite <- Hparts in Hst.
    repeat case_match; simplify_eq; cbn; repeat unsigned_step. }
  destruct (String.eqb ty "tool_result"); [|done].
  unfold itemToolResult.
  destruct (resolveToolName _ _) as [funcName unknown].
  destruct (extractInlineDataParts _) as [[contentText sanitized] inlineParts].
  cbn [st_parts setPreviousWasToolResult setSaw].
  rewrite (proj2 (pushParts_fields _ _)). cbn [st_parts pushPart].
  repeat case_match; repeat unsigned_step.
Qed.

Lemma processItems_unsigned env items : forall st st',
  shouldForwardThoughtSignatures env = false ->
  processItems env items st = Some st' ->
  unsignedParts (st_parts st) -> unsignedParts (st_parts st').
Proof.
  induction items as [|x items IH]; intros st st' Hoff H Hst.
  - by injection H as <-.
  - cbn [processItems] in H. destruct (processItem env x st) as [st1|] eqn:Hx; [|done].
    cbn [mbind option_bind] in H. apply processItem_Some in Hx as ->.
    eapply IH; [done..|]. by apply dispatchItem_unsigned.
Qed.

Lemma fallbackSignature_off env st :
  shouldForwardThoughtSignatures env = false -> fallbackSignature env st = st.
Proof. intros Hoff. unfold fallbackSignature. rewrite Hoff. by destruct (pendingThoughtSignature st). Qed.

Lemma splitResponses_Forall (P : Part -> Prop) ps : forall attached,
  Forall P ps ->
  Forall P (fst (splitResponses attached ps)) /\ Forall P (snd (splitResponses attached ps)).
Proof.
  induction ps as [|p ps IH]; intros attached Hps; [by split|].
  apply Forall_cons in Hps as [Hp Hps]. cbn [splitResponses].
  destruct (isSome (functionResponse p)).
  - destruct (IH true Hps) as [H1 H2]. destruct (splitResponses true ps). cbn in *.
    split; [by constructor|done].
  - destruct (attached && isSome (inlineData p)).
    + destruct (IH true Hps) as [H1 H2]. destruct (splitResponses true ps). cbn in *.
      split; [by constructor|done].
    + destruct (IH false Hps) as [H1 H2]. destruct (splitResponses false ps). cbn in *.
      split; [done|by constructor].
Qed.

Lemma reorderResponses_unsigned env ps :
  unsignedParts ps -> unsignedParts (reorderResponses env ps).
Proof.
  intros Hps. unfold reorderResponses.
  destruct (isRole "user" env && existsb _ ps); [|done].
  destruct (splitResponses_Forall unsigned ps false Hps) as [H1 H2].
  destruct (splitResponses false ps). apply Forall_app. by split.
Qed.

Definition unsignedContents (cs : list Content) : Prop :=
  Forall (fun c => unsignedParts (parts c)) cs.

Lemma readContent_unsigned env content st st' :
  shouldForwardThoughtSignatures env = false ->
  readContent env content st = Some st' ->
  unsignedParts (st_parts st) -> unsignedParts (st_parts st').
Proof.
  intros Hoff H Hst. unfold readContent in H.
  destruct content as [[| | |t|items|]|]; try by injection H as <-.
  - injection H as <-. repeat case_match; cbn; repeat unsigned_step.
  - by eapply processItems_unsigned.
Qed.

Lemma transformMessage_unsigned xml msg carry content carry' :
  transformMessage xml false msg carry = Some (content, carry') ->
  match content with Some c => unsignedParts (parts c) | None => True end.
Proof.
  intros H.
  assert (exists st,
             readContent (envOf xml false msg) (prop "content" msg) (startMessage carry)
             = Some st
             /\ content
                = match reorderResponses (envOf xml false msg)
                          (st_parts (fallbackSignature (envOf xml false msg) st)) with
                  | [] => None
                  | ps => Some {| role := env_role (envOf xml false msg); parts := ps |}
                  end) as (st & Hread & ->).
  { unfold transformMessage in H.
    destruct msg; try done;
      (destruct (readContent _ _ _) as [st|]; [|done]);
      cbn [mbind option_bind] in H; exists st; split; try done;
      injection H as <- _; by destruct (reorderResponses _ _). }
  rewrite fallbackSignature_off by done.
  assert (unsignedParts (reorderResponses (envOf xml false msg) (st_parts st))) as Hps.
  { apply reorderResponses_unsigned. eapply readContent_unsigned; [|done|]; [done|].
    constructor. }
  revert Hps. generalize (reorderResponses (envOf xml false msg) (st_parts st)).
  intros [|p ps] Hps; [done|exact Hps].
Qed.

Lemma shouldForward_before forwardByDefault start msgIndex :
  msgIndex < start -> shouldForward forwardByDefault (Some start) msgIndex = false.
Proof.
  intros H. unfold shouldForward.
  destruct (Nat.leb_spec start msgIndex); [lia|]. apply andb_false_r.
Qed.

(** No message before the start of the segment yields a signature. *)
Lemma transformMessages_unsigned xml forwardByDefault start messages :
  forall msgIndex carry contents contents' carry',
  msgIndex + length messages <= start ->
  unsignedContents contents ->
  transformMessages xml forwardByDefault (Some start) msgIndex messages carry contents
  = Some (contents', carry') ->
  unsignedContents contents'.
Proof.
  induction messages as [|msg rest IH]; intros msgIndex carry contents contents' carry' Hlen Hc H.
  - by injection H as <- _.
  - cbn [transformMessages] in H. cbn [length] in Hlen.
    rewrite shouldForward_before in H by lia.
    destruct (transformMessage xml false msg carry) as [[content carry1]|] eqn:Hmsg; [|done].
    cbn in H. apply transformMessage_unsigned in Hmsg.
    eapply IH in H; [done|lia|].
    destruct content as [c|]; [|done]. apply Forall_app. split; [done|]. by constructor.
Qed.

(** *** The transformation throws only on a [null] *)

Definition isNull (j : Json) : bool :=
  match j with JNull => true | _ => false end.

(** Neither the message nor an item of its content is [null]. *)
Definition readable (msg : Json) : bool :=
  negb (isNull msg)
  && match prop "content" msg with
     | Some (JArr items) => forallb (fun item => negb (isNull item)) items
     | _ => true
     end.

Lemma processItems_total env items : forall st,
  forallb (fun item => negb (isNull item)) items = true ->
  is_Some (processItems env items st).
Proof.
  induction items as [|x items IH]; intros st H; [done|].
  cbn [forallb] in H. apply andb_true_iff in H as [Hx H].
  cbn [processItems]. rewrite processItem_not_null by (by destruct x).
  cbn [mbind option_bind]. by apply IH.
Qed.

Lemma transformMessage_total xml forward msg carry :
  readable msg = true -> is_Some (transformMessage xml forward msg carry).
Proof.
  intros H. apply andb_true_iff in H as [Hmsg Hitems].
  assert (is_Some (readContent (envOf xml forward msg) (prop "content" msg)
                     (startMessage carry))) as [st Hst].
  { unfold readContent. destruct (prop "content" msg) as [[| | | |items|]|]; try done.
    by apply processItems_total. }
  unfold transformMessage. destruct msg; try done; rewrite Hst; done.
Qed.

Lemma transformMessages_total xml forwardByDefault segmentStart messages :
  forall msgIndex carry contents,
  forallb readable messages = true ->
  is_Some (transformMessages xml forwardByDefault segmentStart msgIndex messages carry contents).
Proof.
  induction messages as [|msg rest IH]; intros msgIndex carry contents H; [done|].
  cbn [forallb] in H. apply andb_true_iff in H as [Hmsg H].
  cbn [transformMessages].
  destruct (transformMessage_total xml
              (shouldForward forwardByDefault segmentStart msgIndex) msg carry Hmsg)
    as [[content carry1] ->].
  cbn. by apply IH.
Qed.

(** *** The retry with the substitute model *)

(** The [buildBody] of the retry:
    [transformClaudeRequestIn({ ...requestData, model: mcpModel }, projectId,
    { signatureSegmentStartIndex })]; of the body it builds, the [contents],
    which is where the parts of the messages go. *)
Definition retryContents (call : ClaudeApi.BackendCall) (ledger0 : Ledger)
  : option (list Content * Ledger) :=
  transformContents (ClaudeApi.bc_request call)
    {| forwardThoughtSignatures := None;
       signatureSegmentStartIndex := ClaudeApi.bc_signatureSegmentStartIndex call |}
    ledger0.

Lemma transformContents_unsigned req forward messages ledger0 contents ledger' :
  ClaudeApi.req_messages req = Some messages ->
  transformContents req
    {| forwardThoughtSignatures := forward;
       signatureSegmentStartIndex := Some (length messages) |} ledger0
  = Some (contents, ledger') ->
  unsignedContents contents.
Proof.
  intros Hmessages H. unfold transformContents in H. rewrite Hmessages in H.
  cbn [signatureSegmentStartIndex] in H.
  destruct (transformMessages _ _ _ _ _ _ _) as [[contents1 carry]|] eqn:Hloop; [|done].
  cbn in H. injection H as <- _.
  eapply transformMessages_unsigned in Hloop; [done|cbn; lia|constructor].
Qed.

Lemma transformContents_total req options ledger0 messages :
  ClaudeApi.req_messages req = Some messages ->
  forallb readable messages = true ->
  is_Some (transformContents req options ledger0).
Proof.
  intros Hmessages Hreadable. unfold transformContents. rewrite Hmessages.
  destruct (transformMessages_total (mcpXmlEnabledFor (ClaudeApi.req_tools req))
              (negb (bool_decide (forwardThoughtSignatures options = Some false)))
              (signatureSegmentStartIndex options) messages 0
              {| c_toolIdToName := []; c_ledger := ledger0; c_lastUserTask := None |} []
              Hreadable) as [[contents carry] ->].
  done.
Qed.

Section Retry.

Variable parseJson : string -> option Json.
Variable Decoder : Type.
Variable newDecoder : Decoder.
Variable decodeChunk : Decoder -> ClaudeApi.Chunk -> string * Decoder.
Variable decodeEnd : Decoder -> string.
Variable encode : string -> ClaudeApi.Chunk.

(** C3.  When the buffered first attempt asks for the switch and the
    request is sent again to the substitute model, the body of that call is
    built with [signatureSegmentStartIndex] equal to the number of messages of
    the request; the forwarding guard is then false at the index of every
    message, no part of the [contents] built has a [thoughtSignature] or
    [thought: true], and the [contents] are built whenever no message and no
    content item is [null]. *)
Theorem retry_forwards_no_signature (method queryString : string)
    (requestData : ClaudeApi.ClaudeRequest) (substitute : string)
    (convertedBody : option (list ClaudeApi.Chunk)) (shouldBufferForSwitch : bool)
    (call : ClaudeApi.BackendCall) (messages : list Json) (ledger0 : Ledger) :
  ClaudeApi.req_messages requestData = Some messages ->
  ClaudeApi.bufferForMcpSwitchAndMaybeRetry parseJson Decoder newDecoder decodeChunk
    decodeEnd encode method queryString requestData substitute convertedBody
    shouldBufferForSwitch = ClaudeApi.RetryWith call ->
  ClaudeApi.bc_signatureSegmentStartIndex call = Some (length messages)
  /\ ClaudeApi.req_messages (ClaudeApi.bc_request call) = Some messages
  /\ (forall forwardByDefault msgIndex, msgIndex < length messages ->
        shouldForward forwardByDefault (ClaudeApi.bc_signatureSegmentStartIndex call)
          msgIndex = false)
  /\ (forall contents ledger',
        retryContents call ledger0 = Some (contents, ledger') ->
        unsignedContents contents)
  /\ (forallb readable messages = true -> is_Some (retryContents call ledger0)).
Proof.
  intros Hmessages Hretry.
  assert (ClaudeApi.bc_signatureSegmentStartIndex call = Some (length messages)
          /\ ClaudeApi.req_messages (ClaudeApi.bc_request call) = Some messages)
    as [Hstart Hsame].
  { unfold ClaudeApi.bufferForMcpSwitchAndMaybeRetry in Hretry.
    destruct (negb shouldBufferForSwitch); [done|].
    destruct convertedBody as [chunks|]; [|done].
    destruct (negb _); [done|].
    injection Hretry as <-. cbn. unfold ClaudeApi.retrySegmentStartIndex.
    by rewrite Hmessages. }
  split_and!.
  - done.
  - done.
  - intros forwardByDefault msgIndex Hlt. rewrite Hstart. by apply shouldForward_before.
  - intros contents ledger' H. unfold retryContents in H. rewrite Hstart in H.
    by eapply transformContents_unsigned.
  - intros Hreadable. by eapply transformContents_total.
Qed.

End Retry.

(** *** Signatures start at the segment *)

(** The index of a message matters through the guard only. *)
Lemma transformMessages_guard xml forward1 start1 forward2 start2 messages :
  forall msgIndex carry contents,
  (forall i, msgIndex <= i < msgIndex + length messages ->
             shouldForward forward1 start1 i = shouldForward forward2 start2 i) ->
  transformMessages xml forward1 start1 msgIndex messages carry contents
  = transformMessages xml forward2 start2 msgIndex messages carry contents.
Proof.
  induction messages as [|msg rest IH]; intros msgIndex carry contents Hguard; [done|].
  cbn [transformMessages]. cbn [length] in Hguard.
  rewrite (Hguard msgIndex) by lia.
  destruct (transformMessage _ _ msg carry) as [[content carry1]|]; [|done].
  cbn. apply IH. intros i Hi. apply Hguard. lia.
Qed.

(** What the loop adds does not depend on what was pushed before. *)
Lemma transformMessages_acc xml forwardByDefault start messages :
  forall msgIndex carry contents,
  transformMessages xml forwardByDefault start msgIndex messages carry contents
  = match transformMessages xml forwardByDefault start msgIndex messages carry [] with
    | Some (added, carry') => Some (contents ++ added, carry')
    | None => None
    end.
Proof.
  induction messages as [|msg rest IH]; intros msgIndex carry contents.
  - cbn. by rewrite app_nil_r.
  - cbn [transformMessages].
    destruct (transformMessage _ _ msg carry) as [[content carry1]|]; [|done].
    cbn. destruct content as [c|]; [|apply IH].
    rewrite (IH _ _ (contents ++ [c])), (IH _ _ ([] ++ [c])).
    destruct (transformMessages _ _ _ _ rest carry1 []) as [[added carry']|]; [|done].
    by rewrite <- app_assoc.
Qed.

Lemma transformMessages_app xml forwardByDefault start pre post :
  forall msgIndex carry contents,
  transformMessages xml forwardByDefault start msgIndex (pre ++ post) carry contents
  = match transformMessages xml forwardByDefault start msgIndex pre carry contents with
    | Some (contents1, carry1) =>
        transformMessages xml forwardByDefault start (msgIndex + length pre) post
          carry1 contents1
    | None => None
    end.
Proof.
  induction pre as [|msg rest IH]; intros msgIndex carry contents.
  - cbn. by rewrite Nat.add_0_r.
  - cbn [app transformMessages length].
    destruct (transformMessage _ _ msg carry) as [[content carry1]|]; [|done].
    cbn. rewrite IH. by replace (S msgIndex + length rest) with (msgIndex + S (length rest)) by lia.
Qed.

Lemma shouldForward_off start msgIndex : shouldForward false start msgIndex = false.
Proof. done. Qed.

Lemma shouldForward_from forwardByDefault start msgIndex :
  start <= msgIndex ->
  shouldForward forwardByDefault (Some start) msgIndex
  = shouldForward forwardByDefault None msgIndex.
Proof. intros H. unfold shouldForward. by destruct (Nat.leb_spec start msgIndex); [|lia]. Qed.

Lemma transformMessages_off xml messages :
  forall msgIndex carry contents contents' carry',
  unsignedContents contents ->
  transformMessages xml false None msgIndex messages carry contents
  = Some (contents', carry') ->
  unsignedContents contents'.
Proof.
  intros msgIndex carry contents contents' carry' Hc H.
  rewrite (transformMessages_guard xml false None false
             (Some (msgIndex + length messages))) in H by done.
  by eapply transformMessages_unsigned in H.
Qed.

(** X4.  With [signatureSegmentStartIndex] at [length pre], the loop over
    the messages [pre ++ post] yields what it yields on [pre] with forwarding
    switched off, followed by what it yields on [post] as without a segment
    start; and with forwarding off no part has a [thoughtSignature] or
    [thought: true]. *)
Theorem signatures_start_at_segment (xml forwardByDefault : bool) (pre post : list Json)
    (carry : Carry) :
  transformMessages xml forwardByDefault (Some (length pre)) 0 (pre ++ post) carry []
  = match transformMessages xml false None 0 pre carry [] with
    | Some (before, carry1) =>
        match transformMessages xml forwardByDefault None (length pre) post carry1 [] with
        | Some (after, carry2) => Some (before ++ after, carry2)
        | None => None
        end
    | None => None
    end
  /\ (forall before carry1,
        transformMessages xml false None 0 pre carry [] = Some (before, carry1) ->
        unsignedContents before).
Proof.
  split.
  - rewrite transformMessages_app.
    rewrite (transformMessages_guard xml forwardByDefault (Some (length pre)) false None pre).
    + destruct (transformMessages xml false None 0 pre carry []) as [[before carry1]|];
        [|done].
      rewrite transformMessages_acc. cbn [Nat.add].
      by rewrite (transformMessages_guard xml forwardByDefault (Some (length pre))
                    forwardByDefault None post)
        by (intros i Hi; apply shouldForward_from; lia).
    + intros i Hi. rewrite shouldForward_off. apply shouldForward_before. lia.
  - intros before carry1 H. eapply transformMessages_off in H; [done|constructor].
Qed.

(** *** The shape of the contents *)

(** A content as the loop pushes it: it has a part, and its role is not
    [assistant]. *)
Definition pushedContent (c : Content) : Prop :=
  parts c <> [] /\ role c <> Some (JStr "assistant").

Lemma backendRole_not_assistant r : backendRole r <> Some (JStr "assistant").
Proof.
  unfold backendRole. destruct r as [[| | |r| |]|]; try done.
  destruct (String.eqb r "assistant") eqn:E; [done|].
  intros [= ->]. by vm_compute in E.
Qed.

Lemma transformMessage_pushed xml forward msg carry content carry' :
  transformMessage xml forward msg carry = Some (Some content, carry') ->
  pushedContent content.
Proof.
  intros H. unfold transformMessage in H.
  assert (exists st, content
                     = {| role := env_role (envOf xml forward msg);
                          parts := reorderResponses (envOf xml forward msg)
                                     (st_parts (fallbackSignature (envOf xml forward msg) st)) |}
                     /\ parts content <> []) as (st & -> & Hparts).
  { destruct msg; try done;
      (destruct (readContent _ _ _) as [st|]; [|done]);
      cbn [mbind option_bind] in H; exists st;
      (destruct (reorderResponses _ _) as [|p ps] eqn:E; [done|]);
      by injection H as <- _. }
  split; [done|]. apply backendRole_not_assistant.
Qed.

Lemma transformMessages_pushed xml forwardByDefault start messages :
  forall msgIndex carry contents contents' carry',
  transformMessages xml forwardByDefault start msgIndex messages carry contents
  = Some (contents', carry') ->
  Forall pushedContent contents ->
  Forall pushedContent contents'
  /\ length contents' <= length contents + length messages.
Proof.
  induction messages as [|msg rest IH]; intros msgIndex carry contents contents' carry' H Hc.
  - injection H as <- _. split; [done|lia].
  - cbn [transformMessages] in H.
    destruct (transformMessage _ _ msg carry) as [[content carry1]|] eqn:Hmsg; [|done].
    cbn in H. apply IH in H as [H1 H2].
    + split; [done|]. cbn [length]. destruct content; [rewrite length_app in H2; cbn in H2|]; lia.
    + destruct content as [c|]; [|done]. apply Forall_app. split; [done|].
      constructor; [|done]. by eapply transformMessage_pushed.
Qed.

(** X5.  Every content of the body built has at least one part and a role
    other than [assistant], and there are at most as many contents as
    messages: a message that yields no part is left out. *)
Theorem contents_are_pushed_contents (req : ClaudeApi.ClaudeRequest) (options : Options)
    (ledger0 : Ledger) (contents : list Content) (ledger' : Ledger) :
  transformContents req options ledger0 = Some (contents, ledger') ->
  Forall pushedContent contents
  /\ length contents <= length (default [] (ClaudeApi.req_messages req)).
Proof.
  unfold transformContents. intros H.
  destruct (ClaudeApi.req_messages req) as [messages|].
  - destruct (transformMessages _ _ _ _ _ _ _) as [[contents1 carry]|] eqn:Hloop; [|done].
    cbn in H. injection H as <- _.
    by apply transformMessages_pushed in Hloop.
  - injection H as <- _. by split.
Qed.

(** *** The shape of the parts *)

(** A part with one of [text], [functionCall], [functionResponse] and
    [inlineData]; if it has [thought: true] it is a text without a
    [thoughtSignature]; if it has a [thoughtSignature] it is a text or a
    [functionCall]. *)
Definition wellFormedPart (p : Part) : bool :=
  Nat.eqb (Nat.b2n (isSome (text p)) + Nat.b2n (isSome (functionCall p))
           + Nat.b2n (isSome (functionResponse p)) + Nat.b2n (isSome (inlineData p))) 1
  && (if thought p then isSome (text p) && negb (isSome (thoughtSignature p)) else true)
  && (if isSome (thoughtSignature p) then isSome (text p) || isSome (functionCall p)
      else true).

Definition wellFormedParts (ps : list Part) : Prop := Forall (fun p => wellFormedPart p = true) ps.

Lemma wellFormedParts_snoc ps p :
  wellFormedParts ps -> wellFormedPart p = true -> wellFormedParts (ps ++ [p]).
Proof. intros H1 H2. apply Forall_app. split; [done|]. by constructor. Qed.

Lemma wellFormedParts_inline ds : wellFormedParts (map inlinePart ds).
Proof. induction ds; by constructor. Qed.

Ltac wellFormed_step :=
  first [ done
        | apply wellFormedParts_snoc; [|cbn; by repeat case_match]
        | apply Forall_app; split; [|apply wellFormedParts_inline]
        | by repeat constructor ].

Lemma dispatchItem_wellFormed env item st :
  wellFormedParts (st_parts st) -> wellFormedParts (st_parts (dispatchItem env item st)).
Proof.
  intros Hst. unfold dispatchItem.
  destruct (prop "type" item) as [[| | |ty| |]|]; try done.
  destruct (String.eqb ty "text").
  { unfold itemText. repeat case_match; cbn; repeat wellFormed_step. }
  destruct (String.eqb ty "thinking").
  { unfold itemThinking, holdSignature. repeat case_match; cbn; repeat wellFormed_step. }
  destruct (String.eqb ty "redacted_thinking").
  { unfold itemRedactedThinking. repeat case_match; cbn; repeat wellFormed_step. }
  destruct (String.eqb ty "image").
  { unfold itemImage. repeat case_match; cbn; repeat wellFormed_step. }
  destruct (String.eqb ty "tool_use").
  { destruct (rememberToolName_fields item st) as (_ & Hparts & _).
    unfold itemToolUse, itemToolUseXml, itemToolUseCall.
    revert Hparts. generalize (rememberToolName item st). intros st1 Hparts.
    rewrite <- Hparts in Hst.
    repeat case_match; simplify_eq; cbn; repeat wellFormed_step. }
  destruct (String.eqb ty "tool_result"); [|done].
  unfold itemToolResult.
  destruct (resolveToolName _ _) as [funcName unknown].
  destruct (extractInlineDataParts _) as [[contentText sanitized] inlineParts].
  cbn [st_parts setPreviousWasToolResult setSaw].
  rewrite (proj2 (pushParts_fields _ _)). cbn [st_parts pushPart].
  repeat case_match; repeat wellFormed_step.
Qed.

Lemma processItems_wellFormed env items : forall st st',
  processItems env items st = Some st' ->
  wellFormedParts (st_parts st) -> wellFormedParts (st_parts st').
Proof.
  induction items as [|x items IH]; intros st st' H Hst.
  - by injection H as <-.
  - cbn [processItems] in H. destruct (processItem env x st) as [st1|] eqn:Hx; [|done].
    cbn [mbind option_bind] in H. apply processItem_Some in Hx as ->.
    eapply IH; [done|]. by apply dispatchItem_wellFormed.
Qed.

(** The fallback signs a [functionCall] or a text that is no thought. *)
Lemma attachBackwards_wellFormed sig backwards :
  wellFormedParts backwards -> wellFormedParts (fst (attachBackwards sig backwards)).
Proof.
  induction backwards as [|p rest IH]; intros H; [done|].
  apply Forall_cons in H as [Hp Hrest]. specialize (IH Hrest).
  cbn [attachBackwards].
  destruct (attachBackwards sig rest) as [rest' placed]. cbn [fst] in IH.
  destruct p as [[t|] th [s|] [fc|] [fr|] [d|]]; cbn in Hp |- *; try done;
    repeat case_match; cbn; try (by constructor); destruct th; by constructor.
Qed.

Lemma fallbackSignature_wellFormed env st :
  wellFormedParts (st_parts st) -> wellFormedParts (st_parts (fallbackSignature env st)).
Proof.
  intros Hst. unfold fallbackSignature.
  destruct (pendingThoughtSignature st) as [sig|]; [|done].
  destruct (_ && _); [|done].
  assert (wellFormedParts (rev (fst (attachBackwards sig (rev (st_parts st)))))) as H.
  { apply Forall_rev, attachBackwards_wellFormed. by apply Forall_rev. }
  destruct (attachBackwards sig (rev (st_parts st))) as [backwards placed].
  by destruct placed.
Qed.

Lemma reorderResponses_wellFormed env ps :
  wellFormedParts ps -> wellFormedParts (reorderResponses env ps).
Proof.
  intros Hps. unfold reorderResponses.
  destruct (isRole "user" env && existsb _ ps); [|done].
  destruct (splitResponses_Forall (fun p => wellFormedPart p = true) ps false Hps) as [H1 H2].
  destruct (splitResponses false ps). apply Forall_app. by split.
Qed.

Lemma transformMessage_wellFormed xml forward msg carry content carry' :
  transformMessage xml forward msg carry = Some (Some content, carry') ->
  wellFormedParts (parts content).
Proof.
  intros H. unfold transformMessage in H.
  assert (exists st,
             readContent (envOf xml forward msg) (prop "content" msg) (startMessage carry)
             = Some st
             /\ parts content
                = reorderResponses (envOf xml forward msg)
                    (st_parts (fallbackSignature (envOf xml forward msg) st)))
    as (st & Hread & ->).
  { destruct msg; try done;
      (destruct (readContent _ _ _) as [st|]; [|done]);
      cbn [mbind option_bind] in H; exists st; (split; [done|]);
      (destruct (reorderResponses _ _) as [|p ps] eqn:E; [done|]);
      by injection H as <- _. }
  apply reorderResponses_wellFormed, fallbackSignature_wellFormed.
  clear H. unfold readContent in Hread.
  assert (wellFormedParts (st_parts (startMessage carry))) as Hstart by constructor.
  destruct (prop "content" msg) as [[| | |t|items|]|]; try (by injection Hread as <-).
  - injection Hread as <-. repeat case_match; cbn; repeat wellFormed_step.
  - by eapply processItems_wellFormed.
Qed.

Lemma transformMessages_wellFormed xml forwardByDefault start messages :
  forall msgIndex carry contents contents' carry',
  transformMessages xml forwardByDefault start msgIndex messages carry contents
  = Some (contents', carry') ->
  Forall (fun c => wellFormedParts (parts c)) contents ->
  Forall (fun c => wellFormedParts (parts c)) contents'.
Proof.
  induction messages as [|msg rest IH]; intros msgIndex carry contents contents' carry' H Hc.
  - by injection H as <- _.
  - cbn [transformMessages] in H.
    destruct (transformMessage _ _ msg carry) as [[content carry1]|] eqn:Hmsg; [|done].
    cbn in H. eapply IH in H; [done|].
    destruct content as [c|]; [|done]. apply Forall_app. split; [done|].
    constructor; [|done]. by eapply transformMessage_wellFormed.
Qed.

(** X6.  Whatever the request and the options, every part of the contents
    built holds exactly one of [text], [functionCall], [functionResponse] and
    [inlineData]; a part with [thought: true] is a text and never carries a
    [thoughtSignature]; a [thoughtSignature] sits on a text or a
    [functionCall] only. *)
Theorem parts_are_well_formed (req : ClaudeApi.ClaudeRequest) (options : Options)
    (ledger0 : Ledger) (contents : list Content) (ledger' : Ledger) :
  transformContents req options ledger0 = Some (contents, ledger') ->
  Forall (fun c => wellFormedParts (parts c)) contents.
Proof.
  unfold transformContents. intros H.
  destruct (ClaudeApi.req_messages req) as [messages|].
  - destruct (transformMessages _ _ _ _ _ _ _) as [[contents1 carry]|] eqn:Hloop; [|done].
    cbn in H. injection H as <- _.
    by eapply transformMessages_wellFormed in Hloop.
  - by injection H as <- _.
Qed.

(** *** Tool results first *)

Definition isResponseOrData (p : Part) : bool :=
  isSome (functionResponse p) || isSome (inlineData p).

Definition isNoResponse (p : Part) : bool := negb (isSome (functionResponse p)).

Lemma splitResponses_spec ps : forall attached,
  fst (splitResponses attached ps) ++ snd (splitResponses attached ps) ≡ₚ ps
  /\ forallb isResponseOrData (fst (splitResponses attached ps)) = true
  /\ forallb isNoResponse (snd (splitResponses attached ps)) = true
  /\ fst (splitResponses attached ps) `sublist_of` ps
  /\ snd (splitResponses attached ps) `sublist_of` ps.
Proof.
  induction ps as [|p ps IH]; intros attached; [by cbn|].
  cbn [splitResponses]. unfold isResponseOrData, isNoResponse in *.
  destruct (isSome (functionResponse p)) eqn:Hresp.
  - destruct (IH true) as (H1 & H2 & H3 & H4 & H5).
    destruct (splitResponses true ps) as [reordered deferred]. cbn [fst snd] in *.
    split_and!.
    + by constructor.
    + cbn [forallb]. by rewrite Hresp.
    + done.
    + by apply sublist_skip.
    + by apply sublist_cons.
  - destruct (attached && isSome (inlineData p)) eqn:Hdata.
    + apply andb_true_iff in Hdata as [_ Hdata].
      destruct (IH true) as (H1 & H2 & H3 & H4 & H5).
      destruct (splitResponses true ps) as [reordered deferred]. cbn [fst snd] in *.
      split_and!.
      * by constructor.
      * cbn [forallb]. by rewrite Hdata, orb_true_r.
      * done.
      * by apply sublist_skip.
      * by apply sublist_cons.
    + destruct (IH false) as (H1 & H2 & H3 & H4 & H5).
      destruct (splitResponses false ps) as [reordered deferred]. cbn [fst snd] in *.
      split_and!.
      * by rewrite <- Permutation_middle, H1.
      * done.
      * cbn [forallb]. by rewrite Hresp.
      * by apply sublist_cons.
      * by apply sublist_skip.
Qed.

(** X8.  The reordering of the parts of a message loses and doubles nothing;
    it touches user messages only, and there the result is a front of
    [functionResponse] and [inlineData] parts followed by a back without any
    [functionResponse], each in the order the parts had. *)
Theorem responses_come_first (env : MessageEnv) (ps : list Part) :
  reorderResponses env ps ≡ₚ ps
  /\ (isRole "user" env = false -> reorderResponses env ps = ps)
  /\ exists front back,
       reorderResponses env ps = front ++ back
       /\ (isRole "user" env = true ->
             forallb isResponseOrData front = true /\ forallb isNoResponse back = true)
       /\ front `sublist_of` ps /\ back `sublist_of` ps.
Proof.
  unfold reorderResponses.
  destruct (splitResponses_spec ps false) as (H1 & H2 & H3 & H4 & H5).
  destruct (isRole "user" env) eqn:Hrole; cbn [andb].
  - destruct (existsb (fun p => isSome (functionResponse p)) ps) eqn:Hany.
    + destruct (splitResponses false ps) as [reordered deferred]. cbn [fst snd] in *.
      split_and!; [done|done|]. by exists reordered, deferred.
    + split_and!; [done|done|]. exists [], ps. split_and!.
      * done.
      * intros _. split; [done|]. apply forallb_forall. intros p Hp.
        unfold isNoResponse. destruct (isSome (functionResponse p)) eqn:E; [|done].
        assert (existsb (fun p => isSome (functionResponse p)) ps = true) as Hex
          by (apply existsb_exists; by exists p).
        by rewrite Hex in Hany.
      * apply sublist_nil_l.
      * done.
  - split_and!; [done|done|]. exists [], ps. split_and!; [done|done|apply sublist_nil_l|done].
Qed.

(** *** A tool result takes the name of its call *)

(** A [tool_use] item with the id [id], and one that also has the name
    [name]. *)
Definition isToolUseWithId (id : string) (item : Json) : bool :=
  match prop "type" item, prop "id" item with
  | Some (JStr ty), Some (JStr i) => String.eqb ty "tool_use" && String.eqb i id
  | _, _ => false
  end.

Definition isToolUseOf (id name : string) (item : Json) : bool :=
  isToolUseWithId id item
  && match prop "name" item with Some (JStr n) => String.eqb n name | _ => false end.

(** A [tool_result] item with the [tool_use_id] [id]. *)
Definition isToolResultFor (id : string) (item : Json) : bool :=
  match prop "type" item, prop "tool_use_id" item with
  | Some (JStr ty), Some (JStr i) => String.eqb ty "tool_result" && String.eqb i id
  | _, _ => false
  end.

(** The items of a message whose content is an array. *)
Definition itemsOf (msg : Json) : list Json :=
  match prop "content" msg with Some (JArr items) => items | _ => [] end.

(** No item of the message is a [tool_use] with the id [id]. *)
Definition keepsName (id : string) (msg : Json) : bool :=
  forallb (fun item => negb (isToolUseWithId id item)) (itemsOf msg).

(** A [functionResponse] part with the name [name] for the id [id]. *)
Definition respondsAs (id name : string) (p : Part) : Prop :=
  exists fr, functionResponse p = Some fr
             /\ fr_name fr = Some (JStr name) /\ fr_id fr = Some (JStr id).

Lemma rememberToolName_set id name item st :
  isToolUseOf id name item = true -> id <> "" -> name <> "" ->
  toolNameOf (JStr id) (toolIdToName (rememberToolName item st)) = Some (JStr name).
Proof.
  unfold isToolUseOf, isToolUseWithId, rememberToolName. intros H Hid Hname.
  destruct (prop "type" item) as [[| | |ty| |]|]; try done.
  destruct (prop "id" item) as [[| | |i| |]|]; try done.
  destruct (prop "name" item) as [[| | |n| |]|]; try (by rewrite andb_false_r in H).
  apply andb_true_iff in H as [H Hn]. apply andb_true_iff in H as [_ Hi].
  apply String.eqb_eq in Hn as ->. apply String.eqb_eq in Hi as ->.
  cbn [truthy]. apply String.eqb_neq in Hid, Hname. rewrite Hid, Hname. cbn.
  unfold sameKey. cbn. by rewrite String.eqb_refl.
Qed.

Lemma rememberToolName_frame id item st :
  isToolUseWithId id item = false ->
  match prop "type" item with Some (JStr ty) => String.eqb ty "tool_use" | _ => false end
  = true ->
  toolNameOf (JStr id) (toolIdToName (rememberToolName item st))
  = toolNameOf (JStr id) (toolIdToName st).
Proof.
  unfold isToolUseWithId, rememberToolName. intros H Hty.
  destruct (prop "type" item) as [[| | |ty| |]|]; try done. rewrite Hty in H.
  destruct (prop "id" item) as [i|]; [|done].
  destruct (prop "name" item) as [n|]; [|done].
  destruct (truthy i && truthy n); [|done].
  cbn. unfold sameKey. destruct i as [| | |i| |]; try done.
  cbn in H |- *. by rewrite String.eqb_sym, H.
Qed.

(** Only a [tool_use] item writes to the table of names. *)
Lemma dispatchItem_names env item st :
  toolIdToName (dispatchItem env item st)
  = if match prop "type" item with
       | Some (JStr ty) => String.eqb ty "tool_use"
       | _ => false
       end
    then toolIdToName (rememberToolName item st)
    else toolIdToName st.
Proof.
  unfold dispatchItem.
  destruct (prop "type" item) as [[| | |ty| |]|]; try done.
  destruct (String.eqb ty "text") eqn:E1.
  { apply String.eqb_eq in E1 as ->. eqb_consts. unfold itemText. by repeat case_match. }
  destruct (String.eqb ty "thinking") eqn:E2.
  { apply String.eqb_eq in E2 as ->. eqb_consts. unfold itemThinking, holdSignature.
    by repeat case_match. }
  destruct (String.eqb ty "redacted_thinking") eqn:E3.
  { apply String.eqb_eq in E3 as ->. eqb_consts. unfold itemRedactedThinking.
    by repeat case_match. }
  destruct (String.eqb ty "image") eqn:E4.
  { apply String.eqb_eq in E4 as ->. eqb_consts. unfold itemImage. by repeat case_match. }
  destruct (String.eqb ty "tool_use") eqn:E5.
  { unfold itemToolUse, itemToolUseXml, itemToolUseCall.
    generalize (rememberToolName item st). intros st1.
    repeat case_match; simplify_eq; cbn; done. }
  destruct (String.eqb ty "tool_result"); [|done].
  unfold itemToolResult.
  destruct (resolveToolName _ _) as [funcName unknown].
  destruct (extractInlineDataParts _) as [[contentText sanitized] inlineParts].
  cbn [toolIdToName setPreviousWasToolResult setSaw].
  generalize (map inlinePart inlineParts). intros ps.
  match goal with |- toolIdToName (pushParts ps ?s) = _ =>
    assert (forall l s0, toolIdToName (pushParts l s0) = toolIdToName s0) as Hpush
  end.
  { induction l as [|x l IH]; intros s0; [done|]. cbn [pushParts foldl].
    fold (pushParts l (pushPart x s0)). by rewrite IH. }
  by rewrite Hpush.
Qed.

Lemma dispatchItem_names_frame env id item st :
  isToolUseWithId id item = false ->
  toolNameOf (JStr id) (toolIdToName (dispatchItem env item st))
  = toolNameOf (JStr id) (toolIdToName st).
Proof.
  intros H. rewrite dispatchItem_names.
  destruct (match prop "type" item with
            | Some (JStr ty) => String.eqb ty "tool_use"
            | _ => false
            end) eqn:Hty; [|done].
  by apply rememberToolName_frame.
Qed.

Lemma dispatchItem_names_set env id name item st :
  isToolUseOf id name item = true -> id <> "" -> name <> "" ->
  toolNameOf (JStr id) (toolIdToName (dispatchItem env item st)) = Some (JStr name).
Proof.
  intros H Hid Hname. rewrite dispatchItem_names.
  assert (match prop "type" item with
          | Some (JStr ty) => String.eqb ty "tool_use"
          | _ => false
          end = true) as ->.
  { unfold isToolUseOf, isToolUseWithId in H.
    destruct (prop "type" item) as [[| | |ty| |]|]; try done.
    destruct (prop "id" item) as [[| | |i| |]|]; try done.
    apply andb_true_iff in H as [H _]. by apply andb_true_iff in H as [H _]. }
  by apply rememberToolName_set.
Qed.

Lemma processItems_names_frame env id items : forall st st',
  forallb (fun item => negb (isToolUseWithId id item)) items = true ->
  processItems env items st = Some st' ->
  toolNameOf (JStr id) (toolIdToName st') = toolNameOf (JStr id) (toolIdToName st).
Proof.
  induction items as [|x items IH]; intros st st' Hno H.
  - by injection H as <-.
  - cbn [forallb] in Hno. apply andb_true_iff in Hno as [Hx Hno].
    cbn [processItems] in H. destruct (processItem env x st) as [st1|] eqn:E; [|done].
    cbn [mbind option_bind] in H. apply processItem_Some in E as ->.
    rewrite (IH _ _ Hno H). apply dispatchItem_names_frame. by apply negb_true_iff.
Qed.

(** What one turn of the loop over the messages is made of. *)
Lemma transformMessage_inv xml forward msg carry content carry' :
  transformMessage xml forward msg carry = Some (content, carry') ->
  exists st,
    readContent (envOf xml forward msg) (prop "content" msg) (startMessage carry) = Some st
    /\ carry' = carryOf (fallbackSignature (envOf xml forward msg) st)
    /\ content
       = match reorderResponses (envOf xml forward msg)
                 (st_parts (fallbackSignature (envOf xml forward msg) st)) with
         | [] => None
         | _ :: _ =>
             Some {| role := env_role (envOf xml forward msg);
                     parts := reorderResponses (envOf xml forward msg)
                                (st_parts (fallbackSignature (envOf xml forward msg) st)) |}
         end.
Proof.
  intros H. unfold transformMessage in H.
  destruct msg; try done;
    (destruct (readContent _ _ _) as [st|]; [|done]);
    cbn [mbind option_bind] in H; exists st; by injection H as <- <-.
Qed.

Lemma fallbackSignature_names env st :
  toolIdToName (fallbackSignature env st) = toolIdToName st.
Proof.
  unfold fallbackSignature. destruct (pendingThoughtSignature st); [|done].
  destruct (_ && _); [|done]. destruct (attachBackwards _ _) as [backwards []]; done.
Qed.

Lemma readContent_names_frame env id msg st st' :
  keepsName id msg = true ->
  readContent env (prop "content" msg) st = Some st' ->
  toolNameOf (JStr id) (toolIdToName st') = toolNameOf (JStr id) (toolIdToName st).
Proof.
  unfold keepsName, itemsOf, readContent. intros Hno H.
  destruct (prop "content" msg) as [[| | |t|items|]|]; try by injection H as <-.
  - injection H as <-. by repeat case_match.
  - by eapply processItems_names_frame.
Qed.

Lemma transformMessage_names_frame xml forward id msg carry content carry' :
  keepsName id msg = true ->
  transformMessage xml forward msg carry = Some (content, carry') ->
  toolNameOf (JStr id) (c_toolIdToName carry') = toolNameOf (JStr id) (c_toolIdToName carry).
Proof.
  intros Hno (st & Hread & -> & _)%transformMessage_inv.
  cbn [carryOf c_toolIdToName]. rewrite fallbackSignature_names.
  by rewrite (readContent_names_frame _ _ _ _ _ Hno Hread).
Qed.

Lemma transformMessages_names_frame xml forwardByDefault start id messages :
  forall msgIndex carry contents contents' carry',
  forallb (keepsName id) messages = true ->
  transformMessages xml forwardByDefault start msgIndex messages carry contents
  = Some (contents', carry') ->
  toolNameOf (JStr id) (c_toolIdToName carry') = toolNameOf (JStr id) (c_toolIdToName carry).
Proof.
  induction messages as [|msg rest IH]; intros msgIndex carry contents contents' carry' Hno H.
  - by injection H as _ <-.
  - cbn [forallb] in Hno. apply andb_true_iff in Hno as [Hmsg Hno].
    cbn [transformMessages] in H.
    destruct (transformMessage _ _ msg carry) as [[content carry1]|] eqn:E; [|done].
    cbn in H. rewrite (IH _ _ _ _ _ Hno H).
    by eapply transformMessage_names_frame.
Qed.

Lemma itemsOf_content msg x items :
  itemsOf msg = x :: items -> prop "content" msg = Some (JArr (x :: items)).
Proof.
  unfold itemsOf. destruct (prop "content" msg) as [[| | | |l|]|]; try done. by intros ->.
Qed.

Lemma itemsOf_content_app msg a x b :
  itemsOf msg = a ++ x :: b -> prop "content" msg = Some (JArr (a ++ x :: b)).
Proof. destruct a; apply itemsOf_content. Qed.

Lemma transformMessage_names_set xml forward id name msg a use b carry content carry' :
  id <> "" -> name <> "" ->
  itemsOf msg = a ++ use :: b ->
  isToolUseOf id name use = true ->
  forallb (fun item => negb (isToolUseWithId id item)) b = true ->
  transformMessage xml forward msg carry = Some (content, carry') ->
  toolNameOf (JStr id) (c_toolIdToName carry') = Some (JStr name).
Proof.
  intros Hid Hname Hitems Huse Hb (st & Hread & -> & _)%transformMessage_inv.
  cbn [carryOf c_toolIdToName]. rewrite fallbackSignature_names.
  rewrite (itemsOf_content_app _ _ _ _ Hitems) in Hread. cbn [readContent] in Hread.
  rewrite processItems_app in Hread.
  destruct (processItems _ a _) as [st1|]; [|done]. cbn [mbind option_bind] in Hread.
  cbn [processItems] in Hread.
  destruct (processItem _ use st1) as [st2|] eqn:E; [|done].
  cbn [mbind option_bind] in Hread. apply processItem_Some in E as ->.
  rewrite (processItems_names_frame _ _ _ _ _ Hb Hread).
  by apply dispatchItem_names_set.
Qed.

(** Every branch adds parts at the end and leaves the others alone. *)
Lemma dispatchItem_appends env item st :
  exists added, st_parts (dispatchItem env item st) = st_parts st ++ added.
Proof.
  assert (forall ps : list Part, exists added, ps = ps ++ added) as Hsame
    by (intros ps; exists []; by rewrite app_nil_r).
  unfold dispatchItem.
  destruct (prop "type" item) as [[| | |ty| |]|]; try done.
  destruct (String.eqb ty "text").
  { unfold itemText. repeat case_match; cbn; first [done|by eexists]. }
  destruct (String.eqb ty "thinking").
  { unfold itemThinking, holdSignature. repeat case_match; cbn; first [done|by eexists]. }
  destruct (String.eqb ty "redacted_thinking").
  { unfold itemRedactedThinking. repeat case_match; cbn; first [done|by eexists]. }
  destruct (String.eqb ty "image").
  { unfold itemImage. repeat case_match; cbn; first [done|by eexists]. }
  destruct (String.eqb ty "tool_use").
  { destruct (rememberToolName_fields item st) as (_ & Hparts & _).
    unfold itemToolUse, itemToolUseXml, itemToolUseCall.
    revert Hparts. generalize (rememberToolName item st). intros st1 Hparts.
    rewrite <- Hparts.
    repeat case_match; simplify_eq; cbn; first [done|by eexists]. }
  destruct (String.eqb ty "tool_result"); [|done].
  unfold itemToolResult.
  destruct (resolveToolName _ _) as [funcName unknown].
  destruct (extractInlineDataParts _) as [[contentText sanitized] inlineParts].
  cbn [st_parts setPreviousWasToolResult setSaw].
  rewrite (proj2 (pushParts_fields _ _)). cbn [st_parts pushPart].
  rewrite <- app_assoc. by eexists.
Qed.

Lemma processItems_appends env items : forall st st',
  processItems env items st = Some st' ->
  exists added, st_parts st' = st_parts st ++ added.
Proof.
  induction items as [|x items IH]; intros st st' H.
  - injection H as <-. exists []. by rewrite app_nil_r.
  - cbn [processItems] in H. destruct (processItem env x st) as [st1|] eqn:E; [|done].
    cbn [mbind option_bind] in H. apply processItem_Some in E as ->.
    destruct (IH _ _ H) as [added2 ->].
    destruct (dispatchItem_appends env x st) as [added1 ->].
    exists (added1 ++ added2). by rewrite app_assoc.
Qed.

(** A part that is neither a text nor a call, and is not signed. *)
Definition isPlainData (p : Part) : Prop :=
  text p = None /\ functionCall p = None /\ thoughtSignature p = None.

Lemma dispatchItem_result env id name result st :
  isToolResultFor id result = true ->
  toolNameOf (JStr id) (toolIdToName st) = Some (JStr name) ->
  name <> "" ->
  mcpXmlEnabled env = false ->
  exists p rest,
    st_parts (dispatchItem env result st) = st_parts st ++ p :: rest
    /\ respondsAs id name p /\ isPlainData p.
Proof.
  intros Hres Hlookup Hname Hxml. unfold isToolResultFor in Hres. unfold dispatchItem.
  destruct (prop "type" result) as [[| | |ty| |]|]; try done.
  destruct (prop "tool_use_id" result) as [[| | |i| |]|] eqn:Hid; try done.
  apply andb_true_iff in Hres as [Hty Hi].
  apply String.eqb_eq in Hty as ->. apply String.eqb_eq in Hi as ->. eqb_consts.
  unfold itemToolResult. rewrite Hid. unfold resolveToolName. rewrite Hlookup.
  cbn [truthy]. apply String.eqb_neq in Hname. rewrite Hname. cbn [negb].
  destruct (extractInlineDataParts _) as [[contentText sanitized] inlineParts].
  rewrite Hxml. cbn [andb st_parts setPreviousWasToolResult setSaw].
  rewrite (proj2 (pushParts_fields _ _)). cbn [st_parts pushPart].
  rewrite <- app_assoc. eexists _, _. split; [reflexivity|].
  split; [|done]. eexists. by split.
Qed.

Lemma attachBackwards_keeps sig backwards p :
  p ∈ backwards -> isPlainData p -> p ∈ fst (attachBackwards sig backwards).
Proof.
  intros Hin (Htext & Hcall & Hsig).
  induction backwards as [|q rest IH]; [done|].
  cbn [attachBackwards]. apply elem_of_cons in Hin.
  destruct (attachBackwards sig rest) as [rest' placed]. cbn [fst] in IH.
  destruct (isSome (thoughtSignature q)) eqn:Esig.
  { cbn. destruct Hin as [->|Hin]; [left|right; by apply IH]. }
  destruct (isSome (functionCall q)) eqn:Ecall.
  { cbn. destruct Hin as [->|Hin]; [by rewrite Hcall in Ecall|by right]. }
  destruct (text q) as [t|] eqn:Etext.
  - destruct (negb (thought q) && negb (String.eqb t "")).
    + cbn. destruct Hin as [->|Hin]; [by rewrite Htext in Etext|by right].
    + cbn. destruct Hin as [->|Hin]; [left|right; by apply IH].
  - cbn. destruct Hin as [->|Hin]; [left|right; by apply IH].
Qed.

Lemma fallbackSignature_keeps env st p :
  p ∈ st_parts st -> isPlainData p -> p ∈ st_parts (fallbackSignature env st).
Proof.
  intros Hin Hp. unfold fallbackSignature.
  destruct (pendingThoughtSignature st) as [sig|]; [|done].
  destruct (_ && _); [|done].
  assert (p ∈ rev (fst (attachBackwards sig (rev (st_parts st))))) as H.
  { apply list_elem_of_In, in_rev. rewrite rev_involutive. apply list_elem_of_In.
    apply attachBackwards_keeps; [|done].
    apply list_elem_of_In, in_rev. rewrite rev_involutive. by apply list_elem_of_In. }
  destruct (attachBackwards sig (rev (st_parts st))) as [backwards placed].
  by destruct placed.
Qed.

Lemma reorderResponses_perm env ps : reorderResponses env ps ≡ₚ ps.
Proof.
  unfold reorderResponses. destruct (_ && _); [|done].
  destruct (splitResponses_spec ps false) as (H & _).
  by destruct (splitResponses false ps).
Qed.

(** A message with a [tool_result] for an id whose name is known, with the
    bridge off: the content it yields has a [functionResponse] part with
    that name. *)
Lemma transformMessage_result forward id name msg c result d carry content carry' :
  name <> "" ->
  toolNameOf (JStr id) (c_toolIdToName carry) = Some (JStr name) ->
  itemsOf msg = c ++ result :: d ->
  forallb (fun item => negb (isToolUseWithId id item)) c = true ->
  isToolResultFor id result = true ->
  transformMessage false forward msg carry = Some (content, carry') ->
  exists cont p, content = Some cont /\ p ∈ parts cont /\ respondsAs id name p.
Proof.
  intros Hname Hlookup Hitems Hc Hres (st & Hread & _ & ->)%transformMessage_inv.
  rewrite (itemsOf_content_app _ _ _ _ Hitems) in Hread. cbn [readContent] in Hread.
  rewrite processItems_app in Hread.
  destruct (processItems _ c _) as [st1|] eqn:Hst1; [|done].
  cbn [mbind option_bind processItems] in Hread.
  destruct (processItem _ result st1) as [st2|] eqn:E; [|done].
  cbn [mbind option_bind] in Hread. apply processItem_Some in E as ->.
  pose proof (processItems_names_frame _ _ _ _ _ Hc Hst1) as Hsame.
  cbn [startMessage toolIdToName] in Hsame. rewrite Hlookup in Hsame.
  destruct (dispatchItem_result (envOf false forward msg) id name result st1 Hres Hsame
              Hname eq_refl) as (p & rest & Hparts & Hp & Hplain).
  destruct (processItems_appends _ _ _ _ Hread) as [added Hadded].
  assert (p ∈ reorderResponses (envOf false forward msg)
                (st_parts (fallbackSignature (envOf false forward msg) st))) as Hin.
  { rewrite reorderResponses_perm. apply fallbackSignature_keeps; [|done].
    rewrite Hadded, Hparts. set_solver. }
  destruct (reorderResponses _ _) as [|q ps] eqn:Eparts; [by apply elem_of_nil in Hin|].
  eexists _, p. split; [reflexivity|]. by split.
Qed.

(** X7.  A [tool_result] takes the name of its call: when a message holds a
    [tool_use] item with a non-empty id and name, no later [tool_use] item up
    to the result has the same id, and a later message holds a [tool_result]
    item for that id, then, the bridge being off, the last content built has a
    [functionResponse] part with that name and that id. *)
Theorem tool_result_takes_the_name_of_its_call (forwardByDefault : bool)
    (start : option nat) (msgIndex : nat) (callMsg resultMsg : Json) (mid : list Json)
    (a b c d : list Json) (use result : Json) (id name : string)
    (carry : Carry) (contents contents' : list Content) (carry' : Carry) :
  id <> "" -> name <> "" ->
  itemsOf callMsg = a ++ use :: b ->
  isToolUseOf id name use = true ->
  forallb (fun item => negb (isToolUseWithId id item)) b = true ->
  forallb (keepsName id) mid = true ->
  itemsOf resultMsg = c ++ result :: d ->
  forallb (fun item => negb (isToolUseWithId id item)) c = true ->
  isToolResultFor id result = true ->
  transformMessages false forwardByDefault start msgIndex
    (callMsg :: mid ++ [resultMsg]) carry contents = Some (contents', carry') ->
  exists content p,
    last contents' = Some content /\ p ∈ parts content /\ respondsAs id name p.
Proof.
  intros Hid Hname Hcall Huse Hb Hmid Hresult Hc Hres H.
  cbn [transformMessages] in H.
  destruct (transformMessage _ _ callMsg carry) as [[content1 carry1]|] eqn:E1; [|done].
  cbn in H. rewrite transformMessages_app in H.
  destruct (transformMessages _ _ _ _ mid carry1 _) as [[contents2 carry2]|] eqn:E2; [|done].
  cbn [transformMessages] in H.
  destruct (transformMessage _ _ resultMsg carry2) as [[content3 carry3]|] eqn:E3; [|done].
  cbn in H. injection H as <- _.
  pose proof (transformMessage_names_set _ _ _ _ _ _ _ _ _ _ _ Hid Hname Hcall Huse Hb E1)
    as Hset.
  pose proof (transformMessages_names_frame _ _ _ _ _ _ _ _ _ _ Hmid E2) as Hframe.
  rewrite Hset in Hframe.
  destruct (transformMessage_result _ _ _ _ _ _ _ _ _ _ Hname Hframe Hresult Hc Hres E3)
    as (cont & p & -> & Hin & Hp).
  exists cont, p. split; [apply last_snoc|]. by split.
Qed.

(** *** The signatures of a turn sent to the substitute model *)

Section Routed.

Variable mapClaudeModelToGemini : Json -> option string.
Variable inferClaudeCodeModelFromSystem : ClaudeApi.ClaudeRequest -> option string.
Variable toLowerCase : string -> string.

(** The [contents] of the body the handler's [buildBody] builds from a
    context: [transformClaudeRequestIn(upstreamRequestForTransform, projectId,
    transformOptions)]. *)
Definition contextContents (ctx : ClaudeApi.McpContext) (ledger0 : Ledger)
  : option (list Content * Ledger) :=
  transformContents (ClaudeApi.ctx_upstreamRequestForTransform ctx)
    {| forwardThoughtSignatures := None;
       signatureSegmentStartIndex := ClaudeApi.ctx_transformOptions ctx |}
    ledger0.

(** The loop over the first [k] messages with the forwarding of signatures
    switched off, then over the others with no segment start. *)
Definition segmentedContents (xml : bool) (k : nat) (messages : list Json)
    (ledger0 : Ledger) : option (list Content * Ledger) :=
  match transformMessages xml false None 0 (take k messages)
          {| c_toolIdToName := []; c_ledger := ledger0; c_lastUserTask := None |} [] with
  | Some (before, carry1) =>
      match transformMessages xml true None (length (take k messages))
              (drop k messages) carry1 [] with
      | Some (after, carry2) => Some (before ++ after, c_ledger carry2)
      | None => None
      end
  | None => None
  end.

(** X16.  A request whose base model is of the primary family and which goes
    to a model outside it has its contents built in two runs: the messages
    before the start of the session's segment (all of them, when no segment
    is under way) with the forwarding of signatures switched off, so that
    none of their parts has a [thoughtSignature] or [thought: true], and the
    messages from the start on as without a segment. *)
Theorem substitute_sees_only_its_own_signatures (requestData : ClaudeApi.ClaudeRequest)
    (sessions : gmap string ApiMcp.SessionState) (mcpModel : string)
    (messages : list Json) (ledger0 : Ledger) :
  ClaudeApi.req_messages requestData = Some messages ->
  McpRouting.baseFamilyIsClaude mapClaudeModelToGemini
    (McpRouting.baseModelOf inferClaudeCodeModelFromSystem requestData) = true ->
  McpRouting.targetIsClaude toLowerCase
    (ClaudeApi.ctx_modelForQuota
       (McpRouting.preparedContext mapClaudeModelToGemini inferClaudeCodeModelFromSystem
          toLowerCase requestData sessions mcpModel)) = false ->
  contextContents
    (McpRouting.preparedContext mapClaudeModelToGemini inferClaudeCodeModelFromSystem
       toLowerCase requestData sessions mcpModel) ledger0
  = segmentedContents (mcpXmlEnabledFor (ClaudeApi.req_tools requestData))
      (default (length messages)
         (McpRouting.segmentStartOf
            (McpRouting.entryOf sessions (McpRouting.getSessionId requestData))))
      messages ledger0
  /\ (forall k before carry1,
        transformMessages (mcpXmlEnabledFor (ClaudeApi.req_tools requestData)) false None
          0 (take k messages)
          {| c_toolIdToName := []; c_ledger := ledger0; c_lastUserTask := None |} []
        = Some (before, carry1) ->
        unsignedContents before).
Proof.
  intros Hmessages Hbase Htarget. split.
  - unfold McpRouting.preparedContext in *.
    destruct (McpRouting.prepareMcpContext_gemini mapClaudeModelToGemini
                inferClaudeCodeModelFromSystem toLowerCase requestData sessions mcpModel
                Htarget) as (Hsame & Hoptions & _).
    pose proof (McpRouting.prepareMcpContext_tools mapClaudeModelToGemini
                  inferClaudeCodeModelFromSystem toLowerCase requestData sessions mcpModel)
      as Htools.
    rewrite Hbase, Hmessages in Hoptions. rewrite Hmessages in Hsame.
    unfold contextContents, transformContents, segmentedContents.
    rewrite Hsame, Hoptions, Htools.
    cbn [forwardThoughtSignatures signatureSegmentStartIndex].
    set (k := default (length messages) _).
    set (xml := mcpXmlEnabledFor (ClaudeApi.req_tools requestData)).
    set (carry0 := {| c_toolIdToName := []; c_ledger := ledger0; c_lastUserTask := None |}).
    rewrite bool_decide_false by done. cbn [negb].
    rewrite <- (take_drop k messages) at 1.
    rewrite transformMessages_app.
    rewrite (transformMessages_guard xml true (Some k) false None (take k messages)).
    + destruct (transformMessages xml false None 0 (take k messages) carry0 [])
        as [[before carry1]|]; [|done].
      rewrite transformMessages_acc. cbn [Nat.add].
      rewrite (transformMessages_guard xml true (Some k) true None (drop k messages)).
      * by destruct (transformMessages xml true None _ (drop k messages) carry1 [])
          as [[after carry2]|].
      * intros i Hi. apply shouldForward_from.
        destruct (Nat.le_gt_cases k (length messages)).
        -- rewrite length_take in Hi. lia.
        -- rewrite drop_ge in Hi by lia. cbn in Hi. lia.
    + intros i Hi. rewrite shouldForward_off. apply shouldForward_before.
      rewrite length_take in Hi. lia.
  - intros k before carry1 H. eapply transformMessages_off in H; [done|constructor].
Qed.

End Routed.

End Transform.

(** The instances of the examples: a ledger that has a signature cached for
    every tool id, bridge texts that are a fixed word, and tool results that
    hold text only. *)
Definition cachedSignature (_ : unit) (_ : option Json) : option string := Some "cached".

Definition forgetSignature (l : unit) (_ : option Json) : unit := l.

Definition callText (_ : option Json) (_ : Json) : string := "call".

Definition resultText (_ _ : option Json) (contentText : string) : string := contentText.

Definition textOnly (content : option Json) : string * option Json * list InlineData :=
  (stringOr content, content, []).

Definition toolUseItem (id name signature : string) : Json :=
  JObj [("type", JStr "tool_use"); ("id", JStr id); ("name", JStr name);
        ("input", JObj []); ("signature", JStr signature)].

Definition toolResultItem (id t : string) : Json :=
  JObj [("type", JStr "tool_result"); ("tool_use_id", JStr id); ("content", JStr t)].

Definition firstCarry : Carry unit :=
  {| c_toolIdToName := []; c_ledger := tt; c_lastUserTask := None |}.

Definition exampleTransformMessage (forward : bool) (msg : Json)
  : option (option Content * Carry unit) :=
  transformMessage unit cachedSignature forgetSignature callText resultText textOnly
    false forward msg firstCarry.

(** An assistant turn of a reasoning item, a text and a second reasoning
    item. *)
Definition exampleTurn : Json :=
  message (JStr "assistant")
    [thinkingItem "r1" "s1"; textItem "t"; thinkingItem "r2" "s2"].

(** The turn becomes the reasoning part and the text, which takes the
    signature of the first reasoning item; nothing stands for the second. *)
Example reasoning_text_reasoning :
  exampleTransformMessage true exampleTurn
  = Some (Some {| role := Some (JStr "model");
                  parts := [ {| text := Some "r1"; thought := true;
                                thoughtSignature := None; functionCall := None;
                                functionResponse := None; inlineData := None |};
                             withSignature (Some "s1") (textPart "t") ] |},
          firstCarry).
Proof. vm_compute. reflexivity. Qed.

Lemma late_reasoning_is_discarded_witness :
  exampleTransformMessage true exampleTurn
  = exampleTransformMessage true
      (message (JStr "assistant") [thinkingItem "r1" "s1"; textItem "t"])
  /\ exampleTransformMessage true exampleTurn
     = Some (Some {| role := Some (JStr "model");
                     parts := [ {| text := Some "r1"; thought := true;
                                   thoughtSignature := None; functionCall := None;
                                   functionResponse := None; inlineData := None |};
                                withSignature (Some "s1") (textPart "t") ] |},
             firstCarry).
Proof.
  destruct (late_reasoning_is_discarded unit cachedSignature forgetSignature callText
              resultText textOnly false true firstCarry) as [Hgeneral Hturn].
  split.
  - apply (Hgeneral (JStr "assistant")
             [thinkingItem "r1" "s1"] [] [] (textItem "t") (thinkingItem "r2" "s2")
             (dispatchItem unit cachedSignature forgetSignature callText resultText
                textOnly (envOf false true exampleTurn) (thinkingItem "r1" "s1")
                (startMessage unit firstCarry))
             (dispatchItem unit cachedSignature forgetSignature callText resultText
                textOnly (envOf false true exampleTurn) (textItem "t")
                (dispatchItem unit cachedSignature forgetSignature callText resultText
                   textOnly (envOf false true exampleTurn) (thinkingItem "r1" "s1")
                   (startMessage unit firstCarry)))).
    + reflexivity.
    + reflexivity.
    + reflexivity.
    + vm_compute. lia.
    + reflexivity.
  - apply (Hturn "r1" "s1" "t" [thinkingItem "r2" "s2"]).
    + discriminate.
    + discriminate.
    + discriminate.
    + repeat constructor.
Defined.

(** A request whose history holds a reasoning item and a tool call, both
    signed by the first model, and the first attempt's answer, which is the
    marker cut over two events. *)
Definition exampleMessages : list Json :=
  [ JObj [("role", JStr "user"); ("content", JStr "question")];
    message (JStr "assistant")
      [thinkingItem "r1" "s1"; toolUseItem "toolu_1" "Read" "s2"];
    message (JStr "user") [toolResultItem "toolu_1" "data"] ].

Definition exampleRequest : ClaudeApi.ClaudeRequest :=
  {| ClaudeApi.req_model := JStr "claude-sonnet-4-5"; ClaudeApi.req_system := JNull;
     ClaudeApi.req_messages := Some exampleMessages; ClaudeApi.req_tools := JNull;
     ClaudeApi.req_stream := JBool true; ClaudeApi.req_metadata := JNull |}.

Definition switchChunks : list ClaudeApi.Chunk :=
  [ list_byte_of_string (ApiMcp.sse "content_block_delta" "d1");
    list_byte_of_string (ApiMcp.sse "content_block_delta" "d2") ].

Definition exampleRetry : ClaudeApi.BackendCall :=
  {| ClaudeApi.bc_method := "streamGenerateContent";
     ClaudeApi.bc_model := Some "gemini-3-pro-high";
     ClaudeApi.bc_queryString := "?alt=sse";
     ClaudeApi.bc_request := ClaudeApi.withModel "gemini-3-pro-high" exampleRequest;
     ClaudeApi.bc_signatureSegmentStartIndex := Some 3 |}.

Definition exampleContents (options : Options) : option (list Content * unit) :=
  transformContents unit cachedSignature forgetSignature callText resultText textOnly
    false exampleRequest options tt.

(** Without a segment start the signatures of the history are forwarded. *)
Example signatures_forwarded_by_default :
  exists user1 reasoning call user2,
    exampleContents {| forwardThoughtSignatures := None;
                       signatureSegmentStartIndex := None |}
    = Some ([user1; {| role := Some (JStr "model"); parts := [reasoning; call] |}; user2],
            tt)
    /\ thought reasoning = true /\ thoughtSignature call = Some "s2".
Proof. do 4 eexists. split; [vm_compute; reflexivity|]. by split. Qed.

Lemma retry_forwards_no_signature_witness :
  ClaudeApi.bc_signatureSegmentStartIndex exampleRetry = Some (length exampleMessages)
  /\ ClaudeApi.req_messages (ClaudeApi.bc_request exampleRetry) = Some exampleMessages
  /\ (forall forwardByDefault msgIndex, msgIndex < length exampleMessages ->
        shouldForward forwardByDefault
          (ClaudeApi.bc_signatureSegmentStartIndex exampleRetry) msgIndex = false)
  /\ (forall contents ledger',
        retryContents unit cachedSignature forgetSignature callText resultText textOnly
          false exampleRetry tt = Some (contents, ledger') ->
        unsignedContents contents)
  /\ (forallb readable exampleMessages = true ->
        is_Some (retryContents unit cachedSignature forgetSignature callText resultText
                   textOnly false exampleRetry tt)).
Proof.
  apply (retry_forwards_no_signature unit cachedSignature forgetSignature callText
           resultText textOnly false (ApiMcp.parseFrom ApiMcp.examplePayloads)
           unit tt ClaudeApi.byteDecodeChunk (fun _ => "") list_byte_of_string
           "streamGenerateContent" "?alt=sse" exampleRequest "gemini-3-pro-high"
           (Some switchChunks) true exampleRetry exampleMessages tt).
  - reflexivity.
  - vm_compute. reflexivity.
Defined.

Definition defaultOptions : Options :=
  {| forwardThoughtSignatures := None; signatureSegmentStartIndex := None |}.

Lemma contents_are_pushed_contents_witness :
  exists contents ledger',
    exampleContents defaultOptions = Some (contents, ledger')
    /\ Forall pushedContent contents
    /\ length contents <= length (default [] (ClaudeApi.req_messages exampleRequest)).
Proof.
  eexists _, _. split; [vm_compute; reflexivity|].
  eapply (contents_are_pushed_contents unit cachedSignature forgetSignature callText
            resultText textOnly false exampleRequest defaultOptions tt).
  vm_compute. reflexivity.
Defined.

Lemma parts_are_well_formed_witness :
  exists contents ledger',
    exampleContents defaultOptions = Some (contents, ledger')
    /\ Forall (fun c => wellFormedParts (parts c)) contents.
Proof.
  eexists _, _. split; [vm_compute; reflexivity|].
  eapply (parts_are_well_formed unit cachedSignature forgetSignature callText
            resultText textOnly false exampleRequest defaultOptions tt).
  vm_compute. reflexivity.
Defined.

(** The call and its result of the example history, two messages apart. *)
Definition exampleCallMessage : Json :=
  message (JStr "assistant") [thinkingItem "r1" "s1"; toolUseItem "toolu_1" "Read" "s2"].

Definition exampleResultMessage : Json :=
  message (JStr "user") [toolResultItem "toolu_1" "data"].

Definition exampleLoop : option (list Content * Carry unit) :=
  transformMessages unit cachedSignature forgetSignature callText resultText textOnly
    false true None 0
    (exampleCallMessage :: [JObj [("role", JStr "user"); ("content", JStr "go on")]]
     ++ [exampleResultMessage])
    firstCarry [].

Lemma tool_result_takes_the_name_of_its_call_witness :
  exists contents carry',
    exampleLoop = Some (contents, carry')
    /\ exists content p,
         last contents = Some content /\ p ∈ parts content
         /\ respondsAs "toolu_1" "Read" p.
Proof.
  eexists _, _. split; [vm_compute; reflexivity|].
  eapply (tool_result_takes_the_name_of_its_call unit cachedSignature forgetSignature
            callText resultText textOnly true None 0 exampleCallMessage
            exampleResultMessage
            [JObj [("role", JStr "user"); ("content", JStr "go on")]]
            [thinkingItem "r1" "s1"] [] [] []
            (toolUseItem "toolu_1" "Read" "s2") (toolResultItem "toolu_1" "data")
            "toolu_1" "Read" firstCarry []).
  - discriminate.
  - discriminate.
  - reflexivity.
  - reflexivity.
  - reflexivity.
  - reflexivity.
  - reflexivity.
  - reflexivity.
  - reflexivity.
  - vm_compute. reflexivity.
Defined.

(** A tool-result turn that answers a bridged call, in no session: the
    request is routed to the substitute model with no segment under way. *)
Definition bridgedMessages : list Json :=
  [ JObj [("role", JStr "user"); ("content", JStr "question")];
    message (JStr "assistant")
      [thinkingItem "r1" "s1"; toolUseItem "toolu_1" "mcp__fs__read" "s2"];
    message (JStr "user") [toolResultItem "toolu_1" "data"] ].

Definition bridgedRequest : ClaudeApi.ClaudeRequest :=
  {| ClaudeApi.req_model := JStr "claude-sonnet-4-5"; ClaudeApi.req_system := JNull;
     ClaudeApi.req_messages := Some bridgedMessages; ClaudeApi.req_tools := JNull;
     ClaudeApi.req_stream := JBool true; ClaudeApi.req_metadata := JNull |}.

Definition bridgedContext : ClaudeApi.McpContext :=
  McpRouting.preparedContext McpRouting.mapEveryName McpRouting.noModelInSystem
    McpRouting.lowerCaseAlready bridgedRequest ∅ "gemini-3-pro-high".

Lemma substitute_sees_only_its_own_signatures_witness :
  exists contents ledger',
    contextContents unit cachedSignature forgetSignature callText resultText textOnly
      false bridgedContext tt = Some (contents, ledger')
    /\ unsignedContents contents.
Proof.
  destruct (substitute_sees_only_its_own_signatures unit cachedSignature forgetSignature
              callText resultText textOnly false McpRouting.mapEveryName
              McpRouting.noModelInSystem McpRouting.lowerCaseAlready bridgedRequest ∅
              "gemini-3-pro-high" bridgedMessages tt) as [Hcontents Hunsigned].
  - reflexivity.
  - vm_compute. reflexivity.
  - vm_compute. reflexivity.
  - eexists _, _. split.
    + unfold bridgedContext. rewrite Hcontents. vm_compute. reflexivity.
    + eapply (Hunsigned 3). vm_compute. reflexivity.
Defined.

End RequestIn.


(** ** The content of a tool result (ClaudeRequestUtils.js,
    [extractInlineDataPartsFromClaudeToolResultContent]) *)

Module ToolResultContent.

Import JsText.

(** [s.endsWith(suffix)]. *)
Definition endsWith (s suffix : string) : bool :=
  Nat.leb (String.length suffix) (String.length s)
  && String.eqb
       (substring (String.length s - String.length suffix) (String.length suffix) s)
       suffix.

(** [estimateBase64BytesLength], which is called with a string. *)
Definition estimateBase64BytesLength (b64 : string) : nat :=
  let s := trim b64 in
  if String.eqb s "" then 0
  else
    let padding := if endsWith s "==" then 2 else if endsWith s "=" then 1 else 0 in
    (String.length s * 3) / 4 - padding.

(** [a || b] on two properties. *)
Definition orElse (a b : option Json) : option Json :=
  match a with
  | Some v => if truthy v then a else b
  | None => b
  end.

(** [source.media_type || source.mediaType], or ["image/png"] when that is
    falsy. *)
Definition mimeTypeOf (source : Json) : Json :=
  match orElse (prop "media_type" source) (prop "mediaType" source) with
  | Some v => if truthy v then v else JStr "image/png"
  | None => JStr "image/png"
  end.

(** [block.type === ty]. *)
Definition hasType (ty : string) (block : Json) : bool :=
  match prop "type" block with
  | Some (JStr t) => String.eqb t ty
  | _ => false
  end.

(** An image whose data is moved out: an object of type [image] whose
    [source] is an object with a non-empty string [data]; its fields, the
    fields of the source, and the data. *)
Definition movableImage (block : Json)
  : option (list (string * Json) * list (string * Json) * string) :=
  match block with
  | JObj fields =>
      if hasType "image" block then
        match obj_get "source" fields with
        | Some (JObj sourceFields) =>
            match obj_get "data" sourceFields with
            | Some (JStr data) =>
                if String.eqb data "" then None else Some (fields, sourceFields, data)
            | _ => None
            end
        | _ => None
        end
      else None
  | _ => None
  end.

Section Extract.

(** [JSON.stringify] on a JSON value, where it neither throws nor yields
    [undefined]. *)
Variable stringify : Json -> string.

(** [String(v)], which is also how a template literal reads [v]. *)
Variable stringOf : Json -> string.

(** [`${v}`]. *)
Definition templateOf (v : Json) : string :=
  match v with
  | JStr s => s
  | _ => stringOf v
  end.

(** [`[inline image omitted from JSON (${mimeType}, ~${bytesLen} bytes)]`]. *)
Definition placeholderFor (mimeType : Json) (data : string) : string :=
  "[inline image omitted from JSON (" +:+ templateOf mimeType +:+ ", ~"
  +:+ NilZero.string_of_uint (Nat.to_uint (estimateBase64BytesLength data))
  +:+ " bytes)]".

(** The three arrays the loop fills. *)
Record Extraction : Type := {
  inlineParts : list RequestIn.InlineData;
  sanitized : list Json;
  textSegments : list string
}.

(** [{ ...block, source: { ...source, data: placeholder } }]. *)
Definition withPlaceholder (fields sourceFields : list (string * Json))
    (placeholder : string) : Json :=
  JObj (obj_set "source" (JObj (obj_set "data" (JStr placeholder) sourceFields)) fields).

(** One turn of [for (const block of rawContent)]. *)
Definition extractBlock (acc : Extraction) (block : Json) : Extraction :=
  if isObjectLike block && hasType "text" block then
    let t := match prop "text" block with Some (JStr t) => t | _ => "" end in
    {| inlineParts := inlineParts acc;
       sanitized := sanitized acc ++ [block];
       textSegments :=
         if String.eqb t "" then textSegments acc else textSegments acc ++ [t] |}
  else
    match movableImage block with
    | Some (fields, sourceFields, data) =>
        let mimeType := mimeTypeOf (JObj sourceFields) in
        let placeholder := placeholderFor mimeType data in
        {| inlineParts :=
             inlineParts acc
             ++ [{| RequestIn.mimeType := mimeType; RequestIn.data := JStr data |}];
           sanitized := sanitized acc ++ [withPlaceholder fields sourceFields placeholder];
           textSegments := textSegments acc ++ [placeholder] |}
    | None =>
        {| inlineParts := inlineParts acc;
           sanitized := sanitized acc ++ [block];
           textSegments :=
             textSegments acc
             ++ [match block with JStr s => s | _ => stringify block end] |}
    end.

(** The text of a content that is no array. *)
Definition textOfRaw (rawContent : option Json) : string :=
  match rawContent with
  | Some (JStr s) => s
  | Some (JObj fields) => stringify (JObj fields)
  | Some v => if truthy v then stringOf v else ""
  | None => ""
  end.

(** [extractInlineDataPartsFromClaudeToolResultContent]: [contentText],
    [sanitizedContent] and the data of the [inlineParts]. *)
Definition extractInlineDataParts (rawContent : option Json)
  : string * option Json * list RequestIn.InlineData :=
  match rawContent with
  | Some (JArr blocks) =>
      let result :=
        foldl extractBlock {| inlineParts := []; sanitized := []; textSegments := [] |}
          blocks in
      (join LF (textSegments result),
       match inlineParts result with
       | [] => rawContent
       | _ => Some (JArr (sanitized result))
       end,
       inlineParts result)
  | _ => (textOfRaw rawContent, rawContent, [])
  end.

(** *** What the extraction moves and what it keeps *)

(** The data of a movable image. *)
Definition inlineOf (block : Json) : option RequestIn.InlineData :=
  match movableImage block with
  | Some (_, sourceFields, data) =>
      Some {| RequestIn.mimeType := mimeTypeOf (JObj sourceFields);
              RequestIn.data := JStr data |}
  | None => None
  end.

(** The placeholder that stands for the data of a movable image. *)
Definition placeholderOf (block : Json) : option string :=
  match movableImage block with
  | Some (_, sourceFields, data) =>
      Some (placeholderFor (mimeTypeOf (JObj sourceFields)) data)
  | None => None
  end.

(** The block as it is handed on. *)
Definition sanitizeBlock (block : Json) : Json :=
  match movableImage block with
  | Some (fields, sourceFields, data) =>
      withPlaceholder fields sourceFields
        (placeholderFor (mimeTypeOf (JObj sourceFields)) data)
  | None => block
  end.

(** The line a block adds to the text, if any. *)
Definition segmentOf (block : Json) : option string :=
  if isObjectLike block && hasType "text" block then
    match prop "text" block with
    | Some (JStr t) => if String.eqb t "" then None else Some t
    | _ => None
    end
  else
    match placeholderOf block with
    | Some placeholder => Some placeholder
    | None => Some (match block with JStr s => s | _ => stringify block end)
    end.

Lemma movableImage_not_text block :
  hasType "text" block = true -> movableImage block = None.
Proof.
  unfold movableImage, hasType. destruct block as [| | | | |fields]; try done.
  destruct (prop "type" (JObj fields)) as [[| | |t| |]|]; try done.
  intros Ht%String.eqb_eq. subst t. by eqb_consts.
Qed.

Lemma extractBlock_spec acc block :
  inlineParts (extractBlock acc block)
  = inlineParts acc ++ match inlineOf block with Some d => [d] | None => [] end
  /\ sanitized (extractBlock acc block) = sanitized acc ++ [sanitizeBlock block]
  /\ textSegments (extractBlock acc block)
     = textSegments acc ++ match segmentOf block with Some t => [t] | None => [] end.
Proof.
  unfold extractBlock, inlineOf, sanitizeBlock, segmentOf, placeholderOf.
  destruct (isObjectLike block && hasType "text" block) eqn:Htext.
  - apply andb_true_iff in Htext as [_ Htext].
    rewrite (movableImage_not_text block Htext). cbn.
    rewrite app_nil_r. split_and!; [done|done|].
    destruct (prop "text" block) as [[| | |t| |]|]; cbn; rewrite ?app_nil_r; try done.
    destruct (String.eqb t ""); [by rewrite app_nil_r|done].
  - destruct (movableImage block) as [[[fields sourceFields] data]|]; cbn.
    + done.
    + by rewrite app_nil_r.
Qed.

Lemma extractBlocks_spec blocks : forall acc,
  inlineParts (foldl extractBlock acc blocks) = inlineParts acc ++ omap inlineOf blocks
  /\ sanitized (foldl extractBlock acc blocks) = sanitized acc ++ map sanitizeBlock blocks
  /\ textSegments (foldl extractBlock acc blocks)
     = textSegments acc ++ omap segmentOf blocks.
Proof.
  induction blocks as [|block rest IH]; intros acc.
  - cbn. by rewrite !app_nil_r.
  - cbn [foldl]. destruct (IH (extractBlock acc block)) as (H1 & H2 & H3).
    destruct (extractBlock_spec acc block) as (E1 & E2 & E3).
    rewrite H1, H2, H3, E1, E2, E3. cbn [omap list_omap map].
    rewrite <- !app_assoc. split_and!.
    + by destruct (inlineOf block).
    + done.
    + by destruct (segmentOf block).
Qed.

Lemma sanitizeBlock_id block : inlineOf block = None -> sanitizeBlock block = block.
Proof.
  unfold inlineOf, sanitizeBlock.
  by destruct (movableImage block) as [[[fields sourceFields] data]|].
Qed.

Lemma sanitizeBlocks_id blocks :
  omap inlineOf blocks = [] -> map sanitizeBlock blocks = blocks.
Proof.
  induction blocks as [|block rest IH]; [done|].
  cbn [omap list_omap map]. destruct (inlineOf block) eqn:E; [done|].
  intros H. by rewrite sanitizeBlock_id, IH.
Qed.

(** A block handed on in the place of [block]: the block itself, unless it
    is a movable image; then an object with the same keys and values but for
    the [data] of its [source], which is the placeholder. *)
Definition handedOn (block out : Json) : Prop :=
  match movableImage block with
  | None => out = block
  | Some (_, _, data) =>
      (forall k, k <> "source" -> prop k out = prop k block)
      /\ exists source placeholder,
           prop "source" out = Some source
           /\ placeholderOf block = Some placeholder
           /\ prop "data" source = Some (JStr placeholder)
           /\ forall k source0,
                k <> "data" -> prop "source" block = Some source0 ->
                prop k source = prop k source0
  end.

Lemma sanitizeBlock_handedOn block : handedOn block (sanitizeBlock block).
Proof.
  unfold handedOn, sanitizeBlock, placeholderOf.
  destruct (movableImage block) as [[[fields sourceFields] data]|] eqn:Hm; [|done].
  assert (block = JObj fields /\ obj_get "source" fields = Some (JObj sourceFields))
    as [-> Hsource].
  { unfold movableImage in Hm. destruct block as [| | | | |fields0]; try done.
    destruct (hasType "image" (JObj fields0)); [|done].
    destruct (obj_get "source" fields0) as [[| | | | |sourceFields0]|] eqn:Hs; try done.
    destruct (obj_get "data" sourceFields0) as [[| | |d| |]|]; try done.
    destruct (String.eqb d ""); [done|]. injection Hm as <- <- <-. done. }
  unfold withPlaceholder. split.
  - intros k Hk. cbn [prop]. by apply SchemaSanitizer.obj_get_obj_set_ne.
  - eexists _, _. split_and!.
    + cbn [prop]. apply SchemaSanitizer.obj_get_obj_set_eq.
    + done.
    + cbn [prop]. apply SchemaSanitizer.obj_get_obj_set_eq.
    + intros k source0 Hk Hs. cbn [prop] in *. rewrite Hsource in Hs.
      injection Hs as <-. cbn [prop]. by apply SchemaSanitizer.obj_get_obj_set_ne.
Qed.

Lemma extractInlineDataParts_array blocks :
  (extractInlineDataParts (Some (JArr blocks))).2 = omap inlineOf blocks
  /\ (extractInlineDataParts (Some (JArr blocks))).1.2
     = Some (JArr (map sanitizeBlock blocks))
  /\ (extractInlineDataParts (Some (JArr blocks))).1.1
     = join LF (omap segmentOf blocks).
Proof.
  unfold extractInlineDataParts.
  destruct (extractBlocks_spec blocks
              {| inlineParts := []; sanitized := []; textSegments := [] |})
    as (H1 & H2 & H3).
  cbn [inlineParts sanitized textSegments app] in H1, H2, H3.
  cbn [fst snd]. rewrite H1, H2, H3. split_and!; [done| |done].
  destruct (omap inlineOf blocks) eqn:E; [|done]. by rewrite sanitizeBlocks_id.
Qed.

(** X17.  The extraction moves the data of the images out of a tool result
    and nothing else.  The inline parts are the data of the movable images
    (objects of type [image] whose [source] is an object with a non-empty
    string [data]) in their order; the sanitized content has a block for
    every block, in the same order: the block itself, or for a movable image
    an object with the same keys and values except for [source.data], which
    is the placeholder; the text has one line per block, but none for a text
    block without text.  A content that is no array has no inline part and is
    handed on as it is. *)
Theorem extraction_moves_only_image_data (rawContent : option Json) :
  match rawContent with
  | Some (JArr blocks) =>
      (extractInlineDataParts rawContent).2 = omap inlineOf blocks
      /\ (exists out,
            (extractInlineDataParts rawContent).1.2 = Some (JArr out)
            /\ Forall2 handedOn blocks out)
      /\ (omap inlineOf blocks = [] ->
          (extractInlineDataParts rawContent).1.2 = rawContent)
      /\ (extractInlineDataParts rawContent).1.1 = join LF (omap segmentOf blocks)
  | _ =>
      (extractInlineDataParts rawContent).2 = []
      /\ (extractInlineDataParts rawContent).1.2 = rawContent
  end.
Proof.
  destruct rawContent as [[| | | |blocks|]|]; try done.
  destruct (extractInlineDataParts_array blocks) as (Hparts & Hout & Htext).
  split_and!.
  - exact Hparts.
  - exists (map sanitizeBlock blocks). split; [exact Hout|].
    apply Forall2_fmap_r, Forall_Forall2_diag, Forall_forall.
    intros block _. apply sanitizeBlock_handedOn.
  - intros Hnone. rewrite Hout. by rewrite sanitizeBlocks_id.
  - exact Htext.
Qed.

(** *** The parts a tool result yields *)

Section Parts.

Variable Ledger : Type.
Variable getToolThoughtSignature : Ledger -> option Json -> option string.
Variable deleteToolThoughtSignature : Ledger -> option Json -> Ledger.
Variable buildMcpToolCallXml : option Json -> Json -> string.
Variable buildMcpToolResultXml : option Json -> option Json -> string -> string.

(** The loop over the items of [transformClaudeRequestIn], with the
    extraction above. *)
Definition dispatchItem (env : RequestIn.MessageEnv) (item : Json)
    (st : RequestIn.ItemState Ledger) : RequestIn.ItemState Ledger :=
  RequestIn.dispatchItem Ledger getToolThoughtSignature deleteToolThoughtSignature
    buildMcpToolCallXml buildMcpToolResultXml extractInlineDataParts env item st.

(** X18.  A tool result whose content is an array yields one part for the
    result, followed by one [inlineData] part for every movable image of the
    content, in order.  When the XML bridge does not apply, the first part
    is the [functionResponse] whose [result] is the text of the blocks, one
    line each, and whose [content] is the array of the blocks handed on, in
    which the data of every movable image has given way to its
    placeholder. *)
Theorem tool_result_carries_its_images (env : RequestIn.MessageEnv) (item : Json)
    (blocks : list Json) (st : RequestIn.ItemState Ledger) :
  prop "type" item = Some (JStr "tool_result") ->
  prop "content" item = Some (JArr blocks) ->
  exists p,
    RequestIn.st_parts Ledger (dispatchItem env item st)
    = RequestIn.st_parts Ledger st
      ++ p :: map RequestIn.inlinePart (omap inlineOf blocks)
    /\ RequestIn.inlineData p = None
    /\ (RequestIn.mcpXmlEnabled env = false ->
        exists response out,
          RequestIn.functionResponse p = Some response
          /\ RequestIn.fr_result response = join LF (omap segmentOf blocks)
          /\ RequestIn.fr_content response = Some (JArr out)
          /\ Forall2 handedOn blocks out).
Proof.
  intros Htype Hcontent. unfold dispatchItem, RequestIn.dispatchItem.
  rewrite Htype. eqb_consts. unfold RequestIn.itemToolResult. rewrite Hcontent.
  destruct (RequestIn.resolveToolName _ _) as [funcName unknown].
  pose proof (extractInlineDataParts_array blocks) as (Hparts & Hout & Htext).
  destruct (extractInlineDataParts (Some (JArr blocks)))
    as [[contentText sanitizedContent] inlineParts].
  cbn [fst snd] in Hparts, Hout, Htext. subst.
  cbn [RequestIn.st_parts RequestIn.setPreviousWasToolResult RequestIn.setSaw].
  rewrite (proj2 (RequestIn.pushParts_fields _ _ _)).
  cbn [RequestIn.st_parts RequestIn.pushPart]. rewrite <- app_assoc.
  eexists. split; [reflexivity|]. split.
  - by repeat case_match.
  - intros ->. cbn [andb RequestIn.functionResponse]. eexists _, _.
    split; [reflexivity|]. cbn [RequestIn.fr_result RequestIn.fr_content].
    split; [done|]. split; [done|].
    apply Forall2_fmap_r, Forall_Forall2_diag, Forall_forall.
    intros block _. apply sanitizeBlock_handedOn.
Qed.

End Parts.

End Extract.

(** Stand-ins for the examples, which hold no value these are applied to
    but one object. *)
Definition stringifyEmpty (_ : Json) : string := "{}".

Definition stringOfNothing (_ : Json) : string := "".

(** A tool result with a line of text and a screenshot. *)
Definition screenshotBlocks : list Json :=
  [ JObj [("type", JStr "text"); ("text", JStr "done")];
    JObj [("type", JStr "image");
          ("source", JObj [("type", JStr "base64"); ("media_type", JStr "image/jpeg");
                           ("data", JStr "aGVsbG8=")])] ].

Definition screenshotResult : Json :=
  JObj [("type", JStr "tool_result"); ("tool_use_id", JStr "toolu_1");
        ("content", JArr screenshotBlocks)].

Definition userEnv : RequestIn.MessageEnv :=
  {| RequestIn.env_role := Some (JStr "user");
     RequestIn.shouldForwardThoughtSignatures := true;
     RequestIn.mcpXmlEnabled := false;
     RequestIn.messageHasFunctionCallToolUse := false |}.

Definition freshState : RequestIn.ItemState unit :=
  {| RequestIn.st_parts := []; RequestIn.sawNonThinkingContent := false;
     RequestIn.previousWasToolResult := false;
     RequestIn.pendingThoughtSignature := None;
     RequestIn.toolIdToName := []; RequestIn.ledger := tt;
     RequestIn.lastUserTaskTextNormalized := None |}.

Example screenshot_is_moved_out :
  extractInlineDataParts stringifyEmpty stringOfNothing (Some (JArr screenshotBlocks))
  = ("done" +:+ LF +:+ "[inline image omitted from JSON (image/jpeg, ~5 bytes)]",
     Some (JArr
       [ JObj [("type", JStr "text"); ("text", JStr "done")];
         JObj [("type", JStr "image");
               ("source",
                JObj [("type", JStr "base64"); ("media_type", JStr "image/jpeg");
                      ("data",
                       JStr "[inline image omitted from JSON (image/jpeg, ~5 bytes)]")])] ]),
     [{| RequestIn.mimeType := JStr "image/jpeg"; RequestIn.data := JStr "aGVsbG8=" |}]).
Proof. vm_compute. reflexivity. Qed.

Lemma tool_result_carries_its_images_witness :
  exists p,
    RequestIn.st_parts unit
      (dispatchItem stringifyEmpty stringOfNothing unit RequestIn.cachedSignature
         RequestIn.forgetSignature RequestIn.callText RequestIn.resultText
         userEnv screenshotResult freshState)
    = RequestIn.st_parts unit freshState
      ++ p :: map RequestIn.inlinePart
                (omap (inlineOf) screenshotBlocks)
    /\ RequestIn.inlineData p = None
    /\ (RequestIn.mcpXmlEnabled userEnv = false ->
        exists response out,
          RequestIn.functionResponse p = Some response
          /\ RequestIn.fr_result response
             = join LF (omap (segmentOf stringifyEmpty stringOfNothing) screenshotBlocks)
          /\ RequestIn.fr_content response = Some (JArr out)
          /\ Forall2 (handedOn stringOfNothing) screenshotBlocks out).
Proof.
  apply (tool_result_carries_its_images stringifyEmpty stringOfNothing unit
           RequestIn.cachedSignature RequestIn.forgetSignature RequestIn.callText
           RequestIn.resultText userEnv screenshotResult screenshotBlocks freshState).
  - reflexivity.
  - reflexivity.
Defined.

End ToolResultContent.


(** ** The streaming driver (ClaudeTransformer.js, [handleStreamingResponse]
    and [processSSELine]) *)

Module StreamingOut.

Import JsText.

(** The texts of a list put end to end. *)
Fixpoint concatTexts (texts : list string) : string :=
  match texts with
  | [] => ""
  | text :: rest => text +:+ concatTexts rest
  end.

Section Lines.

(** The state the lines work on, and [processSSELine], which catches what
    its body throws. *)
Variable State : Type.
Variable processSSELine : string -> State -> State.

(** [for (const line of lines) await processSSELine(line, state, processor)]. *)
Definition processLines (lines : list string) (st : State) : State :=
  foldl (fun s line => processSSELine line s) st lines.

Lemma processLines_app (a b : list string) (st : State) :
  processLines (a ++ b) st = processLines b (processLines a st).
Proof. unfold processLines. by rewrite foldl_app. Qed.

(** The loop of [handleStreamingResponse] over the texts the decoder yields,
    one for each read, and the handling of what is left in [buffer] when the
    reader is done. *)
Fixpoint readLoop (texts : list string) (buffer : string) (st : State) : State :=
  match texts with
  | [] => if String.eqb buffer "" then st else processSSELine buffer st
  | text :: rest =>
      let lines := split LF (buffer +:+ text) in
      readLoop rest (default "" (last lines)) (processLines (removelast lines) st)
  end.

(** [handleStreamingResponse], from the fresh state on. *)
Definition handleStreamingResponse (texts : list string) (st : State) : State :=
  readLoop texts "" st.

Lemma splitFrom_not_nil cur s : splitFrom LF 0 cur s <> [].
Proof.
  revert cur. induction s as [|c r IH]; intros cur; [done|].
  cbn [splitFrom]. by destruct (String.prefix LF (String c r)).
Qed.

Lemma prefix_LF_head c r r' :
  String.prefix LF (String c r) = String.prefix LF (String c r').
Proof.
  unfold LF. cbn [String.prefix]. destruct (ascii_dec _ c); [|done]. by destruct r, r'.
Qed.

(** The lines of a text that goes on. *)
Lemma splitFrom_app a : forall cur b,
  splitFrom LF 0 cur (a +:+ b)
  = removelast (splitFrom LF 0 cur a)
    ++ splitFrom LF 0 (default "" (last (splitFrom LF 0 cur a))) b.
Proof.
  induction a as [|c r IH]; intros cur b; [done|].
  change (String c r +:+ b) with (String c (r +:+ b)).
  cbn [splitFrom]. rewrite (prefix_LF_head c (r +:+ b) r).
  destruct (String.prefix LF (String c r)).
  - change (String.length LF - 1) with 0. rewrite IH.
    pose proof (splitFrom_not_nil "" r) as Hne.
    destruct (splitFrom LF 0 "" r) as [|x l] eqn:E; [done|].
    by rewrite last_cons_cons.
  - apply IH.
Qed.

(** A text without a line feed. *)
Fixpoint noLF (s : string) : bool :=
  match s with
  | EmptyString => true
  | String c r => negb (String.prefix LF s) && noLF r
  end.

Lemma noLF_snoc cur c :
  noLF cur = true -> String.prefix LF (String c "") = false ->
  noLF (cur +:+ String c "") = true.
Proof.
  intros Hcur Hc. induction cur as [|x r IH].
  - change ("" +:+ String c "") with (String c ""). cbn [noLF]. by rewrite Hc.
  - change (String x r +:+ String c "") with (String x (r +:+ String c "")).
    cbn [noLF] in *. apply andb_true_iff in Hcur as [Hx Hr].
    rewrite (prefix_LF_head x _ r), Hx. cbn [andb]. by apply IH.
Qed.

(** What is read of a line so far goes on with the text. *)
Lemma splitFrom_cur cur : forall acc s,
  noLF cur = true ->
  splitFrom LF 0 acc (cur +:+ s) = splitFrom LF 0 (acc +:+ cur) s.
Proof.
  induction cur as [|c r IH]; intros acc s Hcur.
  - change ("" +:+ s) with s. by rewrite append_empty_r.
  - change (String c r +:+ s) with (String c (r +:+ s)).
    cbn [noLF] in Hcur. apply andb_true_iff in Hcur as [Hc Hr].
    apply negb_true_iff in Hc.
    cbn [splitFrom]. rewrite (prefix_LF_head c _ r), Hc.
    rewrite IH by done. by rewrite append_assoc.
Qed.

Lemma last_noLF s : forall cur,
  noLF cur = true -> noLF (default "" (last (splitFrom LF 0 cur s))) = true.
Proof.
  induction s as [|c r IH]; intros cur Hcur; [done|].
  cbn [splitFrom]. destruct (String.prefix LF (String c r)) eqn:Hc.
  - change (String.length LF - 1) with 0.
    pose proof (splitFrom_not_nil "" r) as Hne.
    destruct (splitFrom LF 0 "" r) as [|x l] eqn:E; [done|].
    rewrite last_cons_cons, <- E. by apply IH.
  - apply IH, noLF_snoc; [done|]. by rewrite (prefix_LF_head c _ r).
Qed.

(** What the loop does with the lines of a text: all but the last are
    processed, and the last when the reader is done, unless it is empty. *)
Definition finishLines (lines : list string) (st : State) : State :=
  let st' := processLines (removelast lines) st in
  if String.eqb (default "" (last lines)) "" then st'
  else processSSELine (default "" (last lines)) st'.

Lemma finishLines_app pre lines st :
  lines <> [] ->
  finishLines (pre ++ lines) st = finishLines lines (processLines pre st).
Proof.
  intros Hne. unfold finishLines, processLines.
  rewrite removelast_app by done. rewrite foldl_app.
  destruct lines as [|x l]; [done|]. by rewrite last_app_cons.
Qed.

Lemma readLoop_lines texts : forall buffer st,
  noLF buffer = true ->
  readLoop texts buffer st = finishLines (split LF (buffer +:+ concatTexts texts)) st.
Proof.
  induction texts as [|text rest IH]; intros buffer st Hbuffer.
  - cbn [readLoop concatTexts]. unfold split.
    rewrite (splitFrom_cur buffer "" "" Hbuffer). by cbn.
  - cbn [readLoop concatTexts]. rewrite IH by (by apply last_noLF).
    set (l := split LF (buffer +:+ text)). rewrite <- append_assoc.
    assert (split LF ((buffer +:+ text) +:+ concatTexts rest)
            = removelast l ++ split LF (default "" (last l) +:+ concatTexts rest)) as ->.
    { unfold split at 1. rewrite splitFrom_app. fold (split LF (buffer +:+ text)).
      fold l. f_equal. unfold split. symmetry.
      apply (splitFrom_cur _ "" _). by apply last_noLF. }
    by rewrite finishLines_app by apply splitFrom_not_nil.
Qed.

(** X20.  The lines handed to [processSSELine] do not depend on how the
    backend's text is cut into reads: they are the lines of the whole text in
    order, the last one only if it is not empty, so that a text read in
    pieces is handled as the same text read at once. *)
Theorem reads_do_not_cut_lines (texts : list string) (st : State) :
  handleStreamingResponse texts st = finishLines (split LF (concatTexts texts)) st
  /\ handleStreamingResponse texts st = handleStreamingResponse [concatTexts texts] st.
Proof.
  assert (forall l, handleStreamingResponse l st
                    = finishLines (split LF (concatTexts l)) st) as H.
  { intros l. unfold handleStreamingResponse. by rewrite readLoop_lines. }
  split; [apply H|]. rewrite (H texts), (H [concatTexts texts]).
  cbn [concatTexts]. by rewrite append_empty_r.
Qed.

End Lines.

(** *** The lines of the stream *)

Import ResponseOut.

(** What [processSSELine] reads of the JSON of a data line: whether the
    candidate has a grounding field of its own, the parts (a part at which
    [process] throws before it does anything, which is [null] or has a
    [null] text, is [None]), the [finishReason] and the [usageMetadata]. *)
Record StreamChunk : Type := {
  chunkGrounding : bool;
  chunkParts : list (option Part);
  chunkFinishReason : option string;
  chunkUsage : option UsageMetadata
}.

Section Driver.

Variable makeToolUseId : nat -> string.
Variable stringify : Json -> string.

(** [JSON.parse(dataStr)] and the reading of the chunk; [None] when that
    throws, which [processSSELine] catches. *)
Variable readChunk : string -> option StreamChunk.

(** The web-search mode, which keeps a state of its own: what
    [processSSELine] does with a chunk once a chunk with grounding has come. *)
Variable WebSearch : Type.
Variable webSearchChunk :
  StreamChunk -> StreamingState * WebSearch -> StreamingState * WebSearch.

(** The state of the driver.  The event [message_start], which
    [emitMessageStart] enqueues at the first chunk, is not among the events
    of [StreamingState]. *)
Record DriverState : Type := {
  streamState : StreamingState;
  webSearchMode : bool;
  webSearch : WebSearch
}.

(** [for (const part of parts) processor.process(part)], up to the part at
    which it throws; the flag tells whether the loop came to its end. *)
Fixpoint processParts (parts : list (option Part)) (st : StreamingState)
  : StreamingState * bool :=
  match parts with
  | [] => (st, true)
  | Some part :: rest => processParts rest (process makeToolUseId stringify part st)
  | None :: _ => (st, false)
  end.

(** The body of the [try] of [processSSELine]. *)
Definition processChunk (chunk : StreamChunk) (ds : DriverState) : DriverState :=
  if webSearchMode ds || chunkGrounding chunk then
    let '(st, ws) := webSearchChunk chunk (streamState ds, webSearch ds) in
    {| streamState := st; webSearchMode := true; webSearch := ws |}
  else
    let '(st, completed) := processParts (chunkParts chunk) (streamState ds) in
    let st' :=
      if completed then
        match chunkFinishReason chunk with
        | Some finishReason =>
            if String.eqb finishReason "" then st
            else emitFinish (Some finishReason) (chunkUsage chunk) None st
        | None => st
        end
      else st in
    {| streamState := st'; webSearchMode := false; webSearch := webSearch ds |}.

(** [if (!state.messageStopSent) { enqueue(message_stop); state.messageStopSent = true }]. *)
Definition sendStop (st : StreamingState) : StreamingState :=
  if messageStopSent st then st
  else
    let st1 := emit MessageStop st in
    {| blockType := blockType st1; blockIndex := blockIndex st1;
       messageStopSent := true; usedTool := usedTool st1;
       hasThinking := hasThinking st1; pending := pending st1;
       trailingSignature := trailingSignature st1; events := events st1;
       toolThoughtSignatures := toolThoughtSignatures st1; idsMade := idsMade st1 |}.

(** The payload of a data line: [line.slice(6).trim()] when the line starts
    with ["data: "] and that is not empty. *)
Definition payloadOf (line : string) : option string :=
  if startsWith line "data: " then
    let dataStr := trim (slice 6 line) in
    if String.eqb dataStr "" then None else Some dataStr
  else None.

(** [processSSELine]. *)
Definition processSSELine (line : string) (ds : DriverState) : DriverState :=
  match payloadOf line with
  | None => ds
  | Some dataStr =>
      if String.eqb dataStr "[DONE]" then
        {| streamState := sendStop (streamState ds); webSearchMode := webSearchMode ds;
           webSearch := webSearch ds |}
      else
        match readChunk dataStr with
        | Some chunk => processChunk chunk ds
        | None => ds
        end
  end.

(** The state a stream starts with. *)
Definition newDriverState (table : gmap string string) (ws : WebSearch) : DriverState :=
  {| streamState := newStreamingState table; webSearchMode := false; webSearch := ws |}.

(** *** A stream that ends with its finish reason *)

(** The parts a chunk without grounding hands to [process], when none of
    them throws. *)
Definition plainParts (chunk : StreamChunk) : option (list Part) :=
  if chunkGrounding chunk then None else mapM (fun part => part) (chunkParts chunk).

(** [if (finishReason)]. *)
Definition finishOfChunk (chunk : StreamChunk) : option string :=
  match chunkFinishReason chunk with
  | Some finishReason => if String.eqb finishReason "" then None else Some finishReason
  | None => None
  end.

(** The parts of a line before the end of the stream: a line that is no data
    line or does not parse has none; a chunk has its parts, if it neither
    enters the web-search mode nor ends the stream. *)
Definition partsOfLine (line : string) : option (list Part) :=
  match payloadOf line with
  | None => Some []
  | Some dataStr =>
      if String.eqb dataStr "[DONE]" then None
      else
        match readChunk dataStr with
        | None => Some []
        | Some chunk =>
            match finishOfChunk chunk with
            | Some _ => None
            | None => plainParts chunk
            end
        end
  end.

(** The line that ends the stream: its parts, its finish reason and its
    usage. *)
Definition finishOfLine (line : string)
  : option (list Part * string * option UsageMetadata) :=
  match payloadOf line with
  | None => None
  | Some dataStr =>
      if String.eqb dataStr "[DONE]" then None
      else
        match readChunk dataStr with
        | None => None
        | Some chunk =>
            match finishOfChunk chunk, plainParts chunk with
            | Some finishReason, Some parts => Some (parts, finishReason, chunkUsage chunk)
            | _, _ => None
            end
        end
  end.

(** A line after the end: [data: [DONE]], or a line that is skipped. *)
Definition isTrailer (line : string) : bool :=
  match payloadOf line with
  | None => true
  | Some dataStr =>
      String.eqb dataStr "[DONE]"
      || match readChunk dataStr with None => true | Some _ => false end
  end.

Lemma processParts_all parts : forall l st,
  mapM (fun part => part) l = Some parts ->
  processParts l st = (runStream makeToolUseId stringify st parts, true).
Proof.
  induction parts as [|part rest IH]; intros l st H.
  - destruct l as [|[p|] l]; [done|cbn in H|done].
    destruct (mapM (fun part => part) l); done.
  - destruct l as [|[p|] l]; [done| |done]. cbn [mapM] in H. cbn [mbind option_bind] in H.
    destruct (mapM (fun part => part) l) as [ps|] eqn:E; [|done].
    cbn in H. injection H as -> ->. cbn [processParts]. by rewrite (IH l).
Qed.

Lemma processSSELine_parts line parts ds :
  webSearchMode ds = false ->
  partsOfLine line = Some parts ->
  processSSELine line ds
  = {| streamState := runStream makeToolUseId stringify (streamState ds) parts;
       webSearchMode := false; webSearch := webSearch ds |}.
Proof.
  intros Hmode H. unfold partsOfLine in H. unfold processSSELine.
  destruct (payloadOf line) as [dataStr|]; [|injection H as <-; by destruct ds; cbn in *; subst].
  destruct (String.eqb dataStr "[DONE]"); [done|].
  destruct (readChunk dataStr) as [chunk|];
    [|injection H as <-; by destruct ds; cbn in *; subst].
  unfold finishOfChunk in H. unfold processChunk, plainParts in *. rewrite Hmode.
  destruct (chunkGrounding chunk); [by destruct (chunkFinishReason chunk) as [r|];
                                     [destruct (String.eqb r "")|]|].
  cbn [orb].
  assert (mapM (fun part => part) (chunkParts chunk) = Some parts) as Hparts.
  { destruct (chunkFinishReason chunk) as [r|]; [destruct (String.eqb r "")|]; done. }
  rewrite (processParts_all parts _ _ Hparts).
  destruct (chunkFinishReason chunk) as [r|]; [|done].
  by destruct (String.eqb r "").
Qed.

Lemma processLines_parts lines : forall partss ds,
  webSearchMode ds = false ->
  mapM partsOfLine lines = Some partss ->
  processLines DriverState processSSELine lines ds
  = {| streamState := runStream makeToolUseId stringify (streamState ds) (concat partss);
       webSearchMode := false; webSearch := webSearch ds |}.
Proof.
  induction lines as [|line rest IH]; intros partss ds Hmode H.
  - cbn in H. injection H as <-. destruct ds. cbn in *. by subst.
  - cbn [mapM] in H. destruct (partsOfLine line) as [parts|] eqn:Eline; [|done].
    cbn [mbind option_bind] in H.
    destruct (mapM partsOfLine rest) as [ps|] eqn:Erest; [|done].
    cbn in H. injection H as <-.
    unfold processLines in *. cbn [foldl].
    rewrite (processSSELine_parts line parts ds Hmode Eline).
    rewrite (IH ps) by done. cbn [streamState webSearch concat].
    by rewrite runStream_app.
Qed.

Lemma emitFinish_stopSent finishReason usageMetadata extraUsage st :
  messageStopSent (emitFinish finishReason usageMetadata extraUsage st) = true.
Proof.
  unfold emitFinish. cbv zeta. by destruct (messageStopSent (emit _ _)) eqn:E.
Qed.

Lemma processSSELine_trailer line ds :
  messageStopSent (streamState ds) = true ->
  isTrailer line = true -> processSSELine line ds = ds.
Proof.
  intros Hsent H. unfold isTrailer in H. unfold processSSELine.
  destruct (payloadOf line) as [dataStr|]; [|done].
  destruct (String.eqb dataStr "[DONE]").
  - unfold sendStop. rewrite Hsent. by destruct ds.
  - by destruct (readChunk dataStr).
Qed.

Lemma processLines_trailers lines : forall ds,
  messageStopSent (streamState ds) = true ->
  forallb isTrailer lines = true ->
  processLines DriverState processSSELine lines ds = ds.
Proof.
  induction lines as [|line rest IH]; intros ds Hsent H; [done|].
  cbn [forallb] in H. apply andb_true_iff in H as [Hline Hrest].
  unfold processLines in *. cbn [foldl].
  rewrite (processSSELine_trailer line ds Hsent Hline). by apply IH.
Qed.

Lemma processSSELine_finish line parts finishReason usageMetadata ds :
  webSearchMode ds = false ->
  finishOfLine line = Some (parts, finishReason, usageMetadata) ->
  processSSELine line ds
  = {| streamState :=
         emitFinish (Some finishReason) usageMetadata None
           (runStream makeToolUseId stringify (streamState ds) parts);
       webSearchMode := false; webSearch := webSearch ds |}.
Proof.
  intros Hmode H. unfold finishOfLine in H. unfold processSSELine.
  destruct (payloadOf line) as [dataStr|]; [|done].
  destruct (String.eqb dataStr "[DONE]"); [done|].
  destruct (readChunk dataStr) as [chunk|]; [|done].
  unfold finishOfChunk, plainParts in H. unfold processChunk. rewrite Hmode.
  destruct (chunkFinishReason chunk) as [r|]; [|done].
  destruct (String.eqb r "") eqn:Er; [done|].
  destruct (chunkGrounding chunk); [done|]. cbn [orb].
  destruct (mapM (fun part => part) (chunkParts chunk)) as [ps|] eqn:Eparts; [|done].
  injection H as -> -> ->.
  by rewrite (processParts_all _ _ _ Eparts).
Qed.

Lemma finishLines_all lines ds :
  lines <> [] ->
  finishLines DriverState processSSELine lines ds
  = processLines DriverState processSSELine lines ds.
Proof.
  intros Hne. unfold finishLines.
  destruct (exists_last Hne) as (init & final & ->).
  rewrite removelast_last, last_snoc.
  change (default "" (Some final)) with final.
  unfold processLines. rewrite foldl_app. cbn [foldl].
  destruct (String.eqb final "") eqn:E; [|done].
  apply String.eqb_eq in E. by subst final.
Qed.

(** X21.  A stream outside the web-search mode that ends with its finish
    reason is transcoded as its parts in a row.  When the lines of the
    backend's text are lines that are skipped or carry chunks without
    [finishReason], then a chunk with a [finishReason], then only
    [data: [DONE]] and skipped lines, and no chunk has grounding or a part
    at which the processing throws, then the events enqueued ([message_start]
    apart) are those of all the parts in order followed by the finish
    sequence, however the text is cut into reads and the parts into chunks,
    and they keep to the protocol of the stream. *)
Theorem stream_is_its_parts_in_a_row (texts lines trailers : list string)
    (finishLine : string) (partss : list (list Part)) (parts : list Part)
    (finishReason : string) (usageMetadata : option UsageMetadata)
    (table : gmap string string) (ws : WebSearch) :
  split LF (concatTexts texts) = lines ++ finishLine :: trailers ->
  mapM partsOfLine lines = Some partss ->
  finishOfLine finishLine = Some (parts, finishReason, usageMetadata) ->
  forallb isTrailer trailers = true ->
  events (streamState
            (handleStreamingResponse DriverState processSSELine texts
               (newDriverState table ws)))
  = events (streamParts makeToolUseId stringify (concat partss ++ parts)
              (Some finishReason) usageMetadata table)
  /\ runProtocol (Closed 0)
       (events (streamState
                  (handleStreamingResponse DriverState processSSELine texts
                     (newDriverState table ws))))
     = Some Stopped.
Proof.
  intros Hlines Hparts Hfinish Htrailers.
  assert (handleStreamingResponse DriverState processSSELine texts
            (newDriverState table ws)
          = {| streamState :=
                 streamParts makeToolUseId stringify (concat partss ++ parts)
                   (Some finishReason) usageMetadata table;
               webSearchMode := false; webSearch := ws |}) as ->.
  { unfold handleStreamingResponse. rewrite readLoop_lines by done.
    change ("" +:+ concatTexts texts) with (concatTexts texts).
    rewrite finishLines_all by (rewrite Hlines; by destruct lines).
    rewrite Hlines. rewrite processLines_app.
    rewrite (processLines_parts lines partss) by done.
    change (processLines DriverState processSSELine (finishLine :: trailers) ?ds)
      with (processLines DriverState processSSELine trailers
              (processSSELine finishLine ds)).
    rewrite (processSSELine_finish finishLine parts finishReason usageMetadata)
      by done.
    cbn [streamState webSearch newDriverState].
    rewrite <- runStream_app.
    rewrite processLines_trailers; [done| |done].
    cbn [streamState]. apply emitFinish_stopSent. }
  cbn [streamState]. split; [done|].
  unfold streamParts.
  fold (runStream makeToolUseId stringify (newStreamingState table)
          (concat partss ++ parts)).
  destruct (runStream_follows makeToolUseId stringify (concat partss ++ parts)
              (newStreamingState table)) as (Hm & added & He & Hr).
  destruct (emitFinish_closes (Some finishReason) usageMetadata None
              (runStream makeToolUseId stringify (newStreamingState table)
                 (concat partss ++ parts)) Hm) as (final & Hf & Hrf).
  rewrite Hf, He. cbn [events newStreamingState app].
  change (phaseOf (newStreamingState table)) with (Closed 0) in Hr.
  by rewrite runProtocol_app, Hr.
Qed.

End Driver.

(** The payloads the examples know, in place of [JSON.parse]. *)
Definition chunkFrom (table : list (string * StreamChunk)) (payload : string)
  : option StreamChunk :=
  snd <$> List.find (fun entry => String.eqb (fst entry) payload) table.

Definition exampleChunks : list (string * StreamChunk) :=
  [ ("c1", {| chunkGrounding := false;
              chunkParts := [Some (reasoningPart "plan" "r1")];
              chunkFinishReason := None; chunkUsage := None |});
    ("c2", {| chunkGrounding := false;
              chunkParts := [Some (textPart "Hel" None); Some (textPart "lo" None)];
              chunkFinishReason := Some "STOP"; chunkUsage := None |}) ].

(** The web-search mode of the examples, which none of them enters. *)
Definition noWebSearch (_ : StreamChunk) (s : StreamingState * unit)
  : StreamingState * unit := s.

(** Two chunks and the end marker, read in three pieces that cut the lines. *)
Definition exampleReads : list string :=
  [ "data: c1" +:+ LF +:+ LF +:+ "da";
    "ta: c2" +:+ LF;
    LF +:+ "data: [DONE]" +:+ LF ].

Lemma stream_is_its_parts_in_a_row_witness :
  events (streamState unit
            (handleStreamingResponse (DriverState unit)
               (processSSELine countedToolUseId stringifyNothing
                  (chunkFrom exampleChunks) unit noWebSearch)
               exampleReads (newDriverState unit ∅ tt)))
  = events (streamParts countedToolUseId stringifyNothing
              (concat [[reasoningPart "plan" "r1"]; []]
               ++ [textPart "Hel" None; textPart "lo" None])
              (Some "STOP") None ∅)
  /\ runProtocol (Closed 0)
       (events (streamState unit
                  (handleStreamingResponse (DriverState unit)
                     (processSSELine countedToolUseId stringifyNothing
                        (chunkFrom exampleChunks) unit noWebSearch)
                     exampleReads (newDriverState unit ∅ tt))))
     = Some Stopped.
Proof.
  apply (stream_is_its_parts_in_a_row countedToolUseId stringifyNothing
           (chunkFrom exampleChunks) unit noWebSearch exampleReads
           ["data: c1"; ""] [""; "data: [DONE]"; ""] "data: c2"
           [[reasoningPart "plan" "r1"]; []]
           [textPart "Hel" None; textPart "lo" None] "STOP" None ∅ tt).
  - vm_compute. reflexivity.
  - vm_compute. reflexivity.
  - vm_compute. reflexivity.
  - vm_compute. reflexivity.
Defined.

(** The end marker alone does not end the blocks: a stream whose chunks
    carry no [finishReason] gets its [message_stop] while a block is open. *)
Example done_without_finish_leaves_block_open :
  events (streamState unit
            (handleStreamingResponse (DriverState unit)
               (processSSELine countedToolUseId stringifyNothing
                  (chunkFrom exampleChunks) unit noWebSearch)
               ["data: c1" +:+ LF +:+ "data: [DONE]" +:+ LF] (newDriverState unit ∅ tt)))
  = [ ContentBlockStart 0 (CBThinking "" (Some ""));
      ContentBlockDelta 0 (ThinkingDelta "plan");
      MessageStop ].
Proof. vm_compute. reflexivity. Qed.

End StreamingOut.
